(* ===== verification/_CoqProject ===== *)
-Q . S2P
Prelude.v
Channels.v
Bytes.v
Host.v
NonceFilter.v
Protocol.v
Crypto.v
Clock.v
Noise.v
Session.v
PeerHandshake.v
Monitor.v
Peer.v
PeerTypes.v
Device.v
Tunnel.v
Queues.v
Online.v
Lifecycle.v
Udp.v
Framed.v
Derp.v
DerpConn.v
Frp.v
FrpConn.v
Abi.v
TunIf.v
TunOs.v
Ffi.v
Nat.v
Snowflake.v
Secret.v
Headlink.v
Vlinkd.v
Relay.v
Daemon.v
Start.v
Connector.v
Join.v
Serve.v
Schema.v
Inbox.v
Mesh.v
Main.v
