(* ===== verification/Prelude.v ===== *)
(** * vlink: a verification development

    vlink is a mesh VPN: a WireGuard-compatible user-space tunnel (vlink-tun), relay clients
    that carry its packets when peers cannot reach each other (derp/tailscale-derp,
    derp/frp-client), a registration server that gives peers their addresses and tells them
    about each other (headlink), and the daemon that runs a tunnel from the server's
    configuration (vlinkd). This library models these parts as executable functions and
    proves what makes them correct, or exactly how they are not.

    ** The parts and the files that model them

    Shared by all: [Prelude] (results, integers at their width, options and lists, tactics and
    hints), and [Channels]: what tokio promises of bounded channels, broadcasts and watches, as
    the classes [Mpsc], [Broadcast] and [Watch] with their laws and an instance of each.

    vlink-tun/src, bottom up:
    - [Bytes]: byte strings, slices that panic out of range, little- and big-endian integers.
    - [Host]: computations that call the operating system, as a state monad over the host's
      state with the results of [res]; a failure does not undo the calls before it.
    - [NonceFilter] (device/peer/session.rs, NonceFilter): the anti-replay window as a ring of
      1024 bits, against an abstract sliding window.
    - [Protocol] (noise/protocol.rs): the four messages and their parsers.
    - [Crypto] (noise/crypto.rs, device/cipher): key derivation and AEAD wrappers. BLAKE2s,
      HMAC, ChaCha20-Poly1305 and X25519 are crates: the class [CryptoPrims], with
      [CryptoLaws] for output sizes, decryption after encryption, Diffie-Hellman symmetry.
    - [Clock] (noise/timestamp.rs, device/time.rs): TAI64N stamps, atomic clocks; times are
      nanoseconds as [Z].
    - [Noise] (noise/handshake/*.rs): the two handshake messages as sent and as received,
      mac1, mac2 and cookies; randomness and clocks are arguments.
    - [Session] (device/peer/session.rs): sessions, the table of session indices, the four
      slots of a peer. Clones of a session share a counter and a filter: a cell in a [heap].
      Peers removed from the list keep their slots and go on using the shared table.
    - [PeerHandshake] (device/peer/handshake.rs): initiate, respond, finalize.
    - [Monitor] (device/peer/monitor.rs, device/rate_limiter.rs): when to shake hands and when
      to send keepalives.
    - [Peer] (device/peer/mod.rs, inbound.rs, handler.rs): the handlers of a peer's tasks as
      steps on the state they share, with what they write to the tunnel, the network and the
      event bus as effects.
    - [PeerTypes]: the Rust types of that state as an invariant, and that the tasks keep it.
    - [Device] (device/mod.rs, handle.rs, inbound.rs, config.rs, peer/peers.rs, peer/cidr.rs):
      the peer list and the dispatch of packets; prefix tables are the class [IpNetworkLib].
    - [Tunnel]: two devices connected through the above.
    - [Queues] (peer/peers.rs, peer/handler.rs, handle.rs): the bounded channels between the
      loops of a device and of its peers, as a step relation over [Mpsc].
    - [Lifecycle] (device/mod.rs, handle.rs, peer/peers.rs, peer/handler.rs): what stops the
      tasks of a device and of its peers - cancellation tokens, handles, dropped parts - as a
      state machine over their turns; tokens are the class [CancelTokens].
    - [Online] (peer/mod.rs): the loop that waits for a peer to come online, on a
      [Watch]; no wake-up is lost.
    - [Udp] (device/transport/udp.rs, handle.rs): binding the sockets, the receive loop and
      the dispatch loop behind it; socket calls are the class [UdpHost].
    - [TunIf] (tun/mod.rs, tun/unix, tun/linux, tun/macos/tun.rs, tun/windows, router): the
      trait [Tun] as a class, its Linux and wintun instances byte by byte, and [TunLaws], what
      a device needs of an interface. [TunOs]: macOS, the TAP adapter, the Windows enum and
      UTF-16 text. [Ffi] (tun/windows/ffi.rs): the wrappers of the Windows API, which [TunOs]
      is given.

    The relays:
    - [Framed]: the read loop of a framed stream, and the class [StreamDecoder] of what a
      decoder promises so that the items do not depend on how the stream is cut.
    - [DerpConn] (derp/tailscale-derp/src: ssl.rs, derp_utils.rs, derp_client.rs): the streams
      and connectors under each combination of features, the upgrade request, and a connection
      as a state machine of its reader and its sender.
    - [Derp] (derp/tailscale-derp/src: derp_codec.rs, derp_client.rs) and [Frp]
      (derp/frp-client/src: frp_codec.rs, buf_crypto.rs, msg.rs, frp_control.rs,
      conn_control.rs): the two codecs, which are instances of that class, and the client
      handshakes. NaCl boxes, AES-CFB, PBKDF2, MD5, HTTP and JSON are the classes [DerpLibs]
      and [FrpLibs].
    - [FrpConn] (derp/frp-client/src: conn_control.rs, frp_control.rs, msg.rs): the task of the
      multiplexed connection with its wake-ups, the control connection's stream, the login
      without the codec, work connections and the copying between two streams.

    The control plane:
    - [Abi] (vlink-core/src/proto/pb/abi.rs, utils/network.rs): its messages, IPv4 text.
    - [Snowflake] (headlink/src/db/snowflake.rs): row identifiers.
    - [Secret] (vlink-core/src/secret.rs, base64.rs, rw_map.rs, vlinkd/src/storage.rs, the
      start of headlink/src/server.rs): keys, their signature and their storage; base64, hex,
      JSON and X25519 are the class [SecretLibs], files the class [FsHost].
    - [Headlink] (headlink/src: server.rs, network.rs, peer.rs, client.rs, client/*,
      main.rs): the server as a state machine over connections, messages and disconnections.
      [Serve] (headlink/src/client.rs, main.rs): one connection as the three futures and the
      channels it is made of, against [Headlink].
      [Schema] (headlink/src/db/entity): the declarations of the tables, and what a database
      that keeps them guarantees of the rows [Headlink] reads.
    - [Vlinkd] (vlinkd/src: connect.rs, client.rs, handler/*, network/*, relay_transport.rs,
      ext_transport_selector.rs): the client's side of it.
    - [Relay] (vlinkd/src/transport/proto/relay_transport.rs): the relay transport over
      [DerpConn]: its connections, its sender, its two kinds of task.
    - [Nat] (vlinkd/src/transport: nat2pub, forward, proto/nat_udp.rs, proto/nat_tcp.rs): port
      mappings, STUN answers, forwarders and the two NAT transports over [NatHost].
    - [Daemon] (vlink-tun/src/device/mod.rs, vlinkd/src: client.rs, network/mod.rs,
      extra_transport.rs): starting a device, the reconnect loop, the network manager.
    - [Start] (vlinkd/src/network/mod.rs): the network manager from the first connection to its
      command loop. [Connector] (vlinkd/src/client.rs, connect.rs): the client's connection
      task with its three futures and the channel between them, against the reconnect loop.
    - [Inbox] (vlinkd/src: client.rs, connect.rs, network/ctrl.rs): the server's messages on
      their way to the network manager, through a broadcast and a bounded channel.
    - [Join]: a client of [Vlinkd] and [Daemon] against the server of [Headlink], with events of
      other connections in between.
    - [Mesh]: two nodes configured by [Vlinkd] from [Headlink]'s answers, started by [Daemon],
      with the tunnel of [Tunnel] between them.
    - [Main] (vlinkd/src: main.rs, api/mod.rs, utils/iface.rs; headlink/src: main.rs,
      db/init.rs, the end of server.rs): the two programs from their command lines.

    ** What the theorems show

    - C1-C2: no counter is accepted twice; the ring implements the window, but for one slot
      that is stuck in its first turn.
    - C3: messages parse exactly from their layout. Beside it, proved and not numbered:
      transport data round-trips, and which packets panic the parser.
    - C4-C5: both ends of a handshake agree, cookie replies open. Not numbered: mac1 is
      accepted, mac2 is not what it should be, no handshake message panics its reader; stamps
      and clocks; hexadecimal keys.
    - C6-C8: what the session table holds in every reachable state, with removed peers still
      at work; counters never repeat; a handshake gives sessions that open each other's
      packets, the first and every later one.
    - C9: the whole: two nodes of a network, each configured by the server's answer, set up a
      tunnel, and what one's interface yields for the other's address comes out of the
      other's, all of it and in order. It rests on the lemmas of [Headlink], [Vlinkd],
      [Daemon], [Device] and [Tunnel].
    - C10-C13: handshake pacing over a monitor's life, at-most-once delivery to the tunnel
      over any interleaving of the tasks, type soundness of all tasks (they return, keep the
      types of their state, and send only packets that parse), every branch of a data packet.
    - C14-C15: the channels between the tasks: a keepalive on a full channel stops a peer and
      then the device; otherwise everything staged is sent, in order and within the bound.
    - C16-C17: what stops tasks: dropping a device stops none of its peers' tasks, clearing
      its peers stops all but those that wait for an offline peer.
    - C18-C20: longest-prefix routing (and what macOS and iOS write back), panics of the
      dispatcher, and two devices that connect end to end.
    - C21-C23: binding the sockets ends; one IPv6 datagram ends the dispatch; packets that
      macOS cuts short. Not numbered: a device that starts is the one configured, for any
      interface that keeps its contract (C37 rests on it).
    - C24-C27: relay streams are delivered whole in any chunks; a client connects to a relay
      once; packets cross a relay from one node to another; a lost relay connection is never
      replaced. Not numbered: a session with a relay over any order of turns, which frames
      panic.
    - C28: the frp control stream. Not numbered: its encryption; every request for a stream
      is answered at most once and in order, and when the second of two loses its wake-up
      ([streams_opened]); what a work connection copies is a prefix of what was sent.
    - C29-C30: what the NAT transports publish and on which sockets, and which of them keep
      packet boundaries. Not numbered: port mapping ends in two attempts.
    - C31-C35: the server keeps addresses unique when requests do not overlap and not when
      they do; a refused login takes a peer offline; which messages of a connection are
      handled; keys survive a restart, once their file is written. Not numbered: requests and
      their answers; the configuration a client builds ([configured_peers]); the order in
      which the database returns rows does not matter ([row_order_irrelevant]).
    - C36-C40: the composition: a registered peer joins its network whatever other clients
      do, unless there is no address for it; a node that starts is the one the server
      configured; the client has one connection at a time and does what the reconnect loop
      says; which of the server's messages reach the network manager; who is online follows
      those. Not numbered: what the two programs start, and that the second start tells the
      same key once the first has stored it.

    ** Conventions, bounds and fuel

    Rust's [Result] and panics are [res] below: a value, an error, a panic ([unwrap], a slice
    out of range, [todo!()]). Machine integers are [Z] with [wrap]. Functions that use crates
    take them as class arguments; the laws are the documented behaviour, and every theorem
    that uses them has a witness with a concrete instance. Loops that are not structural have
    fuel: the window loop of [NonceFilter.accept] gets as many turns as it makes, and the read
    loop of [Framed] three more than the bytes buffered, which [drain_all_fuel] shows is
    enough for any [StreamDecoder]; the loop of [Nat.add_port] gets two turns, which
    [add_port_loop_turns] shows are all it makes; running out is never a result. Loops that
    wait for the network take what arrives as a list, and end when it does.

    ** What is not modelled

    What calls out and nothing else: the Windows API, the bindings of wintun.dll and its
    logger, the TLS libraries, the protobuf encoding, the database engine, the HTTP server (it
    has no route), the parsing of command lines, logging, examples and tests, and code whose
    body is a [todo!()] or that is commented out. Modules that nothing includes (the frp
    command line, the transports that are not started) are left out. Timers are readings of a
    clock or turns that may happen. Handlers run to their end without
    interleaving, except where a theorem is about that: the tasks of peers interleave at
    handler granularity and at the sends and receives on their channels, the futures of the
    client's connection task, of [process_cmd] and of a relay connection at their [await]s, the server's
    configuration request is split at its database write. *)

From stdpp Require Export base tactics option list numbers gmap strings fin_maps.
From Stdlib Require Export ZArith Lia.
From Stdlib Require Export Strings.Byte.

#[global] Open Scope Z_scope.

(** ** Results of Rust code

    A Rust function returns a value, returns [Err e] through [?] or [return], or
    panics ([unwrap] on an error, a slice out of range, [todo!()]). [res E A] keeps
    the three apart; a function that cannot return [Err] is polymorphic in [E]. *)
Inductive res (E A : Type) : Type :=
| Ok (a : A)
| Err (e : E)
| Panic.
Arguments Ok {E A} a.
Arguments Err {E A} e.
Arguments Panic {E A}.

#[global] Instance res_ret {E} : MRet (res E) := fun A a => Ok a.
#[global] Instance res_bind {E} : MBind (res E) := fun A B k m =>
  match m with
  | Ok a => k a
  | Err e => Err e
  | Panic => Panic
  end.
#[global] Instance res_fmap {E} : FMap (res E) := fun A B f m =>
  match m with
  | Ok a => Ok (f a)
  | Err e => Err e
  | Panic => Panic
  end.

(** [Result::map_err]. *)
Definition map_err {E F A} (f : E -> F) (m : res E A) : res F A :=
  match m with
  | Ok a => Ok a
  | Err e => Err (f e)
  | Panic => Panic
  end.

(** [Result::unwrap] and [Option::unwrap]: the value, or a panic. *)
Definition unwrap {E F A} (m : res E A) : res F A :=
  match m with
  | Ok a => Ok a
  | _ => Panic
  end.
Definition unwrap_opt {E A} (o : option A) : res E A :=
  match o with
  | Some a => Ok a
  | None => Panic
  end.
(** [Option::ok_or]. *)
Definition ok_or {E A} (e : E) (o : option A) : res E A :=
  match o with
  | Some a => Ok a
  | None => Err e
  end.

Definition is_ok {E A} (m : res E A) : bool :=
  match m with Ok _ => true | _ => false end.

Lemma bind_Ok_inv {E A B} (m : res E A) (k : A -> res E B) b :
  (m ≫= k) = Ok b -> exists a, m = Ok a /\ k a = Ok b.
Proof. destruct m; simpl; intros; naive_solver. Qed.

Lemma is_ok_inv {E A} (m : res E A) : is_ok m = true -> exists a, m = Ok a.
Proof. destruct m; [eauto|done..]. Qed.

Lemma bind_Err_inv {E A B} (m : res E A) (k : A -> res E B) e :
  (m ≫= k) = Err e -> m = Err e \/ exists a, m = Ok a /\ k a = Err e.
Proof. destruct m; simpl; intros; naive_solver. Qed.

Lemma unwrap_Ok_inv {E F A} (m : res E A) (a : A) :
  unwrap (F := F) m = Ok a -> m = Ok a.
Proof. destruct m; simpl; congruence. Qed.

Lemma map_err_Ok_inv {E F A} (f : E -> F) (m : res E A) a :
  map_err f m = Ok a -> m = Ok a.
Proof. destruct m; simpl; congruence. Qed.

(** ** Machine integers

    A [uN] value is a [Z] in [[0, 2^N)]; arithmetic that can leave the range is
    followed by [wrap N]. *)
Definition wrap (w z : Z) : Z := z mod 2 ^ w.
Definition in_u (w z : Z) : Prop := 0 <= z < 2 ^ w.
#[global] Instance in_u_dec w z : Decision (in_u w z).
Proof. unfold in_u; apply _. Defined.

Abbreviation u64_max := (2 ^ 64 - 1)%Z.

Lemma wrap_in_u w z : 0 <= w -> in_u w (wrap w z).
Proof. intros; unfold in_u, wrap. apply Z.mod_pos_bound. lia. Qed.
Lemma wrap_small w z : in_u w z -> wrap w z = z.
Proof. unfold in_u, wrap; intros. by apply Z.mod_small. Qed.

(** A tuple of conjunctions is split and the arithmetic closed. *)
Ltac split_lia := repeat split; try lia.
(** [lia] with [/] and [mod] by constants unfolded. *)
Ltac dlia := Z.to_euclidean_division_equations; lia.
(** Destruct every [Z] comparison in sight and keep the propositional fact. *)
Ltac zcases :=
  repeat match goal with
  | |- context [?a <? ?b] => destruct (Z.ltb_spec a b)
  | |- context [?a <=? ?b] => destruct (Z.leb_spec a b)
  | |- context [?a =? ?b] => destruct (Z.eqb_spec a b)
  end.
Ltac zcases_in H :=
  repeat match type of H with
  | context [?a <? ?b] => destruct (Z.ltb_spec a b)
  | context [?a <=? ?b] => destruct (Z.leb_spec a b)
  | context [?a =? ?b] => destruct (Z.eqb_spec a b)
  end.
(** Peel one [bind] off a computation known to return [Ok]. *)
Ltac bind_inv H :=
  let a := fresh "a" in let H1 := fresh H in
  apply bind_Ok_inv in H; destruct H as (a & H1 & H).

(** ** Finite sets *)
Lemma size_list_to_set_le `{Countable A} (l : list A) :
  (size (list_to_set l : gset A) <= length l)%nat.
Proof.
  induction l as [|x l IH]; [done|]. rewrite list_to_set_cons, size_union_alt, size_singleton.
  cbn [length]. etrans; [|apply le_n_S, IH]. apply le_n_S, subseteq_size. set_solver.
Qed.

(** ** Decidable and countable bytes *)
#[global] Instance byte_eq_dec : EqDecision byte.
Proof. intros a b. destruct (Byte.eqb a b) eqn:E.
  - left. by apply Byte.byte_dec_bl.
  - right. intros ->. by rewrite (Byte.byte_dec_lb eq_refl) in E.
Defined.
#[global] Program Instance byte_countable : Countable byte :=
  inj_countable Byte.to_N Byte.of_N _.
Next Obligation. intros b. apply Byte.of_to_N. Qed.

Create HintDb vlink discriminated.
#[export] Hint Resolve wrap_in_u : vlink.
