(* ===== verification/Channels.v ===== *)
(** * The channels of tokio

    The program's tasks talk over the channels of tokio::sync: bounded queues ([Mpsc]),
    broadcasts that drop the oldest message when a receiver is too slow ([Broadcast]), and
    watched values ([Watch]). Each is a class of operations with its documented behaviour as
    laws; queues and broadcasts have an instance on lists. *)

From S2P Require Import Prelude.

(** [mpsc]: a bounded queue; [try_send] is [None] while the sender has to wait. Both ends live
    as long as what uses the laws, so a channel is never closed. *)
Class Mpsc := {
  chan : Type -> Type;
  channel : forall {A}, nat -> chan A;
  contents : forall {A}, chan A -> list A;
  capacity : forall {A}, chan A -> nat;
  try_send : forall {A}, chan A -> A -> option (chan A);
  recv : forall {A}, chan A -> option (A * chan A);
}.
Class MpscLaws `{Mpsc} : Prop := {
  channel_empty : forall A n, contents (channel (A := A) n) = [] /\ capacity (channel (A := A) n) = n;
  try_send_full : forall A (c : chan A) a, try_send c a = None <-> (capacity c <= length (contents c))%nat;
  try_send_Some : forall A (c : chan A) a c', try_send c a = Some c' ->
    contents c' = contents c ++ [a] /\ capacity c' = capacity c;
  recv_empty : forall A (c : chan A), recv c = None <-> contents c = [];
  recv_Some : forall A (c : chan A) a c', recv c = Some (a, c') ->
    contents c = a :: contents c' /\ capacity c' = capacity c;
}.

(** [broadcast]: [bsent] is everything sent so far, [bpos] how much of it lies behind a
    receiver. The capacity may be more than was asked for. A receiver that is more than the
    capacity behind is told so, and goes on with the oldest message that is retained. *)
Class Broadcast := {
  btx : Type -> Type;
  brx : Type -> Type;
  bchannel : forall {A}, nat -> btx A * brx A;
  bsend : forall {A}, btx A -> A -> btx A;
  subscribe : forall {A}, btx A -> brx A;
  brecv : forall {A}, btx A -> brx A -> option (option A * brx A);
  bsent : forall {A}, btx A -> list A;
  bcapacity : forall {A}, btx A -> nat;
  bpos : forall {A}, brx A -> nat;
}.
Class BroadcastLaws `{Broadcast} : Prop := {
  bchannel_new A n : bsent (bchannel (A := A) n).1 = [] /\ (n <= bcapacity (bchannel (A := A) n).1)%nat /\
    bpos (bchannel (A := A) n).2 = 0%nat;
  bsend_sent A (c : btx A) a : bsent (bsend c a) = bsent c ++ [a] /\ bcapacity (bsend c a) = bcapacity c;
  subscribe_pos A (c : btx A) : bpos (subscribe c) = length (bsent c);
  brecv_empty A (c : btx A) r : brecv c r = None <-> (length (bsent c) <= bpos r)%nat;
  brecv_lagged A (c : btx A) r r' : brecv c r = Some (None, r') ->
    (bcapacity c < length (bsent c) - bpos r)%nat /\ bpos r' = (length (bsent c) - bcapacity c)%nat;
  brecv_item A (c : btx A) r a r' : brecv c r = Some (Some a, r') ->
    bsent c !! bpos r = Some a /\ bpos r' = S (bpos r) /\ (length (bsent c) - bpos r <= bcapacity c)%nat;
}.

(** [watch]: the last value sent with its number, and receivers that know which
    number they have seen. [changed] is [None] while it waits. The sender lives as long as the
    peer, so it is never an error. *)
Class Watch := {
  wtx : Type -> Type;
  wrx : Type -> Type;
  watch_channel : forall {A}, A -> wtx A * wrx A;
  wsend : forall {A}, wtx A -> A -> wtx A;
  wborrow : forall {A}, wtx A -> wrx A -> A;
  changed : forall {A}, wtx A -> wrx A -> option (wrx A);
  wversion : forall {A}, wtx A -> nat;
  wseen : forall {A}, wrx A -> nat;
}.
Class WatchLaws `{Watch} : Prop := {
  watch_channel_new A (v : A) : wversion (watch_channel v).1 = 0%nat /\ wseen (watch_channel v).2 = 0%nat /\
    forall rx, wborrow (watch_channel v).1 rx = v;
  wsend_spec A (w : wtx A) v : wversion (wsend w v) = S (wversion w) /\ forall rx, wborrow (wsend w v) rx = v;
  wborrow_same A (w : wtx A) r1 r2 : wborrow w r1 = wborrow w r2;
  changed_None A (w : wtx A) rx : changed w rx = None <-> wseen rx = wversion w;
  changed_Some A (w : wtx A) rx rx' : changed w rx = Some rx' -> wseen rx' = wversion w;
}.

(** ** A queue

    Its capacity and its messages, oldest first. *)
Module ListChan.
#[export] Instance lib : Mpsc := {|
  chan A := (nat * list A)%type;
  channel A n := (n, []);
  contents A c := c.2;
  capacity A c := c.1;
  try_send A c a := if decide (c.1 <= length c.2)%nat then None else Some (c.1, c.2 ++ [a]);
  recv A c := match c.2 with [] => None | a :: l => Some (a, (c.1, l)) end;
|}.
#[export] Instance laws : MpscLaws.
Proof.
  split; cbn.
  - done.
  - intros A c a. by case_decide.
  - intros A c a c'. case_decide; [done|]. by intros [= <-].
  - intros A [n l]. by destruct l.
  - intros A [n l] a c'. cbn. destruct l; [done|]. by intros [= <- <-].
Qed.
End ListChan.

(** ** A broadcast

    Everything sent, with the capacity; a receiver is its position. *)
Module ListBroadcast.
#[export] Instance lib : Broadcast := {|
  btx A := (list A * nat)%type;
  brx A := nat;
  bchannel A n := (([], n), 0%nat);
  bsend A c a := (c.1 ++ [a], c.2);
  subscribe A c := length c.1;
  brecv A c r :=
    if (length c.1 <=? r)%nat then None
    else if (c.2 <? length c.1 - r)%nat then Some (None, (length c.1 - c.2)%nat)
    else (fun a => (Some a, S r)) <$> c.1 !! r;
  bsent A c := c.1;
  bcapacity A c := c.2;
  bpos A r := r;
|}.
#[export] Instance laws : BroadcastLaws.
Proof.
  split; try done; cbn [bsent bcapacity bpos brecv lib]; intros A c r.
  - destruct (Nat.leb_spec (length c.1) r); [by split|]. split; [|lia]. case_match; [done|].
    destruct (lookup_lt_is_Some_2 c.1 r) as [a ->]; [lia|done].
  - intros r'. destruct (Nat.leb_spec (length c.1) r); [done|]. destruct (Nat.ltb_spec c.2 (length c.1 - r)); [by intros [= <-]|].
    by intros (x & _ & [=])%fmap_Some.
  - intros a r'. destruct (Nat.leb_spec (length c.1) r); [done|]. destruct (Nat.ltb_spec c.2 (length c.1 - r)); [done|].
    by intros (x & -> & [= -> ->])%fmap_Some.
Qed.
End ListBroadcast.
