(* ===== verification/Bytes.v ===== *)
(** * Byte buffers

    [Vec<u8>], [&[u8]] and [[u8; N]] are [list byte]; a [u8] read as a number is
    [u8 b]. This file gives the slice and fixed-width integer operations of the
    Rust standard library the modelled code uses ([&x[a..b]], [x[i]], [split_at],
    [to_le_bytes], [from_be_bytes], ...), with a panic where Rust panics, and the
    encode/decode lemmas the codecs share. *)

From S2P Require Import Prelude.

Abbreviation bytes := (list byte).

Definition u8 (b : byte) : Z := Z.of_N (Byte.to_N b).
(** [z as u8]. *)
Definition b8 (z : Z) : byte :=
  match Byte.of_N (Z.to_N (z mod 256)) with
  | Some b => b
  | None => x00
  end.

(** [&l[a..b]], [&l[a..]], [l[i]] and [l.split_at(n)]. *)
Definition slice {E} (a b : nat) (l : bytes) : res E bytes :=
  if decide (a <= b /\ b <= length l)%nat then Ok (take (b - a) (drop a l)) else Panic.
Definition slice_from {E} (a : nat) (l : bytes) : res E bytes :=
  if decide (a <= length l)%nat then Ok (drop a l) else Panic.
Definition index {E} (i : nat) (l : bytes) : res E byte :=
  unwrap_opt (l !! i).
Definition split_at {E} (n : nat) (l : bytes) : res E (bytes * bytes) :=
  if decide (n <= length l)%nat then Ok (take n l, drop n l) else Panic.

(** [uN::to_le_bytes], [uN::from_le_bytes] and the big-endian pair; [n] is the
    width in bytes. *)
Fixpoint le_bytes (n : nat) (z : Z) : bytes :=
  match n with
  | O => []
  | S n => b8 z :: le_bytes n (z / 256)
  end.
Fixpoint le_val (l : bytes) : Z :=
  match l with
  | [] => 0
  | b :: l => u8 b + 256 * le_val l
  end.
Definition be_bytes (n : nat) (z : Z) : bytes := reverse (le_bytes n z).
Definition be_val (l : bytes) : Z := le_val (reverse l).

(** ** Lemmas *)

Lemma u8_range b : 0 <= u8 b < 256.
Proof. unfold u8. pose proof (Byte.to_N_bounded b). lia. Qed.

Lemma u8_b8 z : u8 (b8 z) = z mod 256.
Proof.
  unfold u8, b8. pose proof (Z.mod_pos_bound z 256 ltac:(lia)).
  destruct (Byte.of_N (Z.to_N (z mod 256))) as [b|] eqn:E.
  - apply Byte.to_of_N in E. rewrite E. lia.
  - apply Byte.of_N_None_iff in E. lia.
Qed.

Lemma u8_inj b c : u8 b = u8 c -> b = c.
Proof.
  unfold u8. intros H. apply N2Z.inj in H.
  apply (f_equal Byte.of_N) in H. rewrite !Byte.of_to_N in H. congruence.
Qed.

Lemma b8_u8 b : b8 (u8 b) = b.
Proof. apply u8_inj. rewrite u8_b8. apply Z.mod_small, u8_range. Qed.

Lemma b8_add_mul b z : b8 (u8 b + 256 * z) = b.
Proof.
  apply u8_inj. rewrite u8_b8, Z.mul_comm, Z.mod_add by lia.
  apply Z.mod_small, u8_range.
Qed.

Lemma length_le_bytes n z : length (le_bytes n z) = n.
Proof. revert z; induction n; simpl; auto. Qed.
Lemma length_be_bytes n z : length (be_bytes n z) = n.
Proof. unfold be_bytes. by rewrite length_reverse, length_le_bytes. Qed.

Lemma le_val_range l : 0 <= le_val l < 2 ^ (8 * Z.of_nat (length l)).
Proof.
  induction l as [|b l IH]; simpl length; simpl le_val; [simpl; lia|].
  replace (8 * Z.of_nat (S (length l))) with (8 + 8 * Z.of_nat (length l)) by lia.
  rewrite Z.pow_add_r by lia. pose proof (u8_range b). lia.
Qed.
Lemma be_val_range l : 0 <= be_val l < 2 ^ (8 * Z.of_nat (length l)).
Proof. unfold be_val. rewrite <- (length_reverse l). apply le_val_range. Qed.

Lemma le_val_bytes n z : le_val (le_bytes n z) = z mod 2 ^ (8 * Z.of_nat n).
Proof.
  revert z; induction n as [|n IH]; intros z; simpl le_bytes; simpl le_val.
  - simpl. by rewrite Z.mod_1_r.
  - rewrite IH, u8_b8.
    replace (8 * Z.of_nat (S n)) with (8 + 8 * Z.of_nat n) by lia.
    rewrite Z.pow_add_r by lia. change (2 ^ 8) with 256.
    by rewrite Z.rem_mul_r by lia.
Qed.

Lemma le_bytes_val l : le_bytes (length l) (le_val l) = l.
Proof.
  induction l as [|b l IH]; simpl; [done|].
  rewrite b8_add_mul. f_equal.
  rewrite Z.mul_comm, Z.div_add by lia.
  by rewrite (Z.div_small (u8 b)) by apply u8_range.
Qed.

Lemma le_val_bytes_small n z :
  in_u (8 * Z.of_nat n) z -> le_val (le_bytes n z) = z.
Proof. intros H. rewrite le_val_bytes. apply Z.mod_small, H. Qed.
Lemma be_val_bytes_small n z :
  in_u (8 * Z.of_nat n) z -> be_val (be_bytes n z) = z.
Proof. intros. unfold be_val, be_bytes. rewrite reverse_involutive. by apply le_val_bytes_small. Qed.
Lemma be_bytes_val l : be_bytes (length l) (be_val l) = l.
Proof.
  unfold be_bytes, be_val. rewrite <- (length_reverse l), le_bytes_val.
  apply reverse_involutive.
Qed.

(** *** Order

    [Ord] on byte arrays is lexicographic, which for arrays of one length is the order of
    the big-endian values. *)
Fixpoint bytes_cmp (a b : bytes) : comparison :=
  match a, b with
  | [], [] => Eq
  | [], _ => Lt
  | _, [] => Gt
  | x :: a, y :: b =>
      match u8 x ?= u8 y with
      | Eq => bytes_cmp a b
      | c => c
      end
  end.

Lemma le_val_app a b : le_val (a ++ b) = le_val a + 2 ^ (8 * Z.of_nat (length a)) * le_val b.
Proof.
  induction a as [|x a IH]; [cbn [app le_val length]; lia|].
  cbn [app le_val length]. rewrite IH.
  replace (8 * Z.of_nat (S (length a))) with (8 + 8 * Z.of_nat (length a)) by lia.
  rewrite Z.pow_add_r by lia. change (2 ^ 8) with 256. ring.
Qed.
Lemma be_val_app a b : be_val (a ++ b) = be_val a * 2 ^ (8 * Z.of_nat (length b)) + be_val b.
Proof. unfold be_val. rewrite reverse_app, le_val_app, length_reverse. ring. Qed.
Lemma be_val_cons x b : be_val (x :: b) = u8 x * 2 ^ (8 * Z.of_nat (length b)) + be_val b.
Proof.
  change (x :: b) with ([x] ++ b). rewrite be_val_app. f_equal. f_equal.
  unfold be_val. simpl. lia.
Qed.

Lemma bytes_cmp_be_val a : forall b,
  length a = length b -> bytes_cmp a b = (be_val a ?= be_val b).
Proof.
  induction a as [|x a IH]; intros [|y b] Hl; try done.
  injection Hl as Hl. cbn [bytes_cmp]. rewrite !be_val_cons, Hl, (IH b) by done.
  pose proof (be_val_range a) as Ha. pose proof (be_val_range b) as Hb. rewrite Hl in Ha.
  set (p := 2 ^ (8 * Z.of_nat (length b))) in *.
  destruct (Z.compare_spec (u8 x) (u8 y)) as [->|?|?].
  - by rewrite Z.add_compare_mono_l.
  - symmetry. apply Z.compare_lt_iff. nia.
  - symmetry. apply Z.compare_gt_iff. nia.
Qed.

(** *** Slices *)

Lemma slice_Ok {E} a b l :
  (a <= b)%nat -> (b <= length l)%nat ->
  slice (E := E) a b l = Ok (take (b - a) (drop a l)).
Proof. intros. unfold slice. rewrite decide_True by lia. done. Qed.

Lemma slice_not_Err {E} a b l (e : E) : slice a b l <> Err e.
Proof. unfold slice. by case_decide. Qed.
Lemma slice_from_not_Err {E} a l (e : E) : slice_from a l <> Err e.
Proof. unfold slice_from. by case_decide. Qed.

Lemma slice_length {E} a b l s :
  slice (E := E) a b l = Ok s -> length s = (b - a)%nat.
Proof.
  unfold slice. case_decide; [|done]. intros [= <-].
  rewrite length_take, length_drop. lia.
Qed.

Lemma slice_from_Ok {E} a l :
  (a <= length l)%nat -> slice_from (E := E) a l = Ok (drop a l).
Proof. intros. unfold slice_from. by rewrite decide_True by lia. Qed.

(** A slice of an appended buffer, addressed from the front. *)
Lemma slice_app_l {E} a b (l k : bytes) :
  (b <= length l)%nat -> slice (E := E) a b (l ++ k) = slice a b l.
Proof.
  intros Hb. unfold slice. rewrite length_app.
  destruct (decide (a <= b /\ b <= length l)%nat) as [[? ?]|?].
  - rewrite decide_True by lia. f_equal.
    rewrite drop_app_le by lia. rewrite take_app_le; [done|]. rewrite length_drop; lia.
  - rewrite decide_False by lia. done.
Qed.

Lemma slice_app_r {E} a b (l k : bytes) :
  (length l <= a)%nat -> (a <= b)%nat ->
  slice (E := E) a b (l ++ k) = slice (a - length l) (b - length l) k.
Proof.
  intros Ha Hab. unfold slice. rewrite length_app.
  destruct (decide (a <= b /\ b <= length l + length k)%nat) as [[? ?]|?].
  - rewrite decide_True by lia. f_equal.
    rewrite drop_app_ge by lia. f_equal. lia.
  - rewrite decide_False by lia. done.
Qed.

Lemma slice_all {E} n l : n = length l -> slice (E := E) 0 n l = Ok l.
Proof.
  intros ->. rewrite slice_Ok by lia. rewrite Nat.sub_0_r, drop_0, firstn_all. done.
Qed.

(** Reading a field out of a buffer that is a concatenation of pieces of known length:
    skip a piece, or stop at it. *)
Lemma slice_skip {E} n a b (l k : bytes) :
  length l = n -> (n <= a)%nat -> (a <= b)%nat ->
  slice (E := E) a b (l ++ k) = slice (a - n) (b - n) k.
Proof. intros <- ??. by apply slice_app_r. Qed.
Lemma slice_here {E} b (l k : bytes) :
  length l = b -> slice (E := E) 0 b (l ++ k) = Ok l.
Proof. intros <-. rewrite slice_app_l by lia. by apply slice_all. Qed.

Lemma take_take_drop {A} (l : list A) a b :
  (a <= b)%nat -> take b l = take a l ++ take (b - a) (drop a l).
Proof.
  intros. rewrite take_drop_commute. replace (a + (b - a))%nat with b by lia.
  rewrite <- (take_drop a (take b l)) at 1. f_equal. rewrite take_take. f_equal. lia.
Qed.

Create Rewrite HintDb len.
#[export] Hint Rewrite length_le_bytes length_be_bytes @length_app @length_take @length_drop
  @length_cons : len.
(** Compute buffer lengths and close the arithmetic. *)
Ltac len := autorewrite with len in *; simpl length in *; try lia.

(** [known_len] finds the length of a piece; [read_field] evaluates one [slice]. *)
Ltac known_len := first [eassumption | apply length_le_bytes | apply length_be_bytes | vm_compute; reflexivity].
Ltac read_field :=
  repeat (erewrite slice_skip; [|known_len|lia|lia]; cbn [Nat.sub]);
  first [rewrite slice_here by known_len | rewrite slice_all by (symmetry; known_len)];
  cbn [mbind res_bind].

#[global] Arguments le_bytes : simpl never.
#[global] Arguments be_bytes : simpl never.
#[global] Arguments slice : simpl never.
