(* ===== verification/Host.v ===== *)
(** * Computations on the operating system

    Code that makes system calls threads the state [W] of the host: [io W E A] takes it and
    returns the new state with the result. A call that fails or a panic does not undo what the
    calls before it did to the host. System calls themselves return a value or an error and
    cannot panic: [sys] embeds them. *)

From S2P Require Import Prelude.

Definition io (W E A : Type) : Type := W -> W * res E A.

#[global] Instance io_ret {W E} : MRet (io W E) := fun A a w => (w, Ok a).
#[global] Instance io_bind {W E} : MBind (io W E) := fun A B k m w =>
  match m w with
  | (w, Ok a) => k a w
  | (w, Err e) => (w, Err e)
  | (w, Panic) => (w, Panic)
  end.

Definition sys {W E A} (c : W -> W * (E + A)) : io W E A := fun w =>
  let '(w, r) := c w in (w, match r with inl e => Err e | inr a => Ok a end).
(** A pure result, [?] on it included. *)
Definition pure_res {W E A} (r : res E A) : io W E A := fun w => (w, r).
(** [Result::map_err], or the conversion of [?]. *)
Definition io_map_err {W E F A} (f : E -> F) (m : io W E A) : io W F A := fun w =>
  let '(w, r) := m w in (w, map_err f r).
(** [Result::unwrap]. *)
Definition io_unwrap {W E F A} (m : io W E A) : io W F A := fun w =>
  let '(w, r) := m w in (w, unwrap r).
(** [match m { Ok(a) => .., Err(e) => .. }]. *)
Definition try {W E F A} (m : io W E A) : io W F (E + A) := fun w =>
  match m w with
  | (w, Ok a) => (w, Ok (inr a))
  | (w, Err e) => (w, Ok (inl e))
  | (w, Panic) => (w, Panic)
  end.

Lemma io_bind_Ok_inv {W E A B} (m : io W E A) (k : A -> io W E B) w w' b :
  (m ≫= k) w = (w', Ok b) -> exists a w1, m w = (w1, Ok a) /\ k a w1 = (w', Ok b).
Proof.
  unfold mbind, io_bind. destruct (m w) as [w1 [a| |]]; intros; simplify_eq; eauto.
Qed.
Lemma sys_Ok_inv {W E A} (c : W -> W * (E + A)) w w' a : sys c w = (w', Ok a) -> c w = (w', inr a).
Proof. unfold sys. destruct (c w) as [? []]; intros; by simplify_eq. Qed.
Lemma sys_no_panic {W E A} (c : W -> W * (E + A)) w w' : sys c w <> (w', Panic).
Proof. unfold sys. destruct (c w) as [? []]; congruence. Qed.

(** A computation that cannot panic, and what is closed under composition. *)
Definition panic_free {W E A} (m : io W E A) : Prop := forall w w', m w <> (w', Panic).

Lemma panic_free_sys {W E A} (c : W -> W * (E + A)) : panic_free (sys c).
Proof. intros w w'. apply sys_no_panic. Qed.
Lemma panic_free_bind {W E A B} (m : io W E A) (k : A -> io W E B) :
  panic_free m -> (forall a, panic_free (k a)) -> panic_free (m ≫= k).
Proof.
  intros Hm Hk w w'. unfold mbind, io_bind. destruct (m w) as [w1 [a|e|]] eqn:E1; [apply Hk|congruence|].
  by destruct (Hm w w1).
Qed.
Lemma panic_free_ret {W E A} (a : A) : panic_free (mret a : io W E A).
Proof. intros w w'. unfold mret, io_ret. congruence. Qed.
Lemma panic_free_try {W E F A} (m : io W E A) : panic_free m -> panic_free (try m : io W F (E + A)).
Proof.
  intros Hm w w'. unfold try. destruct (m w) as [w1 [a|e|]] eqn:E1; [congruence..|].
  by destruct (Hm w w1).
Qed.
#[export] Hint Resolve panic_free_sys panic_free_bind panic_free_ret panic_free_try : vlink.

(** Peel one bind off a computation on the host known to return [Ok]. *)
Ltac io_inv H :=
  let a := fresh "a" in let w := fresh "w" in let H1 := fresh H in
  apply io_bind_Ok_inv in H; destruct H as (a & w & H1 & H).
Tactic Notation "io_step" hyp(H) "as" ident(a) ident(w) ident(H1) :=
  apply io_bind_Ok_inv in H; destruct H as (a & w & H1 & H).
