(* ===== verification/NonceFilter.v ===== *)
(** * The anti-replay window (vlink-tun/src/device/peer/session.rs, [NonceFilter])

    A session remembers which transport counters it has accepted in a ring of
    [MAX_REPLAY_SIZE] bits. The first part translates the Rust code; the second
    gives the abstract window it is meant to implement (a set of accepted counters
    and the next expected one), the refinement relation between the two, and what
    follows for any sequence of received counters. *)

From S2P Require Import Prelude.

Module NonceFilter.

(** [1 << 10]; the bitmap has [MAX_REPLAY_SIZE / 64] words of 64 bits. *)
Definition MAX_REPLAY_SIZE : Z := Z.shiftl 1 10.
Definition WORDS : nat := Z.to_nat (MAX_REPLAY_SIZE / 64).

(** [bitmap: ([u64; 16], usize)] is kept as the two fields [bitmap] and [next_idx]. *)
Record NonceFilter := mkNonceFilter {
  next : Z;
  accepted : Z;
  bitmap : list Z;
  next_idx : Z;
}.

Definition new : NonceFilter :=
  {| next := 0; accepted := 0; bitmap := replicate WORDS 0; next_idx := 0 |}.

Definition with_bitmap (f : NonceFilter) (bm : list Z) : NonceFilter :=
  {| next := next f; accepted := accepted f; bitmap := bm; next_idx := next_idx f |}.

(** The word and the bit that hold counter [i]; [usize] and [u64] arithmetic wraps. *)
Definition bitmap_index (f : NonceFilter) (i : Z) : Z * Z :=
  let offset := wrap 64 (next f - i) in
  let i := if offset <=? next_idx f then next_idx f - offset
           else wrap 64 (MAX_REPLAY_SIZE + next_idx f - offset) in
  let word_idx := i / 64 in
  let bit_idx := i - word_idx * 64 in
  (word_idx, bit_idx).

(** An index past the array panics. *)
Definition word {E} (f : NonceFilter) (word_idx : Z) : res E Z :=
  unwrap_opt (bitmap f !! Z.to_nat word_idx).

Definition is_set {E} (f : NonceFilter) (i : Z) : res E bool :=
  let '(word_idx, bit_idx) := bitmap_index f i in
  w ← word f word_idx;
  Ok (negb (Z.land w (Z.shiftl 1 bit_idx) =? 0)).

Definition set {E} (f : NonceFilter) (i : Z) : res E NonceFilter :=
  let '(word_idx, bit_idx) := bitmap_index f i in
  w ← word f word_idx;
  Ok (with_bitmap f (<[Z.to_nat word_idx := Z.lor w (Z.shiftl 1 bit_idx)]> (bitmap f))).

Definition unset {E} (f : NonceFilter) (i : Z) : res E NonceFilter :=
  let '(word_idx, bit_idx) := bitmap_index f i in
  w ← word f word_idx;
  Ok (with_bitmap f
        (<[Z.to_nat word_idx := Z.land w (wrap 64 (Z.lnot (Z.shiftl 1 bit_idx)))]> (bitmap f))).

Definition can_accept {E} (f : NonceFilter) (counter : Z) : res E bool :=
  if next f <=? counter then Ok true
  else if wrap 64 (counter + MAX_REPLAY_SIZE) <=? next f then Ok false
  else b ← is_set f counter; Ok (negb b).

Definition advance {E} (f : NonceFilter) : res E NonceFilter :=
  f ← (if MAX_REPLAY_SIZE <? next f then unset f (next f - MAX_REPLAY_SIZE) else Ok f);
  Ok {| next := wrap 64 (next f + 1);
        accepted := accepted f;
        bitmap := bitmap f;
        next_idx := (next_idx f + 1) mod MAX_REPLAY_SIZE |}.

(** [while self.next < counter { self.advance() }]; running out of [fuel] is no
    result at all, and [accept] starts the loop with as much fuel as iterations. *)
Fixpoint advance_to {E} (fuel : nat) (f : NonceFilter) (counter : Z) : res E NonceFilter :=
  if next f <? counter then
    match fuel with
    | O => Panic
    | S fuel => f ← advance f; advance_to fuel f counter
    end
  else Ok f.

Definition accept {E} (f : NonceFilter) (counter : Z) : res E NonceFilter :=
  let f := {| next := next f; accepted := wrap 64 (accepted f + 1);
              bitmap := bitmap f; next_idx := next_idx f |} in
  if counter <? next f then set f counter
  else if (next f <? counter) && (MAX_REPLAY_SIZE <=? wrap 64 (counter - next f)) then
    set {| next := wrap 64 (counter + 1); accepted := accepted f;
           bitmap := replicate WORDS 0; next_idx := 0 |} counter
  else
    f ← advance_to (Z.to_nat (counter - next f)) f counter;
    f ← advance f;
    set f counter.

(** ** The unit test of the source, evaluated *)

(** The three blocks of [test_nonce_filter]: every counter of [cs] is acceptable,
    and no longer after it was accepted; then none of [old] is. *)
Fixpoint fresh_then_stale (f : NonceFilter) (cs : list Z) : option NonceFilter :=
  match cs with
  | [] => Some f
  | c :: cs =>
      match can_accept (E := unit) f c, accept (E := unit) f c with
      | Ok true, Ok f' =>
          match can_accept (E := unit) f' c with
          | Ok false => fresh_then_stale f' cs
          | _ => None
          end
      | _, _ => None
      end
  end.
Definition all_stale (f : NonceFilter) (old : list Z) : bool :=
  forallb (fun c => match can_accept (E := unit) f c with Ok false => true | _ => false end) old.
Definition zrange (a n : nat) : list Z := Z.of_nat <$> seq a n.

Example test_first_block :
  (fun f => (accepted f, bitmap f)) <$> fresh_then_stale new (zrange 0 1024)
  = Some (1024, replicate 16 u64_max).
Proof. vm_compute. reflexivity. Qed.
Example test_second_block :
  (fun f => all_stale f (zrange 0 1024)) <$> fresh_then_stale new (zrange 0 2048) = Some true.
Proof. vm_compute. reflexivity. Qed.
Example test_third_block :
  (fun f => all_stale f (zrange 0 1024)) <$> fresh_then_stale new (zrange 1024 1024) = Some true.
Proof. vm_compute. reflexivity. Qed.

(** ** Bits of the ring *)

(** Bit [k] of the ring, [0 <= k < MAX_REPLAY_SIZE]. *)
Definition bit (bm : list Z) (k : Z) : bool :=
  match bm !! Z.to_nat (k / 64) with
  | Some w => Z.testbit w (k mod 64)
  | None => false
  end.

(** The ring position of counter [i], for an [i] at most one turn behind [next]. *)
Definition slot (f : NonceFilter) (i : Z) : Z :=
  let off := next f - i in
  if off <=? next_idx f then next_idx f - off else 1024 + next_idx f - off.

Definition wf (f : NonceFilter) : Prop :=
  length (bitmap f) = WORDS /\ Forall (in_u 64) (bitmap f) /\
  0 <= next_idx f < 1024 /\ in_u 64 (next f).

Definition in_ring (f : NonceFilter) (i : Z) : Prop := 1 <= next f - i <= 1024.

Lemma slot_range f i : wf f -> in_ring f i -> 0 <= slot f i < 1024.
Proof. intros (_ & _ & ? & ?) ?. unfold in_ring, slot in *. zcases; lia. Qed.

Lemma bitmap_index_slot f i :
  wf f -> in_ring f i -> bitmap_index f i = (slot f i / 64, slot f i mod 64).
Proof.
  intros (_ & _ & ? & [? ?]) Hi. unfold in_ring in Hi.
  unfold bitmap_index, slot. change MAX_REPLAY_SIZE with 1024.
  rewrite (wrap_small 64 (next f - i)) by (unfold in_u; lia).
  assert (in_u 64 (1024 + next_idx f - (next f - i))) as Hw by (unfold in_u; lia).
  rewrite (wrap_small _ _ Hw). zcases; f_equal; dlia.
Qed.

Lemma word_slot {E} f k :
  wf f -> 0 <= k < 1024 ->
  exists w, word (E := E) f (k / 64) = Ok w /\ in_u 64 w /\
    bitmap f !! Z.to_nat (k / 64) = Some w.
Proof.
  intros (Hlen & Hw & _) Hk. unfold word.
  destruct (lookup_lt_is_Some_2 (bitmap f) (Z.to_nat (k / 64))) as [w Hl].
  { rewrite Hlen. change WORDS with 16%nat. dlia. }
  exists w. rewrite Hl. split_and!; [done| |done].
  by eapply Forall_lookup_1 in Hl.
Qed.

Lemma testbit_one n i : 0 <= n -> Z.testbit (Z.shiftl 1 n) i = (i =? n).
Proof.
  intros Hn. destruct (Z.ltb_spec i 0) as [?|?].
  { rewrite Z.testbit_neg_r by lia. zcases; lia. }
  rewrite Z.shiftl_spec by lia. zcases.
  - subst. by rewrite Z.sub_diag.
  - destruct (Z.ltb_spec i n); [by rewrite Z.testbit_neg_r by lia|].
    change 1 with (2 ^ 0). apply Z.pow2_bits_false. lia.
Qed.

Lemma land_one_testbit w n : 0 <= n -> negb (Z.land w (Z.shiftl 1 n) =? 0) = Z.testbit w n.
Proof.
  intros Hn. destruct (Z.testbit w n) eqn:E; [apply negb_true_iff, Z.eqb_neq|apply negb_false_iff, Z.eqb_eq].
  - intros H. apply (f_equal (fun z => Z.testbit z n)) in H.
    rewrite Z.land_spec, E, testbit_one, Z.eqb_refl, Z.bits_0 in H by lia. done.
  - apply Z.bits_inj'. intros i Hi. rewrite Z.land_spec, Z.bits_0, testbit_one by lia.
    zcases; subst; [by rewrite E|by rewrite andb_false_r].
Qed.

Lemma in_u_bits w z : 0 <= w ->
  (forall i, w <= i -> Z.testbit z i = false) -> 0 <= z -> in_u w z.
Proof. intros Hw Hb Hz. split; [done|]. by apply Z.bounded_iff_bits_nonneg. Qed.
Lemma in_u_high w z i : 0 <= w -> in_u w z -> w <= i -> Z.testbit z i = false.
Proof. intros Hw [? ?] Hi. revert i Hi. by apply Z.bounded_iff_bits_nonneg. Qed.

Lemma is_set_bit {E} f i :
  wf f -> in_ring f i -> is_set (E := E) f i = Ok (bit (bitmap f) (slot f i)).
Proof.
  intros Hf Hi. unfold is_set, bit. rewrite bitmap_index_slot by done.
  destruct (word_slot (E := E) f (slot f i)) as (w & -> & _ & ->); [done|by apply slot_range|].
  simpl. rewrite land_one_testbit; [done|]. dlia.
Qed.

(** Writing the word of slot [k] changes bit [k] to [b] and no other bit. *)
Lemma bit_update bm w w' k b :
  0 <= k < 1024 -> length bm = WORDS ->
  bm !! Z.to_nat (k / 64) = Some w ->
  (forall i, 0 <= i < 64 -> Z.testbit w' i = if i =? k mod 64 then b else Z.testbit w i) ->
  forall j, 0 <= j < 1024 ->
    bit (<[Z.to_nat (k / 64) := w']> bm) j = if j =? k then b else bit bm j.
Proof.
  intros Hk Hlen Hw Hw' j Hj. unfold bit.
  destruct (decide (j / 64 = k / 64)) as [Heq|Hne].
  - rewrite Heq, list_lookup_insert_eq by (by eapply lookup_lt_Some).
    rewrite Hw, Hw' by dlia. zcases; try done; exfalso; dlia.
  - rewrite list_lookup_insert_ne by dlia. zcases; [subst; done|done].
Qed.

Lemma with_bitmap_wf f bm :
  wf f -> length bm = WORDS -> Forall (in_u 64) bm -> wf (with_bitmap f bm).
Proof. intros (? & ? & ? & ?) ? ?. unfold wf; simpl; auto. Qed.

Lemma set_bit {E} f i :
  wf f -> in_ring f i ->
  exists bm, set (E := E) f i = Ok (with_bitmap f bm) /\ wf (with_bitmap f bm) /\
    forall j, 0 <= j < 1024 -> bit bm j = (j =? slot f i) || bit (bitmap f) j.
Proof.
  intros Hf Hi. unfold set. rewrite bitmap_index_slot by done.
  pose proof (slot_range f i Hf Hi) as Hs.
  destruct (word_slot (E := E) f (slot f i)) as (w & -> & Hw & Hl); [done..|].
  simpl. eexists; split_and!; [done| |].
  - destruct Hf as (Hlen & Hall & ?). apply with_bitmap_wf; [done|by rewrite length_insert|].
    apply Forall_insert; [done|]. apply in_u_bits; [lia| |].
    + intros n Hn. rewrite Z.lor_spec, (in_u_high 64 w n) by (exact Hw || lia).
      rewrite testbit_one by dlia. zcases; dlia.
    + apply Z.lor_nonneg. split; [apply Hw|]. apply Z.shiftl_nonneg. lia.
  - intros j Hj. rewrite (bit_update _ w _ _ true) by
      (try done; try apply Hf; intros n Hn; rewrite Z.lor_spec, testbit_one by dlia;
       zcases; by rewrite ?orb_true_r, ?orb_false_r).
    by zcases.
Qed.

Lemma unset_bit {E} f i :
  wf f -> in_ring f i ->
  exists bm, unset (E := E) f i = Ok (with_bitmap f bm) /\ wf (with_bitmap f bm) /\
    forall j, 0 <= j < 1024 -> bit bm j = negb (j =? slot f i) && bit (bitmap f) j.
Proof.
  intros Hf Hi. unfold unset. rewrite bitmap_index_slot by done.
  pose proof (slot_range f i Hf Hi) as Hs.
  destruct (word_slot (E := E) f (slot f i)) as (w & -> & Hw & Hl); [done..|].
  simpl. eexists; split_and!; [done| |].
  - destruct Hf as (Hlen & Hall & ?). apply with_bitmap_wf; [done|by rewrite length_insert|].
    apply Forall_insert; [done|]. apply in_u_bits; [lia| |].
    + intros n Hn. by rewrite Z.land_spec, (in_u_high 64 w n) by (exact Hw || lia).
    + apply Z.land_nonneg. left. apply Hw.
  - intros j Hj. rewrite (bit_update _ w _ _ false) by
      (try done; try apply Hf; intros n Hn; unfold wrap;
       rewrite Z.land_spec, Z.mod_pow2_bits_low, Z.lnot_spec, testbit_one by dlia;
       zcases; by rewrite ?andb_true_r, ?andb_false_r).
    by zcases.
Qed.

(** ** The abstract window

    What the filter is for: [hi] is one past the highest counter seen and [seen]
    the counters accepted so far; a counter is acceptable when it is new, or less
    than [MAX_REPLAY_SIZE] behind [hi] and not yet accepted. *)
Record window := mkWindow { hi : Z; seen : gset Z }.
Definition spec_new : window := {| hi := 0; seen := ∅ |}.
Definition spec_can_accept (w : window) (c : Z) : bool :=
  (hi w <=? c) || ((hi w - c <? 1024) && bool_decide (c ∉ seen w)).
Definition spec_accept (w : window) (c : Z) : window :=
  {| hi := Z.max (hi w) (c + 1); seen := {[c]} ∪ seen w |}.

(** A counter the ring cannot tell from counter 0: the slot of counter 1024 is not
    cleared when the window first wraps around. *)
Definition stuck (w : window) (c : Z) : Prop := c = 1024 /\ 0 ∈ seen w.

(** Refinement: a set bit stands for an accepted counter (or the stuck one), an
    accepted counter in the window has its bit set, and before the first turn of
    the ring the slots ahead are clear. *)
Record rep (f : NonceFilter) (w : window) : Prop := {
  rep_wf : wf f;
  rep_next : next f = hi w;
  rep_seen : forall c, c ∈ seen w -> 0 <= c < hi w;
  rep_set : forall c, c ∈ seen w -> hi w - c < 1024 -> bit (bitmap f) (slot f c) = true;
  rep_bit : forall c, 0 <= c -> 1 <= hi w - c < 1024 ->
    bit (bitmap f) (slot f c) = true -> c ∈ seen w \/ stuck w c;
  rep_early : hi w <= 1024 ->
    next_idx f = hi w mod 1024 /\
    (forall k, hi w <= k < 1024 -> bit (bitmap f) k = false) /\
    (bit (bitmap f) 0 = true -> 0 ∈ seen w);
}.

Lemma bit_zeros k : 0 <= k < 1024 -> bit (replicate WORDS 0) k = false.
Proof.
  intros Hk. unfold bit. rewrite lookup_replicate_2 by (change WORDS with 16%nat; dlia).
  apply Z.bits_0.
Qed.

Lemma zeros_wf n a i : in_u 64 n -> 0 <= i < 1024 ->
  wf {| next := n; accepted := a; bitmap := replicate WORDS 0; next_idx := i |}.
Proof.
  intros Hn Hi. split; [done|]. split; [|by split].
  apply (Forall_replicate (in_u 64) WORDS 0). unfold in_u; lia.
Qed.

Lemma rep_new : rep new spec_new.
Proof.
  split; simpl; try (intros; set_solver).
  - apply zeros_wf; unfold in_u; lia.
  - intros; lia.
  - intros _. split_and!; [done| |].
    + intros. by apply bit_zeros.
    + rewrite bit_zeros by lia. done.
Qed.

(** The [accepted] statistic plays no part. *)
Lemma rep_accepted f w a :
  rep f w -> rep {| next := next f; accepted := a; bitmap := bitmap f; next_idx := next_idx f |} w.
Proof. by intros [(? & ? & ? & ?) ? ? ? ? ?]. Qed.

Lemma rep_set_bit {E} f w c :
  rep f w -> 0 <= c -> 1 <= hi w - c < 1024 ->
  exists f', set (E := E) f c = Ok f' /\ accepted f' = accepted f /\
    rep f' {| hi := hi w; seen := {[c]} ∪ seen w |}.
Proof.
  intros [Hf Hn Hseen Hset Hbit Hearly] Hc Hr.
  assert (in_ring f c) as Hi by (unfold in_ring; lia).
  destruct (set_bit (E := E) f c Hf Hi) as (bm & -> & Hf' & Hbm).
  eexists; split_and!; [done|done|].
  assert (0 <= next_idx f < 1024) as Hidx by apply Hf.
  assert (forall c', slot (with_bitmap f bm) c' = slot f c') as Hslot by done.
  split; simpl; rewrite ?Hslot; try done.
  - intros c' [->%elem_of_singleton|?]%elem_of_union; [lia|auto].
  - intros c' Hc' Hr'. rewrite Hslot, Hbm.
    + apply elem_of_union in Hc' as [->%elem_of_singleton|Hc']; [by rewrite Z.eqb_refl|].
      rewrite (Hset c') by auto. by rewrite orb_true_r.
    + apply slot_range; [done|]. unfold in_ring.
      apply elem_of_union in Hc' as [->%elem_of_singleton|Hc']; [lia|].
      apply Hseen in Hc'. lia.
  - intros c' Hc' Hr'. rewrite Hslot, Hbm by (apply slot_range; [done|unfold in_ring; lia]).
    intros [H%Z.eqb_eq|H]%orb_true_iff.
    + left. assert (c' = c) as -> by (revert H; unfold slot; zcases; lia). set_solver.
    + destruct (Hbit c' Hc' Hr' H) as [?|[? ?]]; [set_solver|right; split; set_solver].
  - intros Hh. destruct (Hearly Hh) as (Hni & Hk & H0).
    assert (slot f c = c) as Hsc by (unfold slot; zcases; dlia).
    split_and!; [done| |].
    + intros k Hkr. rewrite Hbm, Hk, Hsc by lia. zcases; [lia|done].
    + rewrite Hbm, Hsc by lia. intros [H%Z.eqb_eq|H]%orb_true_iff; [set_solver|].
      apply H0 in H. set_solver.
Qed.

(** The slot the filter moves into is clear, except that of counter 1024 when
    counter 0 was accepted. *)
Lemma advance_bits {E} f w :
  rep f w ->
  exists bm, (if MAX_REPLAY_SIZE <? next f then unset (E := E) f (next f - MAX_REPLAY_SIZE)
              else Ok f) = Ok (with_bitmap f bm) /\ wf (with_bitmap f bm) /\
    (forall k, 0 <= k < 1024 -> k <> next_idx f -> bit bm k = bit (bitmap f) k) /\
    (bit bm (next_idx f) = true -> stuck w (hi w)).
Proof.
  intros [Hf Hn Hseen Hset Hbit Hearly]. change MAX_REPLAY_SIZE with 1024.
  assert (0 <= next_idx f < 1024) as Hidx by apply Hf.
  destruct (Z.ltb_spec 1024 (next f)) as [Hlt|Hge].
  - assert (in_ring f (next f - 1024)) as Hi by (unfold in_ring; lia).
    destruct (unset_bit (E := E) f _ Hf Hi) as (bm & -> & Hf' & Hbm).
    assert (slot f (next f - 1024) = next_idx f) as Hs by (unfold slot; zcases; lia).
    exists bm. split_and!; [done|done| |].
    + intros k Hk Hne. rewrite Hbm, Hs by done. zcases; [lia|done].
    + rewrite Hbm, Hs, Z.eqb_refl by lia. done.
  - exists (bitmap f). destruct (Hearly ltac:(lia)) as (Hni & Hk & H0).
    split_and!; [by destruct f|by destruct f|done|].
    intros Hb. destruct (decide (hi w = 1024)) as [He|Hne].
    + split; [done|]. rewrite Hni, He in Hb. auto.
    + rewrite Hni, Z.mod_small in Hb by (pose proof (proj2 (proj2 (proj2 Hf))); unfold in_u in *; lia).
      rewrite Hk in Hb by (pose proof (proj2 (proj2 (proj2 Hf))); unfold in_u in *; lia). done.
Qed.

Lemma rep_advance {E} f w :
  rep f w -> hi w + 1 < 2 ^ 64 ->
  exists f', advance (E := E) f = Ok f' /\ accepted f' = accepted f /\
    rep f' {| hi := hi w + 1; seen := seen w |}.
Proof.
  intros Hr Hmax. unfold advance.
  destruct (advance_bits (E := E) f w Hr) as (bm & -> & Hf' & Hsame & Hnew).
  destruct Hr as [Hf Hn Hseen Hset Hbit Hearly].
  assert (0 <= next_idx f < 1024 /\ in_u 64 (next f)) as [Hidx Hnx] by apply Hf.
  assert (forall c, next f - c <> 0 -> -1 < next f - c < 1024 -> slot f c <> next_idx f) as Hne
    by (intros c ??; unfold slot; zcases; lia).
  simpl. change MAX_REPLAY_SIZE with 1024.
  rewrite (wrap_small 64 (next f + 1)) by (unfold in_u in *; lia).
  eexists; split_and!; [done|done|].
  set (f' := mkNonceFilter _ _ _ _).
  assert (forall c, 1 <= hi w + 1 - c < 1024 ->
            slot f' c = if hi w - c =? 0 then next_idx f else slot f c) as Hslot.
  { intros c Hc. unfold slot; subst f'; simpl. rewrite Hn.
    destruct (decide (next_idx f = 1023)) as [->|?]; [change ((1023 + 1) mod 1024) with 0|
      rewrite (Z.mod_small (next_idx f + 1)) by lia]; zcases; lia. }
  split; simpl.
  - destruct Hf' as (? & ? & _). split; [done|]. split; [done|].
    split; unfold in_u, f' in *; simpl in *; [dlia|]. lia.
  - lia.
  - intros c Hc%Hseen. lia.
  - intros c Hc Hcr. pose proof (Hseen c Hc).
    rewrite Hslot by lia. zcases; [lia|]. rewrite Hsame.
    + apply Hset; [done|lia].
    + apply slot_range; [done|unfold in_ring; lia].
    + apply Hne; lia.
  - intros c Hc0 Hcr. rewrite Hslot by lia. zcases.
    + intros [H1 H2]%Hnew. right. split; [lia|done].
    + rewrite Hsame; [apply Hbit; lia|apply slot_range; [done|unfold in_ring; lia]|apply Hne; lia].
  - intros Hh. destruct Hearly as (Hni & Hk & H0); [lia|].
    assert (next_idx f = hi w) as Hni' by (rewrite Hni; apply Z.mod_small; unfold in_u in *; lia).
    split_and!.
    + by rewrite Hni'.
    + intros k Hkr. rewrite Hsame by lia. apply Hk. lia.
    + destruct (decide (hi w = 0)) as [He|?].
      * intros Hb. rewrite Hni', He in Hnew. destruct (Hnew Hb). lia.
      * rewrite Hsame by (unfold in_u in *; lia). done.
Qed.

Lemma rep_advance_to {E} n : forall f w c,
  rep f w -> Z.of_nat n = c - hi w -> c < 2 ^ 64 ->
  exists f', advance_to (E := E) n f c = Ok f' /\ accepted f' = accepted f /\
    rep f' {| hi := c; seen := seen w |}.
Proof.
  induction n as [|n IH]; intros f w c Hr Hn Hc; simpl; rewrite (rep_next _ _ Hr).
  - zcases; [lia|]. exists f. split_and!; [done..|].
    replace c with (hi w) by lia. by destruct w.
  - zcases; [|lia].
    destruct (rep_advance (E := E) f w Hr) as (f1 & -> & Ha & Hr1); [lia|]. simpl.
    destruct (IH f1 _ c Hr1) as (f2 & -> & Ha2 & Hr2); simpl; [lia|done|].
    exists f2. split_and!; [done|congruence|done].
Qed.

(** A jump of a whole window or more forgets the ring: every counter that is still
    inside the new window is unseen. *)
Lemma rep_jump f w c a :
  rep f w -> 1024 <= c - hi w -> c + 1 < 2 ^ 64 ->
  rep {| next := c + 1; accepted := a; bitmap := replicate WORDS 0; next_idx := 0 |}
      {| hi := c + 1; seen := seen w |}.
Proof.
  intros Hr Hj Hc. pose proof (rep_seen _ _ Hr) as Hseen.
  pose proof (proj2 (proj2 (proj2 (rep_wf _ _ Hr)))) as Hn.
  rewrite (rep_next _ _ Hr) in Hn. unfold in_u in Hn.
  split; [apply zeros_wf; unfold in_u; lia|done|..]; cbn [hi seen bitmap next_idx].
  - intros c' Hc'%Hseen. lia.
  - intros c' Hc'%Hseen. lia.
  - intros c' ? ?. rewrite bit_zeros; [done|]. apply slot_range; [apply zeros_wf; unfold in_u; lia|].
    unfold in_ring; simpl. lia.
  - lia.
Qed.

Lemma spec_can_accept_cases w c :
  spec_can_accept w c = true -> hi w <= c \/ (c < hi w /\ hi w - c < 1024 /\ c ∉ seen w).
Proof.
  unfold spec_can_accept. zcases; simpl; try (intros; by left); try done.
  intros Hb%bool_decide_eq_true. right. split; [lia|]. by split.
Qed.

Lemma rep_accept {E} f w c :
  rep f w -> 0 <= c -> c + 1 < 2 ^ 64 -> spec_can_accept w c = true ->
  exists f', accept (E := E) f c = Ok f' /\ accepted f' = wrap 64 (accepted f + 1) /\
    rep f' (spec_accept w c).
Proof.
  intros Hr0 Hc0 Hc Hok. apply spec_can_accept_cases in Hok.
  unfold accept, spec_accept. cbn [next].
  set (g := mkNonceFilter _ _ _ _).
  pose proof (rep_accepted f w (wrap 64 (accepted f + 1)) Hr0 : rep g w) as Hr.
  assert (next f = hi w) as Hn by apply (rep_next _ _ Hr0). rewrite Hn.
  change MAX_REPLAY_SIZE with 1024.
  destruct (Z.ltb_spec c (hi w)) as [Hlt|Hge].
  - rewrite Z.max_l by lia. apply (rep_set_bit g w); [done|done|lia].
  - pose proof (proj2 (proj2 (proj2 (rep_wf _ _ Hr0)))) as [Hn0 _]. rewrite Hn in Hn0.
    rewrite (wrap_small 64 (c - hi w)) by (unfold in_u; lia).
    rewrite Z.max_r by lia.
    destruct ((hi w <? c) && (1024 <=? c - hi w)) eqn:Hj.
    + apply andb_true_iff in Hj as [_ Hj%Z.leb_le].
      rewrite (wrap_small 64 (c + 1)) by (unfold in_u; lia).
      apply (rep_set_bit (mkNonceFilter (c + 1) (accepted g) (replicate WORDS 0) 0)
               {| hi := c + 1; seen := seen w |}); cbn [hi]; [|lia..].
      by apply (rep_jump g).
    + assert (c - hi w < 1024) by (revert Hj; zcases; simpl; (done || lia)).
      destruct (rep_advance_to (E := E) (Z.to_nat (c - hi w)) g w c Hr) as (f1 & Hf1 & Ha1 & Hr1); [lia..|].
      rewrite Hf1. simpl.
      destruct (rep_advance (E := E) f1 _ Hr1) as (f2 & Hf2 & Ha2 & Hr2); simpl; [lia|].
      rewrite Hf2. simpl.
      destruct (rep_set_bit (E := E) f2 _ c Hr2) as (f3 & Hf3 & Ha3 & Hr3); simpl in *; [lia..|].
      exists f3. split_and!; [done|congruence|done].
Qed.

Lemma rep_can_accept {E} f w c :
  rep f w -> 0 <= c -> c + 1024 < 2 ^ 64 ->
  exists b, can_accept (E := E) f c = Ok b /\
    (b = true -> spec_can_accept w c = true) /\
    (b = false -> spec_can_accept w c = false \/ stuck w c).
Proof.
  intros [Hf Hn Hseen Hset Hbit _] Hc0 Hc. unfold can_accept, spec_can_accept.
  change MAX_REPLAY_SIZE with 1024.
  rewrite Hn, (wrap_small 64 (c + 1024)) by (unfold in_u; lia).
  destruct (Z.leb_spec (hi w) c) as [?|?]; [by exists true|].
  destruct (Z.leb_spec (c + 1024) (hi w)) as [?|?].
  { exists false. zcases; try lia. by auto. }
  rewrite is_set_bit by (try done; unfold in_ring; lia). simpl.
  eexists; split_and!; [done|..]; zcases; try lia; simpl.
  - intros Hb%negb_true_iff. apply bool_decide_eq_true. intros Hin.
    rewrite Hset in Hb; [done|done|lia].
  - intros Hb%negb_false_iff. destruct (Hbit c Hc0 ltac:(lia) Hb) as [Hin|?]; [left|by right].
    apply bool_decide_eq_false. by intros [].
Qed.

(** ** Runs

    A session feeds every received counter through [can_accept] and, when the packet
    decrypts, through [accept] ([handle_transport_data] in peer/inbound.rs). *)
Definition receive {E} (f : NonceFilter) (c : Z) : res E (NonceFilter * bool) :=
  b ← can_accept f c;
  if b : bool then f' ← accept f c; Ok (f', true) else Ok (f, false).

(** The counters of [cs] that were let through, oldest first. *)
Fixpoint receive_all {E} (f : NonceFilter) (cs : list Z) : res E (NonceFilter * list Z) :=
  match cs with
  | [] => Ok (f, [])
  | c :: cs =>
      '(f, b) ← receive f c;
      '(f, acc) ← receive_all f cs;
      Ok (f, if b : bool then c :: acc else acc)
  end.

(** [REJECT_AFTER_MESSAGES] of noise/protocol.rs bounds the counters that reach a
    session. *)
Definition legal_counter (c : Z) : Prop := 0 <= c <= u64_max - 2 ^ 13.

Lemma receive_all_rep {E} cs : forall f w,
  rep f w -> Forall legal_counter cs ->
  exists f' acc, receive_all (E := E) f cs = Ok (f', acc) /\
    rep f' (foldl spec_accept w acc) /\ NoDup acc /\
    (forall c, c ∈ acc -> c ∉ seen w /\ c ∈ cs) /\
    accepted f' mod 2 ^ 64 = (accepted f + Z.of_nat (length acc)) mod 2 ^ 64.
Proof.
  induction cs as [|c cs IH]; intros f w Hr Hcs; simpl.
  { exists f, []. split_and!; [done|done|constructor|set_solver|f_equal; simpl; lia]. }
  apply Forall_cons in Hcs as [Hc Hcs]. unfold legal_counter in Hc.
  unfold receive. destruct (rep_can_accept (E := E) f w c Hr) as (b & -> & Htrue & _); [lia..|].
  simpl. destruct b; simpl.
  - destruct (rep_accept (E := E) f w c Hr) as (f1 & -> & Ha1 & Hr1); [lia|lia|by apply Htrue|].
    simpl. destruct (IH f1 _ Hr1 Hcs) as (f' & acc & -> & Hr' & Hnd & Hsub & Hlen).
    simpl. assert (c ∉ seen w).
    { intros Hin. pose proof (rep_seen _ _ Hr c Hin).
      destruct (spec_can_accept_cases _ _ (Htrue eq_refl)) as [?|(_ & _ & ?)]; [lia|done]. }
    exists f', (c :: acc). split_and!; [done|done|..].
    + constructor; [|done]. intros [? ?]%Hsub. set_solver.
    + intros c' Hc'. apply elem_of_cons in Hc' as [->|Hc']; [set_solver|].
      apply Hsub in Hc'. set_solver.
    + rewrite Hlen, Ha1. unfold wrap. simpl length.
      rewrite Zplus_mod_idemp_l. f_equal. lia.
  - destruct (IH f w Hr Hcs) as (f' & acc & -> & Hr' & Hnd & Hsub & Hlen).
    exists f', acc. split_and!; [done|done|done| |done].
    intros c' [? ?]%Hsub. set_solver.
Qed.

Lemma seen_spec_accepts acc : forall w, seen (foldl spec_accept w acc) = list_to_set acc ∪ seen w.
Proof. induction acc as [|c acc IH]; intros w; simpl; [set_solver|]. rewrite IH. simpl. set_solver. Qed.

(** ** Properties *)

(** C1: no transport counter is accepted twice. Whatever counters a session receives,
    in whatever order and with whatever repetitions, the anti-replay filter processes
    them all without panicking, the counters it lets through are pairwise distinct and
    were received, and its [accepted] statistic counts them. *)
Theorem replay_free {E} (cs : list Z) :
  Forall legal_counter cs ->
  exists f acc, receive_all (E := E) new cs = Ok (f, acc) /\
    NoDup acc /\ (forall c, c ∈ acc -> c ∈ cs) /\
    wrap 64 (accepted f) = wrap 64 (Z.of_nat (length acc)).
Proof.
  intros Hcs. destruct (receive_all_rep (E := E) cs new spec_new rep_new Hcs)
    as (f & acc & ? & ? & ? & Hsub & ?).
  exists f, acc. split_and!; try done. by intros c [_ ?]%Hsub.
Qed.
Lemma replay_free_witness :
  exists f acc, receive_all (E := unit) new [5; 3; 5; 2000; 3] = Ok (f, acc) /\
    NoDup acc /\ (forall c, c ∈ acc -> c ∈ [5; 3; 5; 2000; 3]) /\
    wrap 64 (accepted f) = wrap 64 (Z.of_nat (length acc)).
Proof.
  apply (replay_free [5; 3; 5; 2000; 3]).
  repeat constructor; unfold legal_counter; lia.
Defined.

(** C2: the filter drops nothing else. After any run, a legal counter that was not let
    through before is accepted as long as it is less than [MAX_REPLAY_SIZE] behind the
    highest one, with one exception (counter 1024 after counter 0, see [stuck]); and a
    counter further behind is always refused. *)
Theorem window_complete {E} (cs : list Z) f acc c :
  Forall legal_counter cs ->
  receive_all (E := E) new cs = Ok (f, acc) ->
  legal_counter c ->
  (c ∉ acc -> next f - c < MAX_REPLAY_SIZE -> ~ (c = 1024 /\ 0 ∈ acc) ->
     can_accept (E := E) f c = Ok true) /\
  (MAX_REPLAY_SIZE <= next f - c \/ c ∈ acc -> can_accept (E := E) f c = Ok false).
Proof.
  intros Hcs Hrun Hc. destruct (receive_all_rep (E := E) cs new spec_new rep_new Hcs)
    as (f' & acc' & Hrun' & Hr & _ & _ & _).
  rewrite Hrun in Hrun'. injection Hrun' as <- <-.
  pose proof (seen_spec_accepts acc spec_new) as Hseen. simpl in Hseen.
  change MAX_REPLAY_SIZE with 1024 in *. unfold legal_counter in Hc.
  destruct (rep_can_accept (E := E) f _ c Hr) as (b & -> & Ht & Hf); [lia..|].
  assert (forall x, x ∈ seen (foldl spec_accept spec_new acc) <-> x ∈ acc) as Hiff
    by (intros x; rewrite Hseen; set_solver).
  pose proof (rep_seen _ _ Hr) as Hlt. rewrite (rep_next _ _ Hr).
  split.
  - intros Hnew Hwin Hstuck. destruct b; [done|].
    destruct (Hf eq_refl) as [Hs|[? ?%Hiff]]; [|by destruct Hstuck].
    revert Hs. unfold spec_can_accept. zcases; try lia; simpl; try done.
    intros Hs%bool_decide_eq_false. exfalso. apply Hs. by rewrite Hiff.
  - intros Hold. destruct b; [|done].
    destruct (spec_can_accept_cases _ _ (Ht eq_refl)) as [Hge|(? & ? & Hn)].
    + destruct Hold as [?|Hin%Hiff]; [lia|]. apply Hlt in Hin. lia.
    + destruct Hold as [?|?%Hiff]; [lia|done].
Qed.
Lemma window_complete_witness :
  exists f acc, receive_all (E := unit) new [0; 1030] = Ok (f, acc) /\
    can_accept (E := unit) f 9 = Ok true /\ can_accept (E := unit) f 7 = Ok false.
Proof.
  eexists _, _. split; [vm_compute; reflexivity|]. split.
  - eapply (proj1 (window_complete [0; 1030] _ _ 9 ltac:(repeat constructor; unfold legal_counter; lia)
             ltac:(vm_compute; reflexivity) ltac:(unfold legal_counter; lia)));
      [set_solver|done|lia].
  - eapply (proj2 (window_complete [0; 1030] _ _ 7 ltac:(repeat constructor; unfold legal_counter; lia)
             ltac:(vm_compute; reflexivity) ltac:(unfold legal_counter; lia))).
    left. done.
Defined.

(** [advance] clears the slot it moves into only when [next > MAX_REPLAY_SIZE], so
    the slot of counter 1024 still holds the bit of counter 0 when the ring turns for
    the first time: after counters 0, 1023 and 1025, counter 1024 is refused although it
    was never received. *)
Theorem first_turn_false_reject :
  exists f, receive_all (E := unit) new [0; 1023; 1025] = Ok (f, [0; 1023; 1025]) /\
    spec_can_accept (foldl spec_accept spec_new [0; 1023; 1025]) 1024 = true /\
    can_accept (E := unit) f 1024 = Ok false.
Proof.
  eexists. split; [vm_compute; reflexivity|]. split; vm_compute; reflexivity.
Qed.

End NonceFilter.
