(* ===== verification/Protocol.v ===== *)
(** * WireGuard messages (vlink-tun/src/noise/protocol.rs, noise/error.rs)

    The four wire messages, their parsers and the encoder of transport data. Offsets,
    sizes and checks are those of the source; a slice out of range is a panic. *)

From S2P Require Import Prelude Bytes.

(** noise/error.rs; the AEAD library's error value of [Encryption] carries no data. *)
Inductive NoiseError :=
| InvalidKeyLength
| Encryption
| Decryption
| InvalidPacket
| InvalidHandshakeState
| ReceiverIndexNotMatch.

Definition MESSAGE_TYPE_HANDSHAKE_INITIATION : byte := x01.
Definition MESSAGE_TYPE_HANDSHAKE_RESPONSE : byte := x02.
Definition MESSAGE_TYPE_COOKIE_REPLY : byte := x03.
Definition MESSAGE_TYPE_TRANSPORT_DATA : byte := x04.
Definition HANDSHAKE_INITIATION_PACKET_SIZE : nat := 148.
Definition HANDSHAKE_RESPONSE_PACKET_SIZE : nat := 92.
Definition COOKIE_REPLY_PACKET_SIZE : nat := 64.
Definition REJECT_AFTER_MESSAGES : Z := u64_max - Z.shiftl 1 13.
Definition MIN_PACKET_SIZE : nat := 4.

Record HandshakeInitiation := mkHandshakeInitiation {
  hi_sender_index : Z;
  hi_ephemeral_public_key : bytes;
  hi_static_public_key : bytes;
  hi_timestamp : bytes;
  hi_mac1 : bytes;
  hi_mac2 : bytes;
}.

Record HandshakeResponse := mkHandshakeResponse {
  hr_sender_index : Z;
  hr_receiver_index : Z;
  hr_ephemeral_public_key : bytes;
  hr_empty : bytes;
  hr_mac1 : bytes;
  hr_mac2 : bytes;
}.

Record CookieReply := mkCookieReply {
  cr_receiver_index : Z;
  cr_nonce : bytes;
  cr_cookie : bytes;
}.

Record TransportData := mkTransportData {
  td_receiver_index : Z;
  td_counter : Z;
  td_payload : bytes;
}.

(** [[ty, 0, 0, 0]]. *)
Definition tag (ty : byte) : bytes := [ty; x00; x00; x00].

(** [value.len() != size || value[0..4] != [ty, 0, 0, 0]], evaluated left to right. *)
Definition bad_header {E} (bad_len : bool) (ty : byte) (value : bytes) : res E bool :=
  if bad_len then Ok true
  else t ← slice 0 4 value; Ok (negb (bool_decide (t = tag ty))).

Definition HandshakeInitiation_try_from (value : bytes) : res NoiseError HandshakeInitiation :=
  bad ← bad_header (negb (length value =? HANDSHAKE_INITIATION_PACKET_SIZE)%nat)
          MESSAGE_TYPE_HANDSHAKE_INITIATION value;
  if bad : bool then Err InvalidPacket else
  sender_index ← slice 4 8 value;
  ephemeral_public_key ← slice 8 40 value;
  static_public_key ← slice 40 88 value;
  timestamp ← slice 88 116 value;
  mac1 ← slice 116 132 value;
  mac2 ← slice 132 148 value;
  Ok (mkHandshakeInitiation (le_val sender_index) ephemeral_public_key static_public_key
        timestamp mac1 mac2).

Definition HandshakeResponse_try_from (value : bytes) : res NoiseError HandshakeResponse :=
  bad ← bad_header (negb (length value =? HANDSHAKE_RESPONSE_PACKET_SIZE)%nat)
          MESSAGE_TYPE_HANDSHAKE_RESPONSE value;
  if bad : bool then Err InvalidPacket else
  sender_index ← slice 4 8 value;
  receiver_index ← slice 8 12 value;
  ephemeral_public_key ← slice 12 44 value;
  empty ← slice 44 60 value;
  mac1 ← slice 60 76 value;
  mac2 ← slice 76 92 value;
  Ok (mkHandshakeResponse (le_val sender_index) (le_val receiver_index) ephemeral_public_key
        empty mac1 mac2).

Definition CookieReply_try_from (value : bytes) : res NoiseError CookieReply :=
  bad ← bad_header (negb (length value =? COOKIE_REPLY_PACKET_SIZE)%nat)
          MESSAGE_TYPE_COOKIE_REPLY value;
  if bad : bool then Err InvalidPacket else
  receiver_index ← slice 4 8 value;
  nonce ← slice 8 32 value;
  cookie ← slice 32 64 value;
  Ok (mkCookieReply (le_val receiver_index) nonce cookie).

Definition TransportData_try_from (value : bytes) : res NoiseError TransportData :=
  bad ← bad_header (length value <? MIN_PACKET_SIZE)%nat MESSAGE_TYPE_TRANSPORT_DATA value;
  if bad : bool then Err InvalidPacket else
  receiver_index ← slice 4 8 value;
  counter ← slice 8 16 value;
  payload ← slice_from 16 value;
  Ok (mkTransportData (le_val receiver_index) (le_val counter) payload).

Definition packet_len (d : TransportData) : nat := length (td_payload d) + 16.

Definition to_bytes (d : TransportData) : bytes :=
  tag MESSAGE_TYPE_TRANSPORT_DATA ++ le_bytes 4 (td_receiver_index d) ++
  le_bytes 8 (td_counter d) ++ td_payload d.

Inductive Message :=
| MsgHandshakeInitiation (p : HandshakeInitiation)
| MsgHandshakeResponse (p : HandshakeResponse)
| MsgCookieReply (p : CookieReply)
| MsgTransportData (p : TransportData).

Definition parse (payload : bytes) : res NoiseError Message :=
  if (length payload <? MIN_PACKET_SIZE)%nat then Err InvalidPacket else
  ty ← index 0 payload;
  if bool_decide (ty = MESSAGE_TYPE_HANDSHAKE_INITIATION) then
    MsgHandshakeInitiation <$> HandshakeInitiation_try_from payload
  else if bool_decide (ty = MESSAGE_TYPE_HANDSHAKE_RESPONSE) then
    MsgHandshakeResponse <$> HandshakeResponse_try_from payload
  else if bool_decide (ty = MESSAGE_TYPE_COOKIE_REPLY) then
    MsgCookieReply <$> CookieReply_try_from payload
  else if bool_decide (ty = MESSAGE_TYPE_TRANSPORT_DATA) then
    MsgTransportData <$> TransportData_try_from payload
  else Err InvalidPacket.

Definition is_handshake {E} (payload : bytes) : res E bool :=
  ty ← index 0 payload;
  Ok (if bool_decide (ty = MESSAGE_TYPE_HANDSHAKE_INITIATION)
         && (length payload =? HANDSHAKE_INITIATION_PACKET_SIZE)%nat then true
      else if bool_decide (ty = MESSAGE_TYPE_HANDSHAKE_RESPONSE)
         && (length payload =? HANDSHAKE_RESPONSE_PACKET_SIZE)%nat then true
      else false).

(** ** The wire layout as a specification

    One encoder per message, from the layout of the WireGuard messages; [to_bytes] is
    the one of transport data. *)
Definition encode (m : Message) : bytes :=
  match m with
  | MsgHandshakeInitiation p =>
      tag x01 ++ le_bytes 4 (hi_sender_index p) ++ hi_ephemeral_public_key p ++
      hi_static_public_key p ++ hi_timestamp p ++ hi_mac1 p ++ hi_mac2 p
  | MsgHandshakeResponse p =>
      tag x02 ++ le_bytes 4 (hr_sender_index p) ++ le_bytes 4 (hr_receiver_index p) ++
      hr_ephemeral_public_key p ++ hr_empty p ++ hr_mac1 p ++ hr_mac2 p
  | MsgCookieReply p =>
      tag x03 ++ le_bytes 4 (cr_receiver_index p) ++ cr_nonce p ++ cr_cookie p
  | MsgTransportData p => to_bytes p
  end.

(** The field ranges of the Rust types ([u32], [u64], [[u8; N]]). *)
Definition wf_message (m : Message) : Prop :=
  match m with
  | MsgHandshakeInitiation p =>
      in_u 32 (hi_sender_index p) /\ length (hi_ephemeral_public_key p) = 32%nat /\
      length (hi_static_public_key p) = 48%nat /\ length (hi_timestamp p) = 28%nat /\
      length (hi_mac1 p) = 16%nat /\ length (hi_mac2 p) = 16%nat
  | MsgHandshakeResponse p =>
      in_u 32 (hr_sender_index p) /\ in_u 32 (hr_receiver_index p) /\
      length (hr_ephemeral_public_key p) = 32%nat /\ length (hr_empty p) = 16%nat /\
      length (hr_mac1 p) = 16%nat /\ length (hr_mac2 p) = 16%nat
  | MsgCookieReply p =>
      in_u 32 (cr_receiver_index p) /\ length (cr_nonce p) = 24%nat /\
      length (cr_cookie p) = 32%nat
  | MsgTransportData p => in_u 32 (td_receiver_index p) /\ in_u 64 (td_counter p)
  end.

(** ** Lemmas *)

(** Cut a buffer at the offsets a parser reads: consecutive slices of known length are
    the pieces it was built from. *)
Lemma slice_piece {E} (pre x suf : bytes) a b :
  length pre = a -> b = (a + length x)%nat ->
  slice (E := E) a b (pre ++ x ++ suf) = Ok x.
Proof.
  intros <- ->. rewrite slice_app_r by lia.
  rewrite Nat.sub_diag, slice_app_l by lia. apply slice_all. lia.
Qed.

(** A parsed buffer, rebuilt from the slices read: one step per field. *)
Lemma slice_split {E} a b (l s : bytes) :
  slice (E := E) a b l = Ok s -> (a <= b)%nat -> take b l = take a l ++ s.
Proof.
  unfold slice. case_decide; [|done]. intros [= <-] ?. by apply take_take_drop.
Qed.

Lemma bad_header_false {E} bl ty v :
  bad_header (E := E) bl ty v = Ok false -> bl = false /\ take 4 v = tag ty.
Proof.
  unfold bad_header. destruct bl; [done|]. intros H. bind_inv H.
  injection H as H%negb_false_iff%bool_decide_eq_true.
  pose proof (slice_split 0 4 v a H0 ltac:(lia)) as Ht. simpl in Ht.
  split; [done|]. by rewrite Ht, H.
Qed.

(** Reassemble [l] from the consecutive slices [Hs] of it. *)
Ltac rebuild :=
  repeat match goal with
  | H : slice ?a ?b ?l = Ok ?s |- _ =>
      let Hl := fresh "Hlen" in
      pose proof (slice_length a b l s H) as Hl; simpl in Hl;
      apply slice_split in H; [|lia]
  end.

Lemma in_u_le_val l n w : length l = n -> w = 8 * Z.of_nat n -> in_u w (le_val l).
Proof. intros <- ->. apply le_val_range. Qed.

Lemma le_bytes_of_val l n : length l = n -> le_bytes n (le_val l) = l.
Proof. intros <-. apply le_bytes_val. Qed.

(** Invert a successful parser: its checks hold and its fields are slices. *)
Ltac parser_inv H :=
  unfold HandshakeInitiation_try_from, HandshakeResponse_try_from, CookieReply_try_from,
    TransportData_try_from in H;
  let bad := fresh "bad" in let Hb := fresh "Hb" in
  apply bind_Ok_inv in H as (bad & Hb & H); destruct bad; [discriminate|];
  apply bad_header_false in Hb as [? ?];
  repeat (apply bind_Ok_inv in H as (? & ? & H)).

Ltac fields :=
  cbn [encode wf_message hi_sender_index hi_ephemeral_public_key hi_static_public_key hi_timestamp
    hi_mac1 hi_mac2 hr_sender_index hr_receiver_index hr_ephemeral_public_key hr_empty hr_mac1
    hr_mac2 cr_receiver_index cr_nonce cr_cookie td_receiver_index td_counter td_payload].

(** The whole buffer is the slices put back together. *)
Ltac reassemble n v :=
  rebuild;
  rewrite <- (firstn_all v); replace (length v) with n by lia;
  repeat match goal with
  | H : take ?b v = take ?a v ++ ?s |- context [take ?b v] => rewrite H
  | H : take 4 v = tag _ |- context [take 4 v] => rewrite H
  end.

Lemma initiation_sound v p :
  HandshakeInitiation_try_from v = Ok p ->
  encode (MsgHandshakeInitiation p) = v /\ wf_message (MsgHandshakeInitiation p).
Proof.
  intros H. parser_inv H. injection H as <-.
  assert (length v = 148%nat) by (revert H0; unfold HANDSHAKE_INITIATION_PACKET_SIZE;
    destruct (Nat.eqb_spec (length v) 148); simpl; done).
  split.
  - fields. reassemble 148%nat v. rewrite le_bytes_of_val by done. by rewrite <- !app_assoc.
  - rebuild. fields. split_and!; [by eapply in_u_le_val|lia..].
Qed.

Lemma response_sound v p :
  HandshakeResponse_try_from v = Ok p ->
  encode (MsgHandshakeResponse p) = v /\ wf_message (MsgHandshakeResponse p).
Proof.
  intros H. parser_inv H. injection H as <-.
  assert (length v = 92%nat) by (revert H0; unfold HANDSHAKE_RESPONSE_PACKET_SIZE;
    destruct (Nat.eqb_spec (length v) 92); simpl; done).
  split.
  - fields. reassemble 92%nat v. rewrite !le_bytes_of_val by done. by rewrite <- !app_assoc.
  - rebuild. fields. split_and!; [by eapply in_u_le_val..|lia|lia|lia|lia].
Qed.

Lemma cookie_sound v p :
  CookieReply_try_from v = Ok p ->
  encode (MsgCookieReply p) = v /\ wf_message (MsgCookieReply p).
Proof.
  intros H. parser_inv H. injection H as <-.
  assert (length v = 64%nat) by (revert H0; unfold COOKIE_REPLY_PACKET_SIZE;
    destruct (Nat.eqb_spec (length v) 64); simpl; done).
  split.
  - fields. reassemble 64%nat v. rewrite le_bytes_of_val by done. by rewrite <- !app_assoc.
  - rebuild. fields. split_and!; [by eapply in_u_le_val|lia..].
Qed.

Lemma transport_sound v p :
  TransportData_try_from v = Ok p ->
  encode (MsgTransportData p) = v /\ wf_message (MsgTransportData p).
Proof.
  intros H. parser_inv H. injection H as <-.
  assert (x1 = drop 16 v) as -> by
    (revert H4; unfold slice_from; case_decide; congruence).
  split.
  - fields. unfold to_bytes. fields.
    rewrite <- (take_drop 16 v) at 2. rewrite !app_assoc. f_equal.
    rebuild. rewrite H3, H2, H1, !le_bytes_of_val by done. done.
  - rebuild. fields. split_and!; by eapply in_u_le_val.
Qed.

Lemma length_tag ty : length (tag ty) = 4%nat.
Proof. done. Qed.

Lemma good_header {E} ty rest bl :
  bl = false -> bad_header (E := E) bl ty (tag ty ++ rest) = Ok false.
Proof.
  intros ->. unfold bad_header. rewrite slice_here by done. cbn [mbind res_bind].
  by rewrite bool_decide_true by done.
Qed.

(** [parse] dispatches on the type byte. *)
Lemma parse_tagged rest :
  parse (tag x01 ++ rest) = MsgHandshakeInitiation <$> HandshakeInitiation_try_from (tag x01 ++ rest) /\
  parse (tag x02 ++ rest) = MsgHandshakeResponse <$> HandshakeResponse_try_from (tag x02 ++ rest) /\
  parse (tag x03 ++ rest) = MsgCookieReply <$> CookieReply_try_from (tag x03 ++ rest) /\
  parse (tag x04 ++ rest) = MsgTransportData <$> TransportData_try_from (tag x04 ++ rest).
Proof. done. Qed.

Ltac size_ok :=
  first [apply negb_false_iff, Nat.eqb_eq | apply Nat.ltb_ge];
  unfold HANDSHAKE_INITIATION_PACKET_SIZE, HANDSHAKE_RESPONSE_PACKET_SIZE,
    COOKIE_REPLY_PACKET_SIZE, MIN_PACKET_SIZE;
  rewrite !length_app, ?length_le_bytes, ?length_tag; lia.

(** Every well-formed message is parsed back from its encoding. *)
Lemma parse_encode m : wf_message m -> parse (encode m) = Ok m.
Proof.
  destruct m as [p|p|p|p]; destruct p; fields; intros Hwf; destruct_and! Hwf; fields;
    unfold to_bytes; fields.
  - rewrite (proj1 (parse_tagged _)). unfold HandshakeInitiation_try_from.
    rewrite good_header by size_ok. cbn [mbind res_bind]. repeat read_field.
    by rewrite le_val_bytes_small.
  - rewrite (proj1 (proj2 (parse_tagged _))). unfold HandshakeResponse_try_from.
    rewrite good_header by size_ok. cbn [mbind res_bind]. repeat read_field.
    by rewrite !le_val_bytes_small.
  - rewrite (proj1 (proj2 (proj2 (parse_tagged _)))). unfold CookieReply_try_from.
    rewrite good_header by size_ok. cbn [mbind res_bind]. repeat read_field.
    by rewrite !le_val_bytes_small.
  - rewrite (proj2 (proj2 (proj2 (parse_tagged _)))). unfold TransportData_try_from.
    rewrite good_header by size_ok. cbn [mbind res_bind]. repeat read_field.
    rewrite slice_from_Ok by (rewrite !length_app, !length_le_bytes, length_tag; lia).
    cbn [mbind res_bind]. by rewrite !le_val_bytes_small.
Qed.

Lemma initiation_try_from_encode p :
  wf_message (MsgHandshakeInitiation p) ->
  HandshakeInitiation_try_from (encode (MsgHandshakeInitiation p)) = Ok p.
Proof.
  intros Hwf%parse_encode. cbn [encode] in *. rewrite (proj1 (parse_tagged _)) in Hwf.
  by destruct (HandshakeInitiation_try_from _); simplify_eq/=.
Qed.
Lemma response_try_from_encode p :
  wf_message (MsgHandshakeResponse p) ->
  HandshakeResponse_try_from (encode (MsgHandshakeResponse p)) = Ok p.
Proof.
  intros Hwf%parse_encode. cbn [encode] in *. rewrite (proj1 (proj2 (parse_tagged _))) in Hwf.
  by destruct (HandshakeResponse_try_from _); simplify_eq/=.
Qed.
Lemma cookie_try_from_encode p :
  wf_message (MsgCookieReply p) ->
  CookieReply_try_from (encode (MsgCookieReply p)) = Ok p.
Proof.
  intros Hwf%parse_encode. cbn [encode] in *. rewrite (proj1 (proj2 (proj2 (parse_tagged _)))) in Hwf.
  by destruct (CookieReply_try_from _); simplify_eq/=.
Qed.

(** What a successful [parse] returned encodes to the packet that was parsed. *)
Lemma parse_Ok_encode v m : parse v = Ok m -> encode m = v /\ wf_message m.
Proof.
  unfold parse. destruct (_ <? _)%nat; [done|]. intros H. bind_inv H.
  repeat case_bool_decide; try done;
    match type of H with fmap _ ?r = _ => destruct r eqn:Hr end;
    try done; injection H as <-;
    by first [apply initiation_sound | apply response_sound | apply cookie_sound
             | apply transport_sound].
Qed.

(** The fixed-size parsers read only inside the size they checked. *)
Lemma fixed_size_no_panic v :
  HandshakeInitiation_try_from v <> Panic /\ HandshakeResponse_try_from v <> Panic /\
  CookieReply_try_from v <> Panic.
Proof.
  unfold HandshakeInitiation_try_from, HandshakeResponse_try_from, CookieReply_try_from, bad_header,
    HANDSHAKE_INITIATION_PACKET_SIZE, HANDSHAKE_RESPONSE_PACKET_SIZE, COOKIE_REPLY_PACKET_SIZE.
  split_and!;
    match goal with |- context [(length v =? ?n)%nat] => destruct (Nat.eqb_spec (length v) n) end;
    cbn [negb mbind res_bind]; try done;
    rewrite !slice_Ok by lia; cbn [mbind res_bind]; by case_bool_decide.
Qed.

Lemma transport_panics_iff v :
  TransportData_try_from v = Panic <-> (4 <= length v < 16)%nat /\ take 4 v = tag x04.
Proof.
  unfold TransportData_try_from, bad_header, MIN_PACKET_SIZE.
  destruct (Nat.ltb_spec (length v) 4); cbn [mbind res_bind]; [split; [done|lia]|].
  rewrite (slice_Ok 0 4) by lia. cbn [mbind res_bind Nat.sub]. rewrite drop_0.
  case_bool_decide as Ht; cbn [negb]; [|split; [done|by intros [_ ?]]].
  destruct (decide (16 <= length v)%nat).
  - rewrite !slice_Ok, slice_from_Ok by lia. split; [done|lia].
  - split; [intros _; split; [lia|done]|intros _].
    unfold slice. repeat case_decide; try done; lia.
Qed.

(** The parsers fail with [InvalidPacket] and nothing else. *)
Ltac only_invalid H :=
  repeat (apply bind_Err_inv in H as [H|(? & ? & H)];
    [first [by apply slice_not_Err in H | by apply slice_from_not_Err in H]|]);
  congruence.
Lemma bad_header_not_Err {E} bl ty v (e : E) : bad_header bl ty v <> Err e.
Proof.
  unfold bad_header. destruct bl; [done|]. intros [H|(? & ? & H)]%bind_Err_inv; [|done].
  by apply slice_not_Err in H.
Qed.
Lemma parser_errors v e :
  (HandshakeInitiation_try_from v = Err e -> e = InvalidPacket) /\
  (HandshakeResponse_try_from v = Err e -> e = InvalidPacket) /\
  (CookieReply_try_from v = Err e -> e = InvalidPacket) /\
  (TransportData_try_from v = Err e -> e = InvalidPacket).
Proof.
  unfold HandshakeInitiation_try_from, HandshakeResponse_try_from, CookieReply_try_from,
    TransportData_try_from.
  split_and!; intros [H|(bad & _ & H)]%bind_Err_inv; try (by apply bad_header_not_Err in H);
    destruct bad; only_invalid H.
Qed.

(** ** Properties *)

(** C3: the wire format is unambiguous. [Message::parse] accepts exactly the encodings of
    the well-formed messages: a packet parses to [m] if and only if it is the layout of [m]
    with every field in the range of its Rust type. *)
Theorem parse_iff_encode v m :
  parse v = Ok m <-> v = encode m /\ wf_message m.
Proof.
  split.
  - intros [<- ?]%parse_Ok_encode. done.
  - intros [-> ?]. by apply parse_encode.
Qed.

(** Transport data round-trips: what [to_bytes] writes has [packet_len] bytes and is
    parsed back to the same receiver index, counter and payload. *)
Theorem transport_roundtrip d :
  in_u 32 (td_receiver_index d) -> in_u 64 (td_counter d) ->
  parse (to_bytes d) = Ok (MsgTransportData d) /\ length (to_bytes d) = packet_len d.
Proof.
  intros ? ?. split; [by apply (parse_encode (MsgTransportData d))|].
  unfold to_bytes, packet_len. rewrite !length_app, !length_le_bytes, length_tag. lia.
Qed.
Lemma transport_roundtrip_witness :
  parse (to_bytes (mkTransportData 7 (2 ^ 40) [x61; x62]))
  = Ok (MsgTransportData (mkTransportData 7 (2 ^ 40) [x61; x62])).
Proof.
  apply (transport_roundtrip (mkTransportData 7 (2 ^ 40) [x61; x62]));
    vm_compute; split; congruence.
Defined.

(** [Message::parse] on arbitrary network input: it fails only with [InvalidPacket],
    and it panics exactly on the transport headers it admits with [MIN_PACKET_SIZE] but
    reads 16 bytes of: 4 to 15 bytes that start with [[4, 0, 0, 0]]. *)
Theorem parse_panics_iff v :
  (parse v = Panic <-> (4 <= length v < 16)%nat /\ take 4 v = tag MESSAGE_TYPE_TRANSPORT_DATA) /\
  (forall e, parse v = Err e -> e = InvalidPacket).
Proof.
  destruct (fixed_size_no_panic v) as (Hi & Hr & Hc).
  unfold parse, MIN_PACKET_SIZE. destruct (Nat.ltb_spec (length v) 4).
  { split; [split; [done|lia]|congruence]. }
  destruct v as [|b v]; [simpl in *; lia|]. cbn [index lookup list_lookup unwrap_opt mbind res_bind].
  pose proof (transport_panics_iff (b :: v)) as Ht.
  assert (forall A (m : res NoiseError A) ty, m <> Panic -> b = ty -> ty <> x04 ->
    (forall e, m = Err e -> e = InvalidPacket) ->
    forall B (g : A -> B), (g <$> m = Panic <->
     (4 <= length (b :: v) < 16)%nat /\ take 4 (b :: v) = tag MESSAGE_TYPE_TRANSPORT_DATA) /\
    (forall e, g <$> m = Err e -> e = InvalidPacket)) as Hgen.
  { intros A m ty Hm -> Hty He B g. destruct m; simpl; split; try done.
    - split; [done|]. intros [_ [= ? _]]. done.
    - split; [done|]. intros [_ [= ? _]]. done.
    - intros e' [= <-]. auto. }
  pose proof (parser_errors (b :: v)) as He.
  repeat case_bool_decide; subst.
  - eapply Hgen; [done|done|done|apply He].
  - eapply Hgen; [done|done|done|apply He].
  - eapply Hgen; [done|done|done|apply He].
  - rewrite <- Ht. destruct (TransportData_try_from _) eqn:HT; simpl; split; try done.
    intros e' [= <-]. by apply (He e).
  - split; [|congruence]. split; [done|]. intros [_ [= ? _]]. done.
Qed.

(** A peer that sends four bytes makes the receiving task panic. *)
Example four_byte_panic : parse [x04; x00; x00; x00] = Panic.
Proof. reflexivity. Qed.
