(* ===== verification/Crypto.v ===== *)
(** * Key derivation and authenticated encryption (vlink-tun/src/noise/crypto.rs)

    The primitives (BLAKE2s, HMAC, ChaCha20-Poly1305, XChaCha20-Poly1305, X25519) are
    crates the source calls. They are the operations of the class [CryptoPrims], an
    argument of everything below; [CryptoLaws] states the documented behaviour the
    handshake relies on. The wrappers around them are the source's. *)

From S2P Require Import Prelude Bytes Protocol.

(** Operations of the crates blake2, hmac, chacha20poly1305 and x25519-dalek; [None] is
    the crate's error value. *)
Class CryptoPrims := {
  blake2s : bytes -> bytes;
  blake2s_mac : bytes -> bytes -> option bytes;
  hmac_blake2s : bytes -> bytes -> bytes;
  chacha_encrypt : bytes -> bytes -> bytes -> bytes -> option bytes;
  chacha_decrypt : bytes -> bytes -> bytes -> bytes -> option bytes;
  xchacha_encrypt : bytes -> bytes -> bytes -> bytes -> option bytes;
  xchacha_decrypt : bytes -> bytes -> bytes -> bytes -> option bytes;
  x25519_base : bytes -> bytes;
  x25519 : bytes -> bytes -> bytes;
}.

(** The longest plaintext ChaCha20-Poly1305 takes: 2^32 - 1 blocks of 64 bytes. *)
Definition aead_max : Z := (2 ^ 32 - 1) * 64.

(** Documented behaviour of the primitives: output sizes, decryption inverts encryption
    and produces plaintexts 16 bytes shorter, Diffie-Hellman is symmetric. *)
Class CryptoLaws `{CryptoPrims} : Prop := {
  blake2s_len m : length (blake2s m) = 32%nat;
  blake2s_mac_len k m : (length k <= 32)%nat ->
    exists t, blake2s_mac k m = Some t /\ length t = 16%nat;
  hmac_len k m : length (hmac_blake2s k m) = 32%nat;
  chacha_roundtrip k n m a :
    length k = 32%nat -> length n = 12%nat -> Z.of_nat (length m) <= aead_max ->
    exists c, chacha_encrypt k n m a = Some c /\ chacha_decrypt k n c a = Some m;
  chacha_encrypt_len k n m a c :
    chacha_encrypt k n m a = Some c -> length c = (length m + 16)%nat;
  chacha_decrypt_len k n m a c :
    chacha_decrypt k n c a = Some m -> length c = (length m + 16)%nat;
  xchacha_roundtrip k n m a :
    length k = 32%nat -> length n = 24%nat -> Z.of_nat (length m) <= aead_max ->
    exists c, xchacha_encrypt k n m a = Some c /\ xchacha_decrypt k n c a = Some m;
  xchacha_encrypt_len k n m a c :
    xchacha_encrypt k n m a = Some c -> length c = (length m + 16)%nat;
  x25519_base_len k : length (x25519_base k) = 32%nat;
  x25519_len k p : length (x25519 k p) = 32%nat;
  x25519_comm a b : x25519 a (x25519_base b) = x25519 b (x25519_base a);
}.

(** ** Hexadecimal *)

Definition hex_digits : list Ascii.ascii :=
  Eval vm_compute in String.list_ascii_of_string "0123456789abcdef".
Definition hex_char (n : Z) : Ascii.ascii := nth (Z.to_nat n) hex_digits Ascii.zero.

(** [write!(&mut s, "{:02x}", b)] for every byte. *)
Fixpoint encode_to_hex (key : bytes) : list Ascii.ascii :=
  match key with
  | [] => []
  | b :: key => hex_char (u8 b / 16) :: hex_char (u8 b mod 16) :: encode_to_hex key
  end.

(** [char::to_digit(16)]. *)
Definition to_digit (c : Ascii.ascii) : option Z :=
  let n := Z.of_N (Ascii.N_of_ascii c) in
  if (48 <=? n) && (n <=? 57) then Some (n - 48)
  else if (97 <=? n) && (n <=? 102) then Some (n - 87)
  else if (65 <=? n) && (n <=? 70) then Some (n - 55)
  else None.

(** [u8::from_str_radix(s, 16)] on two characters; a leading [+] is a sign. *)
Definition from_str_radix2 (c1 c2 : Ascii.ascii) : option Z :=
  if (Z.of_N (Ascii.N_of_ascii c1) =? 43) then to_digit c2
  else match to_digit c1, to_digit c2 with
       | Some a, Some b => Some (a * 16 + b)
       | _, _ => None
       end.

(** The string is ASCII here: a byte offset inside a multi-byte character would panic as
    an odd length does. *)
Fixpoint decode_from_hex {E} (s : list Ascii.ascii) : res E bytes :=
  match s with
  | [] => Ok []
  | [_] => Panic
  | c1 :: c2 :: s =>
      v ← unwrap_opt (from_str_radix2 c1 c2);
      l ← decode_from_hex s;
      Ok (b8 v :: l)
  end.

(** ** Keys *)

Section Crypto.
Context `{CryptoPrims}.

Record LocalStaticSecret := mkLocalStaticSecret {
  private_key : bytes;
  local_public : bytes;
}.

Definition LocalStaticSecret_new (private : bytes) : LocalStaticSecret :=
  {| private_key := private; local_public := x25519_base private |}.

Record PeerStaticSecret := mkPeerStaticSecret {
  local : LocalStaticSecret;
  peer_public : bytes;
  psk : bytes;
}.

Definition PeerStaticSecret_new (local : LocalStaticSecret) (public_key : bytes) : PeerStaticSecret :=
  {| local := local; peer_public := public_key; psk := replicate 32 x00 |}.
Definition with_peer (s : LocalStaticSecret) (peer_public_key : bytes) : PeerStaticSecret :=
  PeerStaticSecret_new s peer_public_key.
Definition set_psk (s : PeerStaticSecret) (k : bytes) : PeerStaticSecret :=
  {| local := local s; peer_public := peer_public s; psk := k |}.

(** The random source is an argument: [rnd] are the 32 bytes drawn from it. *)
Definition gen_ephemeral_key (rnd : bytes) : bytes * bytes := (rnd, x25519_base rnd).

(** ** Hashing and key derivation *)

Definition hash (in1 in2 : bytes) : bytes := blake2s (in1 ++ in2).

(** [Blake2sMac::new_from_slice(key).unwrap()]. *)
Definition mac {E} (key in0 : bytes) : res E bytes := unwrap_opt (blake2s_mac key in0).

Definition hmac1 (key in0 : bytes) : bytes := hmac_blake2s key in0.
Definition hmac2 (key in0 in1 : bytes) : bytes := hmac_blake2s key (in0 ++ in1).

Definition kdf1 (key in0 : bytes) : bytes := hmac1 (hmac1 key in0) [x01].
Definition kdf2 (key in0 : bytes) : bytes * bytes :=
  let prk := hmac1 key in0 in
  let t0 := hmac1 prk [x01] in
  let t1 := hmac2 prk t0 [x02] in
  (t0, t1).
Definition kdf3 (key in0 : bytes) : bytes * bytes * bytes :=
  let prk := hmac1 key in0 in
  let t0 := hmac1 prk [x01] in
  let t1 := hmac2 prk t0 [x02] in
  let t2 := hmac2 prk t1 [x03] in
  (t0, t1, t2).

(** ** Authenticated encryption *)

Definition aead_nonce (counter : Z) : bytes := replicate 4 x00 ++ le_bytes 8 counter.

Definition aead_encrypt (key : bytes) (counter : Z) (msg aad : bytes) : res NoiseError bytes :=
  if negb (length key =? 32)%nat then Err InvalidKeyLength
  else ok_or Encryption (chacha_encrypt key (aead_nonce counter) msg aad).

Definition aead_decrypt (key : bytes) (counter : Z) (msg aad : bytes) : res NoiseError bytes :=
  if negb (length key =? 32)%nat then Err InvalidKeyLength
  else ok_or Decryption (chacha_decrypt key (aead_nonce counter) msg aad).

(** [XNonce::from_slice] panics on any length but 24; the key is checked first. *)
Definition xaead_encrypt (key nonce msg aad : bytes) : res NoiseError bytes :=
  if negb (length key =? 32)%nat then Err InvalidKeyLength
  else if negb (length nonce =? 24)%nat then Panic
  else ok_or Encryption (xchacha_encrypt key nonce msg aad).

Definition xaead_decrypt (key nonce msg aad : bytes) : res NoiseError bytes :=
  if negb (length key =? 32)%nat then Err InvalidKeyLength
  else if negb (length nonce =? 24)%nat then Panic
  else ok_or Decryption (xchacha_decrypt key nonce msg aad).

End Crypto.

(** ** Lemmas *)

Section Facts.
Context `{CryptoLaws}.

Lemma hash_len a b : length (hash a b) = 32%nat.
Proof. apply blake2s_len. Qed.
Lemma hmac1_len k m : length (hmac1 k m) = 32%nat.
Proof. apply hmac_len. Qed.
Lemma hmac2_len k a b : length (hmac2 k a b) = 32%nat.
Proof. apply hmac_len. Qed.
Lemma kdf1_len k m : length (kdf1 k m) = 32%nat.
Proof. apply hmac_len. Qed.
Lemma mac_Ok {E} k m : (length k <= 32)%nat ->
  exists t, mac (E := E) k m = Ok t /\ length t = 16%nat.
Proof. intros Hk. unfold mac. destruct (blake2s_mac_len k m Hk) as (t & -> & ?). by exists t. Qed.

Lemma length_aead_nonce c : length (aead_nonce c) = 12%nat.
Proof. done. Qed.

Lemma aead_roundtrip_Ok k c m a :
  length k = 32%nat -> Z.of_nat (length m) <= aead_max ->
  exists e, aead_encrypt k c m a = Ok e /\ aead_decrypt k c e a = Ok m /\
    length e = (length m + 16)%nat.
Proof.
  intros Hk Hm. unfold aead_encrypt, aead_decrypt. rewrite Hk. simpl negb.
  destruct (chacha_roundtrip k (aead_nonce c) m a) as (e & He & Hd); [done..|].
  exists e. rewrite He, Hd. split_and!; [done..|]. by eapply chacha_encrypt_len.
Qed.
End Facts.

(** The hexadecimal key encoding round-trips for every key. *)
Theorem hex_roundtrip {E} (key : bytes) : decode_from_hex (E := E) (encode_to_hex key) = Ok key.
Proof.
  induction key as [|b key IH]; [done|].
  cbn [encode_to_hex decode_from_hex]. rewrite IH.
  assert (from_str_radix2 (hex_char (u8 b / 16)) (hex_char (u8 b mod 16)) = Some (u8 b)) as ->.
  { destruct b; reflexivity. }
  cbn. by rewrite b8_u8.
Qed.

(** ** The laws are consistent

    A concrete, insecure instance of the primitives that satisfies every law: hashes are
    truncations, the tag of a ciphertext is a prefix of the key, Diffie-Hellman is bytewise
    exclusive or. Theorems stated over [CryptoLaws] are evaluated on it. *)
Module Toy.

Definition pad (n : nat) (l : bytes) : bytes := take n (l ++ replicate n x00).
Definition xor8 (a b : byte) : byte := b8 (Z.lxor (u8 a) (u8 b)).
Definition seal (k n m a : bytes) : option bytes := Some (m ++ pad 16 k).
Definition open (k n c a : bytes) : option bytes :=
  if decide (16 <= length c /\ drop (length c - 16) c = pad 16 k)%nat
  then Some (take (length c - 16) c) else None.

Lemma pad_len n l : length (pad n l) = n.
Proof. unfold pad. rewrite length_take, length_app, length_replicate. lia. Qed.
Lemma pad_id l : pad (length l) l = l.
Proof. unfold pad. rewrite take_app_le by lia. apply firstn_all. Qed.

#[export] Instance prims : CryptoPrims := {|
  blake2s := pad 32;
  blake2s_mac k m := if decide (length k <= 32)%nat then Some (pad 16 (m ++ k)) else None;
  hmac_blake2s k m := pad 32 (m ++ k);
  chacha_encrypt := seal; chacha_decrypt := open;
  xchacha_encrypt := seal; xchacha_decrypt := open;
  x25519_base := pad 32;
  x25519 k p := zip_with xor8 (pad 32 k) (pad 32 p);
|}.

Lemma open_seal k n m a : exists c, seal k n m a = Some c /\ open k n c a = Some m.
Proof.
  eexists; split; [done|]. unfold open. rewrite length_app, pad_len.
  replace (length m + 16 - 16)%nat with (length m) by lia.
  rewrite decide_True by (split; [lia|by rewrite drop_app_length]).
  by rewrite take_app_length.
Qed.
Lemma seal_len k n m a c : seal k n m a = Some c -> length c = (length m + 16)%nat.
Proof. intros [= <-]. by rewrite length_app, pad_len. Qed.
Lemma open_len k n m a c : open k n c a = Some m -> length c = (length m + 16)%nat.
Proof.
  unfold open. case_decide; [|done]. intros [= <-]. rewrite length_take. lia.
Qed.
Lemma xor8_comm a b : xor8 a b = xor8 b a.
Proof. unfold xor8. by rewrite Z.lxor_comm. Qed.

#[export] Instance laws : CryptoLaws.
Proof.
  split; simpl; intros; try apply pad_len; eauto using open_seal, seal_len, open_len.
  - rewrite decide_True by done. eexists; split; [done|]. apply pad_len.
  - rewrite length_zip_with, !pad_len. done.
  - assert (forall l, pad 32 (pad 32 l) = pad 32 l) as Hpp
      by (intros l; rewrite <- (pad_len 32 l) at 1; apply pad_id).
    rewrite !Hpp, <- zip_with_flip. by apply zip_with_ext; [intros; apply xor8_comm|..].
Qed.
End Toy.
