(* ===== verification/Clock.v ===== *)
(** * Time stamps and atomic clocks (noise/timestamp.rs and device/time.rs of vlink-tun)

    A [SystemTime] is the number of nanoseconds since the Unix epoch (negative before it),
    an [Instant] a number of nanoseconds on the monotonic clock, a [Duration] a
    non-negative number of nanoseconds. What the clock reads is an argument ([now]) of
    every function that reads it. *)

From S2P Require Import Prelude Bytes.

Definition secs (n : Z) : Z := n * 10 ^ 9.
Definition millis (n : Z) : Z := n * 10 ^ 6.

(** [Instant::elapsed] saturates at zero. *)
Definition elapsed (now t : Z) : Z := Z.max 0 (now - t).

(** ** TAI64N stamps (timestamp.rs) *)

Definition BASE : Z := 0x400000000000000a.
Definition WHITENER_MASK : Z := 0x1000000 - 1.

(** [t.duration_since(UNIX_EPOCH).unwrap()] panics before the epoch; [BASE + secs] and
    [!WHITENER_MASK] are [u64] and [u32] arithmetic. *)
Definition stamp {E} (t : Z) : res E bytes :=
  if t <? 0 then Panic else
  let s := wrap 64 (BASE + t / 10 ^ 9) in
  let nanos := Z.land (t mod 10 ^ 9) (wrap 32 (Z.lnot WHITENER_MASK)) in
  Ok (be_bytes 8 s ++ be_bytes 4 nanos).

(** ** [AtomicTimestamp] and [AtomicInstant] (time.rs) *)

Record AtomicTimestamp := mkAtomicTimestamp { ts_secs : Z; ts_nanos : Z }.

Definition AtomicTimestamp_zeroed : AtomicTimestamp := {| ts_secs := 0; ts_nanos := 0 |}.
Definition AtomicTimestamp_from_std {E} (t : Z) : res E AtomicTimestamp :=
  if t <? 0 then Panic
  else Ok {| ts_secs := t / 10 ^ 9; ts_nanos := t mod 10 ^ 9 |}.
(** [UNIX_EPOCH.elapsed().expect(..)], then two stores. *)
Definition AtomicTimestamp_set_now {E} (now : Z) (t : AtomicTimestamp) : res E AtomicTimestamp :=
  if now <? 0 then Panic
  else Ok {| ts_secs := now / 10 ^ 9; ts_nanos := now mod 10 ^ 9 |}.
Definition AtomicTimestamp_timestamp (t : AtomicTimestamp) : Z * Z := (ts_secs t, ts_nanos t).
Definition AtomicTimestamp_to_std (t : AtomicTimestamp) : Z :=
  let '(s, n) := AtomicTimestamp_timestamp t in secs s + n.

(** A base instant and a [u64] of milliseconds after it. *)
Record AtomicInstant := mkAtomicInstant { epoch : Z; d : Z }.

Definition AtomicInstant_from_std (e : Z) : AtomicInstant := {| epoch := e; d := 0 |}.
Definition AtomicInstant_now (now : Z) : AtomicInstant := AtomicInstant_from_std now.
(** [elapsed.as_millis() as u64]. *)
Definition AtomicInstant_set_now (now : Z) (i : AtomicInstant) : AtomicInstant :=
  {| epoch := epoch i; d := wrap 64 (elapsed now (epoch i) / 10 ^ 6) |}.
Definition AtomicInstant_add_duration (dur : Z) (i : AtomicInstant) : AtomicInstant :=
  {| epoch := epoch i; d := wrap 64 (d i + wrap 64 (dur / 10 ^ 6)) |}.
Definition AtomicInstant_to_std (i : AtomicInstant) : Z := epoch i + millis (d i).
Definition AtomicInstant_elapsed (now : Z) (i : AtomicInstant) : Z :=
  elapsed now (AtomicInstant_to_std i).
(** [Add<Duration>], and the comparisons, which are those of the instants it stands for. *)
Definition AtomicInstant_add (self : AtomicInstant) (rhs : Z) : AtomicInstant := AtomicInstant_add_duration rhs self.
Definition AtomicInstant_eq (self other : AtomicInstant) : bool := AtomicInstant_to_std self =? AtomicInstant_to_std other.
Definition AtomicInstant_cmp (self other : AtomicInstant) : comparison := AtomicInstant_to_std self ?= AtomicInstant_to_std other.

(** ** Lemmas *)

(** The order is total on the instants, coarser than equality of the two fields, and adding a
    duration that is short enough never goes back. *)
Lemma AtomicInstant_cmp_eq i j : AtomicInstant_cmp i j = Eq <-> AtomicInstant_eq i j = true.
Proof. unfold AtomicInstant_cmp, AtomicInstant_eq. by rewrite Z.compare_eq_iff, Z.eqb_eq. Qed.
Lemma AtomicInstant_add_le i dur : in_u 64 (d i) -> 0 <= dur -> d i + dur / 10 ^ 6 < 2 ^ 64 ->
  AtomicInstant_cmp i (AtomicInstant_add i dur) <> Gt.
Proof.
  unfold in_u. intros Hd Hdur Hb. assert (0 <= dur / 10 ^ 6) by (apply Z.div_pos; lia).
  unfold AtomicInstant_cmp, AtomicInstant_add, AtomicInstant_add_duration, AtomicInstant_to_std, millis. cbn [epoch d].
  rewrite !wrap_small by (unfold in_u; rewrite ?wrap_small; unfold in_u; lia). apply Z.compare_le_iff. lia.
Qed.
Example AtomicInstant_eq_coarser :
  AtomicInstant_eq (mkAtomicInstant 0 1) (mkAtomicInstant (10 ^ 6) 0) = true.
Proof. by vm_compute. Qed.

Lemma whitened n : 0 <= n < 2 ^ 32 ->
  Z.land n (wrap 32 (Z.lnot WHITENER_MASK)) = n / 2 ^ 24 * 2 ^ 24.
Proof.
  intros Hn. rewrite <- Z.shiftl_mul_pow2, <- Z.shiftr_div_pow2, <- Z.ldiff_ones_r by lia.
  apply Z.bits_inj'. intros i Hi. rewrite Z.land_spec, Z.ldiff_spec. unfold wrap.
  destruct (Z.ltb_spec i 32).
  - rewrite Z.mod_pow2_bits_low, Z.lnot_spec by lia. done.
  - assert (Z.testbit n i = false) as -> by (apply Z.bounded_iff_bits_nonneg with 32; lia).
    done.
Qed.

Lemma stamp_Ok {E} t : 0 <= t -> t / 10 ^ 9 < 2 ^ 64 - BASE ->
  exists b, stamp (E := E) t = Ok b /\ length b = 12%nat /\
    be_val b = (BASE + t / 10 ^ 9) * 2 ^ 32 + t mod 10 ^ 9 / 2 ^ 24 * 2 ^ 24.
Proof.
  intros Ht Hb. unfold stamp. destruct (Z.ltb_spec t 0); [lia|].
  eexists. split; [done|].
  assert (0 <= t mod 10 ^ 9 < 10 ^ 9) by (apply Z.mod_pos_bound; lia).
  assert (0 <= t / 10 ^ 9) by (apply Z.div_pos; lia).
  unfold BASE in *.
  split; [by rewrite length_app, !length_be_bytes|].
  rewrite be_val_app, length_be_bytes, whitened by lia.
  rewrite !be_val_bytes_small.
  - rewrite wrap_small by (unfold in_u; lia). done.
  - unfold in_u. dlia.
  - rewrite wrap_small; unfold in_u; simpl; lia.
Qed.

(** Handshake stamps are 12 bytes and ordered like the clock: a later stamp is never
    smaller, and a stamp taken at least 2^24 ns later (the whitened resolution) is strictly
    greater. *)
Theorem stamp_monotone {E} t1 t2 :
  0 <= t1 -> t1 <= t2 -> t2 / 10 ^ 9 < 2 ^ 64 - BASE ->
  exists b1 b2, stamp (E := E) t1 = Ok b1 /\ stamp (E := E) t2 = Ok b2 /\
    length b1 = 12%nat /\ length b2 = 12%nat /\
    bytes_cmp b1 b2 <> Gt /\ (t1 + 2 ^ 24 <= t2 -> bytes_cmp b1 b2 = Lt).
Proof.
  intros H1 H12 Hb.
  destruct (stamp_Ok (E := E) t1) as (b1 & -> & Hl1 & Hv1); [done|dlia|].
  destruct (stamp_Ok (E := E) t2) as (b2 & -> & Hl2 & Hv2); [lia|done|].
  exists b1, b2. rewrite bytes_cmp_be_val by congruence. rewrite Hv1, Hv2.
  split_and!; try done.
  - apply Z.compare_le_iff. dlia.
  - intros. apply Z.compare_lt_iff. dlia.
Qed.
Lemma stamp_monotone_witness :
  exists b1 b2, stamp (E := unit) 123456789 = Ok b1 /\ stamp (E := unit) 143456789 = Ok b2 /\
    length b1 = 12%nat /\ length b2 = 12%nat /\
    bytes_cmp b1 b2 <> Gt /\ (123456789 + 2 ^ 24 <= 143456789 -> bytes_cmp b1 b2 = Lt).
Proof. apply (stamp_monotone 123456789 143456789); [lia|lia|reflexivity]. Defined.

(** The bytes the unit test expects for 123456789 ns after the epoch. *)
Example stamp_test :
  stamp (E := unit) 123456789 = Ok [x40; x00; x00; x00; x00; x00; x00; x0a; x07; x00; x00; x00].
Proof. vm_compute. reflexivity. Qed.

(** [AtomicTimestamp] keeps a system time exactly and [AtomicInstant] keeps the clock to
    the millisecond: reading back what was stored is the stored time, and [set_now] is less
    than a millisecond behind and never ahead of the clock. *)
Theorem atomic_clock_exact {E} now i :
  0 <= now -> epoch i <= now -> (now - epoch i) / 10 ^ 6 < 2 ^ 64 ->
  (AtomicTimestamp_to_std <$> AtomicTimestamp_from_std (E := E) now) = Ok now /\
  AtomicInstant_to_std (AtomicInstant_from_std now) = now /\
  now - 10 ^ 6 < AtomicInstant_to_std (AtomicInstant_set_now now i) <= now /\
  AtomicInstant_elapsed now (AtomicInstant_set_now now i) < 10 ^ 6.
Proof.
  intros Hn He Hd. unfold AtomicTimestamp_from_std, AtomicInstant_elapsed, AtomicInstant_to_std,
    AtomicInstant_set_now, AtomicInstant_from_std, elapsed, millis. simpl.
  rewrite Z.max_r, wrap_small by (unfold in_u; dlia).
  destruct (Z.ltb_spec now 0); [lia|]. simpl.
  unfold AtomicTimestamp_to_std, secs; simpl. split_and!; try dlia. f_equal. dlia.
Qed.
Lemma atomic_clock_exact_witness :
  let i := AtomicInstant_from_std 100 in
  AtomicInstant_to_std (AtomicInstant_set_now 5123456 i) = 5000100 /\
  5123456 - 10 ^ 6 < AtomicInstant_to_std (AtomicInstant_set_now 5123456 i) <= 5123456.
Proof.
  split; [reflexivity|].
  apply (atomic_clock_exact (E := unit) 5123456 (AtomicInstant_from_std 100));
    [lia|simpl; lia|reflexivity].
Defined.
