(* ===== verification/Noise.v ===== *)
(** * The Noise IKpsk2 handshake (vlink-tun/src/noise/handshake/)

    [initiation.rs], [response.rs] and [cookie.rs]: the two handshake messages as their
    sender builds them and as their receiver reads them, and the MACs that guard them.
    Randomness and clocks are arguments: [rnd] is the ephemeral private key drawn,
    [now] the system time of the stamp, [clk] the monotonic clock. *)

From S2P Require Import Prelude Bytes Protocol Crypto Clock.

Definition CONSTRUCTION : bytes :=
  Eval vm_compute in String.list_byte_of_string "Noise_IKpsk2_25519_ChaChaPoly_BLAKE2s".
Definition IDENTIFIER : bytes :=
  Eval vm_compute in String.list_byte_of_string "WireGuard v1 zx2c4 Jason@zx2c4.com".
Definition LABEL_MAC1 : bytes := Eval vm_compute in String.list_byte_of_string "mac1----".
Definition LABEL_COOKIE : bytes := Eval vm_compute in String.list_byte_of_string "cookie--".

(** [std::net::SocketAddr]: address octets and port. *)
Inductive SocketAddr :=
| AddrV4 (octets : bytes) (port : Z)
| AddrV6 (octets : bytes) (port : Z).
#[global] Instance SocketAddr_eq_dec : EqDecision SocketAddr.
Proof. solve_decision. Defined.

(** [let a: [u8; n] = v.try_into().unwrap()]. *)
Definition to_array {E} (n : nat) (v : bytes) : res E bytes :=
  if (length v =? n)%nat then Ok v else Panic.

Definition COOKIE_LIFETIME : Z := secs 120.

Section Noise.
Context `{CryptoPrims}.

(** ** cookie.rs *)

Record MacGenerator := mkMacGenerator {
  peer_mac1_hash : bytes;
  peer_cookie_hash : bytes;
  last_cookie : option (bytes * Z);
}.

Definition MacGenerator_new (secret : PeerStaticSecret) : MacGenerator :=
  let peer_pub := peer_public secret in
  {| peer_mac1_hash := hash LABEL_MAC1 peer_pub;
     peer_cookie_hash := hash LABEL_COOKIE peer_pub;
     last_cookie := None |}.

Definition generate_mac1 {E} (g : MacGenerator) (payload : bytes) : res E bytes :=
  mac (peer_mac1_hash g) payload.

Definition generate_mac2 {E} (clk : Z) (g : MacGenerator) (payload : bytes) : res E bytes :=
  match last_cookie g with
  | None => Ok (replicate 16 x00)
  | Some (_, at_) =>
      if COOKIE_LIFETIME <=? elapsed clk at_ then Ok (replicate 16 x00)
      else mac (peer_cookie_hash g) payload
  end.

Record Cookie := mkCookie {
  cookie_secret : option (bytes * Z);
  cookie_hash : bytes;
  mac1_hash : bytes;
}.

Definition Cookie_new (secret : LocalStaticSecret) : Cookie :=
  {| cookie_secret := None;
     cookie_hash := hash LABEL_COOKIE (local_public secret);
     mac1_hash := hash LABEL_MAC1 (local_public secret) |}.

(** [payload.len() - 32] underflows on a shorter payload and the split panics. *)
Definition split_macs {E} (payload : bytes) : res E (bytes * bytes * bytes) :=
  if (length payload <? 32)%nat then Panic else
  '(msg, macs) ← split_at (length payload - 32) payload;
  '(mac1, mac2) ← split_at 16 macs;
  Ok (msg, mac1, mac2).

Definition validate_mac1 {E} (c : Cookie) (payload : bytes) : res E bool :=
  '(msg, mac1, _) ← split_macs payload;
  m ← mac (mac1_hash c) msg;
  Ok (bool_decide (mac1 = m)).

Definition validate_mac2 {E} (c : Cookie) (payload : bytes) : res E bool :=
  '(msg, _, mac2) ← split_macs payload;
  m ← mac (cookie_hash c) msg;
  Ok (bool_decide (mac2 = m)).

(** [rv] is the fresh secret the random source would deliver. *)
Definition refresh_secret (clk : Z) (rv : bytes) (c : Cookie) : Cookie * bytes :=
  let fresh := (mkCookie (Some (rv, clk)) (cookie_hash c) (mac1_hash c), rv) in
  match cookie_secret c with
  | Some (v, at_) => if elapsed clk at_ <? COOKIE_LIFETIME then (c, v) else fresh
  | None => fresh
  end.

Definition encode_dst_addr (addr : SocketAddr) : bytes :=
  match addr with
  | AddrV4 ip port => ip ++ le_bytes 2 port
  | AddrV6 ip port => ip ++ le_bytes 2 port
  end.

Definition generate_cookie_reply {E} (clk : Z) (nonce rv : bytes) (c : Cookie) (payload : bytes)
    (dst : SocketAddr) : res E (Cookie * bytes) :=
  idx ← slice 4 8 payload;
  mac1 ← (if (length payload <? 32)%nat then Panic
          else slice (length payload - 32) (length payload - 16) payload);
  let '(c, secret) := refresh_secret clk rv c in
  msg ← mac secret (encode_dst_addr dst);
  cookie ← unwrap (xaead_encrypt (cookie_hash c) nonce msg mac1);
  Ok (c, le_bytes 4 (u8 MESSAGE_TYPE_COOKIE_REPLY) ++ idx ++ nonce ++ cookie).

(** ** initiation.rs *)

Record OutgoingInitiation := mkOutgoingInitiation {
  oi_index : Z;
  oi_hash : bytes;
  oi_chaining_key : bytes;
  oi_ephemeral_private_key : bytes;
}.

Definition OutgoingInitiation_new {E} (rnd : bytes) (now clk : Z) (sender_index : Z)
    (secret : PeerStaticSecret) (macs : MacGenerator) : res E (OutgoingInitiation * bytes) :=
  let buf := le_bytes 4 (u8 MESSAGE_TYPE_HANDSHAKE_INITIATION) ++ le_bytes 4 sender_index in
  let c := hash CONSTRUCTION [] in
  let h := hash (hash c IDENTIFIER) (peer_public secret) in
  let '(ephemeral_pri, ephemeral_pub) := gen_ephemeral_key rnd in
  let c := kdf1 c ephemeral_pub in
  let buf := buf ++ ephemeral_pub in
  let h := hash h ephemeral_pub in
  let '(c, k) := kdf2 c (x25519 ephemeral_pri (peer_public secret)) in
  static_key ← unwrap (aead_encrypt k 0 (local_public (local secret)) h);
  let buf := buf ++ static_key in
  let h := hash h static_key in
  let '(c, k) := kdf2 c (x25519 (private_key (local secret)) (peer_public secret)) in
  ts ← stamp now;
  timestamp ← unwrap (aead_encrypt k 0 ts h);
  let buf := buf ++ timestamp in
  let h := hash h timestamp in
  mac1 ← generate_mac1 macs buf;
  let buf := buf ++ mac1 in
  mac2 ← generate_mac2 clk macs buf;
  let buf := buf ++ mac2 in
  Ok (mkOutgoingInitiation sender_index h c ephemeral_pri, buf).

Record IncomingInitiation := mkIncomingInitiation {
  ii_index : Z;
  ii_hash : bytes;
  ii_chaining_key : bytes;
  ii_timestamp : bytes;
  ii_ephemeral_public_key : bytes;
  ii_static_public_key : bytes;
}.

Definition IncomingInitiation_parse (secret : LocalStaticSecret) (packet : HandshakeInitiation)
    : res NoiseError IncomingInitiation :=
  let c := hash CONSTRUCTION [] in
  let h := hash (hash c IDENTIFIER) (local_public secret) in
  let peer_ephemeral_pub := hi_ephemeral_public_key packet in
  let c := kdf1 c (hi_ephemeral_public_key packet) in
  let h := hash h (hi_ephemeral_public_key packet) in
  let '(c, k) := kdf2 c (x25519 (private_key secret) peer_ephemeral_pub) in
  static_key ← aead_decrypt k 0 (hi_static_public_key packet) h;
  peer_static_pub ← to_array 32 static_key;
  let h := hash h (hi_static_public_key packet) in
  let '(c, k) := kdf2 c (x25519 (private_key secret) peer_static_pub) in
  timestamp ← aead_decrypt k 0 (hi_timestamp packet) h;
  timestamp ← to_array 12 timestamp;
  let h := hash h (hi_timestamp packet) in
  Ok (mkIncomingInitiation (hi_sender_index packet) h c timestamp peer_ephemeral_pub
        peer_static_pub).

(** ** response.rs *)

Record OutgoingResponse := mkOutgoingResponse {
  or_hash : bytes;
  or_chaining_key : bytes;
  or_ephemeral_private_key : bytes;
}.

Definition OutgoingResponse_new {E} (rnd : bytes) (clk : Z) (initiation : IncomingInitiation)
    (local_index : Z) (secret : PeerStaticSecret) (macs : MacGenerator)
    : res E (OutgoingResponse * bytes) :=
  let buf := le_bytes 4 (u8 MESSAGE_TYPE_HANDSHAKE_RESPONSE) ++ le_bytes 4 local_index ++
             le_bytes 4 (ii_index initiation) in
  let '(ephemeral_pri, ephemeral_pub) := gen_ephemeral_key rnd in
  let buf := buf ++ ephemeral_pub in
  let c := kdf1 (ii_chaining_key initiation) ephemeral_pub in
  let h := hash (ii_hash initiation) ephemeral_pub in
  let c := kdf1 c (x25519 ephemeral_pri (ii_ephemeral_public_key initiation)) in
  let c := kdf1 c (x25519 ephemeral_pri (peer_public secret)) in
  let '(c, t, k) := kdf3 c (psk secret) in
  let h := hash h t in
  empty ← unwrap (aead_encrypt k 0 [] h);
  let buf := buf ++ empty in
  let h := hash h empty in
  mac1 ← generate_mac1 macs buf;
  let buf := buf ++ mac1 in
  mac2 ← generate_mac2 clk macs buf;
  let buf := buf ++ mac2 in
  Ok (mkOutgoingResponse h c ephemeral_pri, buf).

Record IncomingResponse := mkIncomingResponse {
  ir_index : Z;
  ir_ephemeral_public_key : bytes;
  ir_hash : bytes;
  ir_chaining_key : bytes;
}.

Definition IncomingResponse_parse (initiation : OutgoingInitiation) (secret : PeerStaticSecret)
    (packet : HandshakeResponse) : res NoiseError IncomingResponse :=
  let peer_ephemeral_pub := hr_ephemeral_public_key packet in
  let c := kdf1 (oi_chaining_key initiation) peer_ephemeral_pub in
  let h := hash (oi_hash initiation) peer_ephemeral_pub in
  let c := kdf1 c (x25519 (oi_ephemeral_private_key initiation) peer_ephemeral_pub) in
  let c := kdf1 c (x25519 (private_key (local secret)) peer_ephemeral_pub) in
  let '(c, t, k) := kdf3 c (psk secret) in
  let h := hash h t in
  empty ← aead_decrypt k 0 (hr_empty packet) h;
  if negb (length empty =? 0)%nat then Err Decryption else
  let h := hash h (hr_empty packet) in
  Ok (mkIncomingResponse (hr_sender_index packet) peer_ephemeral_pub h c).

End Noise.

(** ** Lemmas *)

Section Facts.
Context `{CryptoLaws}.

Definition macs_ok (g : MacGenerator) : Prop :=
  (length (peer_mac1_hash g) <= 32)%nat /\ (length (peer_cookie_hash g) <= 32)%nat.
Lemma MacGenerator_new_ok s : macs_ok (MacGenerator_new s).
Proof. split; simpl; rewrite hash_len; done. Qed.

Lemma generate_mac1_Ok {E} g b : macs_ok g ->
  exists m, generate_mac1 (E := E) g b = Ok m /\ length m = 16%nat.
Proof. intros [? ?]. by apply mac_Ok. Qed.
Lemma generate_mac2_Ok {E} clk g b : macs_ok g ->
  exists m, generate_mac2 (E := E) clk g b = Ok m /\ length m = 16%nat.
Proof.
  intros [? ?]. unfold generate_mac2. destruct (last_cookie g) as [[? ?]|]; [|by exists (replicate 16 x00)].
  destruct (_ <=? _); [by exists (replicate 16 x00)|by apply mac_Ok].
Qed.

Lemma kdf2_len a b c k : kdf2 a b = (c, k) -> length c = 32%nat /\ length k = 32%nat.
Proof. intros [= <- <-]. by rewrite hmac1_len, hmac2_len. Qed.
Lemma kdf3_len a b c t k :
  kdf3 a b = (c, t, k) -> length c = 32%nat /\ length t = 32%nat /\ length k = 32%nat.
Proof. intros [= <- <- <-]. by rewrite hmac1_len, !hmac2_len. Qed.

Lemma to_array_Ok {E} n v : length v = n -> to_array (E := E) n v = Ok v.
Proof. intros <-. unfold to_array. by rewrite Nat.eqb_refl. Qed.

Lemma aead_max_small n : (n <= 32)%nat -> Z.of_nat n <= aead_max.
Proof. unfold aead_max. lia. Qed.

(** A clock reading the stamp can hold. *)
Definition clock_ok (now : Z) : Prop := 0 <= now /\ now / 10 ^ 9 < 2 ^ 64 - BASE.

(** The static keys of the two ends: [si] and [sr] are the private keys of the initiator
    and of the responder, [k] the pre-shared key. *)
Definition initiator (si sr k : bytes) : PeerStaticSecret :=
  set_psk (with_peer (LocalStaticSecret_new si) (x25519_base sr)) k.
Definition responder (si sr k : bytes) : PeerStaticSecret :=
  set_psk (with_peer (LocalStaticSecret_new sr) (x25519_base si)) k.

Ltac secrets :=
  cbn [local peer_public psk private_key local_public set_psk with_peer PeerStaticSecret_new
    LocalStaticSecret_new initiator responder hi_sender_index hi_ephemeral_public_key
    hi_static_public_key hi_timestamp hr_sender_index hr_receiver_index hr_ephemeral_public_key
    hr_empty].

(** The initiation, built, parsed and read by the responder. *)
Lemma initiation_exchange {E} rnd now clk idx si sr k macs :
  in_u 32 idx -> clock_ok now -> macs_ok macs ->
  exists oi p pk ii,
    OutgoingInitiation_new (E := E) rnd now clk idx (initiator si sr k) macs = Ok (oi, p) /\
    HandshakeInitiation_try_from p = Ok pk /\
    IncomingInitiation_parse (local (responder si sr k)) pk = Ok ii /\
    oi_index oi = idx /\ ii_index ii = idx /\
    oi_ephemeral_private_key oi = rnd /\ ii_ephemeral_public_key ii = x25519_base rnd /\
    ii_hash ii = oi_hash oi /\ ii_chaining_key ii = oi_chaining_key oi /\
    ii_static_public_key ii = x25519_base si /\ stamp (E := E) now = Ok (ii_timestamp ii).
Proof.
  intros Hidx [Hn1 Hn2] Hmacs. unfold OutgoingInitiation_new, gen_ephemeral_key. simpl peer_public. simpl local.
  destruct (kdf2 (kdf1 (hash CONSTRUCTION []) (x25519_base rnd)) (x25519 rnd (x25519_base sr)))
    as [c1 k1] eqn:Hk1. destruct (kdf2_len _ _ _ _ Hk1) as [_ Hlk1].
  simpl local_public. simpl private_key.
  set (h1 := hash (hash (hash (hash CONSTRUCTION []) IDENTIFIER) (x25519_base sr)) (x25519_base rnd)).
  destruct (aead_roundtrip_Ok k1 0 (x25519_base si) h1) as (sk & Hske & Hskd & Hskl);
    [done|rewrite x25519_base_len; by apply aead_max_small|].
  rewrite Hske. cbn [unwrap mbind res_bind].
  destruct (kdf2 c1 (x25519 si (x25519_base sr))) as [c2 k2] eqn:Hk2.
  destruct (kdf2_len _ _ _ _ Hk2) as [_ Hlk2].
  destruct (stamp_Ok (E := E) now Hn1 Hn2) as (ts & Hts & Hlts & _). rewrite Hts. cbn [mbind res_bind].
  destruct (aead_roundtrip_Ok k2 0 ts (hash h1 sk)) as (et & Hete & Hetd & Hetl);
    [done|rewrite Hlts; apply aead_max_small; lia|].
  rewrite Hete. cbn [unwrap mbind res_bind].
  match goal with |- context [generate_mac1 macs ?b] =>
    destruct (generate_mac1_Ok (E := E) macs b Hmacs) as (m1 & -> & Hlm1) end.
  cbn [mbind res_bind].
  match goal with |- context [generate_mac2 clk macs ?b] =>
    destruct (generate_mac2_Ok (E := E) clk macs b Hmacs) as (m2 & -> & Hlm2) end.
  cbn [mbind res_bind].
  pose (pk := mkHandshakeInitiation idx (x25519_base rnd) sk et m1 m2).
  eexists _, _, pk, _. split; [reflexivity|]. split.
  { rewrite <- !app_assoc. apply (initiation_try_from_encode pk).
    simpl. rewrite x25519_base_len, Hskl, Hetl, x25519_base_len, Hlts. done. }
  unfold IncomingInitiation_parse, pk. secrets.
  rewrite (x25519_comm sr rnd), Hk1. fold h1. rewrite Hskd. cbn [mbind res_bind].
  rewrite to_array_Ok by apply x25519_base_len. cbn [mbind res_bind].
  rewrite (x25519_comm sr si), Hk2, Hetd. cbn [mbind res_bind].
  rewrite to_array_Ok by done. cbn [mbind res_bind]. split_and!; reflexivity.
Qed.

(** The response to a read initiation, built, parsed and read by the initiator. *)
Lemma response_exchange {E} rnd clk idx si sr k macs oi ii :
  in_u 32 idx -> in_u 32 (ii_index ii) -> macs_ok macs ->
  ii_hash ii = oi_hash oi -> ii_chaining_key ii = oi_chaining_key oi ->
  ii_ephemeral_public_key ii = x25519_base (oi_ephemeral_private_key oi) ->
  exists or p pk ir,
    OutgoingResponse_new (E := E) rnd clk ii idx (responder si sr k) macs = Ok (or, p) /\
    HandshakeResponse_try_from p = Ok pk /\
    IncomingResponse_parse oi (initiator si sr k) pk = Ok ir /\
    hr_receiver_index pk = ii_index ii /\ hr_sender_index pk = idx /\ ir_index ir = idx /\
    ir_hash ir = or_hash or /\ ir_chaining_key ir = or_chaining_key or.
Proof.
  intros Hidx Hii Hmacs Hh Hc He. unfold OutgoingResponse_new, gen_ephemeral_key.
  simpl peer_public. simpl psk. rewrite Hh, Hc, He.
  destruct (kdf3 (kdf1 (kdf1 (kdf1 (oi_chaining_key oi) (x25519_base rnd))
      (x25519 rnd (x25519_base (oi_ephemeral_private_key oi)))) (x25519 rnd (x25519_base si))) k)
    as [[c t] key] eqn:Hkdf. destruct (kdf3_len _ _ _ _ _ Hkdf) as (_ & _ & Hlk).
  destruct (aead_roundtrip_Ok key 0 [] (hash (hash (oi_hash oi) (x25519_base rnd)) t))
    as (em & Heme & Hemd & Heml); [done|apply aead_max_small; simpl; lia|].
  rewrite Heme. cbn [unwrap mbind res_bind].
  match goal with |- context [generate_mac1 macs ?b] =>
    destruct (generate_mac1_Ok (E := E) macs b Hmacs) as (m1 & -> & Hlm1) end.
  cbn [mbind res_bind].
  match goal with |- context [generate_mac2 clk macs ?b] =>
    destruct (generate_mac2_Ok (E := E) clk macs b Hmacs) as (m2 & -> & Hlm2) end.
  cbn [mbind res_bind].
  pose (pk := mkHandshakeResponse idx (ii_index ii) (x25519_base rnd) em m1 m2).
  eexists _, _, pk, _. split; [reflexivity|]. split.
  { rewrite <- !app_assoc. apply (response_try_from_encode pk).
    simpl. rewrite x25519_base_len, Heml. done. }
  unfold IncomingResponse_parse, pk. secrets.
  rewrite (x25519_comm (oi_ephemeral_private_key oi) rnd), (x25519_comm si rnd), Hkdf, Hemd.
  cbn. split_and!; reflexivity.
Qed.

(** A handshake message ends with [mac1] over everything before it and [mac2] over
    everything before that. *)
Definition ends_with_macs (g : MacGenerator) (clk : Z) (p : bytes) : Prop :=
  exists buf m1 m2, p = buf ++ m1 ++ m2 /\
    generate_mac1 (E := unit) g buf = Ok m1 /\
    generate_mac2 (E := unit) clk g (buf ++ m1) = Ok m2.

Lemma mac_poly {E F} k b m : mac (E := E) k b = Ok m -> mac (E := F) k b = Ok m.
Proof. unfold mac. destruct (blake2s_mac k b); simpl; congruence. Qed.
Lemma generate_mac2_poly {E F} clk g b m :
  generate_mac2 (E := E) clk g b = Ok m -> generate_mac2 (E := F) clk g b = Ok m.
Proof.
  unfold generate_mac2. destruct (last_cookie g) as [[? ?]|]; [|congruence].
  destruct (_ <=? _); [congruence|apply mac_poly].
Qed.

Lemma Ok_snd {E A B} (a a' : A) (b b' : B) : Ok (E := E) (a, b) = Ok (a', b') -> b = b'.
Proof. by intros [= _ ->]. Qed.

Lemma initiation_macs {E} rnd now clk idx s g oi p :
  OutgoingInitiation_new (E := E) rnd now clk idx s g = Ok (oi, p) -> ends_with_macs g clk p.
Proof.
  unfold OutgoingInitiation_new, gen_ephemeral_key.
  repeat match goal with |- context [let '(_, _) := kdf2 ?a ?b in _] => destruct (kdf2 a b) end.
  intros Hr. repeat (apply bind_Ok_inv in Hr as (? & ? & Hr);
    try match type of Hr with context [let '(_, _) := kdf2 ?a ?b in _] => destruct (kdf2 a b) end).
  apply Ok_snd in Hr as <-. eexists _, _, _. split; [symmetry; apply app_assoc|].
  split; [by eapply mac_poly|by eapply generate_mac2_poly].
Qed.
Lemma response_macs {E} rnd clk ii idx s g or p :
  OutgoingResponse_new (E := E) rnd clk ii idx s g = Ok (or, p) -> ends_with_macs g clk p.
Proof.
  unfold OutgoingResponse_new, gen_ephemeral_key. destruct (kdf3 _ _) as [[? ?] ?].
  intros Hr. repeat (apply bind_Ok_inv in Hr as (? & ? & Hr)).
  apply Ok_snd in Hr as <-. eexists _, _, _. split; [symmetry; apply app_assoc|].
  split; [by eapply mac_poly|by eapply generate_mac2_poly].
Qed.

Lemma split_macs_Ok {E} buf m1 m2 :
  length m1 = 16%nat -> length m2 = 16%nat ->
  split_macs (E := E) (buf ++ m1 ++ m2) = Ok (buf, m1, m2).
Proof.
  intros H1 H2. unfold split_macs, split_at. rewrite !length_app, H1, H2.
  destruct (Nat.ltb_spec (length buf + (16 + 16)) 32); [lia|].
  rewrite decide_True by lia. cbn [mbind res_bind].
  replace (length buf + (16 + 16) - 32)%nat with (length buf) by lia.
  rewrite take_app_length, drop_app_length, length_app, H1, H2, decide_True by lia.
  cbn [mbind res_bind]. by rewrite (take_app_length' m1), (drop_app_length' m1) by lia.
Qed.

Lemma macs_lengths g clk p :
  macs_ok g -> ends_with_macs g clk p ->
  exists buf m1 m2, p = buf ++ m1 ++ m2 /\ generate_mac1 (E := unit) g buf = Ok m1 /\
    generate_mac2 (E := unit) clk g (buf ++ m1) = Ok m2 /\ length m1 = 16%nat /\ length m2 = 16%nat.
Proof.
  intros Hok (buf & m1 & m2 & -> & H1 & H2).
  destruct (generate_mac1_Ok (E := unit) g buf Hok) as (m1' & H1' & ?).
  destruct (generate_mac2_Ok (E := unit) clk g (buf ++ m1) Hok) as (m2' & H2' & ?).
  rewrite H1 in H1'. rewrite H2 in H2'. injection H1' as <-. injection H2' as <-.
  by exists buf, m1, m2.
Qed.

(** [mac1] made for a peer's public key is what that peer recomputes. *)
Lemma mac1_validates {E} (s : PeerStaticSecret) (l : LocalStaticSecret) clk p :
  local_public l = peer_public s ->
  ends_with_macs (MacGenerator_new s) clk p -> validate_mac1 (E := E) (Cookie_new l) p = Ok true.
Proof.
  intros Hl (buf & m1 & m2 & -> & H1 & H2 & L1 & L2)%macs_lengths; [|apply MacGenerator_new_ok].
  unfold validate_mac1. rewrite split_macs_Ok by done. cbn [mbind res_bind].
  cbn [mac1_hash Cookie_new]. rewrite Hl, (mac_poly (E := unit) _ _ m1 H1). cbn [mbind res_bind].
  by rewrite bool_decide_true.
Qed.

(** Reading a message never panics: a decrypted field has the size of its array. *)
Lemma aead_decrypt_len k c m a p : aead_decrypt k c m a = Ok p -> length m = (length p + 16)%nat.
Proof.
  unfold aead_decrypt. destruct (negb _); [done|].
  destruct (chacha_decrypt _ _ _ _) eqn:Hd; [|done]. intros [= <-]. by eapply chacha_decrypt_len.
Qed.
Lemma aead_decrypt_cases k c m a :
  length k = 32%nat -> (exists p, aead_decrypt k c m a = Ok p) \/ aead_decrypt k c m a = Err Decryption.
Proof.
  intros Hk. unfold aead_decrypt. rewrite Hk. simpl. destruct (chacha_decrypt _ _ _ _); eauto.
Qed.

Lemma initiation_parse_cases l pk : wf_message (MsgHandshakeInitiation pk) ->
  (exists ii, IncomingInitiation_parse l pk = Ok ii) \/ IncomingInitiation_parse l pk = Err Decryption.
Proof.
  intros (_ & _ & Hs & Ht & _). unfold IncomingInitiation_parse.
  destruct (kdf2 _ _) as [c1 k1] eqn:Hk1. destruct (kdf2_len _ _ _ _ Hk1) as [_ Hl1].
  match goal with |- context [aead_decrypt ?k ?c ?m ?a] =>
    destruct (aead_decrypt_cases k c m a Hl1) as [[p1 Hp1]| ->] end; [|by right].
  rewrite Hp1. cbn [mbind res_bind].
  rewrite to_array_Ok by (apply aead_decrypt_len in Hp1; lia). cbn [mbind res_bind].
  destruct (kdf2 c1 _) as [c2 k2] eqn:Hk2. destruct (kdf2_len _ _ _ _ Hk2) as [_ Hl2].
  match goal with |- context [aead_decrypt ?k ?c ?m ?a] =>
    destruct (aead_decrypt_cases k c m a Hl2) as [[p2 Hp2]| ->] end; [|by right].
  rewrite Hp2. cbn [mbind res_bind].
  rewrite to_array_Ok by (apply aead_decrypt_len in Hp2; lia). left. by eexists.
Qed.
Lemma response_parse_cases oi s pk :
  (exists ir, IncomingResponse_parse oi s pk = Ok ir) \/ IncomingResponse_parse oi s pk = Err Decryption.
Proof.
  unfold IncomingResponse_parse.
  destruct (kdf3 _ _) as [[c t] k] eqn:Hk. destruct (kdf3_len _ _ _ _ _ Hk) as (_ & _ & Hl).
  match goal with |- context [aead_decrypt ?k ?c ?m ?a] =>
    destruct (aead_decrypt_cases k c m a Hl) as [[p ->]| ->] end; [|by right].
  cbn [mbind res_bind]. destruct (negb _); [by right|left; by eexists].
Qed.

(** A cookie whose hash and secret are keys of the primitives. *)
Definition cookie_ok (c : Cookie) : Prop :=
  length (cookie_hash c) = 32%nat /\
  forall v at_, cookie_secret c = Some (v, at_) -> length v = 32%nat.
Lemma Cookie_new_ok l : cookie_ok (Cookie_new l).
Proof. split; [apply hash_len|done]. Qed.

Lemma refresh_secret_spec clk rv c c' s :
  cookie_ok c -> length rv = 32%nat -> refresh_secret clk rv c = (c', s) ->
  cookie_ok c' /\ length s = 32%nat /\ cookie_hash c' = cookie_hash c /\
  exists at_, cookie_secret c' = Some (s, at_) /\ elapsed clk at_ < COOKIE_LIFETIME.
Proof.
  intros [Hh Hs] Hrv. unfold refresh_secret.
  assert (elapsed clk clk < COOKIE_LIFETIME) by (unfold elapsed, COOKIE_LIFETIME, secs; lia).
  assert (cookie_ok (mkCookie (Some (rv, clk)) (cookie_hash c) (mac1_hash c))).
  { split; [done|]. by intros v at_ [= <- <-]. }
  destruct (cookie_secret c) as [[v at_]|] eqn:Hc; [destruct (Z.ltb_spec (elapsed clk at_) COOKIE_LIFETIME)|];
    intros [= <- <-]; split_and!; cbn [cookie_hash cookie_secret]; eauto; split; naive_solver.
Qed.

Lemma xaead_roundtrip_Ok k n m a :
  length k = 32%nat -> length n = 24%nat -> Z.of_nat (length m) <= aead_max ->
  exists e, xaead_encrypt k n m a = Ok e /\ xaead_decrypt k n e a = Ok m /\
    length e = (length m + 16)%nat.
Proof.
  intros Hk Hn Hm. unfold xaead_encrypt, xaead_decrypt. rewrite Hk, Hn. cbn [negb Nat.eqb].
  destruct (xchacha_roundtrip k n m a) as (e & He & Hd); [done..|].
  exists e. rewrite He, Hd. split_and!; [done..|]. by eapply xchacha_encrypt_len.
Qed.
End Facts.

(** ** Properties *)

Section Properties.
Context `{CryptoLaws}.

(** C4: the handshake completes and both ends agree. For any two static keys, pre-shared
    key, ephemeral keys, indices and clock readings, the initiation the initiator builds is
    parsed and decrypted by the responder, the response the responder builds is parsed and
    decrypted by the initiator, each learns the other's index, the responder learns the
    initiator's static public key and stamp, and both hold the same transcript hash and the
    same chaining key. *)
Theorem handshake_agreement si sr k ei er now clk clk' xi xr :
  in_u 32 xi -> in_u 32 xr -> clock_ok now ->
  let I := initiator si sr k in
  let R := responder si sr k in
  exists oi p1 pk1 ii or p2 pk2 ir,
    OutgoingInitiation_new (E := NoiseError) ei now clk xi I (MacGenerator_new I) = Ok (oi, p1) /\
    HandshakeInitiation_try_from p1 = Ok pk1 /\
    IncomingInitiation_parse (local R) pk1 = Ok ii /\
    ii_index ii = xi /\ ii_static_public_key ii = local_public (local I) /\
    stamp (E := NoiseError) now = Ok (ii_timestamp ii) /\
    OutgoingResponse_new (E := NoiseError) er clk' ii xr R (MacGenerator_new R) = Ok (or, p2) /\
    HandshakeResponse_try_from p2 = Ok pk2 /\ hr_receiver_index pk2 = xi /\
    IncomingResponse_parse oi I pk2 = Ok ir /\
    ir_index ir = xr /\ ir_hash ir = or_hash or /\ ir_chaining_key ir = or_chaining_key or.
Proof.
  intros Hxi Hxr Hnow I R.
  destruct (initiation_exchange (E := NoiseError) ei now clk xi si sr k (MacGenerator_new I))
    as (oi & p1 & pk1 & ii & ? & ? & ? & ? & Hix & He & ? & ? & ? & ? & ?);
    [done|done|apply MacGenerator_new_ok|].
  destruct (response_exchange (E := NoiseError) er clk' xr si sr k (MacGenerator_new R) oi ii)
    as (or & p2 & pk2 & ir & ? & ? & ? & ? & ? & ? & ? & ?);
    [done|by rewrite Hix|apply MacGenerator_new_ok|done|done|by rewrite He|].
  exists oi, p1, pk1, ii, or, p2, pk2, ir. split_and!; try done. congruence.
Qed.

(** The MAC that guards the handshake is accepted by the peer it was made for: the
    initiation passes the responder's [validate_mac1], the response the initiator's. *)
Theorem handshake_mac1_accepted {E F} si sr k ei er now clk clk' xi xr oi p1 ii or p2 :
  let I := initiator si sr k in
  let R := responder si sr k in
  OutgoingInitiation_new (E := E) ei now clk xi I (MacGenerator_new I) = Ok (oi, p1) ->
  OutgoingResponse_new (E := E) er clk' ii xr R (MacGenerator_new R) = Ok (or, p2) ->
  validate_mac1 (E := F) (Cookie_new (local R)) p1 = Ok true /\
  validate_mac1 (E := F) (Cookie_new (local I)) p2 = Ok true.
Proof.
  intros I R H1%initiation_macs H2%response_macs. split.
  - by apply (mac1_validates I (local R) clk).
  - by apply (mac1_validates R (local I) clk').
Qed.

(** [mac2] is made and checked over different messages. A handshake message whose
    sender holds a live cookie passes the receiver's [validate_mac2] only if the MAC keyed
    with the cookie hash takes the same value on the message with and without its [mac1]. *)
Theorem mac2_needs_collision {E} (g : MacGenerator) (c : Cookie) clk at_ v p :
  macs_ok g -> ends_with_macs g clk p ->
  last_cookie g = Some (v, at_) -> elapsed clk at_ < COOKIE_LIFETIME ->
  peer_cookie_hash g = cookie_hash c ->
  exists buf m1 m2, p = buf ++ m1 ++ m2 /\ length m1 = 16%nat /\
    (validate_mac2 (E := E) c p = Ok true <->
     mac (E := E) (cookie_hash c) buf = mac (E := E) (cookie_hash c) (buf ++ m1)).
Proof.
  intros Hok Hends Hc Hlive Hh.
  destruct (macs_lengths g clk p Hok Hends) as (buf & m1 & m2 & -> & H1 & H2 & L1 & L2).
  exists buf, m1, m2. split; [done|]. split; [done|].
  unfold validate_mac2. rewrite split_macs_Ok by done. cbn [mbind res_bind].
  unfold generate_mac2 in H2. rewrite Hc in H2. zcases_in H2; [lia|]. rewrite Hh in H2.
  destruct Hok as [_ Hl]. rewrite Hh in Hl.
  destruct (mac_Ok (E := E) (cookie_hash c) buf Hl) as (t & -> & _).
  rewrite (mac_poly (E := unit) _ _ m2 H2). cbn [mbind res_bind]. split.
  - intros [= Hb%bool_decide_eq_true]. by subst.
  - intros [= <-]. by rewrite bool_decide_true.
Qed.

(** Reading a handshake message is total: for every packet of the right sizes, from
    whoever, [IncomingInitiation::parse] and [IncomingResponse::parse] return a result or
    [Decryption]; the [try_into().unwrap()]s never panic. *)
Theorem incoming_parse_total l s oi pk pk' :
  wf_message (MsgHandshakeInitiation pk) -> wf_message (MsgHandshakeResponse pk') ->
  ((exists ii, IncomingInitiation_parse l pk = Ok ii) \/
    IncomingInitiation_parse l pk = Err Decryption) /\
  ((exists ir, IncomingResponse_parse oi s pk' = Ok ir) \/
    IncomingResponse_parse oi s pk' = Err Decryption).
Proof.
  intros Hwf _. split; [by apply initiation_parse_cases|apply response_parse_cases].
Qed.

(** C5: the cookie reply answers the packet it was made for: for any handshake packet and
    sender address it is a 64-byte packet that parses as a cookie reply to the sender index
    of the packet, and whoever knows our public key and the packet's [mac1] decrypts from it
    the MAC of the sender's address under the current cookie secret. The secret is at most
    [COOKIE_LIFETIME] old, and while it lives every later reply uses it. *)
Theorem cookie_reply_decrypts {E F} clk nonce rv (c : Cookie) payload dst :
  cookie_ok c -> length rv = 32%nat -> length nonce = 24%nat -> (32 <= length payload)%nat ->
  exists c' p pk secret at_ msg,
    generate_cookie_reply (E := E) clk nonce rv c payload dst = Ok (c', p) /\
    CookieReply_try_from p = Ok pk /\
    cr_receiver_index pk = le_val (take 4 (drop 4 payload)) /\ cr_nonce pk = nonce /\
    mac (E := F) secret (encode_dst_addr dst) = Ok msg /\
    xaead_decrypt (cookie_hash c) nonce (cr_cookie pk)
      (take 16 (drop (length payload - 32) payload)) = Ok msg /\
    cookie_ok c' /\ cookie_hash c' = cookie_hash c /\
    cookie_secret c' = Some (secret, at_) /\ elapsed clk at_ < COOKIE_LIFETIME /\
    (forall clk' rv', elapsed clk' at_ < COOKIE_LIFETIME ->
       refresh_secret clk' rv' c' = (c', secret)).
Proof.
  intros Hc Hrv Hn Hp. destruct (refresh_secret clk rv c) as [c' secret] eqn:Hr.
  destruct (refresh_secret_spec _ _ _ _ _ Hc Hrv Hr) as (Hc' & Hs & Hh & at_ & Hsec & Hat).
  destruct (mac_Ok (E := E) secret (encode_dst_addr dst)) as (msg & Hm & Hml); [lia|].
  destruct (xaead_roundtrip_Ok (cookie_hash c) nonce msg
    (take 16 (drop (length payload - 32) payload))) as (e & He & Hd & Hel);
    [apply Hc|done|rewrite Hml; apply aead_max_small; lia|].
  set (pk := mkCookieReply (le_val (take 4 (drop 4 payload))) nonce e).
  eexists c', _, pk, secret, at_, msg. split_and!; try done.
  - unfold generate_cookie_reply. rewrite slice_Ok by lia. cbn [mbind res_bind Nat.sub].
    rewrite (proj2 (Nat.ltb_ge _ _) Hp), slice_Ok by lia. cbn [mbind res_bind].
    rewrite Hr, Hm. cbn [mbind res_bind]. rewrite Hh.
    replace (length payload - 16 - (length payload - 32))%nat with 16%nat by lia.
    by rewrite He.
  - change (8 - 4)%nat with 4%nat.
    rewrite <- (le_bytes_of_val (take 4 (drop 4 payload)) 4) by (rewrite length_take, length_drop; lia).
    apply (cookie_try_from_encode pk). unfold pk. fields. split_and!; [|done|lia].
    apply (in_u_le_val _ 4); [|done]. rewrite length_take, length_drop. lia.
  - by eapply mac_poly.
  - intros clk' rv' Hlt. unfold refresh_secret. rewrite Hsec.
    by rewrite (proj2 (Z.ltb_lt _ _) Hlt).
Qed.

End Properties.

(** ** Witnesses

    The theorems at concrete keys, over the primitives of [Toy]. *)
Section Witnesses.
#[local] Existing Instance Toy.prims.
#[local] Existing Instance Toy.laws.

Definition key_of (b : byte) : bytes := replicate 32 b.

Lemma handshake_agreement_witness :
  let I := initiator (key_of x11) (key_of x22) (key_of x33) in
  let R := responder (key_of x11) (key_of x22) (key_of x33) in
  exists oi p1 pk1 ii or p2 pk2 ir,
    OutgoingInitiation_new (E := NoiseError) (key_of x44) (secs 1700000000) 0 7 I
      (MacGenerator_new I) = Ok (oi, p1) /\
    HandshakeInitiation_try_from p1 = Ok pk1 /\
    IncomingInitiation_parse (local R) pk1 = Ok ii /\
    OutgoingResponse_new (E := NoiseError) (key_of x55) 0 ii 9 R (MacGenerator_new R) = Ok (or, p2) /\
    HandshakeResponse_try_from p2 = Ok pk2 /\
    IncomingResponse_parse oi I pk2 = Ok ir /\ ir_chaining_key ir = or_chaining_key or.
Proof.
  destruct (handshake_agreement (key_of x11) (key_of x22) (key_of x33) (key_of x44) (key_of x55)
    (secs 1700000000) 0 0 7 9) as (oi & p1 & pk1 & ii & or & p2 & pk2 & ir & ? & ? & ? & ? & ? & ? &
    ? & ? & ? & ? & ? & ? & ?); [split; vm_compute; congruence..|].
  exists oi, p1, pk1, ii, or, p2, pk2, ir. split_and!; assumption.
Defined.

(** The two packets of that exchange, computed. *)
Definition toy_I := initiator (key_of x11) (key_of x22) (key_of x33).
Definition toy_R := responder (key_of x11) (key_of x22) (key_of x33).
Definition toy_ii : IncomingInitiation :=
  mkIncomingInitiation 7 (key_of x01) (key_of x02) (replicate 12 x00) (key_of x44) (key_of x11).
Definition toy_p1 : bytes := Eval vm_compute in
  match OutgoingInitiation_new (E := unit) (key_of x44) 0 0 7 toy_I (MacGenerator_new toy_I) with
  | Ok (_, p) => p | _ => [] end.
Definition toy_oi : OutgoingInitiation := Eval vm_compute in
  match OutgoingInitiation_new (E := unit) (key_of x44) 0 0 7 toy_I (MacGenerator_new toy_I) with
  | Ok (o, _) => o | _ => mkOutgoingInitiation 0 [] [] [] end.
Definition toy_p2 : bytes := Eval vm_compute in
  match OutgoingResponse_new (E := unit) (key_of x55) 0 toy_ii 9 toy_R (MacGenerator_new toy_R) with
  | Ok (_, p) => p | _ => [] end.
Definition toy_or : OutgoingResponse := Eval vm_compute in
  match OutgoingResponse_new (E := unit) (key_of x55) 0 toy_ii 9 toy_R (MacGenerator_new toy_R) with
  | Ok (o, _) => o | _ => mkOutgoingResponse [] [] [] end.

Lemma handshake_mac1_accepted_witness :
  validate_mac1 (E := unit) (Cookie_new (local toy_R)) toy_p1 = Ok true /\
  validate_mac1 (E := unit) (Cookie_new (local toy_I)) toy_p2 = Ok true.
Proof.
  apply (handshake_mac1_accepted (E := unit) (F := unit) (key_of x11) (key_of x22) (key_of x33)
    (key_of x44) (key_of x55) 0 0 0 7 9 toy_oi toy_p1 toy_ii toy_or toy_p2); vm_compute; reflexivity.
Defined.

Definition toy_g : MacGenerator :=
  mkMacGenerator (key_of x66) (key_of x77) (Some (replicate 16 x01, 0)).
Definition toy_p3 : bytes := Eval vm_compute in
  let buf := [x01; x02; x03] in
  match generate_mac1 (E := unit) toy_g buf with
  | Ok m1 => match generate_mac2 (E := unit) 5 toy_g (buf ++ m1) with
             | Ok m2 => buf ++ m1 ++ m2 | _ => [] end
  | _ => [] end.

(** Here the two MACs differ and the receiver rejects the cookie holder. *)
Lemma mac2_needs_collision_witness :
  let c := mkCookie None (key_of x77) (key_of x66) in
  (exists buf m1 m2, toy_p3 = buf ++ m1 ++ m2 /\ length m1 = 16%nat /\
    (validate_mac2 (E := unit) c toy_p3 = Ok true <->
     mac (E := unit) (cookie_hash c) buf = mac (E := unit) (cookie_hash c) (buf ++ m1))) /\
  validate_mac2 (E := unit) c toy_p3 = Ok false.
Proof.
  split; [|vm_compute; reflexivity].
  apply (mac2_needs_collision toy_g (mkCookie None (key_of x77) (key_of x66)) 5 0 (replicate 16 x01)).
  - split; vm_compute; lia.
  - exists (take 3 toy_p3), (take 16 (drop 3 toy_p3)), (drop 19 toy_p3). vm_compute. auto.
  - reflexivity.
  - reflexivity.
  - reflexivity.
Defined.

Lemma incoming_parse_total_witness :
  let pk := mkHandshakeInitiation 1 (key_of x00) (replicate 48 x00) (replicate 28 x00)
              (replicate 16 x00) (replicate 16 x00) in
  IncomingInitiation_parse (local toy_R) pk = Err Decryption /\
  ((exists ii, IncomingInitiation_parse (local toy_R) pk = Ok ii) \/
    IncomingInitiation_parse (local toy_R) pk = Err Decryption).
Proof.
  split; [vm_compute; reflexivity|].
  apply (incoming_parse_total (local toy_R) toy_I toy_oi
    (mkHandshakeInitiation 1 (key_of x00) (replicate 48 x00) (replicate 28 x00)
      (replicate 16 x00) (replicate 16 x00))
    (mkHandshakeResponse 1 2 (key_of x00) (replicate 16 x00) (replicate 16 x00) (replicate 16 x00)));
    repeat split; vm_compute; congruence.
Defined.

Lemma cookie_reply_decrypts_witness :
  exists c' p pk, generate_cookie_reply (E := unit) 0 (replicate 24 x05) (key_of x06)
      (Cookie_new (local toy_R)) toy_p1 (AddrV4 [x7f; x00; x00; x01] 51820) = Ok (c', p) /\
    CookieReply_try_from p = Ok pk /\ cr_receiver_index pk = le_val (take 4 (drop 4 toy_p1)).
Proof.
  destruct (cookie_reply_decrypts (E := unit) (F := unit) 0 (replicate 24 x05) (key_of x06)
    (Cookie_new (local toy_R)) toy_p1 (AddrV4 [x7f; x00; x00; x01] 51820))
    as (c' & p & pk & s & a & m & H1 & H2 & H3 & _).
  - apply Cookie_new_ok.
  - reflexivity.
  - reflexivity.
  - vm_compute. lia.
  - exists c', p, pk. auto.
Defined.
End Witnesses.
