(* ===== verification/Session.v ===== *)
(** * Transport sessions (vlink-tun/src/device/peer/session.rs, device/cipher/)

    [Session] values are cloned freely in the source: the index table, the slots of a peer
    and the packets in flight hold copies that share the nonce counter and the anti-replay
    filter through [Arc]s. Here those two are a cell of a heap and a [Session] holds the
    cell's address, so that what one copy consumes is gone for all.

    [SessionIndex] finds a session by the index its packets carry, [ActiveSession] are the
    four slots a peer rotates its sessions through. *)

From S2P Require Import Prelude Bytes NonceFilter Protocol Crypto.
Import NonceFilter (NonceFilter).

(** errors.rs; [IO] and [Tun] carry the operating system's error values, which nothing
    here inspects. *)
Inductive Error :=
| IO
| Noise (e : NoiseError)
| Tun.

(** ** chacha20_poly1305_cipher.rs

    The crate's cipher state is the key it was made from. *)
Record ChachaCipher := mkChachaCipher { cipher : bytes }.

Definition ChachaCipher_new (key : bytes) : res NoiseError ChachaCipher :=
  if (length key =? 32)%nat then Ok (mkChachaCipher key) else Err InvalidKeyLength.

(** ** Shared cells *)
Record Cell := mkCell { sender_nonce : Z; nonce_filter : NonceFilter }.
#[global] Instance Cell_inhabited : Inhabited Cell := populate (mkCell 0 NonceFilter.new).
Abbreviation heap := (list Cell).

Record Session := mkSession {
  secret : PeerStaticSecret;
  sender_index : Z;
  cell : nat;
  sender_key : bytes;
  receiver_index : Z;
  receiver_key : bytes;
  created_at : Z;
  encrypt_cipher : ChachaCipher;
  decrypt_cipher : ChachaCipher;
}.

(** The peer a session talks to. *)
Definition peer_of (s : Session) : bytes := peer_public (secret s).

Section Session.
Context `{CryptoPrims}.

Definition ChachaCipher_aead_encrypt (c : ChachaCipher) (counter : Z) (msg aad : bytes)
    : res NoiseError bytes :=
  ok_or Encryption (chacha_encrypt (cipher c) (aead_nonce counter) msg aad).
Definition ChachaCipher_aead_decrypt (c : ChachaCipher) (counter : Z) (msg aad : bytes)
    : res NoiseError bytes :=
  ok_or Decryption (chacha_decrypt (cipher c) (aead_nonce counter) msg aad).

Definition Session_new {E} (now : Z) (h : heap) (secret : PeerStaticSecret) (sender_index : Z)
    (sender_key : bytes) (receiver_index : Z) (receiver_key : bytes) : res E (heap * Session) :=
  encrypt_cipher ← unwrap (ChachaCipher_new sender_key);
  decrypt_cipher ← unwrap (ChachaCipher_new receiver_key);
  Ok (h ++ [mkCell 0 NonceFilter.new],
      mkSession secret sender_index (length h) sender_key receiver_index receiver_key now
        encrypt_cipher decrypt_cipher).

Definition Session_can_accept {E} (h : heap) (s : Session) (nonce : Z) : res E bool :=
  NonceFilter.can_accept (nonce_filter (h !!! cell s)) nonce.

Definition aceept {E} (h : heap) (s : Session) (nonce : Z) : res E heap :=
  let c := h !!! cell s in
  f ← NonceFilter.accept (nonce_filter c) nonce;
  Ok (<[cell s := mkCell (sender_nonce c) f]> h).

(** [fetch_add] returns the old value and wraps. *)
Definition next_nonce (h : heap) (s : Session) : heap * Z :=
  let c := h !!! cell s in
  (<[cell s := mkCell (wrap 64 (sender_nonce c + 1)) (nonce_filter c)]> h, sender_nonce c).

(** The nonce is consumed whether or not the encryption succeeds. *)
Definition encrypt_data (h : heap) (s : Session) (data : bytes) : heap * res Error TransportData :=
  let '(h, nonce) := next_nonce h s in
  (h, payload ← map_err Noise (ChachaCipher_aead_encrypt (encrypt_cipher s) nonce data []);
      Ok (mkTransportData (receiver_index s) nonce payload)).

Definition decrypt_data (s : Session) (packet : TransportData) : res Error bytes :=
  if negb (sender_index s =? td_receiver_index packet) then Err (Noise ReceiverIndexNotMatch)
  else map_err Noise
         (ChachaCipher_aead_decrypt (decrypt_cipher s) (td_counter packet) (td_payload packet) []).

End Session.

(** ** [SessionIndex] *)

Record SessionIndex := mkSessionIndex {
  si_index : Z;
  indexes : gmap Z Session;
  keys : gmap bytes (gset Z);
}.

(** [rnd] is the [u32] drawn from the random source. *)
Definition SessionIndex_new (rnd : Z) : SessionIndex := mkSessionIndex rnd ∅ ∅.

Definition next_index (i : SessionIndex) : SessionIndex * Z :=
  (mkSessionIndex (wrap 32 (si_index i + 1)) (indexes i) (keys i), si_index i).

Definition SessionIndex_insert (i : SessionIndex) (s : Session) : SessionIndex :=
  let index := sender_index s in
  mkSessionIndex (si_index i) (<[index := s]> (indexes i))
    (<[peer_of s := {[index]} ∪ default ∅ (keys i !! peer_of s)]> (keys i)).

Definition get_by_index (i : SessionIndex) (index : Z) : option Session := indexes i !! index.

Definition SessionIndex_remove {E} (i : SessionIndex) (s : Session)
    : res E (SessionIndex * option Session) :=
  match indexes i !! sender_index s with
  | Some s' =>
      k ← unwrap_opt (keys i !! peer_of s');
      Ok (mkSessionIndex (si_index i) (delete (sender_index s) (indexes i))
            (<[peer_of s' := k ∖ {[sender_index s']}]> (keys i)), Some s')
  | None => Ok (i, None)
  end.

Definition remove_by_key (i : SessionIndex) (key : bytes) : SessionIndex :=
  match keys i !! key with
  | Some indices =>
      mkSessionIndex (si_index i)
        (foldr (fun index m => delete index m) (indexes i) (elements indices))
        (delete key (keys i))
  | None => i
  end.

Definition SessionIndex_clear (i : SessionIndex) : SessionIndex := mkSessionIndex (si_index i) ∅ ∅.

(** ** [ActiveSession]

    The [SessionIndex] it holds is shared by all peers and passed along. *)

Record ActiveSession := mkActiveSession {
  uninit : option Session;
  previous : option Session;
  current : option Session;
  next : option Session;
}.

Definition ActiveSession_new : ActiveSession := mkActiveSession None None None None.

Definition activate (i : SessionIndex) (s : Session) : SessionIndex := SessionIndex_insert i s.
Definition deactivate {E} (i : SessionIndex) (s : Session) : res E SessionIndex :=
  '(i, _) ← SessionIndex_remove i s; Ok i.
(** [if let Some(x) = slot.take() { self.deactivate(&x) }]. *)
Definition deactivate_opt {E} (i : SessionIndex) (slot : option Session) : res E SessionIndex :=
  match slot with
  | Some s => deactivate i s
  | None => Ok i
  end.

Definition deactivate_uninit {E} (i : SessionIndex) (a : ActiveSession)
    : res E (SessionIndex * ActiveSession) :=
  i ← deactivate_opt i (uninit a);
  Ok (i, mkActiveSession None (previous a) (current a) (next a)).
Definition deactivate_previous {E} (i : SessionIndex) (a : ActiveSession)
    : res E (SessionIndex * ActiveSession) :=
  i ← deactivate_opt i (previous a);
  Ok (i, mkActiveSession (uninit a) None (current a) (next a)).
Definition deactivate_next {E} (i : SessionIndex) (a : ActiveSession)
    : res E (SessionIndex * ActiveSession) :=
  i ← deactivate_opt i (next a);
  Ok (i, mkActiveSession (uninit a) (previous a) (current a) None).

Definition prepare_uninit {E} (i : SessionIndex) (a : ActiveSession) (s : Session)
    : res E (SessionIndex * ActiveSession) :=
  i ← deactivate_opt i (uninit a);
  Ok (activate i s, mkActiveSession (Some s) (previous a) (current a) (next a)).

(** [self.uninit.as_ref()] matches a session with the index of [s]. *)
Definition same_index (slot : option Session) (s : Session) : bool :=
  match slot with
  | Some u => sender_index u =? sender_index s
  | None => false
  end.

Definition complete_uninit {E} (i : SessionIndex) (a : ActiveSession) (s : Session)
    : res E (SessionIndex * ActiveSession * bool) :=
  if same_index (uninit a) s then
    '(i, a) ← deactivate_uninit i a;
    let i := activate i s in
    '(i, a) ← deactivate_previous i a;
    Ok (i, mkActiveSession (uninit a) (current a) (Some s) (next a), true)
  else Ok (i, a, false).

Definition prepare_next {E} (i : SessionIndex) (a : ActiveSession) (s : Session)
    : res E (SessionIndex * ActiveSession) :=
  '(i, a) ←
    match next a with
    | Some n =>
        '(i, a) ← deactivate_previous i a;
        Ok (i, mkActiveSession (uninit a) (Some n) (current a) (next a))
    | None => Ok (i, a)
    end;
  Ok (activate i s, mkActiveSession (uninit a) (previous a) (current a) (Some s)).

Definition complete_next {E} (i : SessionIndex) (a : ActiveSession) (s : Session)
    : res E (SessionIndex * ActiveSession * bool) :=
  if same_index (next a) s then
    '(i, a) ← deactivate_next i a;
    '(i, a) ← deactivate_previous i a;
    let i := activate i s in
    Ok (i, mkActiveSession (uninit a) (current a) (Some s) (next a), true)
  else Ok (i, a, false).

(** ** The index table is consistent

    Every registered session is filed under its own index and its index is listed under its
    peer's key, which is what [remove] unwraps. *)
Definition idx_ok (i : SessionIndex) : Prop :=
  forall n s, indexes i !! n = Some s ->
    sender_index s = n /\ exists K, keys i !! peer_of s = Some K /\ n ∈ K.

Lemma idx_ok_new r : idx_ok (SessionIndex_new r).
Proof. intros n s. done. Qed.
Lemma idx_ok_clear i : idx_ok (SessionIndex_clear i).
Proof. intros n s. done. Qed.
Lemma idx_ok_next_index i : idx_ok i -> idx_ok (next_index i).1.
Proof. done. Qed.

Lemma idx_ok_insert i s : idx_ok i -> idx_ok (SessionIndex_insert i s).
Proof.
  intros Hi n t. unfold SessionIndex_insert; cbn [indexes keys].
  rewrite lookup_insert_Some. intros [[<- <-]|[Hn Ht]].
  - split; [done|]. rewrite lookup_insert_eq. eexists; split; [done|]. set_solver.
  - destruct (Hi n t Ht) as (? & K & HK & HnK). split; [done|].
    destruct (decide (peer_of s = peer_of t)) as [Heq|].
    + rewrite Heq, lookup_insert_eq, HK. eexists; split; [done|]. simpl. set_solver.
    + rewrite lookup_insert_ne by done. eauto.
Qed.

Lemma remove_spec {E} i s : idx_ok i ->
  exists i', SessionIndex_remove (E := E) i s = Ok (i', indexes i !! sender_index s) /\ idx_ok i' /\
    indexes i' = delete (sender_index s) (indexes i).
Proof.
  intros Hi. unfold SessionIndex_remove. destruct (indexes i !! sender_index s) as [t|] eqn:Ht.
  - destruct (Hi _ _ Ht) as (Hst & K & HK & Hn). rewrite HK. cbn. eexists; split; [done|].
    split; [|done]. intros n u; cbn. rewrite lookup_delete_Some. intros [Hne Hu].
    destruct (Hi n u Hu) as (? & K' & HK' & HnK'). split; [done|].
    destruct (decide (peer_of t = peer_of u)) as [Heq|].
    + rewrite Heq, lookup_insert_eq. assert (K' = K) as -> by congruence.
      eexists; split; [done|]. rewrite elem_of_difference, elem_of_singleton. split; [done|congruence].
    + rewrite lookup_insert_ne by done. eauto.
  - eexists; split; [done|]. split; [done|]. by rewrite delete_id.
Qed.

Lemma foldr_delete_lookup {A} (l : list Z) (m : gmap Z A) n x :
  foldr (fun k m => delete k m) m l !! n = Some x <-> n ∉ l /\ m !! n = Some x.
Proof.
  induction l as [|k l IH]; simpl; [set_solver|].
  rewrite lookup_delete_Some, IH. set_solver.
Qed.

Lemma idx_ok_remove_by_key i k : idx_ok i -> idx_ok (remove_by_key i k).
Proof.
  intros Hi n s. unfold remove_by_key. destruct (keys i !! k) as [K|] eqn:HK; [|apply Hi].
  cbn [indexes keys]. intros [Hn Hs]%foldr_delete_lookup.
  destruct (Hi n s Hs) as (? & K' & HK' & Hin). split; [done|]. exists K'. split; [|done].
  rewrite lookup_delete_Some. split; [|done]. intros ->. rewrite HK in HK'.
  injection HK' as <-. by rewrite elem_of_elements in Hn.
Qed.
Lemma remove_by_key_gone i k n s :
  idx_ok i -> indexes (remove_by_key i k) !! n = Some s -> peer_of s <> k.
Proof.
  intros Hi Hs <-. assert (indexes i !! n = Some s) as Hn.
  { revert Hs. unfold remove_by_key. destruct (keys i !! _); [|done]. by intros [_ ?]%foldr_delete_lookup. }
  destruct (Hi n s Hn) as (_ & K & HK & Hin). revert Hs. unfold remove_by_key. rewrite HK.
  cbn [indexes]. rewrite foldr_delete_lookup, elem_of_elements. tauto.
Qed.

(** ** The slots of a peer own its entries

    [rep k m a]: the entries of peer [k] in the table [m] are exactly the sessions in its
    slots, each filed under its index, no two slots with one index. *)
Inductive slot := Uninit | Previous | Current | Next.
Definition get (a : ActiveSession) (p : slot) : option Session :=
  match p with
  | Uninit => uninit a
  | Previous => previous a
  | Current => current a
  | Next => next a
  end.

(** The table finds [s]; of a removed peer it may have been cleared since. *)
Definition present (listed : bool) (m : gmap Z Session) (s : Session) : Prop :=
  if listed then m !! sender_index s = Some s
  else forall t, m !! sender_index s = Some t -> t = s.

(** The entries [O] are in the slots [a] and the sessions in the slots are among [O]. *)
Definition rep_on (listed : bool) (O : Z -> Session -> Prop) (m : gmap Z Session)
    (a : ActiveSession) : Prop :=
  (forall p s, get a p = Some s -> present listed m s /\ O (sender_index s) s) /\
  (forall p q s t, get a p = Some s -> get a q = Some t -> sender_index s = sender_index t -> p = q) /\
  (forall n s, m !! n = Some s -> O n s -> sender_index s = n /\ exists p, get a p = Some s).

Definition rep (k : bytes) : gmap Z Session -> ActiveSession -> Prop :=
  rep_on true (fun _ s => peer_of s = k).

(** [b] is [a] with slot [p] set to [o]. *)
Definition upd (a : ActiveSession) (p : slot) (o : option Session) (b : ActiveSession) : Prop :=
  get b p = o /\ forall q, q <> p -> get b q = get a q.
#[global] Instance slot_eq_dec : EqDecision slot.
Proof. solve_decision. Defined.

(** Entries outside [O] are untouched: those of other peers. *)
Definition frame_on (O : Z -> Session -> Prop) (m m' : gmap Z Session) : Prop :=
  forall n s, ~ O n s -> m' !! n = Some s <-> m !! n = Some s.
Definition frame (k : bytes) : gmap Z Session -> gmap Z Session -> Prop :=
  frame_on (fun _ s => peer_of s = k).
Lemma frame_refl O m : frame_on O m m.
Proof. done. Qed.
Lemma frame_trans O m1 m2 m3 : frame_on O m1 m2 -> frame_on O m2 m3 -> frame_on O m1 m3.
Proof. intros H1 H2 n s Hs. rewrite (H2 n s Hs). by apply H1. Qed.
(** [if let Some(x) = slot.take() { index.remove(x) }]. *)
Definition del (o : option Session) (m : gmap Z Session) : gmap Z Session :=
  match o with
  | Some s => delete (sender_index s) m
  | None => m
  end.

Lemma present_eq L m s t : present L m s -> m !! sender_index s = Some t -> t = s.
Proof. destruct L; cbn; [congruence|auto]. Qed.
Lemma present_agree L m m' s :
  (forall t, m' !! sender_index s = Some t <-> m !! sender_index s = Some t) ->
  present L m s -> present L m' s.
Proof. intros Hm. destruct L; cbn; [by rewrite Hm|]. intros Hp t. rewrite Hm. apply Hp. Qed.
Lemma present_ne L m m' s :
  m' !! sender_index s = m !! sender_index s -> present L m s -> present L m' s.
Proof. intros Hm. apply present_agree. intros t. by rewrite Hm. Qed.

Section Slots.
Context (L : bool) (O : Z -> Session -> Prop).

Lemma rep_drop m a b p : rep_on L O m a -> upd a p None b ->
  rep_on L O (del (get a p) m) b /\ frame_on O m (del (get a p) m).
Proof.
  intros (H1 & H2 & H3) [Hp Hq].
  assert (forall q s, get b q = Some s -> q <> p /\ get a q = Some s) as Hb.
  { intros q s Hs. destruct (decide (q = p)) as [->|]; [congruence|]. by rewrite <- Hq. }
  destruct (get a p) as [x|] eqn:Hx; cbn [del].
  - destruct (H1 p x Hx) as [Hmx Hkx]. split; [split; [|split]|].
    + intros q s [Hne Hs]%Hb. destruct (H1 q s Hs) as [Hms ?]. split; [|done].
      eapply present_ne, Hms. apply lookup_delete_ne. intros He. eauto.
    + intros q r s t [_ Hs]%Hb [_ Ht]%Hb. eauto.
    + intros n s [Hne Hn]%lookup_delete_Some Hs. destruct (H3 n s Hn Hs) as [<- [q Hqs]].
      split; [done|]. exists q. rewrite Hq; [done|]. intros ->. congruence.
    + intros n s Hs. rewrite lookup_delete_Some. split; [tauto|]. intros Hn. split; [|done].
      intros <-. apply (present_eq L) in Hn; [congruence|done].
  - split; [split; [|split]|apply frame_refl].
    + intros q s [_ Hs]%Hb. eauto.
    + intros q r s t [_ Hs]%Hb [_ Ht]%Hb. eauto.
    + intros n s Hn Hs. destruct (H3 n s Hn Hs) as [? [q Hqs]]. split; [done|]. exists q.
      rewrite Hq; [done|]. intros ->. congruence.
Qed.

(** The index of [s] is neither in the table nor in a slot. *)
Definition unused (m : gmap Z Session) (a : ActiveSession) (s : Session) : Prop :=
  m !! sender_index s = None /\ forall q t, get a q = Some t -> sender_index t <> sender_index s.

Lemma rep_put m a b p s : rep_on L O m a -> upd a p (Some s) b -> get a p = None ->
  unused m a s -> O (sender_index s) s ->
  rep_on L O (<[sender_index s := s]> m) b /\ frame_on O m (<[sender_index s := s]> m).
Proof.
  intros (H1 & H2 & H3) [Hp Hq] Hap [Hfresh Hun] Hk.
  assert (forall q t, get b q = Some t -> (q = p /\ t = s) \/
    (q <> p /\ get a q = Some t /\ sender_index t <> sender_index s)) as Hb.
  { intros q t Ht. destruct (decide (q = p)) as [->|]; [left; split; congruence|right].
    rewrite Hq in Ht by done. eauto. }
  split; [split; [|split]|].
  - intros q t [[-> ->]|(Hne & Ht & Hi)]%Hb.
    + split; [|done]. destruct L; cbn; rewrite lookup_insert_eq; congruence.
    + destruct (H1 q t Ht) as [Hpt ?]. split; [|done]. eapply present_ne, Hpt.
      by apply lookup_insert_ne.
  - intros q r t u [[-> ->]|(? & ? & ?)]%Hb [[-> ->]|(? & ? & ?)]%Hb; try done; eauto.
  - intros n t [[<- <-]|[Hne Hn]]%lookup_insert_Some Ht; [eauto|].
    destruct (H3 n t Hn Ht) as [? [q Hqt]]. split; [done|]. exists q.
    rewrite Hq; [done|]. intros ->. congruence.
  - intros n t Ht. rewrite lookup_insert_Some. split.
    + intros [[<- <-]|[? ?]]; [congruence|done].
    + intros Hn. right. split; [|done]. intros <-. congruence.
Qed.

Lemma rep_move m a b p q s : rep_on L O m a -> p <> q -> get a p = s -> get a q = None ->
  get b p = None -> get b q = s -> (forall r, r <> p -> r <> q -> get b r = get a r) ->
  rep_on L O m b.
Proof.
  intros (H1 & H2 & H3) Hpq <- Haq Hbp Hbq Hr.
  assert (forall r t, get b r = Some t -> exists r', get a r' = Some t /\
    (r = q /\ r' = p \/ r <> q /\ r <> p /\ r' = r)) as Hb.
  { intros r t Ht. destruct (decide (r = q)) as [->|]; [exists p; split; [congruence|auto]|].
    destruct (decide (r = p)) as [->|]; [congruence|]. exists r. rewrite <- Hr by done. auto. }
  split; [|split].
  - intros r t (r' & Ht & _)%Hb. eauto.
  - intros r r' t u (x & Hx & Hcx)%Hb (y & Hy & Hcy)%Hb Htu.
    assert (x = y) as -> by eauto. naive_solver.
  - intros n t Hn Ht. destruct (H3 n t Hn Ht) as [? [r Hrt]]. split; [done|].
    destruct (decide (r = p)) as [->|]; [exists q; congruence|].
    exists r. rewrite Hr; [done|done|]. intros ->. congruence.
Qed.

Lemma deactivate_opt_spec {E} i o : idx_ok i ->
  exists i', deactivate_opt (E := E) i o = Ok i' /\ idx_ok i' /\ indexes i' = del o (indexes i).
Proof.
  intros Hi. destruct o as [s|]; [|by exists i].
  destruct (remove_spec (E := E) i s Hi) as (i' & Hr & ? & ?). exists i'. cbn.
  unfold deactivate. by rewrite Hr.
Qed.

(** What every operation on the slots guarantees. *)
Definition kept (i i' : SessionIndex) (a' : ActiveSession) : Prop :=
  idx_ok i' /\ rep_on L O (indexes i') a' /\ frame_on O (indexes i) (indexes i').

(** Read a slot update off the record. *)
Ltac slots := repeat split; repeat intros [] ?; try done.

(** Dropping a slot's entry does not bring an absent index back. *)
Lemma del_None o m n : m !! n = None -> del o m !! n = None.
Proof. destruct o; [|done]. cbn. rewrite lookup_delete_None. by right. Qed.
Lemma del_insert_ne o m n s : (forall t, o = Some t -> sender_index t <> n) ->
  del o (<[n := s]> m) = <[n := s]> (del o m).
Proof. destruct o as [t|]; [|done]. intros Ht. cbn. apply delete_insert_ne. by apply Ht. Qed.
Lemma unused_sub o m a b s : (forall q t, get b q = Some t -> exists r, get a r = Some t) ->
  unused m a s -> unused (del o m) b s.
Proof.
  intros Hb [Hm Ha]. split; [by apply del_None|]. intros q t Ht. destruct (Hb q t Ht). eauto.
Qed.

Lemma prepare_uninit_kept {E} i a s :
  idx_ok i -> rep_on L O (indexes i) a -> O (sender_index s) s -> unused (indexes i) a s ->
  exists i' a', prepare_uninit (E := E) i a s = Ok (i', a') /\ kept i i' a' /\ uninit a' = Some s.
Proof.
  intros Hi Hr Hk Hf. unfold prepare_uninit.
  destruct (deactivate_opt_spec (E := E) i (uninit a) Hi) as (i1 & -> & Hi1 & Hm1). cbn [mbind res_bind].
  pose (a1 := mkActiveSession None (previous a) (current a) (next a)).
  destruct (rep_drop (indexes i) a a1 Uninit Hr) as [Hr1 Hf1]; [slots|].
  cbn [get] in Hr1, Hf1. rewrite <- Hm1 in Hr1, Hf1.
  destruct (rep_put (indexes i1) a1 (mkActiveSession (Some s) (previous a) (current a) (next a))
    Uninit s Hr1) as [Hr2 Hf2]; [slots|done| |done|].
  { rewrite Hm1. apply (unused_sub _ _ a); [|done].
    intros [] t Ht; [done|by exists Previous|by exists Current|by exists Next]. }
  eexists _, _. split; [done|]. split; [|done]. split; [by apply idx_ok_insert|].
  split; [done|]. by eapply frame_trans.
Qed.

(** The common end of both completions: slot [p] and [Previous] are emptied, [Current] moves
    to [Previous] and [s], which has the index of the session that was in [p], to [Current]. *)
Lemma complete_rep m a p x s b :
  rep_on L O m a -> p <> Previous -> p <> Current -> get a p = Some x ->
  sender_index x = sender_index s -> O (sender_index s) s ->
  get b p = None -> get b Previous = current a -> get b Current = Some s ->
  (forall q, q <> p -> q <> Previous -> q <> Current -> get b q = get a q) ->
  let m' := <[sender_index s := s]> (del (previous a) (delete (sender_index s) m)) in
  rep_on L O m' b /\ frame_on O m m'.
Proof.
  intros Hr Hp1 Hp2 Hx Hxs Hk Hb1 Hb2 Hb3 Hb4 m'.
  pose (off := fun q (o : option Session) => if decide (q = p) then None else o).
  pose (a1 := mkActiveSession (off Uninit (uninit a)) (previous a) (current a) (off Next (next a))).
  destruct (rep_drop m a a1 p Hr) as [Hr1 Hf1].
  { unfold a1, off. destruct p; slots. }
  rewrite Hx in Hr1, Hf1. cbn [del] in Hr1, Hf1. rewrite Hxs in Hr1, Hf1.
  pose (a2 := mkActiveSession (off Uninit (uninit a)) None (current a) (off Next (next a))).
  destruct (rep_drop _ a1 a2 Previous Hr1) as [Hr2 Hf2]; [slots|].
  cbn [get a1 previous] in Hr2, Hf2.
  pose (a3 := mkActiveSession (off Uninit (uninit a)) (current a) None (off Next (next a))).
  assert (rep_on L O (del (previous a) (delete (sender_index s) m)) a3) as Hr3.
  { apply (rep_move _ a2 a3 Current Previous (current a) Hr2); try done. by intros []. }
  destruct (rep_put _ a3 b Current s Hr3) as [Hr4 Hf4]; [|done| |done|].
  { split; [done|]. intros q Hq. unfold a3, off. destruct (decide (q = p)) as [->|].
    - destruct p; simpl; repeat case_decide; done.
    - destruct q; simpl; repeat case_decide; try done; [by apply (Hb4 Uninit)|by apply (Hb4 Next)]. }
  { split; [apply del_None, lookup_delete_None; by left|]. intros q t Ht Hts.
    assert (exists r, r <> p /\ get a r = Some t) as (r & Hr' & Hrt).
    { revert Ht. unfold a3, off. destruct q; simpl; try case_decide; try done; intros Ht;
        [by exists Uninit|by exists Current|by exists Next]. }
    apply Hr'. destruct Hr as (_ & H2 & _). apply (H2 r p t x Hrt Hx). congruence. }
  split; [done|]. eapply frame_trans; [exact Hf1|]. by eapply frame_trans.
Qed.

Lemma complete_uninit_kept {E} i a s :
  idx_ok i -> rep_on L O (indexes i) a -> (same_index (uninit a) s = true -> O (sender_index s) s) ->
  exists i' a' ok, complete_uninit (E := E) i a s = Ok (i', a', ok) /\ kept i i' a' /\
    ok = same_index (uninit a) s /\
    (ok = true -> current a' = Some s /\ previous a' = current a /\ uninit a' = None).
Proof.
  intros Hi Hr Hk. unfold complete_uninit, deactivate_uninit, deactivate_previous.
  destruct (same_index (uninit a) s) eqn:Hsame.
  2:{ eexists i, a, false. split; [done|]. split; [|done]. by split_and!. }
  destruct (uninit a) as [x|] eqn:Hx; [|done]. cbn [same_index] in Hsame. apply Z.eqb_eq in Hsame.
  destruct (deactivate_opt_spec (E := E) i (Some x) Hi) as (i1 & -> & Hi1 & Hm1).
  cbn [mbind res_bind previous].
  destruct (deactivate_opt_spec (E := E) (activate i1 s) (previous a)) as (i2 & -> & Hi2 & Hm2);
    [by apply idx_ok_insert|].
  eexists _, _, true. split; [done|]. split; [|done]. split; [done|].
  rewrite Hm2. cbn [activate SessionIndex_insert indexes]. rewrite Hm1. cbn [del].
  rewrite del_insert_ne, Hsame.
  - apply (complete_rep (indexes i) a Uninit x s); auto. by intros [].
  - intros t Ht He. destruct Hr as (_ & H2 & _).
    assert (Uninit = Previous); [|done]. apply (H2 _ _ x t); [done..|congruence].
Qed.

Lemma complete_next_kept {E} i a s :
  idx_ok i -> rep_on L O (indexes i) a -> (same_index (next a) s = true -> O (sender_index s) s) ->
  exists i' a' ok, complete_next (E := E) i a s = Ok (i', a', ok) /\ kept i i' a' /\
    ok = same_index (next a) s /\
    (ok = true -> current a' = Some s /\ previous a' = current a /\ next a' = None).
Proof.
  intros Hi Hr Hk. unfold complete_next, deactivate_next, deactivate_previous.
  destruct (same_index (next a) s) eqn:Hsame.
  2:{ eexists i, a, false. split; [done|]. split; [|done]. by split_and!. }
  destruct (next a) as [x|] eqn:Hx; [|done]. cbn [same_index] in Hsame. apply Z.eqb_eq in Hsame.
  destruct (deactivate_opt_spec (E := E) i (Some x) Hi) as (i1 & -> & Hi1 & Hm1).
  cbn [mbind res_bind previous].
  destruct (deactivate_opt_spec (E := E) i1 (previous a) Hi1) as (i2 & -> & Hi2 & Hm2).
  eexists _, _, true. split; [done|]. split; [|done]. split; [by apply idx_ok_insert|].
  cbn [activate SessionIndex_insert indexes]. rewrite Hm2, Hm1. cbn [del]. rewrite Hsame.
  apply (complete_rep (indexes i) a Next x s); auto. by intros [].
Qed.

Lemma prepare_next_kept {E} i a s :
  idx_ok i -> rep_on L O (indexes i) a -> O (sender_index s) s -> unused (indexes i) a s ->
  exists i' a', prepare_next (E := E) i a s = Ok (i', a') /\ kept i i' a' /\
    next a' = Some s /\ current a' = current a.
Proof.
  intros Hi Hr Hk Hf. unfold prepare_next, deactivate_previous.
  destruct (next a) as [x|] eqn:Hx.
  - destruct (deactivate_opt_spec (E := E) i (previous a) Hi) as (i1 & -> & Hi1 & Hm1).
    cbn [mbind res_bind uninit previous current next].
    pose (a1 := mkActiveSession (uninit a) None (current a) (Some x)).
    destruct (rep_drop (indexes i) a a1 Previous Hr) as [Hr1 Hf1];
      [split; [done|]; by intros [] ?|].
    cbn [get] in Hr1, Hf1. rewrite <- Hm1 in Hr1, Hf1.
    pose (a2 := mkActiveSession (uninit a) (Some x) (current a) None).
    assert (rep_on L O (indexes i1) a2) as Hr2.
    { apply (rep_move _ a1 a2 Next Previous (Some x) Hr1); try done. by intros []. }
    destruct (rep_put _ a2 (mkActiveSession (uninit a) (Some x) (current a) (Some s)) Next s Hr2)
      as [Hr3 Hf3]; [split; [done|]; by intros [] ?|done| |done|].
    { rewrite Hm1. apply (unused_sub _ _ a); [|done].
      intros [] t Ht; [by exists Uninit|by exists Next; rewrite <- Ht|by exists Current|done]. }
    eexists _, _. split; [done|]. split; [|done]. split; [by apply idx_ok_insert|].
    split; [done|]. by eapply frame_trans.
  - cbn [mbind res_bind].
    destruct (rep_put _ a (mkActiveSession (uninit a) (previous a) (current a) (Some s)) Next s Hr)
      as [Hr3 Hf3]; [split; [done|]; by intros [] ?|done|done|done|].
    eexists _, _. split; [done|]. split; [|done]. split; [by apply idx_ok_insert|]. done.
Qed.

End Slots.

(** The same for a peer [k] of which nothing was cleared: a session with an absent index is
    in none of its slots. *)
Definition preserved (k : bytes) : SessionIndex -> SessionIndex -> ActiveSession -> Prop :=
  kept true (fun _ s => peer_of s = k).
Lemma rep_unused k m a s : rep k m a -> m !! sender_index s = None -> unused m a s.
Proof.
  intros (H1 & _) Hm. split; [done|]. intros q t Ht He.
  destruct (H1 q t Ht) as [Hp _]. cbn in Hp. congruence.
Qed.
Lemma prepare_uninit_spec {E} k i a s :
  idx_ok i -> rep k (indexes i) a -> peer_of s = k -> indexes i !! sender_index s = None ->
  exists i' a', prepare_uninit (E := E) i a s = Ok (i', a') /\ preserved k i i' a' /\
    uninit a' = Some s.
Proof. intros. apply prepare_uninit_kept; eauto using rep_unused. Qed.
Lemma complete_uninit_spec {E} k i a s :
  idx_ok i -> rep k (indexes i) a -> peer_of s = k ->
  exists i' a' ok, complete_uninit (E := E) i a s = Ok (i', a', ok) /\ preserved k i i' a' /\
    ok = same_index (uninit a) s /\
    (ok = true -> current a' = Some s /\ previous a' = current a /\ uninit a' = None).
Proof. intros. by apply complete_uninit_kept. Qed.
Lemma complete_next_spec {E} k i a s :
  idx_ok i -> rep k (indexes i) a -> peer_of s = k ->
  exists i' a' ok, complete_next (E := E) i a s = Ok (i', a', ok) /\ preserved k i i' a' /\
    ok = same_index (next a) s /\
    (ok = true -> current a' = Some s /\ previous a' = current a /\ next a' = None).
Proof. intros. by apply complete_next_kept. Qed.
Lemma prepare_next_spec {E} k i a s :
  idx_ok i -> rep k (indexes i) a -> peer_of s = k -> indexes i !! sender_index s = None ->
  exists i' a', prepare_next (E := E) i a s = Ok (i', a') /\ preserved k i i' a' /\
    next a' = Some s /\ current a' = current a.
Proof. intros. apply prepare_next_kept; eauto using rep_unused. Qed.
Lemma rep_fresh k m : (forall n s, m !! n = Some s -> peer_of s <> k) -> rep k m ActiveSession_new.
Proof.
  intros Hm. split; [by intros []|]. split; [by intros []|]. intros n s Hn Hs. by destruct (Hm n s).
Qed.

(** ** All peers of a device, and those removed from it

    The index table is shared; each peer runs operations on its own slots. [PeerList::clear]
    (peers.rs) empties the table but only cancels the peers: a removed peer keeps its slots
    and may still run operations, on the table its successors now use, while a new peer with
    the same key is inserted. Peers are therefore kept by an address of their own, and
    [listed] says whether the peer is in the list. A session that is prepared has an index
    that no registered session and no slot uses (indices come from [next_index] and repeat
    after 2^32 of them). *)
Record PeerSlots := mkPeerSlots { ps_key : bytes; ps_listed : bool; ps_slots : ActiveSession }.
Abbreviation peers := (gmap nat PeerSlots).

Inductive op :=
| PrepareUninit (s : Session)
| CompleteUninit (s : Session)
| PrepareNext (s : Session)
| CompleteNext (s : Session).

Definition apply_op {E} (i : SessionIndex) (a : ActiveSession) (o : op)
    : res E (SessionIndex * ActiveSession) :=
  match o with
  | PrepareUninit s => prepare_uninit i a s
  | CompleteUninit s => '(i, a, _) ← complete_uninit i a s; Ok (i, a)
  | PrepareNext s => prepare_next i a s
  | CompleteNext s => '(i, a, _) ← complete_next i a s; Ok (i, a)
  end.

Definition all_slots : list slot := [Uninit; Previous; Current; Next].
(** The indices in the slots of the peers. *)
Definition owned (P : peers) : list Z :=
  map_to_list P ≫= fun '(_, x) => omap (fun p => sender_index <$> get (ps_slots x) p) all_slots.

Definition allowed (i : SessionIndex) (P : peers) (k : bytes) (o : op) : Prop :=
  match o with
  | PrepareUninit s | PrepareNext s =>
      peer_of s = k /\ indexes i !! sender_index s = None /\ sender_index s ∉ owned P
  | CompleteUninit s | CompleteNext s => peer_of s = k
  end.

Definition unlist (x : PeerSlots) : PeerSlots := mkPeerSlots (ps_key x) false (ps_slots x).
Definition with_slots (x : PeerSlots) (a : ActiveSession) : PeerSlots :=
  mkPeerSlots (ps_key x) (ps_listed x) a.

Inductive reachable : SessionIndex -> peers -> Prop :=
| reach_init r : reachable (SessionIndex_new r) ∅
| reach_peer i P j k :
    reachable i P -> P !! j = None ->
    (forall j' x, P !! j' = Some x -> ps_listed x = true -> ps_key x <> k) ->
    reachable i (<[j := mkPeerSlots k true ActiveSession_new]> P)
| reach_index i P : reachable i P -> reachable (next_index i).1 P
| reach_op i P j x o i' a' :
    reachable i P -> P !! j = Some x -> allowed i P (ps_key x) o ->
    apply_op (E := unit) i (ps_slots x) o = Ok (i', a') ->
    reachable i' (<[j := with_slots x a']> P)
| reach_clear i P : reachable i P -> reachable (SessionIndex_clear i) (unlist <$> P).

Lemma elem_of_owned P n : n ∈ owned P <->
  exists j x p s, P !! j = Some x /\ get (ps_slots x) p = Some s /\ sender_index s = n.
Proof.
  unfold owned. rewrite list_elem_of_bind. split.
  - intros ([j x] & (p & _ & Hp)%list_elem_of_omap & Hj%elem_of_map_to_list).
    apply fmap_Some in Hp as (s & ? & ->). eauto 10.
  - intros (j & x & p & s & Hj & Hp & <-). exists (j, x).
    split; [|by apply elem_of_map_to_list]. apply list_elem_of_omap. exists p.
    split; [destruct p; set_solver|]. by rewrite Hp.
Qed.

Lemma length_owned P : (length (owned P) <= 4 * size P)%nat.
Proof.
  unfold owned. rewrite <- length_map_to_list. induction (map_to_list P) as [|[k a] l IH]; [done|].
  cbn [mbind list_bind length]. rewrite length_app.
  assert (length (omap (fun p => sender_index <$> get (ps_slots a) p) all_slots) <= 4)%nat; [|lia].
  simpl. destruct (uninit _), (previous _), (current _), (next _); simpl; lia.
Qed.

(** The entries that can be peer [j]'s: of its key, under an index no other peer has. *)
Definition own (P : peers) (j : nat) (k : bytes) (n : Z) (s : Session) : Prop :=
  peer_of s = k /\ n ∉ owned (delete j P).
#[global] Instance own_dec P j k n s : Decision (own P j k n s).
Proof. apply _. Defined.
Lemma own_insert P j x k : own (<[j := x]> P) j k = own P j k.
Proof. unfold own. by rewrite delete_insert_eq. Qed.

Lemma apply_op_kept {E} L P j k i a o : idx_ok i -> rep_on L (own P j k) (indexes i) a ->
  (forall p s, get a p = Some s -> sender_index s ∈ owned P) ->
  allowed i P k o ->
  exists i' a', apply_op (E := E) i a o = Ok (i', a') /\ kept L (own P j k) i i' a'.
Proof.
  intros Hi Hr Ha Ho.
  assert (forall n, n ∉ owned P -> n ∉ owned (delete j P)) as Hsub.
  { intros n Hn (j' & x & p & s & [_ ?]%lookup_delete_Some & ?)%elem_of_owned. apply Hn, elem_of_owned.
    eauto 10. }
  assert (forall s, sender_index s ∉ owned P -> indexes i !! sender_index s = None ->
    unused (indexes i) a s) as Hun.
  { intros s Hs Hm. split; [done|]. intros q t Ht He. apply Hs. rewrite <- He. eauto. }
  assert (forall s p, same_index (get a p) s = true -> peer_of s = k ->
    own P j k (sender_index s) s) as Hsame.
  { intros s p Hp Hk. split; [done|]. destruct (get a p) as [x|] eqn:Hx; [|done].
    apply Z.eqb_eq in Hp. rewrite <- Hp. destruct Hr as (H1 & _). by destruct (H1 p x Hx) as [_ [_ ?]]. }
  destruct o as [s|s|s|s]; cbn [allowed apply_op] in *.
  - destruct Ho as (? & ? & ?).
    destruct (prepare_uninit_kept (E := E) L (own P j k) i a s) as (i' & a' & ? & ? & _);
      eauto. by split; auto.
  - destruct (complete_uninit_kept (E := E) L (own P j k) i a s) as (i' & a' & ok & -> & ? & _);
      cbn; eauto. intros ?. by apply (Hsame s Uninit).
  - destruct Ho as (? & ? & ?).
    destruct (prepare_next_kept (E := E) L (own P j k) i a s) as (i' & a' & ? & ? & _);
      eauto. by split; auto.
  - destruct (complete_next_kept (E := E) L (own P j k) i a s) as (i' & a' & ok & -> & ? & _);
      cbn; eauto. intros ?. by apply (Hsame s Next).
Qed.

(** What holds of the table and all peers, listed or not. *)
Record sys_ok (i : SessionIndex) (P : peers) : Prop := {
  sys_idx : idx_ok i;
  sys_rep : forall j x, P !! j = Some x ->
    rep_on (ps_listed x) (own P j (ps_key x)) (indexes i) (ps_slots x);
  sys_found : forall n s, indexes i !! n = Some s ->
    exists j x p, P !! j = Some x /\ get (ps_slots x) p = Some s;
  sys_key : forall j j' x x', P !! j = Some x -> P !! j' = Some x' ->
    ps_listed x = true -> ps_listed x' = true -> ps_key x = ps_key x' -> j = j';
}.

(** An index in a slot of peer [j] is in no slot of another peer. *)
Lemma sys_slot i P j x p s : sys_ok i P -> P !! j = Some x -> get (ps_slots x) p = Some s ->
  present (ps_listed x) (indexes i) s /\ peer_of s = ps_key x /\ sender_index s ∉ owned (delete j P).
Proof. intros Hs Hj Hp. destruct (sys_rep i P Hs j x Hj) as (H1 & _). by destruct (H1 p s Hp). Qed.

Lemma owned_other P j j' x p s : P !! j' = Some x -> get (ps_slots x) p = Some s -> j' <> j ->
  sender_index s ∈ owned (delete j P).
Proof.
  intros. apply elem_of_owned. exists j', x, p, s. split; [|done]. by apply lookup_delete_Some.
Qed.

(** A peer's entries, from the two directions. *)
Lemma rep_of i P j x : P !! j = Some x -> idx_ok i ->
  (forall p s, get (ps_slots x) p = Some s ->
     present (ps_listed x) (indexes i) s /\ own P j (ps_key x) (sender_index s) s) ->
  (forall p q s t, get (ps_slots x) p = Some s -> get (ps_slots x) q = Some t ->
     sender_index s = sender_index t -> p = q) ->
  (forall n s, indexes i !! n = Some s -> exists j x p, P !! j = Some x /\ get (ps_slots x) p = Some s) ->
  rep_on (ps_listed x) (own P j (ps_key x)) (indexes i) (ps_slots x).
Proof.
  intros Hj Hi H1 H2 Hd. split; [done|]. split; [done|]. intros n s Hn [_ Ho].
  destruct (Hi n s Hn) as [<- _]. split; [done|]. destruct (Hd _ s Hn) as (j' & x' & p & Hj' & Hp).
  destruct (decide (j' = j)) as [->|Hne]; [|by destruct Ho; eapply owned_other].
  exists p. congruence.
Qed.

Lemma sys_op i P j x i' a' : sys_ok i P -> P !! j = Some x ->
  kept (ps_listed x) (own P j (ps_key x)) i i' a' -> sys_ok i' (<[j := with_slots x a']> P).
Proof.
  intros Hs Hj (Hi' & Hr' & Hf). set (P' := <[j := with_slots x a']> P).
  assert (P' !! j = Some (with_slots x a')) as Hj' by apply lookup_insert_eq.
  assert (forall n s, indexes i' !! n = Some s ->
    exists j x p, P' !! j = Some x /\ get (ps_slots x) p = Some s) as Hd.
  { intros n s Hn. destruct (decide (own P j (ps_key x) n s)) as [Ho|Ho].
    - destruct Hr' as (_ & _ & H3). destruct (H3 n s Hn Ho) as [_ [p ?]]. eauto.
    - apply (Hf n s Ho) in Hn. destruct (sys_found i P Hs n s Hn) as (q & y & p & Hq & Hp).
      exists q, y, p. split; [|done]. apply lookup_insert_Some. right. split; [|done]. intros <-.
      rewrite Hj in Hq. injection Hq as <-. apply Ho.
      destruct (sys_idx i P Hs n s Hn) as [<- _]. by apply (sys_slot i P j x p). }
  split; [done| |done|].
  - intros q y. destruct (decide (q = j)) as [->|Hne].
    { rewrite Hj'. intros [= <-]. cbn [ps_key ps_listed ps_slots with_slots]. unfold P'.
      by rewrite own_insert. }
    unfold P' at 1. rewrite lookup_insert_ne by done. intros Hq.
    destruct (sys_rep i P Hs q y Hq) as (H1 & H2 & _).
    apply rep_of; [by unfold P'; rewrite lookup_insert_ne|done| |done|done].
    intros p s Hp. destruct (H1 p s Hp) as [Hpr [Hk Ho]].
    assert (sender_index s ∈ owned (delete j P)) as Hin by by eapply owned_other.
    split; [|split; [done|]].
    + eapply present_agree, Hpr. intros t. apply Hf. by intros [_ ?].
    + intros (r & z & p' & t & [Hr Hz]%lookup_delete_Some & Ht & He)%elem_of_owned.
      revert Hz. unfold P'. rewrite lookup_insert_Some. intros [[<- <-]|[Hjr Hz]].
      * destruct Hr' as (H1' & _). destruct (H1' p' t Ht) as [_ [_ Hn]]. apply Hn. by rewrite He.
      * apply Ho. rewrite <- He. by eapply owned_other.
  - assert (forall q y, P' !! q = Some y -> exists y', P !! q = Some y' /\
      ps_key y' = ps_key y /\ ps_listed y' = ps_listed y) as Hback.
    { intros q y. unfold P'. rewrite lookup_insert_Some. intros [[<- <-]|[_ ?]]; eauto. }
    intros q q' y y' (z & Hz & <- & <-)%Hback (z' & Hz' & <- & <-)%Hback. by apply (sys_key i P Hs).
Qed.

Lemma sys_clear i P : sys_ok i P -> sys_ok (SessionIndex_clear i) (unlist <$> P).
Proof.
  intros Hs. split; [apply idx_ok_clear| |done|].
  - intros j y. rewrite lookup_fmap_Some. intros (x & <- & Hj).
    destruct (sys_rep i P Hs j x Hj) as (H1 & H2 & _). split; [|split; [done|]]; [|done].
    intros p s Hp. split; [done|]. destruct (H1 p s Hp) as [_ [? Ho]]. split; [done|].
    intros (r & z & p' & t & [Hr Hz]%lookup_delete_Some & Ht & He)%elem_of_owned.
    apply lookup_fmap_Some in Hz as (z' & <- & Hz'). apply Ho. rewrite <- He.
    by eapply (owned_other P j r z').
  - intros j j' y y'. rewrite !lookup_fmap_Some. by intros (x & <- & _) _ [=].
Qed.

Lemma sys_peer i P j k : sys_ok i P -> P !! j = None ->
  (forall j' x, P !! j' = Some x -> ps_listed x = true -> ps_key x <> k) ->
  sys_ok i (<[j := mkPeerSlots k true ActiveSession_new]> P).
Proof.
  intros Hs Hj Hk. set (P' := <[j := _]> P).
  assert (forall q y, P' !! q = Some y -> q <> j -> P !! q = Some y) as Hback.
  { intros q y. unfold P'. rewrite lookup_insert_Some. naive_solver. }
  assert (forall n s, indexes i !! n = Some s ->
    exists j x p, P' !! j = Some x /\ get (ps_slots x) p = Some s) as Hd.
  { intros n s (q & y & p & Hq & Hp)%(sys_found i P Hs). exists q, y, p. split; [|done].
    apply lookup_insert_Some. right. split; [congruence|done]. }
  split; [apply Hs| |done|].
  - intros q y Hq. apply rep_of; [done|apply Hs| | |done].
    + intros p s Hp. destruct (decide (q = j)) as [->|Hne].
      { unfold P' in Hq. rewrite lookup_insert_eq in Hq. injection Hq as <-. by destruct p. }
      destruct (sys_slot i P q y p s Hs (Hback q y Hq Hne) Hp) as (? & ? & Ho).
      split; [done|]. split; [done|].
      intros (r & z & p' & t & [Hr Hz]%lookup_delete_Some & Ht & He)%elem_of_owned. apply Ho.
      rewrite <- He. destruct (decide (r = j)) as [->|Hrj]; [|eapply owned_other; eauto].
      unfold P' in Hz. rewrite lookup_insert_eq in Hz. injection Hz as <-. by destruct p'.
    + destruct (decide (q = j)) as [->|Hne].
      { unfold P' in Hq. rewrite lookup_insert_eq in Hq. injection Hq as <-. by intros []. }
      by destruct (sys_rep i P Hs q y (Hback q y Hq Hne)) as (_ & H2 & _).
  - intros q q' y y'. unfold P'. rewrite !lookup_insert_Some.
    intros [[<- <-]|[? Hq]] [[<- <-]|[? Hq']] Hl Hl' He; [done|..].
    + by destruct (Hk q' y' Hq').
    + by destruct (Hk q y Hq).
    + by apply (sys_key i P Hs q q' y y').
Qed.

Lemma sys_apply {E} i P j x o : sys_ok i P -> P !! j = Some x -> allowed i P (ps_key x) o ->
  exists i' a', apply_op (E := E) i (ps_slots x) o = Ok (i', a') /\
    kept (ps_listed x) (own P j (ps_key x)) i i' a'.
Proof.
  intros Hs Hj Ho. apply apply_op_kept; [apply Hs|by apply Hs| |done].
  intros p s Hp. apply elem_of_owned. eauto 10.
Qed.

Lemma reachable_ok i P : reachable i P -> sys_ok i P.
Proof.
  induction 1 as [r|i P j k _ IH Hj Hk|i P _ IH|i P j x o i' a' _ IH Hj Ho He|i P _ IH].
  - split; [apply idx_ok_new|..]; done.
  - by apply sys_peer.
  - by destruct IH.
  - destruct (sys_apply (E := unit) i P j x o IH Hj Ho) as (? & ? & He' & Hkept).
    rewrite He in He'. injection He' as <- <-. by eapply sys_op.
  - by apply sys_clear.
Qed.

(** C6: in every reachable state of the session table - whatever the peers of the device did
    and in whatever order, the list cleared any number of times and the peers removed with it
    still running operations of their own next to their successors - a lookup finds a session
    only under its own index and in a slot of a peer with its key; a session in a slot of a
    listed peer is found, one of a removed peer is found or nothing is; so while no peer was
    removed the table is exactly the union of the peers' slots. No operation on the slots
    panics (the [unwrap] of [remove] included), not even one of a removed peer, no two listed
    peers have one key, and the table holds at most four sessions per peer ever inserted. *)
Theorem session_table_sound {E} i P : reachable i P ->
  (forall n s, get_by_index i n = Some s -> sender_index s = n /\
     exists j x p, P !! j = Some x /\ ps_key x = peer_of s /\ get (ps_slots x) p = Some s) /\
  (forall j x p s, P !! j = Some x -> get (ps_slots x) p = Some s -> peer_of s = ps_key x /\
     (get_by_index i (sender_index s) = Some s \/
      ps_listed x = false /\ get_by_index i (sender_index s) = None)) /\
  ((forall j x, P !! j = Some x -> ps_listed x = true) ->
   forall n s, get_by_index i n = Some s <-> sender_index s = n /\
     exists j x p, P !! j = Some x /\ ps_key x = peer_of s /\ get (ps_slots x) p = Some s) /\
  (forall j j' x x', P !! j = Some x -> P !! j' = Some x' -> ps_listed x = true ->
     ps_listed x' = true -> ps_key x = ps_key x' -> j = j') /\
  (forall j x o, P !! j = Some x -> allowed i P (ps_key x) o ->
     exists r, apply_op (E := E) i (ps_slots x) o = Ok r) /\
  (size (indexes i) <= 4 * size P)%nat.
Proof.
  intros Hs%reachable_ok. unfold get_by_index.
  assert (forall n s, indexes i !! n = Some s -> sender_index s = n /\
    exists j x p, P !! j = Some x /\ ps_key x = peer_of s /\ get (ps_slots x) p = Some s) as Hd.
  { intros n s Hn. split; [by apply (sys_idx i P Hs)|].
    destruct (sys_found i P Hs n s Hn) as (j & x & p & Hj & Hp). exists j, x, p.
    destruct (sys_slot i P j x p s Hs Hj Hp) as (_ & ? & _). eauto. }
  assert (forall j x p s, P !! j = Some x -> get (ps_slots x) p = Some s -> peer_of s = ps_key x /\
    (indexes i !! sender_index s = Some s \/
     ps_listed x = false /\ indexes i !! sender_index s = None)) as Hu.
  { intros j x p s Hj Hp. destruct (sys_slot i P j x p s Hs Hj Hp) as (Hpr & ? & _). split; [done|].
    destruct (ps_listed x); [by left|]. destruct (indexes i !! sender_index s) as [t|] eqn:Ht; [|auto].
    left. f_equal. by apply Hpr. }
  split; [done|]. split; [done|]. split; [|split; [apply Hs|split]].
  - intros Hall n s. split; [apply Hd|]. intros (<- & j & x & p & Hj & _ & Hp).
    destruct (Hu j x p s Hj Hp) as [_ [?|[? _]]]; [done|]. rewrite (Hall j x Hj) in *. done.
  - intros j x o Hj Ho. destruct (sys_apply (E := E) i P j x o Hs Hj Ho) as (? & ? & ? & _). eauto.
  - etrans; [|apply length_owned]. rewrite <- size_dom.
    etrans; [|apply (size_list_to_set_le)]. apply subseteq_size. intros n Hn.
    apply elem_of_dom in Hn as [s Hn]. apply Hd in Hn as [<- (j & x & p & Hj & _ & Hp)].
    apply elem_of_list_to_set, elem_of_owned. eauto 10.
Qed.

(** A peer prepared session 5 and was removed; its successor, with the same key, prepared
    session 6; then the handshake of the removed peer completed and its session is back in
    the cleared table. *)
Definition toy_session (n : Z) : Session :=
  mkSession (mkPeerStaticSecret (mkLocalStaticSecret [] []) [x01] []) n 0 [] 9 [] 0
    (mkChachaCipher []) (mkChachaCipher []).
Definition toy_slots (n : Z) : ActiveSession := mkActiveSession (Some (toy_session n)) None None None.
Definition toy_index (n : Z) : SessionIndex := SessionIndex_insert (SessionIndex_new 5) (toy_session n).
Definition toy_removed : peers := {[0%nat := mkPeerSlots [x01] false (toy_slots 5)]}.
Definition toy_both : peers := <[1%nat := mkPeerSlots [x01] true (toy_slots 6)]> toy_removed.

Lemma toy_reachable : reachable (toy_index 6) toy_both.
Proof.
  assert (reachable (SessionIndex_new 5) toy_removed) as Hc.
  { assert (toy_removed = unlist <$> {[0%nat := mkPeerSlots [x01] true (toy_slots 5)]}) as ->.
    { unfold toy_removed. by rewrite map_fmap_singleton. }
    apply (reach_clear (toy_index 5)).
    pose proof (reach_peer _ ∅ 0 [x01] (reach_init 5) eq_refl ltac:(done)) as H0.
    apply (reach_op _ _ 0 (mkPeerSlots [x01] true ActiveSession_new) (PrepareUninit (toy_session 5)) (toy_index 5) (toy_slots 5)) in H0;
      [|reflexivity|split_and!; try reflexivity; by apply (bool_decide_unpack _)|reflexivity].
    by rewrite insert_insert_eq in H0. }
  assert (forall j' x, toy_removed !! j' = Some x -> ps_listed x = true -> ps_key x <> [x01]) as Hk.
  { unfold toy_removed. intros j' x [<- <-]%lookup_singleton_Some. done. }
  pose proof (reach_peer _ toy_removed 1 [x01] Hc eq_refl Hk) as H1.
  apply (reach_op _ _ 1 (mkPeerSlots [x01] true ActiveSession_new)
    (PrepareUninit (toy_session 6)) (toy_index 6) (toy_slots 6)) in H1;
    [|reflexivity|split_and!; try reflexivity; by apply (bool_decide_unpack _)|reflexivity].
  by rewrite insert_insert_eq in H1.
Qed.

Lemma session_table_sound_witness :
  get_by_index (toy_index 6) 6 = Some (toy_session 6) /\ get_by_index (toy_index 6) 5 = None /\
  exists i P, reachable i P /\ size P = 2%nat /\
    get_by_index i 6 = Some (toy_session 6) /\ get_by_index i 5 = Some (toy_session 5) /\
    (size (indexes i) <= 8)%nat.
Proof.
  split; [reflexivity|]. split; [reflexivity|].
  destruct (session_table_sound (E := unit) _ _ toy_reachable) as (_ & _ & _ & _ & Hop & _).
  destruct (Hop 0%nat (mkPeerSlots [x01] false (toy_slots 5)) (CompleteUninit (toy_session 5)))
    as [[i a] Hi]; [reflexivity|reflexivity|].
  pose proof (reach_op (toy_index 6) toy_both 0 (mkPeerSlots [x01] false (toy_slots 5))
    (CompleteUninit (toy_session 5)) i a toy_reachable eq_refl eq_refl Hi) as Hr.
  destruct (session_table_sound (E := unit) _ _ Hr) as (_ & Hu & _ & _ & _ & Hsz).
  eexists i, _. split; [exact Hr|]. split; [reflexivity|].
  assert (match apply_op (E := unit) (toy_index 6) (toy_slots 5) (CompleteUninit (toy_session 5)) with
          | Ok (i, _) => get_by_index i 6 = Some (toy_session 6) /\
                         get_by_index i 5 = Some (toy_session 5)
          | _ => False end) as Hg by (split; reflexivity).
  cbn [ps_slots] in Hi. rewrite Hi in Hg. destruct Hg. by split_and!.
Defined.

(** ** Counters and data *)

Section Counters.
Context `{CryptoPrims}.

(** A sequence of [encrypt_data] calls, on any copies of any sessions; the packets produced,
    each with the cell of the session it was made with. *)
Fixpoint encrypt_all (h : heap) (calls : list (Session * bytes)) : heap * list (nat * TransportData) :=
  match calls with
  | [] => (h, [])
  | (s, data) :: calls =>
      let '(h, r) := encrypt_data h s data in
      let '(h, out) := encrypt_all h calls in
      (h, match r with Ok p => (cell s, p) :: out | _ => out end)
  end.

Lemma next_nonce_cells h s c : (cell s < length h)%nat ->
  sender_nonce ((next_nonce h s).1 !!! c) =
    (if decide (c = cell s) then wrap 64 (sender_nonce (h !!! c) + 1) else sender_nonce (h !!! c)) /\
  nonce_filter ((next_nonce h s).1 !!! c) = nonce_filter (h !!! c).
Proof.
  intros Hs. unfold next_nonce. cbn [fst]. destruct (decide (c = cell s)) as [->|Hne].
  - by rewrite list_lookup_total_insert_eq.
  - by rewrite list_lookup_total_insert_ne.
Qed.

Lemma encrypt_all_counters calls : forall h,
  (forall s d, (s, d) ∈ calls -> (cell s < length h)%nat) ->
  (forall c, 0 <= sender_nonce (h !!! c) /\ sender_nonce (h !!! c) + Z.of_nat (length calls) < 2 ^ 64) ->
  NoDup (prod_map id td_counter <$> (encrypt_all h calls).2) /\
  (forall c p, (c, p) ∈ (encrypt_all h calls).2 -> sender_nonce (h !!! c) <= td_counter p).
Proof.
  induction calls as [|[s d] calls IH]; intros h Hc Hn; [split; [constructor|set_solver]|].
  assert (cell s < length h)%nat as Hs by (apply (Hc s d); set_solver).
  cbn [encrypt_all]. unfold encrypt_data. destruct (next_nonce h s) as [h1 n] eqn:Hh1.
  assert (n = sender_nonce (h !!! cell s)) as -> by (by injection Hh1).
  pose proof (fun c => next_nonce_cells h s c Hs) as Hcells. rewrite Hh1 in Hcells.
  cbn [fst] in Hcells. cbn [length] in Hn.
  assert (forall c, sender_nonce (h !!! c) <= sender_nonce (h1 !!! c) <= sender_nonce (h !!! c) + 1 /\
    (c = cell s -> sender_nonce (h1 !!! c) = sender_nonce (h !!! c) + 1)) as Hstep.
  { intros c. destruct (Hcells c) as [-> _]. specialize (Hn c). case_decide; [|split; [lia|done]].
    rewrite wrap_small by (unfold in_u; lia). lia. }
  destruct (IH h1) as [IH1 IH2].
  { intros s' d' Hin. assert (length h1 = length h) as ->.
    { injection Hh1 as <-. by rewrite length_insert. } apply (Hc s' d'). set_solver. }
  { intros c. specialize (Hn c). specialize (Hstep c). lia. }
  destruct (encrypt_all h1 calls) as [h2 out]. cbn [snd] in *.
  assert (forall c p, (c, p) ∈ out -> sender_nonce (h !!! c) <= td_counter p) as Hout.
  { intros c p Hin. specialize (IH2 c p Hin). destruct (Hstep c). lia. }
  destruct (map_err _ _) as [payload|?|]; cbn [mbind res_bind]; [|done..]. split.
  - cbn. constructor; [|done]. intros [[c p] [Heq Hin]]%list_elem_of_fmap.
    injection Heq as Hcs Hcount. specialize (IH2 c p Hin). destruct (Hstep c) as [_ Hsucc].
    simpl in *. rewrite <- Hcs in *. specialize (Hsucc eq_refl). lia.
  - intros c p [[= -> ->]|Hin]%elem_of_cons; [cbn; lia|by apply Hout].
Qed.

End Counters.

Section Facts.
Context `{CryptoLaws}.

(** [s] seals what [t] opens. *)
Definition paired (s t : Session) : Prop :=
  receiver_index s = sender_index t /\ cipher (encrypt_cipher s) = cipher (decrypt_cipher t) /\
  length (cipher (encrypt_cipher s)) = 32%nat.

Lemma data_roundtrip h s t data :
  paired s t -> Z.of_nat (length data) <= aead_max ->
  exists h' p, encrypt_data h s data = (h', Ok p) /\ td_counter p = sender_nonce (h !!! cell s) /\
    td_receiver_index p = sender_index t /\ decrypt_data t p = Ok data.
Proof.
  intros (Hi & Hc & Hk) Hd. unfold encrypt_data, next_nonce.
  set (n := sender_nonce (h !!! cell s)).
  destruct (chacha_roundtrip (cipher (encrypt_cipher s)) (aead_nonce n) data []) as (e & He & Hdec);
    [done|apply length_aead_nonce|done|].
  unfold ChachaCipher_aead_encrypt. rewrite He. cbn [ok_or map_err mbind res_bind].
  eexists _, _. split; [done|]. split; [done|]. split; [done|].
  unfold decrypt_data, ChachaCipher_aead_decrypt. cbn [td_receiver_index td_counter td_payload].
  rewrite Hi, Z.eqb_refl, <- Hc, Hdec. done.
Qed.
End Facts.

(** C7: a session never seals two packets with one counter. Over any sequence of
    [encrypt_data] calls through any copies of any sessions, in any order, the packets made
    with the same session carry pairwise different counters (as long as fewer than 2^64 are
    drawn). *)
Theorem counters_never_repeat `{CryptoPrims} h calls :
  (forall s d, (s, d) ∈ calls -> (cell s < length h)%nat) ->
  (forall c, 0 <= sender_nonce (h !!! c) /\ sender_nonce (h !!! c) + Z.of_nat (length calls) < 2 ^ 64) ->
  NoDup (prod_map id td_counter <$> (encrypt_all h calls).2).
Proof. intros Hc Hn. exact (proj1 (encrypt_all_counters calls h Hc Hn)). Qed.

Section Witnesses.
#[local] Existing Instance Toy.prims.
Lemma counters_never_repeat_witness :
  let h := [mkCell 7 NonceFilter.new] in
  let calls := [(toy_session 5, [x61]); (toy_session 6, [x62]); (toy_session 5, [])] in
  (td_counter ∘ snd <$> (encrypt_all h calls).2) = [7; 8; 9] /\
  NoDup (prod_map id td_counter <$> (encrypt_all h calls).2).
Proof.
  split; [reflexivity|]. apply counters_never_repeat.
  - intros s d Hin. repeat (apply elem_of_cons in Hin as [[= -> ->]|Hin]; [vm_compute; lia|]).
    by apply not_elem_of_nil in Hin.
  - intros [|c]; split; try (vm_compute; congruence); destruct c; vm_compute; congruence.
Defined.
End Witnesses.
