(* ===== verification/PeerHandshake.v ===== *)
(** * The handshake of a peer (vlink-tun/src/device/peer/handshake.rs)

    A peer's [Handshake] turns the messages of [Noise] into sessions: [initiate] starts one
    with placeholder keys, [respond] answers an initiation, [finalize] completes ours. The
    device's [SessionIndex], shared by its peers, and the heap of session cells are passed
    along; ephemeral keys and clock readings are arguments. *)

From S2P Require Import Prelude Bytes NonceFilter Protocol Crypto Clock Noise Session.

Section PeerHandshake.
Context `{CryptoPrims}.

Inductive State :=
| Uninit
| Initiation (o : OutgoingInitiation).

Record Handshake := mkHandshake {
  hs_state : State;
  hs_secret : PeerStaticSecret;
  hs_macs : MacGenerator;
}.

Definition Handshake_new (secret : PeerStaticSecret) : Handshake :=
  mkHandshake Uninit secret (MacGenerator_new secret).

Definition zero_key : bytes := replicate 32 x00.

(** The shared part of a device a handshake touches. *)
Definition Shared : Type := heap * SessionIndex.

Definition initiate {E} (rnd : bytes) (now clk : Z) (sh : Shared) (hs : Handshake)
    : res E (Shared * Handshake * Session * bytes) :=
  let '(h, i) := sh in
  let '(i, sender_index) := next_index i in
  '(state, payload) ← OutgoingInitiation_new rnd now clk sender_index (hs_secret hs) (hs_macs hs);
  '(h, pre) ← Session_new clk h (hs_secret hs) sender_index zero_key 0 zero_key;
  Ok ((h, i), mkHandshake (Initiation state) (hs_secret hs) (hs_macs hs), pre, payload).

(** Never returns [Err]: the [Result] is always [Ok]. *)
Definition respond (rnd : bytes) (clk : Z) (sh : Shared) (hs : Handshake)
    (initiation : IncomingInitiation) : res NoiseError (Shared * Session * bytes) :=
  let '(h, i) := sh in
  let '(i, local_index) := next_index i in
  '(state, payload) ← OutgoingResponse_new rnd clk initiation local_index (hs_secret hs) (hs_macs hs);
  let '(sender_index, receiver_index) := (local_index, ii_index initiation) in
  let '(receiver_key, sender_key) := kdf2 (or_chaining_key state) [] in
  '(h, sess) ← Session_new clk h (hs_secret hs) sender_index sender_key receiver_index receiver_key;
  Ok ((h, i), sess, payload).

Definition finalize (clk : Z) (h : heap) (hs : Handshake) (packet : HandshakeResponse)
    : res NoiseError (heap * Session) :=
  match hs_state hs with
  | Initiation initiation =>
      state ← IncomingResponse_parse initiation (hs_secret hs) packet;
      let '(sender_index, receiver_index) := (oi_index initiation, ir_index state) in
      let '(sender_key, receiver_key) := kdf2 (ir_chaining_key state) [] in
      Session_new clk h (hs_secret hs) sender_index sender_key receiver_index receiver_key
  | Uninit => Err InvalidHandshakeState
  end.

End PeerHandshake.

Section Facts.
Context `{CryptoLaws}.

Lemma Session_new_Ok {E} now h sec si sk ri rk :
  length sk = 32%nat -> length rk = 32%nat ->
  Session_new (E := E) now h sec si sk ri rk =
  Ok (h ++ [mkCell 0 NonceFilter.NonceFilter.new],
      mkSession sec si (length h) sk ri rk now (mkChachaCipher sk) (mkChachaCipher rk)).
Proof. intros Hs Hr. unfold Session_new, ChachaCipher_new. by rewrite Hs, Hr. Qed.

(** Reading and answering a handshake packet as the device does, from the bytes. *)
Definition read_initiation (l : LocalStaticSecret) (p : bytes) : res NoiseError IncomingInitiation :=
  m ← parse p;
  match m with
  | MsgHandshakeInitiation pk => IncomingInitiation_parse l pk
  | _ => Err InvalidPacket
  end.
Definition read_response (clk : Z) (h : heap) (hs : Handshake) (p : bytes)
    : res NoiseError (heap * Session) :=
  m ← parse p;
  match m with
  | MsgHandshakeResponse pk => finalize clk h hs pk
  | _ => Err InvalidPacket
  end.
(** Opening a transport packet from the bytes. *)
Definition read_data (s : Session) (p : bytes) : res Error bytes :=
  m ← map_err Noise (parse p);
  match m with
  | MsgTransportData d => decrypt_data s d
  | _ => Err (Noise InvalidPacket)
  end.

Lemma parse_of_initiation p pk :
  HandshakeInitiation_try_from p = Ok pk -> parse p = Ok (MsgHandshakeInitiation pk).
Proof. intros [<- Hwf]%initiation_sound. by apply parse_encode. Qed.
Lemma parse_of_response p pk :
  HandshakeResponse_try_from p = Ok pk -> parse p = Ok (MsgHandshakeResponse pk).
Proof. intros [<- Hwf]%response_sound. by apply parse_encode. Qed.

Definition index_ok (i : SessionIndex) : Prop := in_u 32 (si_index i).

(** With the counters as they are in [h], data sealed by [s] is opened by [t], over the wire. *)
Definition opens (h : heap) (s t : Session) (data : bytes) : Prop :=
  exists h' p, encrypt_data h s data = (h', Ok p) /\ td_counter p = sender_nonce (h !!! cell s) /\
    read_data t (to_bytes p) = Ok data.

(** So it is of two paired sessions. *)
Lemma wire_roundtrip h s t data :
  paired s t -> in_u 32 (sender_index t) -> in_u 64 (sender_nonce (h !!! cell s)) ->
  Z.of_nat (length data) <= aead_max -> opens h s t data.
Proof.
  intros Hp Ht Hn Hd. destruct (data_roundtrip h s t data Hp Hd) as (h' & p & He & Hc & Hi & Hdec).
  exists h', p. split; [done|]. split; [done|]. unfold read_data.
  assert (parse (to_bytes p) = Ok (MsgTransportData p)) as ->.
  { apply (parse_encode (MsgTransportData p)). split; [by rewrite Hi|by rewrite Hc]. }
  done.
Qed.

(** Sealing keeps every counter a [u64]: it wraps. *)
Lemma encrypt_all_u64 calls c : forall h, in_u 64 (sender_nonce (h !!! c)) ->
  in_u 64 (sender_nonce ((encrypt_all h calls).1 !!! c)).
Proof.
  induction calls as [|[s d] calls IH]; intros h Hh; [done|].
  cbn [encrypt_all]. unfold encrypt_data. destruct (next_nonce h s) as [h1 n] eqn:Hh1.
  destruct (encrypt_all h1 calls) as [h2 out] eqn:Hall. cbn [fst].
  replace h2 with (encrypt_all h1 calls).1 by by rewrite Hall. apply IH.
  injection Hh1 as <- _. destruct (decide (cell s < length h)%nat) as [Hs|Hs].
  - destruct (decide (c = cell s)) as [->|Hne].
    + rewrite list_lookup_total_insert_eq by done. by apply wrap_in_u.
    + by rewrite list_lookup_total_insert_ne.
  - by rewrite list_insert_ge by lia.
Qed.

(** One exchange, with everything the two ends learn from it. *)
Record exchange (si sr k : bytes) (clk clk' clk'' : Z) (hA hB : heap) (iA iB : SessionIndex)
    (gA gB : MacGenerator) (ei er : bytes) (now : Z) (st st' : State)
    (A1 : Handshake) (pre sA sB : Session) (p1 p2 : bytes) (pk1 : HandshakeInitiation)
    (ii : IncomingInitiation) (pk2 : HandshakeResponse) (hA1 hA2 hB1 : heap) : Prop := mkExchange {
  ex_initiate : initiate (E := unit) ei now clk (hA, iA) (mkHandshake st (initiator si sr k) gA)
    = Ok ((hA1, (next_index iA).1), A1, pre, p1);
  ex_parse1 : parse p1 = Ok (MsgHandshakeInitiation pk1);
  ex_read1 : IncomingInitiation_parse (local (responder si sr k)) pk1 = Ok ii;
  ex_static : ii_static_public_key ii = x25519_base si;
  ex_respond : respond er clk' (hB, iB) (mkHandshake st' (responder si sr k) gB) ii
    = Ok ((hB1, (next_index iB).1), sB, p2);
  ex_parse2 : parse p2 = Ok (MsgHandshakeResponse pk2);
  ex_index : hr_receiver_index pk2 = si_index iA;
  ex_finalize : finalize clk'' hA1 A1 pk2 = Ok (hA2, sA);
  ex_indices : sender_index pre = si_index iA /\ sender_index sA = si_index iA /\
    sender_index sB = si_index iB;
  ex_secrets : secret pre = initiator si sr k /\ secret sA = initiator si sr k /\
    secret sB = responder si sr k;
  ex_paired : paired sA sB /\ paired sB sA;
  ex_cells : hA2 !!! cell sA = mkCell 0 NonceFilter.NonceFilter.new /\
    hB1 !!! cell sB = mkCell 0 NonceFilter.NonceFilter.new /\
    (cell sA < length hA2)%nat /\ (cell sB < length hB1)%nat;
  ex_macs : ends_with_macs gA clk p1 /\ ends_with_macs gB clk' p2;
}.

Lemma exchange_sessions si sr k ei er now clk clk' clk'' hA iA hB iB gA gB st st' :
  index_ok iA -> index_ok iB -> clock_ok now -> macs_ok gA -> macs_ok gB ->
  exists A1 pre sA sB p1 p2 pk1 ii pk2 hA1 hA2 hB1,
    exchange si sr k clk clk' clk'' hA hB iA iB gA gB ei er now st st'
      A1 pre sA sB p1 p2 pk1 ii pk2 hA1 hA2 hB1.
Proof.
  intros HiA HiB Hnow HgA HgB.
  destruct (initiation_exchange (E := unit) ei now clk (si_index iA) si sr k gA)
    as (oi & p1 & pk1 & ii & Ho & Hp & Hi & Hox & Hix & He & Hie & Hh & Hc & Hs & _); [done..|].
  destruct (response_exchange (E := NoiseError) er clk' (si_index iB) si sr k gB oi ii)
    as (or & p2 & pk2 & ir & Hor & Hp2 & Hir & Hrx & _ & Hirx & _ & Hcr);
    [done|by rewrite Hix|done|done|done|by rewrite He|].
  destruct (kdf2 (or_chaining_key or) []) as [k1 k2] eqn:Hk. destruct (kdf2_len _ _ _ _ Hk) as [Hl1 Hl2].
  eexists _, _, _, _, p1, p2, pk1, ii, pk2, _, _, _. constructor.
  - unfold initiate, next_index. cbn [hs_secret hs_macs].
    rewrite Ho. cbn [mbind res_bind]. rewrite Session_new_Ok by done. reflexivity.
  - by apply parse_of_initiation.
  - done.
  - done.
  - unfold respond, next_index. cbn [hs_secret hs_macs]. rewrite Hor. cbn [mbind res_bind].
    rewrite Hk, Session_new_Ok by done. reflexivity.
  - by apply parse_of_response.
  - by rewrite Hrx, Hix.
  - unfold finalize. cbn [hs_state hs_secret]. rewrite Hir. cbn [mbind res_bind].
    rewrite Hcr, Hk. by apply Session_new_Ok.
  - cbn [sender_index]. done.
  - done.
  - unfold paired. cbn [sender_index receiver_index encrypt_cipher decrypt_cipher cipher].
    by rewrite Hox, Hix, Hirx.
  - cbn [cell]. rewrite !list_lookup_total_middle, !length_app by done. cbn [length]. split_and!; [done..|lia|lia].
  - split; [by eapply initiation_macs|by eapply response_macs].
Qed.

(** C8: after one exchange of handshake messages the two peers hold matching sessions: each
    sends with the key the other receives with, to the index the other listens on, and every
    packet either of them seals afterwards - the first, with counter 0, and the next one
    after any sequence of [encrypt_data] calls through this session and any others - carries
    the counter the session is at and is parsed and opened by the other to the data that
    went in. This holds for any static keys, pre-shared key, ephemeral keys and table states,
    over the bytes on the wire. *)
Theorem tunnel_established si sr k ei er now clk clk' clk'' hA iA hB iB :
  index_ok iA -> index_ok iB -> clock_ok now ->
  exists hA1 iA1 A1 pre p1 ii hB1 iB1 sB p2 hA2 sA,
    initiate (E := unit) ei now clk (hA, iA) (Handshake_new (initiator si sr k))
      = Ok ((hA1, iA1), A1, pre, p1) /\
    read_initiation (local (responder si sr k)) p1 = Ok ii /\
    respond er clk' (hB, iB) (Handshake_new (responder si sr k)) ii = Ok ((hB1, iB1), sB, p2) /\
    read_response clk'' hA1 A1 p2 = Ok (hA2, sA) /\
    sender_index sA = sender_index pre /\
    sender_nonce (hA2 !!! cell sA) = 0 /\ sender_nonce (hB1 !!! cell sB) = 0 /\
    forall calls data, Z.of_nat (length data) <= aead_max ->
      opens (encrypt_all hA2 calls).1 sA sB data /\ opens (encrypt_all hB1 calls).1 sB sA data.
Proof.
  intros HiA HiB Hnow.
  destruct (exchange_sessions si sr k ei er now clk clk' clk'' hA iA hB iB
    (MacGenerator_new (initiator si sr k)) (MacGenerator_new (responder si sr k)) Uninit Uninit HiA HiB Hnow
    (MacGenerator_new_ok _) (MacGenerator_new_ok _))
    as (A1 & pre & sA & sB & p1 & p2 & pk1 & ii & pk2 & hA1 & hA2 & hB1 & []).
  destruct ex_indices0 as (Hpre & HsA & HsB). destruct ex_cells0 as (HcA & HcB & _).
  destruct ex_paired0 as [HAB HBA].
  exists hA1, (next_index iA).1, A1, pre, p1, ii, hB1, (next_index iB).1, sB, p2, hA2, sA.
  split; [done|]. split; [unfold read_initiation; by rewrite ex_parse3|]. split; [done|].
  split; [unfold read_response; by rewrite ex_parse4|]. split; [congruence|].
  split; [by rewrite HcA|]. split; [by rewrite HcB|].
  intros calls data Hd. split; apply wire_roundtrip; try done.
  - by rewrite HsB.
  - apply encrypt_all_u64. by rewrite HcA.
  - by rewrite HsA.
  - apply encrypt_all_u64. by rewrite HcB.
Qed.

(** A response is only used by the peer that is waiting for it: without an outstanding
    initiation [finalize] fails with [InvalidHandshakeState] and changes nothing, and a
    session it does produce has the index of the outstanding initiation, is addressed to the
    sender of the response, and starts with counter 0 and an empty replay window. *)
Theorem finalize_spec clk h hs packet :
  (hs_state hs = Uninit -> finalize clk h hs packet = Err InvalidHandshakeState) /\
  (forall oi, hs_state hs = Initiation oi ->
     (finalize clk h hs packet = Err Decryption \/
      exists s, finalize clk h hs packet = Ok (h ++ [mkCell 0 NonceFilter.NonceFilter.new], s) /\
        sender_index s = oi_index oi /\ receiver_index s = hr_sender_index packet /\
        cell s = length h /\ secret s = hs_secret hs /\
        length (sender_key s) = 32%nat /\ length (receiver_key s) = 32%nat)).
Proof.
  unfold finalize. split; [by intros ->|]. intros oi ->.
  unfold IncomingResponse_parse. destruct (kdf3 _ _) as [[c t] key] eqn:Hk.
  destruct (kdf3_len _ _ _ _ _ Hk) as (_ & _ & Hl).
  match goal with |- context [aead_decrypt ?k ?c ?m ?a] =>
    destruct (aead_decrypt_cases k c m a Hl) as [[p ->]| ->] end; [|by left].
  cbn [mbind res_bind]. destruct (negb _); [by left|]. cbn [mbind res_bind ir_chaining_key ir_index].
  right. destruct (kdf2 c []) as [k1 k2] eqn:Hk2. destruct (kdf2_len _ _ _ _ Hk2).
  rewrite Session_new_Ok by done. eexists. split; [reflexivity|]. done.
Qed.

End Facts.

Section Witnesses.
#[local] Existing Instance Toy.prims.
#[local] Existing Instance Toy.laws.

Lemma tunnel_established_witness :
  exists hA1 iA1 A1 pre p1 ii hB1 iB1 sB p2 hA2 sA,
    initiate (E := unit) (key_of x44) (secs 5) 0 ([], SessionIndex_new 41)
      (Handshake_new toy_I) = Ok ((hA1, iA1), A1, pre, p1) /\
    read_initiation (local toy_R) p1 = Ok ii /\
    respond (key_of x55) 0 ([], SessionIndex_new 87) (Handshake_new toy_R) ii = Ok ((hB1, iB1), sB, p2) /\
    read_response 0 hA1 A1 p2 = Ok (hA2, sA) /\
    exists h p, encrypt_data (encrypt_all hA2 [(sA, [x63]); (sA, [])]).1 sA [x61; x62] = (h, Ok p) /\
      read_data sB (to_bytes p) = Ok [x61; x62].
Proof.
  destruct (tunnel_established (key_of x11) (key_of x22) (key_of x33) (key_of x44) (key_of x55)
    (secs 5) 0 0 0 [] (SessionIndex_new 41) [] (SessionIndex_new 87))
    as (hA1 & iA1 & A1 & pre & p1 & ii & hB1 & iB1 & sB & p2 & hA2 & sA & H1 & H2 & H3 & H4 & _ & _ & _ & H5);
    [split; vm_compute; congruence..|].
  exists hA1, iA1, A1, pre, p1, ii, hB1, iB1, sB, p2, hA2, sA.
  split; [exact H1|]. split; [exact H2|]. split; [exact H3|]. split; [exact H4|].
  destruct (H5 [(sA, [x63]); (sA, [])] [x61; x62]) as [(h & p & He & _ & Hr) _];
    [vm_compute; congruence|].
  exists h, p. split; [exact He|exact Hr].
Defined.

Lemma finalize_spec_witness :
  let pk := mkHandshakeResponse 1 2 (key_of x00) (replicate 16 x00) (replicate 16 x00) (replicate 16 x00) in
  finalize 0 [] (Handshake_new toy_I) pk = Err InvalidHandshakeState.
Proof.
  apply (finalize_spec 0 [] (Handshake_new toy_I)
    (mkHandshakeResponse 1 2 (key_of x00) (replicate 16 x00) (replicate 16 x00) (replicate 16 x00))).
  reflexivity.
Defined.
End Witnesses.
