(* ===== verification/Monitor.v ===== *)
(** * Timers of a peer (device/peer/monitor.rs, device/rate_limiter.rs, the timer half of
    device/peer/handler.rs of vlink-tun)

    When a peer may start a handshake, when it sleeps until, when it sends a keepalive.
    [now] is the monotonic clock during a call (one reading stands for the readings the call
    makes), [sys] the system clock. *)

From S2P Require Import Prelude Bytes Clock.

Definition REKEY_AFTER_MESSAGES : Z := Z.shiftl 1 60.
Definition REKEY_AFTER_TIME : Z := secs 120.
Definition REJECT_AFTER_TIME : Z := secs 180.
Definition REKEY_ATTEMPT_TIME : Z := secs 90.
Definition REKEY_TIMEOUT : Z := secs 5.
Definition KEEPALIVE_TIMEOUT : Z := secs 10.

(** ** [HandshakeMonitor] *)

Record HandshakeMonitor := mkHandshakeMonitor {
  hm_last_attempt_at : AtomicInstant;
  hm_last_complete_at : AtomicInstant;
  hm_last_complete_ts : AtomicTimestamp;
  hm_attempt_before : AtomicInstant;
}.

Definition HandshakeMonitor_new (now : Z) : HandshakeMonitor :=
  {| hm_last_attempt_at := AtomicInstant_from_std (now - REKEY_TIMEOUT);
     hm_last_complete_at := AtomicInstant_from_std (now - REJECT_AFTER_TIME);
     hm_attempt_before := AtomicInstant_add_duration REKEY_ATTEMPT_TIME (AtomicInstant_now now);
     hm_last_complete_ts := AtomicTimestamp_zeroed |}.

Definition initiated (now : Z) (m : HandshakeMonitor) : HandshakeMonitor :=
  mkHandshakeMonitor (AtomicInstant_set_now now (hm_last_attempt_at m)) (hm_last_complete_at m)
    (hm_last_complete_ts m) (hm_attempt_before m).

Definition is_max_attempt (now : Z) (m : HandshakeMonitor) : bool :=
  AtomicInstant_to_std (hm_attempt_before m) <? now.

Definition will_initiate_in (now : Z) (m : HandshakeMonitor) : Z :=
  if is_max_attempt now m || (AtomicInstant_elapsed now (hm_last_complete_at m) <? REKEY_AFTER_TIME)
  then now + REKEY_TIMEOUT
  else AtomicInstant_to_std (hm_last_attempt_at m) + REKEY_TIMEOUT.

Definition reset_attempt (now : Z) (m : HandshakeMonitor) : HandshakeMonitor :=
  mkHandshakeMonitor (hm_last_attempt_at m) (hm_last_complete_at m) (hm_last_complete_ts m)
    (AtomicInstant_add_duration REKEY_ATTEMPT_TIME (AtomicInstant_set_now now (hm_attempt_before m))).

(** Panics when the system clock is before 1970. *)
Definition completed {E} (now sys : Z) (m : HandshakeMonitor) : res E HandshakeMonitor :=
  ts ← AtomicTimestamp_set_now sys (hm_last_complete_ts m);
  Ok (reset_attempt now
        (mkHandshakeMonitor (hm_last_attempt_at m) (AtomicInstant_set_now now (hm_last_complete_at m))
           ts (hm_attempt_before m))).

(** ** [TrafficMonitor] *)

Record TrafficMonitor := mkTrafficMonitor {
  last_sent_at : AtomicInstant;
  last_recv_at : AtomicInstant;
  tx_messages : Z;
  rx_messages : Z;
  tx_bytes : Z;
  rx_bytes : Z;
}.

Definition TrafficMonitor_new (now : Z) : TrafficMonitor :=
  mkTrafficMonitor (AtomicInstant_from_std now) (AtomicInstant_from_std (now - REKEY_TIMEOUT)) 0 0 0 0.

Definition outbound (now : Z) (n : Z) (t : TrafficMonitor) : TrafficMonitor :=
  mkTrafficMonitor (AtomicInstant_set_now now (last_sent_at t)) (last_recv_at t)
    (wrap 64 (tx_messages t + 1)) (rx_messages t) (wrap 64 (tx_bytes t + n)) (rx_bytes t).

Definition inbound (n : Z) (t : TrafficMonitor) : TrafficMonitor :=
  mkTrafficMonitor (last_sent_at t) (last_recv_at t)
    (tx_messages t) (wrap 64 (rx_messages t + 1)) (tx_bytes t) (wrap 64 (rx_bytes t + n)).

(** ** [KeepAliveMonitor] *)

Record KeepAliveMonitor := mkKeepAliveMonitor {
  ka_last_attempt_at : AtomicInstant;
  perisistent_keepalive_interval : option Z;
}.

Definition KeepAliveMonitor_new (now : Z) (interval : option Z) : KeepAliveMonitor :=
  mkKeepAliveMonitor (AtomicInstant_now now) interval.

Definition next_attempt_in (now : Z) (k : KeepAliveMonitor) (traffic : TrafficMonitor) : Z :=
  if (KEEPALIVE_TIMEOUT <=? AtomicInstant_elapsed now (ka_last_attempt_at k)) &&
     (AtomicInstant_to_std (last_sent_at traffic) <? AtomicInstant_to_std (last_recv_at traffic))
  then
    if KEEPALIVE_TIMEOUT <? AtomicInstant_elapsed now (last_recv_at traffic) then now
    else now + KEEPALIVE_TIMEOUT - AtomicInstant_elapsed now (last_recv_at traffic)
  else
    match perisistent_keepalive_interval k with
    | Some v => AtomicInstant_to_std (ka_last_attempt_at k) + v
    | None => now + REKEY_AFTER_TIME
    end.

Definition keepalive_can (now : Z) (k : KeepAliveMonitor) (traffic : TrafficMonitor) : bool :=
  next_attempt_in now k traffic <=? now.

Definition attempt (now : Z) (k : KeepAliveMonitor) : KeepAliveMonitor :=
  mkKeepAliveMonitor (AtomicInstant_set_now now (ka_last_attempt_at k)) (perisistent_keepalive_interval k).

(** ** [PeerMonitor] *)

Record PeerMonitor := mkPeerMonitor {
  pm_handshake : HandshakeMonitor;
  pm_traffic : TrafficMonitor;
  pm_keepalive : KeepAliveMonitor;
}.

Definition PeerMonitor_new (now : Z) (interval : option Z) : PeerMonitor :=
  mkPeerMonitor (HandshakeMonitor_new now) (TrafficMonitor_new now) (KeepAliveMonitor_new now interval).

Definition with_handshake (m : PeerMonitor) (h : HandshakeMonitor) : PeerMonitor :=
  mkPeerMonitor h (pm_traffic m) (pm_keepalive m).
Definition with_traffic (m : PeerMonitor) (t : TrafficMonitor) : PeerMonitor :=
  mkPeerMonitor (pm_handshake m) t (pm_keepalive m).
Definition with_keepalive (m : PeerMonitor) (k : KeepAliveMonitor) : PeerMonitor :=
  mkPeerMonitor (pm_handshake m) (pm_traffic m) k.

(** May reset the attempt window on the way. *)
Definition can_handshake (now : Z) (m : PeerMonitor) : PeerMonitor * bool :=
  let h := pm_handshake m in
  if REKEY_AFTER_MESSAGES <=? tx_messages (pm_traffic m) then (m, true)
  else if AtomicInstant_elapsed now (hm_last_complete_at h) <? REKEY_AFTER_TIME then (m, false)
  else
    let h := if AtomicInstant_to_std (hm_attempt_before h) <?
                AtomicInstant_to_std (hm_last_complete_at h) + REKEY_AFTER_TIME
             then reset_attempt now h else h in
    (with_handshake m h, REKEY_TIMEOUT <=? AtomicInstant_elapsed now (hm_last_attempt_at h)).

Record PeerMetrics := mkPeerMetrics {
  m_tx_messages : Z; m_rx_messages : Z; m_tx_bytes : Z; m_rx_bytes : Z; last_handshake_at : Z;
}.
Definition PeerMonitor_metrics (m : PeerMonitor) : PeerMetrics :=
  mkPeerMetrics (tx_messages (pm_traffic m)) (rx_messages (pm_traffic m)) (tx_bytes (pm_traffic m))
    (rx_bytes (pm_traffic m)) (AtomicTimestamp_to_std (hm_last_complete_ts (pm_handshake m))).

(** One turn of [loop_handshake] as the timers see it: whether it initiates, and the instant
    it sleeps until. *)
Definition handshake_turn (now : Z) (m : PeerMonitor) : PeerMonitor * bool * Z :=
  let '(m, go) := can_handshake now m in
  let m := if go then with_handshake m (initiated now (pm_handshake m)) else m in
  (m, go, will_initiate_in now (pm_handshake m)).

(** ** [RateLimiter] (rate_limiter.rs) *)

Record RateLimiter := mkRateLimiter { tokens : Z; bucket : Z; last_at : AtomicInstant }.

(** [tokens as i16]. *)
Definition as_i16 (n : Z) : Z := let m := wrap 16 n in if m <? 2 ^ 15 then m else m - 2 ^ 16.
Definition RateLimiter_new (now : Z) (n : Z) : RateLimiter :=
  mkRateLimiter n (as_i16 n) (AtomicInstant_now now).
Definition fetch_token (r : RateLimiter) : bool := true.

(** ** Lemmas *)

(** An instant that was set by the clock before [now], whose milliseconds fit in [u64]. *)
Definition past (now : Z) (i : AtomicInstant) : Prop :=
  0 <= d i < 2 ^ 63 /\ AtomicInstant_to_std i <= now /\ epoch i <= now /\
  (now - epoch i) / 10 ^ 6 < 2 ^ 63.
(** An instant that may lie ahead (a deadline). *)
Definition fits (now : Z) (i : AtomicInstant) : Prop :=
  0 <= d i < 2 ^ 64 /\ epoch i <= now /\ (now - epoch i) / 10 ^ 6 < 2 ^ 63.

Ltac clk := unfold past, fits, AtomicInstant_elapsed, AtomicInstant_to_std, AtomicInstant_set_now,
  AtomicInstant_from_std, AtomicInstant_now, AtomicInstant_add_duration, elapsed, millis in *;
  cbn [d epoch] in *.

Lemma set_now_past now i : past now i ->
  past now (AtomicInstant_set_now now i) /\
  now - 10 ^ 6 < AtomicInstant_to_std (AtomicInstant_set_now now i) <= now.
Proof.
  clk. intros (Hd & Ht & He & Hf). rewrite Z.max_r by lia.
  rewrite wrap_small by (unfold in_u; dlia). dlia.
Qed.
Lemma elapsed_past now i : past now i -> AtomicInstant_elapsed now i = now - AtomicInstant_to_std i.
Proof. clk. lia. Qed.

Definition monitor_ok (now : Z) (m : PeerMonitor) : Prop :=
  past now (hm_last_attempt_at (pm_handshake m)) /\
  past now (hm_last_complete_at (pm_handshake m)) /\
  fits now (hm_attempt_before (pm_handshake m)).

Lemma reset_attempt_fits now h : fits now (hm_attempt_before h) ->
  fits now (hm_attempt_before (reset_attempt now h)).
Proof.
  clk. cbn. intros (Hd & He & Hf). split; [|done]. apply wrap_in_u. lia.
Qed.

(** The times of the last attempt and the last completion. *)
Definition attempted_at (m : PeerMonitor) : Z := AtomicInstant_to_std (hm_last_attempt_at (pm_handshake m)).
Definition completed_at (m : PeerMonitor) : Z := AtomicInstant_to_std (hm_last_complete_at (pm_handshake m)).

(** The timer of a new peer is due at once. *)
Lemma fresh_can_handshake t0 now interval : t0 <= now ->
  (can_handshake now (PeerMonitor_new t0 interval)).2 = true.
Proof.
  intros Hnow. unfold can_handshake, PeerMonitor_new, HandshakeMonitor_new, AtomicInstant_elapsed, elapsed.
  cbn [pm_handshake pm_traffic tx_messages TrafficMonitor_new hm_last_complete_at hm_attempt_before].
  change (REKEY_AFTER_MESSAGES <=? 0) with false.
  unfold AtomicInstant_to_std, AtomicInstant_add_duration, AtomicInstant_now, AtomicInstant_from_std. cbn [epoch d].
  change (millis (wrap 64 (0 + wrap 64 (REKEY_ATTEMPT_TIME / 10 ^ 6)))) with (secs 90). change (millis 0) with 0.
  unfold REJECT_AFTER_TIME, REKEY_AFTER_TIME, REKEY_TIMEOUT, secs.
  destruct (Z.ltb_spec (Z.max 0 (now - (t0 - 180 * 10 ^ 9 + 0))) (120 * 10 ^ 9)); [lia|].
  destruct (Z.ltb_spec (t0 + 90 * 10 ^ 9) (t0 - 180 * 10 ^ 9 + 0 + 120 * 10 ^ 9)); [lia|].
  cbn [snd hm_last_attempt_at epoch d]. unfold REKEY_TIMEOUT, secs. change (millis 0) with 0. apply Z.leb_le. lia.
Qed.

(** What [can_handshake] decides; it touches nothing but the attempt window. *)
Lemma can_handshake_spec now m m' go : monitor_ok now m -> can_handshake now m = (m', go) ->
  monitor_ok now m' /\ pm_traffic m' = pm_traffic m /\ attempted_at m' = attempted_at m /\
  completed_at m' = completed_at m /\
  (go = true <-> REKEY_AFTER_MESSAGES <= tx_messages (pm_traffic m) \/
     completed_at m + REKEY_AFTER_TIME <= now /\ attempted_at m + REKEY_TIMEOUT <= now).
Proof.
  intros (H1 & H2 & H3). unfold can_handshake. rewrite (elapsed_past now _ H2).
  fold (completed_at m).
  destruct (Z.leb_spec REKEY_AFTER_MESSAGES (tx_messages (pm_traffic m))).
  { intros [= <- <-]. split; [done|]. split_and!; try done. split; [by left|done]. }
  destruct (Z.ltb_spec (now - completed_at m) REKEY_AFTER_TIME).
  { intros [= <- <-]. split; [done|]. split_and!; try done. split; [done|]. lia. }
  destruct (_ <? _); intros [= <- <-]; (split; [split_and!; try done; by apply reset_attempt_fits|]);
    (split_and!; try done);
    cbn [hm_last_attempt_at reset_attempt]; rewrite (elapsed_past now _ H1), Z.leb_le;
    fold (attempted_at m); lia.
Qed.

(** ** The life of a monitor

    The calls the device makes on a peer's monitor, each at its clock reading. *)
Inductive monitor_call :=
| CallOutbound (n : Z)
| CallInbound (n : Z)
| CallAttempt
| CallTurn
| CallCompleted (sys : Z)
| CallInitiated.

Definition monitor_step {E} (now : Z) (m : PeerMonitor) (c : monitor_call) : res E PeerMonitor :=
  match c with
  | CallOutbound n => Ok (with_traffic m (outbound now n (pm_traffic m)))
  | CallInbound n => Ok (with_traffic m (inbound n (pm_traffic m)))
  | CallAttempt => Ok (with_keepalive m (attempt now (pm_keepalive m)))
  | CallTurn => let '(m, _, _) := handshake_turn now m in Ok m
  | CallCompleted sys => h ← completed now sys (pm_handshake m); Ok (with_handshake m h)
  | CallInitiated => Ok (with_handshake m (initiated now (pm_handshake m)))
  end.

(** [later t0 now0 m0 now m]: from [m0] at [now0] the calls lead to [m] at [now], on a clock
    that never goes back and runs for less than 2^62 ms after [t0]. *)
Inductive later (t0 now0 : Z) (m0 : PeerMonitor) : Z -> PeerMonitor -> Prop :=
| later_refl : later t0 now0 m0 now0 m0
| later_wait now now' m : later t0 now0 m0 now m -> now <= now' -> (now' - t0) / 10 ^ 6 < 2 ^ 62 ->
    later t0 now0 m0 now' m
| later_step now m c m' : later t0 now0 m0 now m -> monitor_step (E := unit) now m c = Ok m' ->
    later t0 now0 m0 now m'.
(** A monitor made at [t0] with interval [v] is [m] at [now]. *)
Definition lived (t0 : Z) (v : option Z) : Z -> PeerMonitor -> Prop :=
  later t0 t0 (PeerMonitor_new t0 v).

(** The handshake half at all times: its instants keep their epochs and lie in the past. *)
Record paced (t0 now : Z) (m : PeerMonitor) : Prop := {
  pc_now : t0 <= now;
  pc_bound : (now - t0) / 10 ^ 6 < 2 ^ 62;
  pc_epochs : t0 - REJECT_AFTER_TIME <= epoch (hm_last_attempt_at (pm_handshake m)) <= t0 /\
    t0 - REJECT_AFTER_TIME <= epoch (hm_last_complete_at (pm_handshake m)) <= t0 /\
    epoch (hm_attempt_before (pm_handshake m)) = t0;
  pc_attempt : 0 <= d (hm_last_attempt_at (pm_handshake m)) /\ attempted_at m <= now;
  pc_complete : 0 <= d (hm_last_complete_at (pm_handshake m)) /\ completed_at m <= now;
  pc_before : 0 <= d (hm_attempt_before (pm_handshake m)) < 2 ^ 64;
}.

Lemma paced_new t0 v : paced t0 t0 (PeerMonitor_new t0 v).
Proof.
  split; unfold attempted_at, completed_at, PeerMonitor_new, HandshakeMonitor_new, REJECT_AFTER_TIME,
    REKEY_TIMEOUT, REKEY_ATTEMPT_TIME, secs; clk; cbn; try (by rewrite Z.sub_diag); try lia;
    try (split_and!; lia).
  apply wrap_in_u. lia.
Qed.

Lemma paced_ok t0 now m : paced t0 now m -> monitor_ok now m.
Proof.
  intros [Ht Hb (He1 & He2 & He3) [Hd1 H1] [Hd2 H2] H3]. unfold attempted_at, completed_at in *.
  unfold monitor_ok, past, fits, REJECT_AFTER_TIME, secs, AtomicInstant_to_std, millis in *.
  split_and!; try lia; dlia.
Qed.

Lemma paced_set_now t0 now i : t0 <= now -> (now - t0) / 10 ^ 6 < 2 ^ 62 ->
  t0 - REJECT_AFTER_TIME <= epoch i <= t0 -> AtomicInstant_to_std i <= now ->
  epoch (AtomicInstant_set_now now i) = epoch i /\ 0 <= d (AtomicInstant_set_now now i) /\
  AtomicInstant_to_std i <= AtomicInstant_to_std (AtomicInstant_set_now now i) <= now.
Proof.
  unfold REJECT_AFTER_TIME, secs. clk. intros Ht Hb He Hi.
  rewrite Z.max_r, wrap_small by (unfold in_u; dlia). dlia.
Qed.

Lemma paced_initiated t0 now m : paced t0 now m ->
  let m' := with_handshake m (initiated now (pm_handshake m)) in
  paced t0 now m' /\ attempted_at m <= attempted_at m' /\ completed_at m' = completed_at m.
Proof.
  intros [Ht Hb (He1 & He2 & He3) [Hd1 H1] H2 H3].
  destruct (paced_set_now t0 now _ Ht Hb He1 H1) as (He & Hd & Hle). cbn zeta.
  split; [|split; [apply Hle|done]].
  split; try done; unfold attempted_at; cbn [with_handshake initiated pm_handshake hm_last_attempt_at
    hm_last_complete_at hm_attempt_before]; first [by rewrite He|lia].
Qed.

Lemma paced_turn t0 now m m' go w : paced t0 now m -> handshake_turn now m = (m', go, w) ->
  paced t0 now m' /\ attempted_at m <= attempted_at m' /\ completed_at m' = completed_at m.
Proof.
  intros Hp. unfold handshake_turn. destruct (can_handshake now m) as [m1 b] eqn:Hcan.
  destruct (can_handshake_spec now m m1 b (paced_ok t0 now m Hp) Hcan) as (Hok & _ & Ha & Hc & _).
  assert (paced t0 now m1) as Hp1.
  { destruct Hp as [Ht Hb He H1 H2 H3].
    assert (hm_last_attempt_at (pm_handshake m1) = hm_last_attempt_at (pm_handshake m) /\
      hm_last_complete_at (pm_handshake m1) = hm_last_complete_at (pm_handshake m) /\
      epoch (hm_attempt_before (pm_handshake m1)) = epoch (hm_attempt_before (pm_handshake m)))
      as (Hx1 & Hx2 & Hx3).
    { revert Hcan. unfold can_handshake. repeat case_match; intros [= <- <-]; done. }
    split; rewrite ?Ha, ?Hc, ?Hx1, ?Hx2, ?Hx3; try done. apply Hok. }
  destruct b; intros [= <- <- <-]; [|split; [done|lia]].
  destruct (paced_initiated t0 now m1 Hp1) as (? & ? & ?). split; [done|]. lia.
Qed.

(** No call takes the last attempt back. *)
Lemma paced_step t0 now m c m' : paced t0 now m -> monitor_step (E := unit) now m c = Ok m' ->
  paced t0 now m' /\ attempted_at m <= attempted_at m'.
Proof.
  intros Hp Hstep. destruct c; cbn [monitor_step] in Hstep;
    try (injection Hstep as <-; split; [|apply Z.le_refl]; by destruct Hp).
  - destruct (handshake_turn now m) as [[m1 go] w] eqn:Hturn. injection Hstep as ->.
    by destruct (paced_turn t0 now m m' go w Hp Hturn) as (? & ? & _).
  - apply bind_Ok_inv in Hstep as (h & Hh & Hstep). injection Hstep as <-.
    unfold completed in Hh. apply bind_Ok_inv in Hh as (ts & _ & Hh). injection Hh as <-.
    split; [|apply Z.le_refl]. destruct Hp as [Ht Hb (He1 & He2 & He3) H1 [Hd2 H2] H3].
    destruct (paced_set_now t0 now _ Ht Hb He2 H2) as (He & Hd & Hle).
    split; try done; unfold completed_at; cbn [with_handshake reset_attempt pm_handshake
      hm_last_attempt_at hm_last_complete_at hm_attempt_before]; [lia|].
    apply wrap_in_u. lia.
  - injection Hstep as <-. by destruct (paced_initiated t0 now m Hp) as (? & ? & _).
Qed.

Lemma paced_later t0 now0 m0 now m : paced t0 now0 m0 -> later t0 now0 m0 now m ->
  paced t0 now m /\ attempted_at m0 <= attempted_at m.
Proof.
  intros Hp. induction 1 as [|now now' m _ [[? ? ? [] [] ?] ?] Hle Hb|now m c m' _ [IH ?] Hstep].
  - split; [done|lia].
  - split; [split; try done; lia|done].
  - destruct (paced_step t0 now m c m' IH Hstep). split; [done|lia].
Qed.
Lemma lived_paced t0 v now m : lived t0 v now m -> paced t0 now m.
Proof. intros Hl. exact (proj1 (paced_later _ _ _ _ _ (paced_new t0 v) Hl)). Qed.

(** One turn of the handshake loop. *)
Lemma handshake_turn_spec now m m' go wake :
  monitor_ok now m -> handshake_turn now m = (m', go, wake) ->
  (go = true <-> REKEY_AFTER_MESSAGES <= tx_messages (pm_traffic m) \/
     completed_at m + REKEY_AFTER_TIME <= now /\ attempted_at m + REKEY_TIMEOUT <= now) /\
  now < wake <= now + REKEY_TIMEOUT /\
  (go = true -> now - 10 ^ 6 < attempted_at m') /\
  (completed_at m' + REKEY_AFTER_TIME <= now -> attempted_at m' + REKEY_TIMEOUT <= wake).
Proof.
  intros Hok. unfold handshake_turn. destruct (can_handshake now m) as [m1 b] eqn:Hcan.
  destruct (can_handshake_spec now m m1 b Hok Hcan) as ((H1 & H2 & H3) & Ht & Ha & Hc & Hgo).
  destruct (set_now_past now _ H1) as [Hs Hr]. unfold will_initiate_in.
  assert (REKEY_TIMEOUT = 5000000000 /\ REKEY_AFTER_TIME = 120000000000) as [HT HA] by done.
  destruct b; intros [= <- <- <-]; cbn [pm_handshake with_handshake initiated hm_last_attempt_at hm_last_complete_at];
    (split; [exact Hgo|]); rewrite (elapsed_past now _ H2);
    unfold attempted_at, completed_at in *;
    cbn [pm_handshake with_handshake initiated hm_last_attempt_at hm_last_complete_at].
  - split; [destruct (_ || _); lia|]. split; [lia|]. intros _. destruct (_ || _); lia.
  - assert (now < AtomicInstant_to_std (hm_last_attempt_at (pm_handshake m1)) + REKEY_TIMEOUT <= now + REKEY_TIMEOUT
      \/ now - AtomicInstant_to_std (hm_last_complete_at (pm_handshake m1)) < REKEY_AFTER_TIME) as Hw.
    { destruct H1 as (_ & Hle & _). rewrite Ha in *. rewrite Hc.
      destruct (decide (AtomicInstant_to_std (hm_last_complete_at (pm_handshake m)) + REKEY_AFTER_TIME <= now /\
        AtomicInstant_to_std (hm_last_attempt_at (pm_handshake m)) + REKEY_TIMEOUT <= now));
        [|lia]. assert (false = true) by (apply Hgo; by right). done. }
    destruct H1 as (_ & Hle & _).
    destruct (is_max_attempt now (pm_handshake m1)); cbn [orb]; [split; [lia|split; [done|lia]]|].
    zcases; split; try lia; (split; [done|lia]).
Qed.

(** C10: handshake pacing, over the whole life of a peer's monitor. A turn of the handshake
    loop initiates exactly when two minutes have passed since the last completed handshake
    and five seconds since the last attempt, or 2^60 messages were sent. It never spins: the
    loop always sleeps to a later instant, at most five seconds away. After a turn that
    initiated, whatever calls follow, a turn that initiates again (before 2^60 messages are
    sent) comes later than five seconds less the millisecond the clock is rounded to. And a
    handshake that is due is retried for ever: the next turn, at or after the instant the
    loop sleeps to, initiates if no attempt was made and no handshake completed meanwhile. *)
Theorem handshake_pacing t0 v now m m' go wake :
  lived t0 v now m -> handshake_turn now m = (m', go, wake) ->
  (go = true <-> REKEY_AFTER_MESSAGES <= tx_messages (pm_traffic m) \/
     completed_at m + REKEY_AFTER_TIME <= now /\ attempted_at m + REKEY_TIMEOUT <= now) /\
  now < wake <= now + REKEY_TIMEOUT /\
  forall now2 m2 m2' go2 wake2,
    later t0 now m' now2 m2 -> handshake_turn now2 m2 = (m2', go2, wake2) ->
    (go = true -> go2 = true -> tx_messages (pm_traffic m2) < REKEY_AFTER_MESSAGES ->
       now + REKEY_TIMEOUT - 10 ^ 6 < now2) /\
    (completed_at m + REKEY_AFTER_TIME <= now -> wake <= now2 ->
       attempted_at m2 = attempted_at m' -> completed_at m2 = completed_at m' -> go2 = true).
Proof.
  intros Hp%lived_paced Hturn.
  destruct (handshake_turn_spec now m m' go wake (paced_ok _ _ _ Hp) Hturn) as (Hgo & Hw & Ha & Hd).
  destruct (paced_turn t0 now m m' go wake Hp Hturn) as (Hp' & _ & Hc).
  split; [done|]. split; [done|]. intros now2 m2 m2' go2 wake2 Hl Hturn2.
  destruct (paced_later _ _ _ _ _ Hp' Hl) as [Hp2 Hle].
  destruct (handshake_turn_spec now2 m2 m2' go2 wake2 (paced_ok _ _ _ Hp2) Hturn2) as (Hgo2 & _).
  split.
  - intros Hg [?|[_ ?]]%Hgo2 Hn; [lia|]. specialize (Ha Hg). lia.
  - intros Hdue Hwake Hsa Hsc. apply Hgo2. right. rewrite Hsc, Hsa. split; [lia|].
    etrans; [apply Hd; by rewrite Hc|done].
Qed.

(** A new peer initiates at once and, with no answer, again five seconds later. *)
Definition toy_monitor : PeerMonitor := (handshake_turn (secs 1001) (PeerMonitor_new (secs 1000) None)).1.1.
Lemma handshake_pacing_witness :
  exists wake, handshake_turn (secs 1001) (PeerMonitor_new (secs 1000) None) = (toy_monitor, true, wake) /\
    secs 1001 < wake <= secs 1001 + REKEY_TIMEOUT /\
    (handshake_turn (secs 1003) toy_monitor).1.2 = false /\
    (handshake_turn (secs 1007) toy_monitor).1.2 = true.
Proof.
  eexists. split; [reflexivity|].
  destruct (handshake_pacing (secs 1000) None (secs 1001) (PeerMonitor_new (secs 1000) None)
    toy_monitor true (secs 1006)) as (_ & Hw & Hnext).
  - eapply later_wait; [apply later_refl|vm_compute; congruence|vm_compute; reflexivity].
  - reflexivity.
  - split; [exact Hw|]. split; [reflexivity|].
    destruct (handshake_turn (secs 1007) toy_monitor) as [[m2 go2] w2] eqn:H2.
    destruct (Hnext (secs 1007) toy_monitor m2 go2 w2) as [_ Hagain]; [|exact H2|].
    { eapply later_wait; [apply later_refl|vm_compute; congruence|vm_compute; reflexivity]. }
    apply Hagain; [vm_compute; congruence|vm_compute; congruence|reflexivity|reflexivity].
Defined.

(** ** Keepalives *)

Lemma handshake_turn_keeps now m m' go w : handshake_turn now m = (m', go, w) ->
  pm_traffic m' = pm_traffic m /\ pm_keepalive m' = pm_keepalive m.
Proof.
  unfold handshake_turn, can_handshake. destruct (_ <=? _); [by intros [= <- <- <-]|].
  destruct (_ <? _); [by intros [= <- <- <-]|]. destruct (_ <=? _); by intros [= <- <- <-].
Qed.

(** What holds of the traffic half at all times. *)
Definition traffic_inv (t0 : Z) (v : option Z) (now : Z) (m : PeerMonitor) : Prop :=
  t0 <= now /\ (now - t0) / 10 ^ 6 < 2 ^ 62 /\
  epoch (last_sent_at (pm_traffic m)) = t0 /\ 0 <= d (last_sent_at (pm_traffic m)) < 2 ^ 63 /\
  AtomicInstant_to_std (last_recv_at (pm_traffic m)) = t0 - REKEY_TIMEOUT /\
  epoch (ka_last_attempt_at (pm_keepalive m)) = t0 /\
  AtomicInstant_to_std (ka_last_attempt_at (pm_keepalive m)) <= now /\
  perisistent_keepalive_interval (pm_keepalive m) = v.

Lemma set_now_value t0 now i : epoch i = t0 -> t0 <= now -> (now - t0) / 10 ^ 6 < 2 ^ 62 ->
  epoch (AtomicInstant_set_now now i) = t0 /\ 0 <= d (AtomicInstant_set_now now i) < 2 ^ 63 /\
  AtomicInstant_to_std (AtomicInstant_set_now now i) <= now.
Proof.
  clk. intros -> Ht Hb. rewrite Z.max_r, wrap_small by (unfold in_u; dlia). split; [done|]. dlia.
Qed.

Ltac kept := unfold traffic_inv;
  cbn [with_traffic with_keepalive with_handshake pm_traffic pm_keepalive outbound inbound attempt
    last_sent_at last_recv_at ka_last_attempt_at perisistent_keepalive_interval].

Lemma lived_traffic t0 v now m : lived t0 v now m -> traffic_inv t0 v now m.
Proof.
  unfold lived. induction 1 as [|now now' m _ IH Hle Hb|now m c m' _ IH Hstep].
  - repeat split; clk; cbn; try lia. by rewrite Z.sub_diag.
  - destruct IH as (? & ? & ? & ? & ? & ? & ? & ?). split_and!; try done; lia.
  - destruct IH as (Ht & Hb & Hse & Hsd & Hr & Hke & Hka & Hv).
    destruct (set_now_value t0 now _ Hse Ht Hb) as (Hs1 & Hs2 & _).
    destruct (set_now_value t0 now _ Hke Ht Hb) as (Hk1 & _ & Hk3).
    destruct c; cbn [monitor_step] in Hstep; try (injection Hstep as <-; kept; tauto).
    + destruct (handshake_turn now m) as [[m1 go] w] eqn:Hturn. injection Hstep as ->.
      destruct (handshake_turn_keeps _ _ _ _ _ Hturn) as [Hmt Hmk].
      unfold traffic_inv. by rewrite Hmt, Hmk.
    + apply bind_Ok_inv in Hstep as (h & _ & Hstep). injection Hstep as <-. kept. tauto.
Qed.

(** Keepalives are driven by the persistent interval alone. Whatever a peer sent,
    received and completed since it was made, the branch that answers received traffic is
    never taken ([inbound] does not record when it ran): without a persistent interval
    [can] is never true, and with one it is true exactly when the interval has passed since
    the last attempt. *)
Theorem keepalive_only_persistent t0 v now m : lived t0 v now m ->
  keepalive_can now (pm_keepalive m) (pm_traffic m) =
  match v with
  | None => false
  | Some interval =>
      AtomicInstant_to_std (ka_last_attempt_at (pm_keepalive m)) + interval <=? now
  end.
Proof.
  intros (Ht & _ & Hse & Hsd & Hr & _ & _ & Hv)%lived_traffic.
  unfold keepalive_can, next_attempt_in. rewrite Hr, Hv.
  assert (AtomicInstant_to_std (last_sent_at (pm_traffic m)) <? t0 - REKEY_TIMEOUT = false) as ->.
  { apply Z.ltb_ge. unfold AtomicInstant_to_std, millis, REKEY_TIMEOUT, secs. rewrite Hse. lia. }
  rewrite andb_false_r. destruct v; [done|]. apply Z.leb_gt. unfold REKEY_AFTER_TIME, secs. lia.
Qed.
(** A peer that received a packet a minute ago and sent nothing back owes a keepalive. *)
Lemma keepalive_only_persistent_witness :
  exists m, lived 0 None (secs 61) m /\ rx_messages (pm_traffic m) = 1 /\ tx_messages (pm_traffic m) = 0 /\
    keepalive_can (secs 61) (pm_keepalive m) (pm_traffic m) = false.
Proof.
  assert (lived 0 None (secs 61) (with_traffic (PeerMonitor_new 0 None)
    (inbound 148 (TrafficMonitor_new 0)))) as Hl.
  { eapply (later_wait 0 0 _ (secs 1)); [|vm_compute; congruence|vm_compute; reflexivity].
    eapply later_step with (m := PeerMonitor_new 0 None) (c := CallInbound 148); [|reflexivity].
    eapply (later_wait 0 0 _ 0); [apply later_refl|vm_compute; congruence|vm_compute; reflexivity]. }
  eexists. split; [exact Hl|]. split; [reflexivity|]. split; [reflexivity|].
  apply (keepalive_only_persistent 0 None (secs 61) _ Hl).
Defined.
