(* ===== verification/Peer.v ===== *)
(** * A peer and its tasks (vlink-tun/src/device/peer/mod.rs, handler.rs, inbound.rs)

    A peer's handlers run on its own state and on what it shares with the other peers of the
    device: the heap of session cells and the session index. What a handler does to the
    outside is a list of effects, in order: packets sent to an endpoint, packets written to
    the tunnel interface, data staged on the peer's outbound channel, events published.
    Each handler is one step; the locks of the source are held inside it. *)

From S2P Require Import Prelude Bytes NonceFilter Protocol Crypto Clock Noise Session PeerHandshake Monitor.

(** [Box<dyn OutboundSender>]: where it sends and the name of its protocol. *)
Record Endpoint := mkEndpoint { dst : SocketAddr; protocol : string }.

(** device/event/mod.rs; [SessionFailed] carries the peer, here its public key. *)
Inductive DeviceEvent :=
| HandshakeComplete (pub_key : bytes) (proto : string)
| ExtraEndpointSuccess (proto endpoint : string)
| NoEndpoint (pub_key : bytes) (ip_addr : string)
| SessionFailed (pub_key : bytes)
| TransportFailed (proto endpoint : string)
| PeerEndpointFailed (pub_key : bytes).

Inductive InboundEvent :=
| EvHandshakeInitiation (endpoint : Endpoint) (initiation : IncomingInitiation)
| EvHandshakeResponse (endpoint : Endpoint) (packet : HandshakeResponse) (session : Session)
| EvCookieReply (endpoint : Endpoint) (packet : CookieReply) (session : Session)
| EvTransportData (endpoint : Endpoint) (packet : TransportData) (session : Session).

(** [TunWrite] is labelled with the cell of the session and the counter of the packet the
    data came in. *)
Inductive Effect :=
| Sent (endpoint : Endpoint) (data : bytes)
| TunWrite (c : nat) (counter : Z) (data : bytes)
| StageOutbound (data : bytes)
| Publish (ev : DeviceEvent).

Record Peer := mkPeer {
  pub_key : bytes;
  online : bool;
  monitor : PeerMonitor;
  handshake : Handshake;
  sessions : ActiveSession;
  endpoint : option Endpoint;
  ip_addr : string;
}.

Definition with_monitor (p : Peer) (m : PeerMonitor) : Peer :=
  mkPeer (pub_key p) (online p) m (handshake p) (sessions p) (endpoint p) (ip_addr p).
Definition with_hs (p : Peer) (h : Handshake) : Peer :=
  mkPeer (pub_key p) (online p) (monitor p) h (sessions p) (endpoint p) (ip_addr p).
Definition with_sessions (p : Peer) (a : ActiveSession) : Peer :=
  mkPeer (pub_key p) (online p) (monitor p) (handshake p) a (endpoint p) (ip_addr p).
Definition with_endpoint (p : Peer) (e : option Endpoint) : Peer :=
  mkPeer (pub_key p) (online p) (monitor p) (handshake p) (sessions p) e (ip_addr p).

(** The shared state and the peer a handler runs on. *)
Record St := mkSt { st_heap : heap; st_index : SessionIndex; st_peer : Peer }.
Definition on_peer (st : St) (p : Peer) : St := mkSt (st_heap st) (st_index st) p.

(** The clocks and the random bytes a handler draws. *)
Record Env := mkEnv { env_now : Z; env_sys : Z; env_rnd : bytes }.

Definition set_online (p : Peer) (val : bool) : Peer :=
  mkPeer (pub_key p) val (monitor p) (handshake p) (sessions p) (endpoint p) (ip_addr p).
Definition update_endpoint (p : Peer) (e : Endpoint) : Peer := with_endpoint p (Some e).
Definition clear_endpoint (p : Peer) : Peer := with_endpoint p None.
Definition metrics (p : Peer) : PeerMetrics := PeerMonitor_metrics (monitor p).

(** [peer.monitor.traffic().inbound(n)]. *)
Definition traffic_in (n : nat) (p : Peer) : Peer :=
  with_monitor p (with_traffic (monitor p) (inbound (Z.of_nat n) (pm_traffic (monitor p)))).

(** A failed send is only logged. *)
Definition send_outbound (p : Peer) (buf : bytes) : list Effect :=
  match endpoint p with
  | Some e => [Sent e buf]
  | None => [Publish (NoEndpoint (pub_key p) (ip_addr p))]
  end.

Definition keepalive (now : Z) (p : Peer) : Peer * list Effect :=
  if negb (keepalive_can now (pm_keepalive (monitor p)) (pm_traffic (monitor p))) then (p, [])
  else if negb (online p) then (p, [])
  else (with_monitor p (with_keepalive (monitor p) (attempt now (pm_keepalive (monitor p)))),
        [StageOutbound []]).

Section Peer.
Context `{CryptoPrims}.

Definition Peer_new (now : Z) (secret : PeerStaticSecret) (e : option Endpoint)
    (interval : option Z) (is_online : bool) (ip : string) : Peer :=
  mkPeer (peer_public secret) is_online (PeerMonitor_new now interval) (Handshake_new secret)
    ActiveSession_new e ip.

(** ** inbound.rs *)

(** [send_ok] is whether [endpoint.send] succeeds: its result is unwrapped. *)
Definition handle_handshake_initiation {E} (env : Env) (send_ok : bool) (st : St) (e : Endpoint)
    (initiation : IncomingInitiation) : res E (St * list Effect) :=
  let p := traffic_in HANDSHAKE_INITIATION_PACKET_SIZE (st_peer st) in
  match respond (env_rnd env) (env_now env) (st_heap st, st_index st) (handshake p) initiation with
  | Ok ((h, i), session, packet) =>
      '(i, a) ← prepare_next i (sessions p) session;
      let p := update_endpoint (with_sessions p a) e in
      if send_ok then
        let p := with_monitor p
          (with_handshake (monitor p) (initiated (env_now env) (pm_handshake (monitor p)))) in
        Ok (mkSt h i p, [Sent e packet])
      else Panic
  | Err _ => Ok (on_peer st p, [])
  | Panic => Panic
  end.

(** [peer.monitor.handshake().completed()]. *)
Definition mark_completed {E} (env : Env) (p : Peer) : res E Peer :=
  h ← completed (env_now env) (env_sys env) (pm_handshake (monitor p));
  Ok (with_monitor p (with_handshake (monitor p) h)).

Definition handle_handshake_response {E} (env : Env) (st : St) (e : Endpoint)
    (packet : HandshakeResponse) : res E (St * list Effect) :=
  let p := traffic_in HANDSHAKE_RESPONSE_PACKET_SIZE (st_peer st) in
  match finalize (env_now env) (st_heap st) (handshake p) packet with
  | Ok (h, session) =>
      '(i, a, ret) ← complete_uninit (st_index st) (sessions p) session;
      let p := with_sessions p a in
      if negb ret then Ok (mkSt h i p, [])
      else
        p ← mark_completed env p;
        let p := update_endpoint p e in
        Ok (mkSt h i p, [Publish (HandshakeComplete (pub_key p) (protocol e)); StageOutbound []])
  | Err _ => Ok (on_peer st p, [])
  | Panic => Panic
  end.

Definition handle_cookie_reply (st : St) : St :=
  on_peer st (traffic_in COOKIE_REPLY_PACKET_SIZE (st_peer st)).

(** A failed write to the tunnel is only logged. *)
Definition handle_transport_data {E} (env : Env) (st : St) (e : Endpoint) (packet : TransportData)
    (session : Session) : res E (St * list Effect) :=
  let p := traffic_in (packet_len packet) (st_peer st) in
  '(i, a, done) ← complete_next (st_index st) (sessions p) session;
  let p := with_sessions p a in
  p ← (if done : bool then mark_completed env p else Ok p);
  ok ← Session_can_accept (st_heap st) session (td_counter packet);
  if negb ok then Ok (mkSt (st_heap st) i p, [])
  else
    let p := update_endpoint p e in
    match decrypt_data session packet with
    | Ok data =>
        if (length data =? 0)%nat then Ok (mkSt (st_heap st) i p, [])
        else
          h ← aceept (st_heap st) session (td_counter packet);
          Ok (mkSt h i p, [TunWrite (cell session) (td_counter packet) data])
    | Err _ => Ok (mkSt (st_heap st) i p, [])
    | Panic => Panic
    end.

(** ** handler.rs *)

Definition peer_tick_inbound {E} (env : Env) (send_ok : bool) (st : St) (event : InboundEvent)
    : res E (St * list Effect) :=
  match event with
  | EvHandshakeInitiation e initiation => handle_handshake_initiation env send_ok st e initiation
  | EvHandshakeResponse e packet _ => handle_handshake_response env st e packet
  | EvCookieReply _ _ _ => Ok (handle_cookie_reply st, [])
  | EvTransportData e packet session => handle_transport_data env st e packet session
  end.

Definition peer_tick_outbound {E} (now : Z) (st : St) (data : bytes) : res E (St * list Effect) :=
  let p := st_peer st in
  match current (sessions p) with
  | None => Ok (st, [Publish (SessionFailed (pub_key p))])
  | Some session =>
      let '(h, r) := encrypt_data (st_heap st) session data in
      match r with
      | Ok packet =>
          let buf := to_bytes packet in
          let m := with_traffic (monitor p)
            (outbound now (Z.of_nat (length buf)) (pm_traffic (monitor p))) in
          Ok (mkSt h (st_index st) (with_monitor p m), send_outbound p buf)
      | Err _ => Ok (mkSt h (st_index st) p, [])
      | Panic => Panic
      end
  end.

(** One turn of [loop_handshake] for a peer that is online, and when it wakes. *)
Definition handshake_tick {E} (env : Env) (st : St) : res E (St * list Effect * Z) :=
  let p := st_peer st in
  let '(m, go) := can_handshake (env_now env) (monitor p) in
  let p := with_monitor p m in
  '(st, effects) ←
    (if go : bool then
       '((h, i), hs, next, packet) ← initiate (env_rnd env) (env_sys env) (env_now env)
          (st_heap st, st_index st) (handshake p);
       '(i, a) ← prepare_uninit i (sessions p) next;
       let p := with_sessions (with_hs p hs) a in
       let effects := send_outbound p packet in
       let p := with_monitor p
         (with_handshake (monitor p) (initiated (env_now env) (pm_handshake (monitor p)))) in
       Ok (mkSt h i p, effects)
     else Ok (on_peer st p, []));
  Ok (st, effects, will_initiate_in (env_now env) (pm_handshake (monitor (st_peer st)))).

End Peer.

(** ** What the handlers do to the session cells

    An inbound event carries a session found in the index when the packet arrived, however
    long ago, and a counter that passed the check against [REJECT_AFTER_MESSAGES]. *)
Definition legal_event (h : heap) (ev : InboundEvent) : Prop :=
  match ev with
  | EvTransportData _ packet s =>
      (cell s < length h)%nat /\ 0 <= td_counter packet <= REJECT_AFTER_MESSAGES
  | _ => True
  end.

Section Cells.
Context `{CryptoPrims}.

(** No filter of an existing cell changes; new cells have a fresh filter. *)
Definition heap_ext (h h' : heap) : Prop :=
  (length h <= length h')%nat /\
  (forall c, (c < length h)%nat -> nonce_filter (h' !!! c) = nonce_filter (h !!! c)) /\
  (forall c, (length h <= c < length h')%nat -> nonce_filter (h' !!! c) = NonceFilter.new).

Lemma heap_ext_refl h : heap_ext h h.
Proof. split_and!; [lia|done|lia]. Qed.
Lemma Session_new_ext {E} now h sec si sk ri rk h' s :
  Session_new (E := E) now h sec si sk ri rk = Ok (h', s) -> heap_ext h h' /\ cell s = length h.
Proof.
  unfold Session_new. intros Hs. repeat (apply bind_Ok_inv in Hs as (? & _ & Hs)).
  injection Hs as <- <-. split; [|done]. split_and!; rewrite ?length_app; cbn; try lia; intros c Hc.
  - by rewrite lookup_total_app_l.
  - by rewrite list_lookup_total_middle by lia.
Qed.
Lemma encrypt_data_ext h s data h' r :
  (cell s < length h)%nat -> encrypt_data h s data = (h', r) -> heap_ext h h'.
Proof.
  intros Hs. unfold encrypt_data. destruct (next_nonce h s) as [h1 n] eqn:Hn. intros [= <- _].
  pose proof (fun c => proj2 (next_nonce_cells h s c Hs)) as Hf. rewrite Hn in Hf.
  injection Hn as <- _. split_and!; rewrite ?length_insert; [lia| |lia]. intros c _. apply Hf.
Qed.

Lemma respond_ext rnd clk h i hs ii h' i' s p :
  respond rnd clk (h, i) hs ii = Ok ((h', i'), s, p) -> heap_ext h h'.
Proof.
  unfold respond, next_index. intros Hr. apply bind_Ok_inv in Hr as ([st pl] & _ & Hr).
  destruct (kdf2 _ _). apply bind_Ok_inv in Hr as ([h1 s1] & Hs & Hr). injection Hr as <- <- <- <-.
  by apply Session_new_ext in Hs as [? _].
Qed.
Lemma initiate_ext {E} rnd now clk h i hs h' i' hs' s p :
  initiate (E := E) rnd now clk (h, i) hs = Ok ((h', i'), hs', s, p) -> heap_ext h h'.
Proof.
  unfold initiate, next_index. intros Hr. apply bind_Ok_inv in Hr as ([st pl] & _ & Hr).
  apply bind_Ok_inv in Hr as ([h1 s1] & Hs & Hr). injection Hr as <- <- <- <- <-.
  by apply Session_new_ext in Hs as [? _].
Qed.
Lemma finalize_ext clk h hs pk h' s : finalize clk h hs pk = Ok (h', s) -> heap_ext h h'.
Proof.
  unfold finalize. destruct (hs_state hs); [done|]. intros Hr.
  apply bind_Ok_inv in Hr as (st & _ & Hr). destruct (kdf2 _ _).
  by apply Session_new_ext in Hr as [? _].
Qed.

(** The (cell, counter) labels of the packets written to the tunnel. *)
Definition tun_label (ef : Effect) : option (nat * Z) :=
  match ef with
  | TunWrite c n _ => Some (c, n)
  | _ => None
  end.

(** A handler step either leaves every filter alone and writes nothing to the tunnel, or
    writes one packet whose counter the filter of its session let through and recorded. *)
Definition cell_step (h : heap) (eff : list Effect) (h' : heap) : Prop :=
  heap_ext h h' /\ omap tun_label eff = [] \/
  exists s n data, eff = [TunWrite (cell s) n data] /\
    (cell s < length h)%nat /\ 0 <= n <= REJECT_AFTER_MESSAGES /\
    Session_can_accept (E := unit) h s n = Ok true /\ aceept (E := unit) h s n = Ok h'.

Lemma transport_data_cells env st e pk s st' eff :
  (cell s < length (st_heap st))%nat -> 0 <= td_counter pk <= REJECT_AFTER_MESSAGES ->
  handle_transport_data (E := unit) env st e pk s = Ok (st', eff) ->
  cell_step (st_heap st) eff (st_heap st').
Proof.
  intros Hs Hn. unfold handle_transport_data. intros Hr.
  apply bind_Ok_inv in Hr as ([[i a] fin] & _ & Hr). apply bind_Ok_inv in Hr as (p & _ & Hr).
  apply bind_Ok_inv in Hr as (ok & Hok & Hr).
  destruct ok; cbn [negb] in Hr; [|injection Hr as <- <-; left; split; [apply heap_ext_refl|done]].
  destruct (decrypt_data s pk) as [data|er|]; [|injection Hr as <- <-; left; split; [apply heap_ext_refl|done]|done].
  destruct (length data =? 0)%nat; [injection Hr as <- <-; left; split; [apply heap_ext_refl|done]|].
  apply bind_Ok_inv in Hr as (h & Ha & Hr). injection Hr as <- <-. right. by eexists s, _, _.
Qed.

Lemma send_outbound_silent p buf : omap tun_label (send_outbound p buf) = [].
Proof. unfold send_outbound. by destruct (endpoint p). Qed.

Lemma tick_inbound_cells env ok st ev st' eff :
  legal_event (st_heap st) ev ->
  peer_tick_inbound (E := unit) env ok st ev = Ok (st', eff) -> cell_step (st_heap st) eff (st_heap st').
Proof.
  destruct ev as [e ii|e pk s|e pk s|e pk s]; cbn [peer_tick_inbound legal_event]; intros Hl.
  - unfold handle_handshake_initiation. destruct (respond _ _ _ _ _) as [[[[h i] s] pk]|er|] eqn:Hres; [| |done].
    + intros Hr. apply bind_Ok_inv in Hr as ([i' a] & _ & Hr). destruct ok; [|done].
      injection Hr as <- <-. left. split; [|done]. by apply respond_ext in Hres.
    + intros [= <- <-]. left. split; [apply heap_ext_refl|done].
  - unfold handle_handshake_response. destruct (finalize _ _ _ _) as [[h s']|er|] eqn:Hres; [| |done].
    + apply finalize_ext in Hres. intros Hr. apply bind_Ok_inv in Hr as ([[i a] ret] & _ & Hr).
      destruct ret; cbn [negb] in Hr; [apply bind_Ok_inv in Hr as (p & _ & Hr)|];
        injection Hr as <- <-; by left.
    + intros [= <- <-]. left. split; [apply heap_ext_refl|done].
  - intros [= <- <-]. left. split; [apply heap_ext_refl|done].
  - destruct Hl. by apply transport_data_cells.
Qed.

Lemma tick_outbound_cells now st data st' eff :
  (forall s, current (sessions (st_peer st)) = Some s -> (cell s < length (st_heap st))%nat) ->
  peer_tick_outbound (E := unit) now st data = Ok (st', eff) -> cell_step (st_heap st) eff (st_heap st').
Proof.
  intros Hc. unfold peer_tick_outbound. destruct (current _) as [s|] eqn:Hs.
  2:{ intros [= <- <-]. left. split; [apply heap_ext_refl|done]. }
  destruct (encrypt_data _ s data) as [h r] eqn:He.
  apply encrypt_data_ext in He; [|by apply Hc].
  destruct r; [| |done]; intros [= <- <-]; left; (split; [done|]); [apply send_outbound_silent|done].
Qed.

Lemma handshake_tick_cells env st st' eff w :
  handshake_tick (E := unit) env st = Ok (st', eff, w) -> cell_step (st_heap st) eff (st_heap st').
Proof.
  unfold handshake_tick. destruct (can_handshake _ _) as [m go]. intros Hr.
  apply bind_Ok_inv in Hr as ([st1 eff1] & Hb & Hr). injection Hr as <- <- _. destruct go.
  - apply bind_Ok_inv in Hb as ([[[[h i] hs] nx] pk] & Hi & Hb). apply initiate_ext in Hi.
    apply bind_Ok_inv in Hb as ([i' a] & _ & Hb). injection Hb as <- <-. left. split; [done|].
    apply send_outbound_silent.
  - injection Hb as <- <-. left. split; [apply heap_ext_refl|done].
Qed.
End Cells.

(** ** The peers of a device, interleaved

    Any number of peers share the heap and the index. A step runs one handler of one peer;
    the packets it sends and the data it writes to the tunnel are appended to a log. *)
Record Sys := mkSys {
  sys_heap : heap;
  sys_index : SessionIndex;
  sys_peers : gmap bytes Peer;
  sys_log : list Effect;
}.

Definition legal_outbound (st : St) : Prop :=
  forall s, current (sessions (st_peer st)) = Some s -> (cell s < length (st_heap st))%nat.

Section System.
Context `{CryptoPrims}.

Inductive task :=
| TaskInbound (env : Env) (send_ok : bool) (ev : InboundEvent)
| TaskOutbound (now : Z) (data : bytes)
| TaskHandshake (env : Env)
| TaskKeepalive (now : Z)
| TaskEndpoint (e : option Endpoint)
| TaskOnline (val : bool).

Definition run_task (st : St) (t : task) : res unit (St * list Effect) :=
  match t with
  | TaskInbound env ok ev => peer_tick_inbound env ok st ev
  | TaskOutbound now data => peer_tick_outbound now st data
  | TaskHandshake env => '(st, eff, _) ← handshake_tick env st; Ok (st, eff)
  | TaskKeepalive now => let '(p, eff) := keepalive now (st_peer st) in Ok (on_peer st p, eff)
  | TaskEndpoint e => Ok (on_peer st (with_endpoint (st_peer st) e), [])
  | TaskOnline val => Ok (on_peer st (set_online (st_peer st) val), [])
  end.

Definition legal_task (st : St) (t : task) : Prop :=
  match t with
  | TaskInbound _ _ ev => legal_event (st_heap st) ev
  | TaskOutbound _ _ => legal_outbound st
  | _ => True
  end.

Inductive runs : Sys -> Prop :=
| runs_init r : runs (mkSys [] (SessionIndex_new r) ∅ [])
| runs_insert sy k p : runs sy ->
    runs (mkSys (sys_heap sy) (sys_index sy) (<[k := p]> (sys_peers sy)) (sys_log sy))
| runs_clear sy : runs sy ->
    runs (mkSys (sys_heap sy) (SessionIndex_clear (sys_index sy)) ∅ (sys_log sy))
| runs_task sy k p t h i p' eff : runs sy -> sys_peers sy !! k = Some p ->
    legal_task (mkSt (sys_heap sy) (sys_index sy) p) t ->
    run_task (mkSt (sys_heap sy) (sys_index sy) p) t = Ok (mkSt h i p', eff) ->
    runs (mkSys h i (<[k := p']> (sys_peers sy)) (sys_log sy ++ eff)).

Lemma run_task_cells st t st' eff : legal_task st t -> run_task st t = Ok (st', eff) ->
  cell_step (st_heap st) eff (st_heap st').
Proof.
  destruct t; cbn [legal_task run_task]; intros Hl Hr.
  - by eapply tick_inbound_cells.
  - by eapply tick_outbound_cells.
  - apply bind_Ok_inv in Hr as ([[st1 eff1] w] & Hr & [= <- <-]). by eapply handshake_tick_cells.
  - unfold keepalive in Hr. left.
    repeat match type of Hr with context [if ?b then _ else _] => destruct b end;
      injection Hr as <- <-; (split; [apply heap_ext_refl|done]).
  - injection Hr as <- <-. left. split; [apply heap_ext_refl|done].
  - injection Hr as <- <-. left. split; [apply heap_ext_refl|done].
Qed.

(** Every written counter is in the window its filter stands for. *)
Definition written (log : list Effect) : list (nat * Z) := omap tun_label log.
Definition log_ok (h : heap) (log : list Effect) : Prop :=
  NoDup (written log) /\
  (forall c n, (c, n) ∈ written log -> (c < length h)%nat) /\
  forall c, (c < length h)%nat -> exists w, NonceFilter.rep (nonce_filter (h !!! c)) w /\
    forall n, (c, n) ∈ written log -> n ∈ NonceFilter.seen w.

Lemma log_ok_ext h h' log eff : heap_ext h h' -> omap tun_label eff = [] ->
  log_ok h log -> log_ok h' (log ++ eff).
Proof.
  intros (Hl & Hold & Hnew) He (Hnd & Hc & Hrep).
  assert (written (log ++ eff) = written log) as Hw.
  { unfold written. by rewrite omap_app, He, app_nil_r. }
  unfold log_ok. rewrite Hw. split; [done|]. split.
  - intros c n Hin%Hc. lia.
  - intros c Hlt. destruct (decide (c < length h)%nat) as [Hlt'|Hge].
    + rewrite Hold by done. by apply Hrep.
    + rewrite Hnew by lia. exists NonceFilter.spec_new. split; [apply NonceFilter.rep_new|].
      intros n Hin%Hc. lia.
Qed.

Lemma log_ok_accept h log s n data h' :
  (cell s < length h)%nat -> 0 <= n <= REJECT_AFTER_MESSAGES ->
  Session_can_accept (E := unit) h s n = Ok true -> aceept (E := unit) h s n = Ok h' ->
  log_ok h log -> log_ok h' (log ++ [TunWrite (cell s) n data]).
Proof.
  intros Hs Hn Hcan Hacc (Hnd & Hc & Hrep). unfold REJECT_AFTER_MESSAGES in Hn.
  change (Z.shiftl 1 13) with 8192 in Hn.
  destruct (Hrep _ Hs) as (w & Hr & Hseen).
  destruct (NonceFilter.rep_can_accept (E := unit) _ w n Hr) as (b & Hb & Ht & _); [lia..|].
  unfold Session_can_accept in Hcan. rewrite Hcan in Hb. injection Hb as <-.
  specialize (Ht eq_refl).
  destruct (NonceFilter.rep_accept (E := unit) _ w n Hr) as (f & Hf & _ & Hr'); [lia|lia|done|].
  unfold aceept in Hacc. rewrite Hf in Hacc. injection Hacc as <-.
  assert (n ∉ NonceFilter.seen w) as Hfresh.
  { intros Hin. pose proof (NonceFilter.rep_seen _ _ Hr n Hin).
    destruct (NonceFilter.spec_can_accept_cases _ _ Ht) as [?|(_ & _ & ?)]; [lia|done]. }
  unfold log_ok, written. rewrite omap_app. cbn [omap list_omap tun_label]. fold (written log).
  split; [|split].
  - apply NoDup_app. split; [done|]. split; [|apply NoDup_singleton].
    intros [c m] Hin [= -> ->]%list_elem_of_singleton. by apply Hfresh, Hseen.
  - intros c m [Hin|[= -> ->]%list_elem_of_singleton]%elem_of_app; rewrite length_insert; eauto.
  - intros c Hlt. rewrite length_insert in Hlt. destruct (decide (c = cell s)) as [->|Hne].
    + rewrite list_lookup_total_insert_eq by done. eexists; split; [done|].
      intros m [Hin|[= ->]%list_elem_of_singleton]%elem_of_app; cbn; [|set_solver].
      apply elem_of_union. right. by apply Hseen.
    + rewrite list_lookup_total_insert_ne by done. destruct (Hrep c Hlt) as (w' & ? & Hw').
      exists w'. split; [done|].
      intros m [Hin|[= -> ->]%list_elem_of_singleton]%elem_of_app; [by apply Hw'|done].
Qed.
Lemma runs_log_ok sy : runs sy -> log_ok (sys_heap sy) (sys_log sy).
Proof.
  induction 1 as [r|sy k p _ IH|sy _ IH|sy k p t h i p' eff _ IH _ Hl Hr]; [|done|done|].
  - split; [constructor|]. split; [set_solver|]. intros c Hc. cbn in Hc. lia.
  - apply run_task_cells in Hr; [|done]. cbn [st_heap sys_heap sys_log] in *.
    destruct Hr as [[Hext Hs]|(s & n & data & -> & Hs & Hn & Hcan & Hacc)].
    + by eapply log_ok_ext.
    + by eapply log_ok_accept.
Qed.

(** C11: a packet is delivered at most once. Over any interleaving of the tasks of any
    number of peers (packets received in any order and any number of times, handshakes,
    retransmissions, peers added and removed), no two writes to the tunnel interface stem
    from the same counter of the same session. *)
Theorem tun_delivers_once sy : runs sy -> NoDup (written (sys_log sy)).
Proof. intros Hr. apply (runs_log_ok sy Hr). Qed.
End System.

(** ** [handle_transport_data], branch by branch *)

Section Transport.
Context `{CryptoLaws}.

(** C13: what a transport packet does to a peer whose slots are consistent with the index.
    A counter the filter refuses is dropped: nothing is delivered and the endpoint stays.
    A packet that does not authenticate delivers nothing and consumes no counter, but by then
    the peer's endpoint has already been moved to its sender, and if it named the session
    prepared by the last handshake response that session has become the current one. Data is
    delivered to the tunnel with its counter recorded; an empty packet (keepalive) delivers
    nothing and its counter is not recorded. *)
Theorem transport_data_branches {E} env st e pk s :
  idx_ok (st_index st) -> rep (pub_key (st_peer st)) (indexes (st_index st)) (sessions (st_peer st)) ->
  peer_of s = pub_key (st_peer st) -> 0 <= env_sys env ->
  forall b, Session_can_accept (E := E) (st_heap st) s (td_counter pk) = Ok b ->
  let promoted (p : Peer) :=
    (if same_index (next (sessions (st_peer st))) s
     then current (sessions p) = Some s /\ previous (sessions p) = current (sessions (st_peer st))
     else sessions p = sessions (st_peer st)) in
  (b = false -> exists st', handle_transport_data (E := E) env st e pk s = Ok (st', []) /\
     endpoint (st_peer st') = endpoint (st_peer st) /\ st_heap st' = st_heap st /\ promoted (st_peer st')) /\
  (b = true -> forall er, decrypt_data s pk = Err er ->
     exists st', handle_transport_data (E := E) env st e pk s = Ok (st', []) /\
       endpoint (st_peer st') = Some e /\ st_heap st' = st_heap st /\ promoted (st_peer st')) /\
  (b = true -> decrypt_data s pk = Ok [] ->
     exists st', handle_transport_data (E := E) env st e pk s = Ok (st', []) /\
       endpoint (st_peer st') = Some e /\ st_heap st' = st_heap st /\ promoted (st_peer st')) /\
  (b = true -> forall x data h, decrypt_data s pk = Ok (x :: data) ->
     aceept (E := E) (st_heap st) s (td_counter pk) = Ok h ->
     exists st', handle_transport_data (E := E) env st e pk s
         = Ok (st', [TunWrite (cell s) (td_counter pk) (x :: data)]) /\
       endpoint (st_peer st') = Some e /\ st_heap st' = h /\ promoted (st_peer st')).
Proof.
  intros Hi Hr Hs Hsys b Hb promoted. unfold handle_transport_data.
  destruct (complete_next_spec (E := E) _ _ _ s Hi Hr Hs) as (i & a & fin & Hc & _ & Hfin & Hcur).
  cbn [sessions traffic_in with_monitor]. rewrite Hc. cbn [mbind res_bind].
  assert (exists p, (if fin then mark_completed (E := E) env
      (with_sessions (traffic_in (packet_len pk) (st_peer st)) a)
      else Ok (with_sessions (traffic_in (packet_len pk) (st_peer st)) a)) = Ok p /\
    sessions p = a /\ endpoint p = endpoint (st_peer st)) as (p & -> & Hpa & Hpe).
  { destruct fin; [|by eexists]. unfold mark_completed, completed, AtomicTimestamp_set_now.
    destruct (Z.ltb_spec (env_sys env) 0); [lia|]. by eexists. }
  assert (forall q, sessions q = a -> promoted q) as Hprom.
  { intros q Hq. unfold promoted. rewrite Hq. destruct (same_index _ s) eqn:Hsame.
    - subst fin. by destruct (Hcur eq_refl) as (? & ? & _).
    - unfold complete_next in Hc. rewrite Hsame in Hc. congruence. }
  cbn [mbind res_bind]. rewrite Hb. cbn [mbind res_bind].
  split_and!; intros ->; cbn [negb].
  - eexists. split; [done|]. split_and!; try done. by apply Hprom.
  - intros er ->. eexists. split; [done|]. split_and!; try done. by apply Hprom.
  - intros ->. eexists. split; [done|]. split_and!; try done. by apply Hprom.
  - intros x data h -> ->. eexists. split; [done|]. split_and!; try done. by apply Hprom.
Qed.
End Transport.

Section Witnesses.
#[local] Existing Instance Toy.prims.
#[local] Existing Instance Toy.laws.

(** Run one task of peer [k], if it can run. *)
Definition step_sys (sy : Sys) (k : bytes) (t : task) : Sys :=
  match sys_peers sy !! k with
  | Some p =>
      match run_task (mkSt (sys_heap sy) (sys_index sy) p) t with
      | Ok (mkSt h i p', eff) => mkSys h i (<[k := p']> (sys_peers sy)) (sys_log sy ++ eff)
      | _ => sy
      end
  | None => sy
  end.
Lemma runs_step_sys sy k t : runs sy ->
  (forall p, legal_task (mkSt (sys_heap sy) (sys_index sy) p) t) -> runs (step_sys sy k t).
Proof.
  intros Hr Hl. unfold step_sys. destruct (sys_peers sy !! k) as [p|] eqn:Hk; [|done].
  destruct (run_task _ t) as [[[h i p'] eff]| |] eqn:Ht; [|done..]. by eapply runs_task.
Qed.

Definition toy_env : Env := mkEnv (secs 1000) (secs 2000) (key_of x44).
Definition toy_ep (b : byte) : Endpoint := mkEndpoint (AddrV4 [x0a; x00; x00; b] 51820) "Udp".
Definition toy_peer : Peer := Peer_new (secs 900) toy_I None None true "10.0.0.2".
(** A session of the toy peer over cell 0, and a packet for it. *)
Definition toy_sess : Session :=
  mkSession toy_I 5 0 (key_of x66) 9 (key_of x77) 0 (mkChachaCipher (key_of x66)) (mkChachaCipher (key_of x77)).
Definition toy_packet (n : Z) : TransportData :=
  mkTransportData 5 n ([x61; x62] ++ replicate 16 x77).
Definition toy_sys0 : Sys := mkSys [] (SessionIndex_new 5) (<[[x22] := toy_peer]> ∅) [].
Definition toy_sys1 : Sys := step_sys toy_sys0 [x22] (TaskHandshake toy_env).
Definition toy_recv (sy : Sys) (n : Z) : Sys :=
  step_sys sy [x22] (TaskInbound toy_env true (EvTransportData (toy_ep x02) (toy_packet n) toy_sess)).
Definition toy_sys4 : Sys := toy_recv (toy_recv (toy_recv toy_sys1 3) 3) 2.

(** Counter 3 arrives twice and counter 2 after it: two writes. *)
Lemma tun_delivers_once_witness :
  runs toy_sys4 /\ written (sys_log toy_sys4) = [(0%nat, 3); (0%nat, 2)] /\ NoDup (written (sys_log toy_sys4)).
Proof.
  assert (runs toy_sys4) as Hr.
  { assert (forall n sy, 0 <= n <= REJECT_AFTER_MESSAGES -> (0 < length (sys_heap sy))%nat ->
      runs sy -> runs (toy_recv sy n)) as Hstep.
    { intros n sy Hn Hh Hr. apply runs_step_sys; [exact Hr|]. intros p. split; [exact Hh|exact Hn]. }
    repeat (apply Hstep; [split; vm_compute; congruence|vm_compute; lia|]).
    unfold toy_sys1. apply runs_step_sys; [|done].
    apply (runs_insert (mkSys [] (SessionIndex_new 5) ∅ [])). apply runs_init. }
  split; [exact Hr|]. split; [vm_compute; reflexivity|]. apply (tun_delivers_once toy_sys4 Hr).
Defined.

(** A packet forged for that session (its tag is wrong) moves the endpoint. *)
Lemma transport_data_branches_witness :
  let st := mkSt [mkCell 0 NonceFilter.new] (SessionIndex_new 6) toy_peer in
  exists st', handle_transport_data (E := unit) toy_env st (toy_ep x63)
      (mkTransportData 5 0 (replicate 16 x00)) toy_sess = Ok (st', []) /\
    endpoint (st_peer st') = Some (toy_ep x63).
Proof.
  edestruct (transport_data_branches (E := unit) toy_env
    (mkSt [mkCell 0 NonceFilter.new] (SessionIndex_new 6) toy_peer) (toy_ep x63)
    (mkTransportData 5 0 (replicate 16 x00)) toy_sess (idx_ok_new 6)) as (_ & Hforged & _).
  - apply rep_fresh. done.
  - reflexivity.
  - vm_compute. congruence.
  - reflexivity.
  - destruct (Hforged eq_refl (Noise Decryption)) as (st' & H1 & H2 & _); [reflexivity|].
    exists st'. split; [exact H1|exact H2].
Defined.
End Witnesses.
