(* ===== verification/PeerTypes.v ===== *)
(** * The tasks of a peer do not go wrong

    The Rust types of the state a peer's tasks work on, as an invariant: session indices are
    [u32]s, nonces [u64]s, a session's cell exists, keys and MACs have their sizes, and the
    index table is consistent. On a state and an event of these types every task returns (no
    [unwrap], slice or array conversion in it panics), what it leaves behind has these types
    again, and every packet it sends is a message the peer at the other end can parse. *)

From S2P Require Import Prelude Bytes NonceFilter Protocol Crypto Clock Noise Session PeerHandshake Monitor Peer.

Section Types.
Context `{CryptoPrims}.

Definition cell_typed (c : Cell) : Prop :=
  in_u 64 (sender_nonce c) /\ exists w, NonceFilter.rep (nonce_filter c) w.

(** [n] is the number of cells allocated. *)
Definition sess_typed (n : nat) (s : Session) : Prop :=
  in_u 32 (sender_index s) /\ in_u 32 (receiver_index s) /\ (cell s < n)%nat.
Definition table_typed (n : nat) (i : SessionIndex) : Prop :=
  idx_ok i /\ in_u 32 (si_index i) /\ forall k s, indexes i !! k = Some s -> sess_typed n s.
Definition slots_typed (n : nat) (a : ActiveSession) : Prop :=
  forall q s, get a q = Some s -> sess_typed n s.

Definition hs_typed (hs : Handshake) : Prop :=
  macs_ok (hs_macs hs) /\ length (local_public (local (hs_secret hs))) = 32%nat /\
  match hs_state hs with
  | Initiation o => in_u 32 (oi_index o)
  | PeerHandshake.Uninit => True
  end.
Definition peer_typed (n : nat) (p : Peer) : Prop :=
  hs_typed (handshake p) /\ slots_typed n (sessions p).

Definition st_typed (st : St) : Prop :=
  Forall cell_typed (st_heap st) /\ table_typed (length (st_heap st)) (st_index st) /\
  peer_typed (length (st_heap st)) (st_peer st).

(** A packet on the wire is the encoding of a message with its fields in range. *)
Definition wire_typed (buf : bytes) : Prop := exists m, wf_message m /\ buf = encode m.
Definition sent_typed (ef : Effect) : Prop :=
  match ef with
  | Sent _ buf => wire_typed buf
  | _ => True
  end.

(** What the dispatcher hands to a peer: parsed messages, a session of the table, a counter
    below the limit. *)
Definition event_typed (n : nat) (ev : InboundEvent) : Prop :=
  match ev with
  | EvHandshakeInitiation _ ii => in_u 32 (ii_index ii)
  | EvHandshakeResponse _ pk _ => in_u 32 (hr_sender_index pk)
  | EvCookieReply _ _ _ => True
  | EvTransportData _ pk s => sess_typed n s /\ 0 <= td_counter pk <= REJECT_AFTER_MESSAGES
  end.

(** The clock is past 1970 and the socket takes the answer to an initiation: the two
    conditions the handlers themselves unwrap. *)
Definition task_typed (n : nat) (t : task) : Prop :=
  match t with
  | TaskInbound env ok ev => ok = true /\ clock_ok (env_sys env) /\ event_typed n ev
  | TaskHandshake env => clock_ok (env_sys env)
  | _ => True
  end.
End Types.

(** ** More cells never hurt *)
Section Facts.
Context `{CryptoLaws}.

Lemma sess_typed_mono n n' s : (n <= n')%nat -> sess_typed n s -> sess_typed n' s.
Proof. intros ? (? & ? & ?). split_and!; [done..|lia]. Qed.
Lemma table_typed_mono n n' i : (n <= n')%nat -> table_typed n i -> table_typed n' i.
Proof. intros ? (? & ? & Hs). split_and!; [done..|]. intros. by eapply sess_typed_mono, Hs. Qed.
Lemma slots_typed_mono n n' a : (n <= n')%nat -> slots_typed n a -> slots_typed n' a.
Proof. intros ? Hs q s Hq. by eapply sess_typed_mono, Hs. Qed.
Lemma peer_typed_mono n n' p : (n <= n')%nat -> peer_typed n p -> peer_typed n' p.
Proof. intros ? [? ?]. split; [done|]. by eapply slots_typed_mono. Qed.

Lemma cell_typed_new : cell_typed (mkCell 0 NonceFilter.new).
Proof. split; [cbn; unfold in_u; lia|]. eexists. apply NonceFilter.rep_new. Qed.
Lemma heap_typed_at h s : Forall cell_typed h -> (cell s < length h)%nat -> cell_typed (h !!! cell s).
Proof. intros Hh Hs. by apply Forall_lookup_total_1. Qed.

(** ** The table and the slots *)
Lemma next_index_typed n i i' x : table_typed n i -> next_index i = (i', x) ->
  table_typed n i' /\ in_u 32 x.
Proof. intros (? & ? & ?) [= <- <-]. split; [|done]. split_and!; [done| |done]. by apply wrap_in_u. Qed.

Lemma activate_typed n i s : table_typed n i -> sess_typed n s -> table_typed n (activate i s).
Proof.
  intros (Hi & Hx & Hs) Ht. split_and!; [by apply idx_ok_insert|done|].
  intros k t. cbn [activate SessionIndex_insert indexes].
  intros [[_ <-]|[_ ?]]%lookup_insert_Some; [done|eauto].
Qed.

Lemma deactivate_opt_typed {E} n i o : table_typed n i ->
  exists i', deactivate_opt (E := E) i o = Ok i' /\ table_typed n i'.
Proof.
  intros (Hi & Hx & Hs). destruct (deactivate_opt_spec (E := E) i o Hi) as (i' & Hr & Hi' & Hm).
  exists i'. split; [done|]. split_and!; [done| |].
  - destruct o as [s|]; [|by injection Hr as <-]. cbn in Hr. unfold deactivate, SessionIndex_remove in Hr.
    destruct (indexes i !! _); [|by injection Hr as <-].
    destruct (keys i !! _); [|done]. by injection Hr as <-.
  - intros k s. rewrite Hm. destruct o; cbn [del]; [|eauto]. intros [_ ?]%lookup_delete_Some. eauto.
Qed.

Lemma slots_typed_intro n u p c x :
  (forall s, u = Some s -> sess_typed n s) -> (forall s, p = Some s -> sess_typed n s) ->
  (forall s, c = Some s -> sess_typed n s) -> (forall s, x = Some s -> sess_typed n s) ->
  slots_typed n (mkActiveSession u p c x).
Proof. intros ? ? ? ? [] s; cbn; auto. Qed.

(** Run the deactivations of a slot operation, and type the slots it leaves. *)
Ltac deact :=
  match goal with
  | Hi : table_typed ?n ?i |- context [deactivate_opt ?i ?o] =>
      let i' := fresh "i" in let Hi' := fresh "Hi" in
      destruct (deactivate_opt_typed (E := unit) n i o Hi) as (i' & -> & Hi');
      cbn [mbind res_bind uninit previous current next]
  end.
Ltac slots_ok Ha :=
  let Hq := fresh "Hq" in
  apply slots_typed_intro; intros ? Hq;
  first [ discriminate Hq | by injection Hq as <-
        | exact (Ha Session.Uninit _ Hq) | exact (Ha Previous _ Hq)
        | exact (Ha Current _ Hq) | exact (Ha Next _ Hq)
        | injection Hq as <-; by apply (Ha Next) ].

Lemma prepare_uninit_typed n i a s :
  table_typed n i -> slots_typed n a -> sess_typed n s ->
  exists i' a', prepare_uninit (E := unit) i a s = Ok (i', a') /\ table_typed n i' /\ slots_typed n a'.
Proof.
  intros Hi Ha Hs. unfold prepare_uninit. deact. eexists _, _. split; [done|].
  split; [by apply activate_typed|]. slots_ok Ha.
Qed.
Lemma prepare_next_typed n i a s :
  table_typed n i -> slots_typed n a -> sess_typed n s ->
  exists i' a', prepare_next (E := unit) i a s = Ok (i', a') /\ table_typed n i' /\ slots_typed n a'.
Proof.
  intros Hi Ha Hs. unfold prepare_next, deactivate_previous. destruct (Session.next a) as [x|] eqn:Hx.
  - deact. eexists _, _. split; [done|]. split; [by apply activate_typed|]. slots_ok Ha.
  - cbn [mbind res_bind]. eexists _, _. split; [done|]. split; [by apply activate_typed|]. slots_ok Ha.
Qed.
Lemma complete_uninit_typed n i a s :
  table_typed n i -> slots_typed n a -> sess_typed n s ->
  exists i' a' b, complete_uninit (E := unit) i a s = Ok (i', a', b) /\
    table_typed n i' /\ slots_typed n a'.
Proof.
  intros Hi Ha Hs. unfold complete_uninit, deactivate_uninit, deactivate_previous.
  destruct (same_index _ _); [|by eexists i, a, false].
  deact. pose proof (activate_typed n _ s Hi0 Hs). deact.
  eexists _, _, _. split; [done|]. split; [done|]. slots_ok Ha.
Qed.
Lemma complete_next_typed n i a s :
  table_typed n i -> slots_typed n a -> sess_typed n s ->
  exists i' a' b, complete_next (E := unit) i a s = Ok (i', a', b) /\
    table_typed n i' /\ slots_typed n a'.
Proof.
  intros Hi Ha Hs. unfold complete_next, deactivate_next, deactivate_previous.
  destruct (same_index _ _); [|by eexists i, a, false].
  deact. deact. eexists _, _, _. split; [done|]. split; [by apply activate_typed|]. slots_ok Ha.
Qed.

(** ** The messages *)
Lemma Session_new_typed {E} now h sec si sk ri rk :
  Forall cell_typed h -> in_u 32 si -> in_u 32 ri -> length sk = 32%nat -> length rk = 32%nat ->
  exists h' s, Session_new (E := E) now h sec si sk ri rk = Ok (h', s) /\
    Forall cell_typed h' /\ length h' = S (length h) /\ sess_typed (S (length h)) s.
Proof.
  intros Hh Hs Hr Hk1 Hk2. rewrite Session_new_Ok by done. eexists _, _. split; [done|].
  split_and!.
  - apply Forall_app. split; [done|]. apply Forall_singleton, cell_typed_new.
  - rewrite length_app. cbn. lia.
  - split_and!; cbn; [done..|lia].
Qed.

(** An [unwrap]ped encryption of a field of at most 32 bytes, and its length. *)
Lemma seal_field {E} k m a : length k = 32%nat -> (length m <= 32)%nat ->
  exists e, unwrap (F := E) (aead_encrypt k 0 m a) = Ok e /\ length e = (length m + 16)%nat.
Proof.
  intros Hk Hm. destruct (aead_roundtrip_Ok k 0 m a Hk) as (e & He & _ & Hl); [by apply aead_max_small|].
  exists e. by rewrite He.
Qed.

(** Both messages end the same way. *)
Ltac gen_macs clk g Hg :=
  match goal with |- context [generate_mac1 (E := ?E) g ?b] =>
    let m1 := fresh "m1" in let m2 := fresh "m2" in
    destruct (generate_mac1_Ok (E := E) g b Hg) as (m1 & -> & ?); cbn [mbind res_bind];
    destruct (generate_mac2_Ok (E := E) clk g (b ++ m1) Hg) as (m2 & -> & ?); cbn [mbind res_bind]
  end.

Lemma initiation_typed {E} rnd now clk idx sec g :
  in_u 32 idx -> clock_ok now -> macs_ok g -> length (local_public (local sec)) = 32%nat ->
  exists oi p, OutgoingInitiation_new (E := E) rnd now clk idx sec g = Ok (oi, p) /\
    oi_index oi = idx /\ wire_typed p.
Proof.
  intros Hidx [Hn1 Hn2] Hg Hl. unfold OutgoingInitiation_new, gen_ephemeral_key.
  destruct (kdf2 _ _) as [c1 k1] eqn:Hk1. apply kdf2_len in Hk1 as [_ Hk1].
  match goal with |- context [aead_encrypt k1 0 ?m ?a] =>
    destruct (seal_field (E := E) k1 m a Hk1) as (sk & -> & Hsk); [lia|] end.
  cbn [mbind res_bind]. destruct (kdf2 c1 _) as [c2 k2] eqn:Hk2. apply kdf2_len in Hk2 as [_ Hk2].
  destruct (stamp_Ok (E := E) now Hn1 Hn2) as (ts & -> & Hts & _). cbn [mbind res_bind].
  match goal with |- context [aead_encrypt k2 0 ?m ?a] =>
    destruct (seal_field (E := E) k2 m a Hk2) as (et & -> & Het); [lia|] end.
  cbn [mbind res_bind].
  gen_macs clk g Hg.
  eexists _, _. split; [done|]. split; [done|].
  exists (MsgHandshakeInitiation (mkHandshakeInitiation idx (x25519_base rnd) sk et m1 m2)).
  split; [|cbn; by rewrite <- !app_assoc].
  cbn. rewrite x25519_base_len, Hsk, Het, Hts, Hl. done.
Qed.

Lemma response_typed {E} rnd clk ii idx sec g :
  in_u 32 idx -> in_u 32 (ii_index ii) -> macs_ok g ->
  exists or p, OutgoingResponse_new (E := E) rnd clk ii idx sec g = Ok (or, p) /\ wire_typed p.
Proof.
  intros Hidx Hii Hg. unfold OutgoingResponse_new, gen_ephemeral_key.
  destruct (kdf3 _ _) as [[c t] k] eqn:Hk. apply kdf3_len in Hk as (_ & _ & Hk).
  match goal with |- context [aead_encrypt k 0 ?m ?a] =>
    destruct (seal_field (E := E) k m a Hk) as (em & -> & Hem); [cbn; lia|] end.
  cbn [mbind res_bind].
  gen_macs clk g Hg. eexists _, _. split; [done|].
  exists (MsgHandshakeResponse (mkHandshakeResponse idx (ii_index ii) (x25519_base rnd) em m1 m2)).
  split; [|cbn; by rewrite <- !app_assoc].
  cbn. rewrite x25519_base_len, Hem. done.
Qed.

(** ** The handlers *)

(** A task returned, and left typed state and typed packets. *)
Definition sound (st : St) (r : res unit (St * list Effect)) : Prop :=
  exists st' eff, r = Ok (st', eff) /\ st_typed st' /\
    (length (st_heap st) <= length (st_heap st'))%nat /\ Forall sent_typed eff.

Lemma sound_here st p eff :
  st_typed st -> peer_typed (length (st_heap st)) p -> Forall sent_typed eff ->
  sound st (Ok (on_peer st p, eff)).
Proof. intros (Hh & Hi & _) Hp Heff. eexists _, _. split; [done|]. by split_and!. Qed.

(** A monitor does not enter the types of a peer: forget how it was updated. *)
Ltac monitored Hst q :=
  let Hp := fresh "Hp" in
  match type of Hst with st_typed ?st =>
    assert (peer_typed (length (st_heap st)) q) as Hp by apply Hst;
    revert Hp; generalize q; intros p0 Hp
  end.

Lemma send_outbound_typed p buf : wire_typed buf -> Forall sent_typed (send_outbound p buf).
Proof. intros Hb. unfold send_outbound. destruct (endpoint p); by apply Forall_singleton. Qed.

Lemma mark_completed_typed {E} env p : clock_ok (env_sys env) ->
  exists p', mark_completed (E := E) env p = Ok p' /\ handshake p' = handshake p /\
    sessions p' = sessions p.
Proof.
  intros [Hn _]. unfold mark_completed, completed, AtomicTimestamp_set_now.
  destruct (Z.ltb_spec (env_sys env) 0); [lia|]. by eexists.
Qed.

Lemma initiation_sound_task env st e ii :
  st_typed st -> in_u 32 (ii_index ii) ->
  sound st (handle_handshake_initiation env true st e ii).
Proof.
  intros Hst Hii. pose proof Hst as (Hh & Hi & _). unfold handle_handshake_initiation, respond.
  monitored Hst (traffic_in HANDSHAKE_INITIATION_PACKET_SIZE (st_peer st)). pose proof Hp as [(Hg & Hl & Hs) Ha].
  destruct (next_index (st_index st)) as [i1 x] eqn:Hx.
  destruct (next_index_typed _ _ _ _ Hi Hx) as [Hi1 Hxr].
  destruct (response_typed (E := NoiseError) (env_rnd env) (env_now env) ii x
    (hs_secret (handshake p0)) (hs_macs (handshake p0))) as (or & p & -> & Hpk); [done..|].
  cbn [mbind res_bind]. destruct (kdf2 (or_chaining_key or) []) as [k1 k2] eqn:Hk.
  apply kdf2_len in Hk as [Hk1 Hk2].
  destruct (Session_new_typed (E := NoiseError) (env_now env) (st_heap st)
    (hs_secret (handshake p0)) x k2 (ii_index ii) k1) as (h' & s & -> & Hh' & Hlen & Hst'); [done..|].
  cbn [mbind res_bind]. rewrite <- Hlen in Hst'.
  assert (length (st_heap st) <= length h')%nat as Hle by lia.
  destruct (prepare_next_typed (length h') i1 (sessions p0) s) as (i2 & a2 & -> & Hi2 & Ha2);
    [by eapply table_typed_mono|by eapply slots_typed_mono|done|].
  cbn [mbind res_bind]. eexists _, _. split; [done|]. split; [|split; [done|by apply Forall_singleton]].
  by split_and!.
Qed.

Lemma response_sound_task env st e pk :
  st_typed st -> clock_ok (env_sys env) -> in_u 32 (hr_sender_index pk) ->
  sound st (handle_handshake_response env st e pk).
Proof.
  intros Hst Hclk Hpk. pose proof Hst as (Hh & Hi & _). unfold handle_handshake_response, finalize.
  monitored Hst (traffic_in HANDSHAKE_RESPONSE_PACKET_SIZE (st_peer st)). pose proof Hp as [(Hg & Hl & Hs) Ha].
  destruct (hs_state (handshake p0)) as [|o] eqn:Hso; [by apply sound_here|].
  destruct (response_parse_cases o (hs_secret (handshake p0)) pk) as [[ir Hir]| ->];
    [|by apply sound_here].
  rewrite Hir. cbn [mbind res_bind]. assert (ir_index ir = hr_sender_index pk) as Hix.
  { revert Hir. unfold IncomingResponse_parse. destruct (kdf3 _ _) as [[? ?] ?]. intros Hir.
    bind_inv Hir. destruct (negb _); [done|]. by injection Hir as <-. }
  destruct (kdf2 (ir_chaining_key ir) []) as [k1 k2] eqn:Hk. apply kdf2_len in Hk as [Hk1 Hk2].
  destruct (Session_new_typed (E := NoiseError) (env_now env) (st_heap st)
    (hs_secret (handshake p0)) (oi_index o) k1 (ir_index ir) k2)
    as (h' & s & -> & Hh' & Hlen & Hst'); [by rewrite ?Hix..|].
  rewrite <- Hlen in Hst'.
  assert (length (st_heap st) <= length h')%nat as Hle by lia.
  destruct (complete_uninit_typed (length h') (st_index st) (sessions p0) s)
    as (i2 & a2 & b & -> & Hi2 & Ha2); [by eapply table_typed_mono|by eapply slots_typed_mono|done|].
  cbn [mbind res_bind].
  assert (peer_typed (length h') (with_sessions p0 a2)) as Hp2.
  { split; [|done]. split_and!; [done..|]. cbn. by rewrite Hso. }
  destruct b; cbn [negb].
  - destruct (mark_completed_typed (E := unit) env
      (with_sessions p0 a2) Hclk) as (p' & -> & He1 & He2).
    cbn [mbind res_bind]. eexists _, _. split; [done|].
    split; [|split; [done|by repeat constructor]]. split_and!; [done..|].
    unfold peer_typed. cbn. by rewrite He1, He2.
  - eexists _, _. split; [done|]. split; [|split; [done|constructor]]. by split_and!.
Qed.

Lemma transport_sound_task env st e pk s :
  st_typed st -> clock_ok (env_sys env) -> sess_typed (length (st_heap st)) s ->
  0 <= td_counter pk <= REJECT_AFTER_MESSAGES ->
  sound st (handle_transport_data env st e pk s).
Proof.
  intros Hst Hclk Hs Hn. pose proof Hst as (Hh & Hi & _). unfold handle_transport_data.
  monitored Hst (traffic_in (packet_len pk) (st_peer st)). pose proof Hp as [Hhs Ha].
  destruct (complete_next_typed _ (st_index st) (sessions p0) s Hi Ha Hs)
    as (i2 & a2 & b & -> & Hi2 & Ha2). cbn [mbind res_bind].
  assert (exists p, (if b then mark_completed env (with_sessions p0 a2)
     else Ok (E := unit) (with_sessions p0 a2)) = Ok p /\
     peer_typed (length (st_heap st)) p) as (p & -> & Hp').
  { destruct b; [|by eexists]. destruct (mark_completed_typed (E := unit) env
      (with_sessions p0 a2) Hclk) as (p' & -> & He1 & He2).
    eexists. split; [done|]. unfold peer_typed. by rewrite He1, He2. }
  cbn [mbind res_bind].
  assert (sound st (Ok (mkSt (st_heap st) i2 p, []))) as Hquiet.
  { eexists _, _. split; [done|]. split; [|by split]. by split_and!. }
  assert (sound st (Ok (mkSt (st_heap st) i2 (update_endpoint p e), []))) as Hmoved.
  { eexists _, _. split; [done|]. split; [|by split]. by split_and!. }
  destruct Hs as (_ & _ & Hcell). destruct (heap_typed_at _ _ Hh Hcell) as [Hnon [w Hw]].
  unfold REJECT_AFTER_MESSAGES in Hn. change (Z.shiftl 1 13) with 8192 in Hn.
  destruct (NonceFilter.rep_can_accept (E := unit) _ w (td_counter pk) Hw) as (ok & Hok & Ht & _); [lia..|].
  unfold Session_can_accept. rewrite Hok. cbn [mbind res_bind]. destruct ok; [|done]. cbn [negb].
  unfold decrypt_data, ChachaCipher_aead_decrypt. destruct (negb _); [done|].
  destruct (chacha_decrypt _ _ _ _) as [data|]; [|done]. cbn [ok_or map_err].
  destruct (length data =? 0)%nat; [done|].
  destruct (NonceFilter.rep_accept (E := unit) _ w (td_counter pk) Hw) as (f & Hf & _ & Hr');
    [lia|lia|by apply Ht|]. unfold aceept. rewrite Hf. cbn [mbind res_bind].
  eexists _, _. split; [done|]. cbn [st_heap]. rewrite length_insert.
  split; [|split; [done|by repeat constructor]]. unfold st_typed. cbn [st_heap st_index st_peer].
  rewrite length_insert. split_and!; [|done|done]. apply Forall_insert; [done|].
  split; [done|by eexists].
Qed.

Lemma outbound_sound_task now st data :
  st_typed st -> sound st (peer_tick_outbound now st data).
Proof.
  intros Hst. pose proof Hst as (Hh & Hi & Hhs & Ha). unfold peer_tick_outbound.
  destruct (current (sessions (st_peer st))) as [s|] eqn:Hs.
  2:{ eexists _, _. split; [done|]. split; [done|]. split; [done|by apply Forall_singleton]. }
  destruct (Ha Current s Hs) as (_ & Hri & Hcell). destruct (heap_typed_at _ _ Hh Hcell) as [Hnon Hw].
  unfold encrypt_data, next_nonce.
  assert (forall p, peer_typed (length (st_heap st)) p -> st_typed (mkSt (<[cell s := mkCell
    (wrap 64 (sender_nonce (st_heap st !!! cell s) + 1)) (nonce_filter (st_heap st !!! cell s))]>
    (st_heap st)) (st_index st) p)) as Hnew.
  { intros p Hp. unfold st_typed. cbn [st_heap st_index st_peer]. rewrite length_insert.
    split_and!; [|done|done]. apply Forall_insert; [done|]. split; [by apply wrap_in_u|done]. }
  unfold ChachaCipher_aead_encrypt. destruct (chacha_encrypt _ _ _ _) as [c|]; cbn;
    (eexists _, _; split; [done|]; split; [by apply Hnew|]; cbn [st_heap]; rewrite length_insert;
     split; [done|]); [|constructor].
  apply send_outbound_typed. exists (MsgTransportData (mkTransportData (receiver_index s)
    (sender_nonce (st_heap st !!! cell s)) c)). by split.
Qed.

Lemma handshake_sound_task env st :
  st_typed st -> clock_ok (env_sys env) ->
  sound st ('(st, eff, _) ← handshake_tick (E := unit) env st; Ok (st, eff)).
Proof.
  intros Hst Hclk. pose proof Hst as (Hh & Hi & _). unfold handshake_tick.
  destruct (can_handshake (env_now env) (monitor (st_peer st))) as [m [|]].
  2:{ cbn [mbind res_bind]. apply sound_here; [done|apply Hst|done]. }
  monitored Hst (with_monitor (st_peer st) m). pose proof Hp as [(Hg & Hl & Hs) Ha]. unfold initiate.
  destruct (next_index (st_index st)) as [i1 x] eqn:Hx.
  destruct (next_index_typed _ _ _ _ Hi Hx) as [Hi1 Hxr].
  destruct (initiation_typed (E := unit) (env_rnd env) (env_sys env) (env_now env) x
    (hs_secret (handshake p0)) (hs_macs (handshake p0)))
    as (oi & p & -> & Hox & Hpk); [done..|]. cbn [mbind res_bind].
  destruct (Session_new_typed (E := unit) (env_now env) (st_heap st)
    (hs_secret (handshake p0)) x zero_key 0 zero_key) as (h' & s & -> & Hh' & Hlen & Hst');
    [done|done|unfold in_u; lia|done..|].
  cbn [mbind res_bind]. rewrite <- Hlen in Hst'.
  assert (length (st_heap st) <= length h')%nat as Hle by lia.
  destruct (prepare_uninit_typed (length h') i1 (sessions p0) s) as (i2 & a2 & -> & Hi2 & Ha2);
    [by eapply table_typed_mono|by eapply slots_typed_mono|done|].
  cbn [mbind res_bind]. eexists _, _. split; [done|].
  split; [|split; [done|by apply send_outbound_typed]].
  split_and!; [done..|]. split; [|done]. split_and!; [done..|]. cbn. by rewrite Hox.
Qed.

Lemma run_task_sound st t :
  st_typed st -> task_typed (length (st_heap st)) t -> sound st (run_task st t).
Proof.
  intros Hst Ht. destruct t as [env ok ev|now data|env|now|e|val]; cbn [run_task task_typed] in *.
  - destruct Ht as (-> & Hclk & Hev).
    destruct ev; cbn [peer_tick_inbound event_typed] in *.
    + by apply initiation_sound_task.
    + by apply response_sound_task.
    + by apply sound_here; [|apply Hst|].
    + destruct Hev. by apply transport_sound_task.
  - by apply outbound_sound_task.
  - by apply handshake_sound_task.
  - unfold keepalive. repeat case_match; simplify_eq; apply sound_here; try apply Hst; by repeat constructor.
  - by apply sound_here; [|apply Hst|].
  - by apply sound_here; [|apply Hst|].
Qed.

(** ** Every state of a device *)

Definition sys_typed (sy : Sys) : Prop :=
  Forall cell_typed (sys_heap sy) /\ table_typed (length (sys_heap sy)) (sys_index sy) /\
  (forall k p, sys_peers sy !! k = Some p -> peer_typed (length (sys_heap sy)) p) /\
  Forall sent_typed (sys_log sy).

(** A device starts with no peers, gets and loses peers, and runs their tasks. *)
Inductive device_runs : Sys -> Prop :=
| device_new r : in_u 32 r -> device_runs (mkSys [] (SessionIndex_new r) ∅ [])
| device_insert sy now private pub e interval on ip : device_runs sy ->
    device_runs (mkSys (sys_heap sy) (sys_index sy)
      (<[pub := Peer_new now (with_peer (LocalStaticSecret_new private) pub) e interval on ip]>
        (sys_peers sy)) (sys_log sy))
| device_clear sy : device_runs sy ->
    device_runs (mkSys (sys_heap sy) (SessionIndex_clear (sys_index sy)) ∅ (sys_log sy))
| device_task sy k p t h i p' eff : device_runs sy -> sys_peers sy !! k = Some p ->
    task_typed (length (sys_heap sy)) t ->
    run_task (mkSt (sys_heap sy) (sys_index sy) p) t = Ok (mkSt h i p', eff) ->
    device_runs (mkSys h i (<[k := p']> (sys_peers sy)) (sys_log sy ++ eff)).

Lemma Peer_new_typed n now private pub e interval on ip :
  peer_typed n (Peer_new now (with_peer (LocalStaticSecret_new private) pub) e interval on ip).
Proof.
  split; [|by intros []]. split_and!; [apply MacGenerator_new_ok..|apply x25519_base_len|done].
Qed.

Lemma device_runs_typed sy : device_runs sy -> sys_typed sy.
Proof.
  induction 1 as [r Hr|sy now pr pub e iv on ip _ (Hh & Hi & Hp & Hl)|sy _ (Hh & Hi & Hp & Hl)
    |sy k p t h i p' eff _ (Hh & Hi & Hp & Hl) Hk Ht Hrun].
  - split_and!; [constructor| |done|constructor]. split_and!; [apply idx_ok_new|done|done].
  - split_and!; [done..| |done]. cbn. intros k q [[_ <-]|[_ ?]]%lookup_insert_Some; [apply Peer_new_typed|eauto].
  - destruct Hi as (_ & ? & _). split_and!; [done| |done|done]. split_and!; [apply idx_ok_clear|done|done].
  - destruct (run_task_sound (mkSt (sys_heap sy) (sys_index sy) p) t) as (st' & eff' & Hr & Hst & Hle & He);
      [by split_and!; eauto|done|]. rewrite Hr in Hrun. injection Hrun as -> ->.
    destruct Hst as (? & ? & ?). cbn [st_heap st_index st_peer sys_heap] in *.
    split_and!; [done..| |by apply Forall_app]. cbn.
    intros k' q [[_ <-]|[_ ?]]%lookup_insert_Some; [done|]. eapply peer_typed_mono; eauto.
Qed.

End Facts.

Section Witnesses.
#[local] Existing Instance Toy.prims.
#[local] Existing Instance Toy.laws.

(** A new device with one peer sends its first initiation, of 148 bytes. *)
Definition typed_peer : Peer :=
  Peer_new (secs 900) (with_peer (LocalStaticSecret_new (key_of x11)) [x22])
    (Some (toy_ep x02)) None true "10.0.0.2".
Definition typed_sys : Sys := mkSys [] (SessionIndex_new 7) (<[[x22] := typed_peer]> ∅) [].
Definition sent_lengths (r : St * list Effect) : list nat :=
  omap (fun ef => match ef with Sent _ buf => Some (length buf) | _ => None end) r.2.

End Witnesses.
