(* ===== verification/Device.v ===== *)
(** * The device (vlink-tun/src/device/mod.rs, handle.rs, inbound.rs, config.rs,
    peer/peers.rs, peer/cidr.rs)

    The peers of a device by public key, by allowed address and by session index, and the two
    dispatch tasks: packets from the transports to the peers ([tick_inbound]) and packets from
    the tunnel interface to the peers ([tick_outbound]).

    Address prefixes and the longest-prefix table are the crates ip_network and
    ip_network_table: class [IpNetworkLib], with their documented behaviour in
    [IpNetworkLaws]. An [Arc<Peer>] is a name into the store of peers. *)

From S2P Require Import Prelude Bytes NonceFilter Protocol Crypto Clock Noise Session PeerHandshake Monitor Peer.

(** [std::net::IpAddr]. *)
Inductive IpAddr :=
| IpV4 (octets : bytes)
| IpV6 (octets : bytes).
#[global] Instance IpAddr_eq_dec : EqDecision IpAddr.
Proof. solve_decision. Defined.

Definition max_mask_for_ip (ip : IpAddr) : Z :=
  match ip with
  | IpV4 _ => 32
  | IpV6 _ => 128
  end.

Class IpNetworkLib := {
  IpNetwork : Type;
  IpNetwork_eq_dec :: EqDecision IpNetwork;
  IpNetwork_countable :: Countable IpNetwork;
  new_truncate : IpAddr -> Z -> option IpNetwork;
  netmask : IpNetwork -> Z;
  contains : IpNetwork -> IpAddr -> bool;
  IpNetworkTable : Type -> Type;
  table_new {T} : IpNetworkTable T;
  table_insert {T} : IpNetwork -> T -> IpNetworkTable T -> IpNetworkTable T;
  table_remove {T} : IpNetwork -> IpNetworkTable T -> IpNetworkTable T;
  longest_match {T} : IpNetworkTable T -> IpAddr -> option (IpNetwork * T);
  table_entries {T} : IpNetworkTable T -> gmap IpNetwork T;
}.

Class IpNetworkLaws `{IpNetworkLib} : Prop := {
  new_truncate_spec ip m : 0 <= m ->
    match new_truncate ip m with
    | Some n => m <= max_mask_for_ip ip /\ netmask n = m /\ contains n ip = true
    | None => max_mask_for_ip ip < m
    end;
  entries_new T : table_entries (T := T) table_new = ∅;
  entries_insert T n (v : T) t : table_entries (table_insert n v t) = <[n := v]> (table_entries t);
  entries_remove T n (t : IpNetworkTable T) : table_entries (table_remove n t) = delete n (table_entries t);
  longest_match_spec T (t : IpNetworkTable T) ip :
    match longest_match t ip with
    | Some (n, v) => table_entries t !! n = Some v /\ contains n ip = true /\
        forall n' v', table_entries t !! n' = Some v' -> contains n' ip = true -> netmask n' <= netmask n
    | None => forall n v, table_entries t !! n = Some v -> contains n ip = false
    end;
}.

(** cidr.rs wraps the crate's prefix in a struct of one field. *)
Abbreviation Cidr := IpNetwork.

Section Cidr.
Context `{IpNetworkLib}.

(** ** cidr.rs *)

(** Panics when the mask is too long for the address. *)
Definition Cidr_new {E} (ip : IpAddr) (mask : Z) : res E Cidr := unwrap_opt (new_truncate ip mask).
Definition Cidr_from {E} (value : IpAddr) : res E Cidr := Cidr_new value (max_mask_for_ip value).

Inductive ParseCidrError := InvalidIp | InvalidMask.

(** The character of code 47. *)
Definition slash : Ascii.ascii := Ascii.ascii_of_nat 47.

(** [str::split_once('/')]: before and after the first slash. *)
Fixpoint split_once (sep : Ascii.ascii) (s : list Ascii.ascii) : option (list Ascii.ascii * list Ascii.ascii) :=
  match s with
  | [] => None
  | c :: s =>
      if decide (c = sep) then Some ([], s)
      else match split_once sep s with
           | Some (a, b) => Some (c :: a, b)
           | None => None
           end
  end.

(** [u8::from_str]: decimal digits, an optional plus sign, no empty string, at most 255. *)
Fixpoint digits (acc : Z) (s : list Ascii.ascii) : option Z :=
  match s with
  | [] => Some acc
  | c :: s =>
      let n := Z.of_N (Ascii.N_of_ascii c) in
      if (48 <=? n) && (n <=? 57) then
        let acc := acc * 10 + (n - 48) in
        if acc <=? 255 then digits acc s else None
      else None
  end.
Definition u8_from_str (s : list Ascii.ascii) : option Z :=
  match s with
  | [] => None
  | c :: rest =>
      if Z.of_N (Ascii.N_of_ascii c) =? 43 then
        match rest with [] => None | _ => digits 0 rest end
      else digits 0 s
  end.

(** [ip_from_str] is [IpAddr::from_str]. *)
Definition Cidr_from_str (ip_from_str : list Ascii.ascii -> option IpAddr) (s : list Ascii.ascii)
    : res ParseCidrError Cidr :=
  match split_once slash s with
  | Some (ip, mask) =>
      ip ← ok_or InvalidIp (ip_from_str ip);
      mask ← ok_or InvalidMask (u8_from_str mask);
      if max_mask_for_ip ip <? mask then Err InvalidMask
      else Cidr_new ip mask
  | None =>
      ip ← ok_or InvalidIp (ip_from_str s);
      Cidr_from ip
  end.

(** [CidrTable]. *)
Definition CidrTable (T : Type) : Type := IpNetworkTable T.
Definition CidrTable_insert {T} (cidr : Cidr) (v : T) (t : CidrTable T) : CidrTable T := table_insert cidr v t.
Definition CidrTable_get_by_ip {T} (t : CidrTable T) (ip : IpAddr) : option T := snd <$> longest_match t ip.
Definition CidrTable_remove {T} (cidr : Cidr) (t : CidrTable T) : CidrTable T := table_remove cidr t.
Definition CidrTable_clear {T} (t : CidrTable T) : CidrTable T := table_new.

(** ** config.rs *)

Record PeerConfig := mkPeerConfig {
  cfg_public_key : bytes;
  cfg_allowed_ips : gset Cidr;
  cfg_endpoint : option SocketAddr;
  cfg_preshared_key : option bytes;
  cfg_lazy : bool;
  cfg_is_online : bool;
  cfg_no_encrypt : bool;
  cfg_persistent_keepalive : option Z;
  cfg_ip_addr : string;
}.

(** ** peers.rs *)

(** [name] is the [Arc<Peer>]. *)
Record PeerEntry := mkPeerEntry { pe_peer : nat; pe_allowed_ips : gset Cidr }.

Record PeerList := mkPeerList {
  pl_sessions : SessionIndex;
  pl_ips : CidrTable nat;
  pl_peers : gmap bytes PeerEntry;
  pl_store : gmap nat Peer;
  pl_fresh : nat;
}.

Definition PeerList_new (rnd : Z) : PeerList := mkPeerList (SessionIndex_new rnd) table_new ∅ ∅ 0.

Definition get_by_key (l : PeerList) (public_key : bytes) : option nat := pe_peer <$> pl_peers l !! public_key.
Definition get_by_ip (l : PeerList) (ip : IpAddr) : option nat := CidrTable_get_by_ip (pl_ips l) ip.
Definition get_session_by_index (l : PeerList) (i : Z) : option (Session * nat) :=
  match get_by_index (pl_sessions l) i with
  | Some session => (fun peer => (session, peer)) <$> get_by_key l (peer_of session)
  | None => None
  end.
Definition PeerList_all (l : PeerList) : list nat := (pe_peer ∘ snd) <$> map_to_list (pl_peers l).
Definition PeerList_metrics (l : PeerList) : gmap bytes (option PeerMetrics) :=
  (fun e => metrics <$> pl_store l !! pe_peer e) <$> pl_peers l.

(** The cancelled tasks' peers stay in the store, where nothing finds them. *)
Definition PeerList_clear (l : PeerList) : PeerList :=
  mkPeerList (SessionIndex_clear (pl_sessions l)) (CidrTable_clear (pl_ips l)) ∅ (pl_store l) (pl_fresh l).

Definition insert_cidrs (peer : nat) (cidrs : list Cidr) (t : CidrTable nat) : CidrTable nat :=
  foldr (fun cidr t => CidrTable_insert cidr peer t) t cidrs.

End Cidr.

Section Device.
Context `{IpNetworkLib, CryptoPrims}.

(** [entry(..).or_insert_with(..)]: an existing entry is kept as it is. *)
Definition PeerList_insert (now : Z) (l : PeerList) (secret : PeerStaticSecret) (allowed_ips : gset Cidr)
    (endpoint : option Endpoint) (interval : option Z) (is_online : bool) (ip : string) : PeerList * nat :=
  let '(l, entry) :=
    match pl_peers l !! peer_public secret with
    | Some entry => (l, entry)
    | None =>
        let entry := mkPeerEntry (pl_fresh l) allowed_ips in
        (mkPeerList (pl_sessions l) (pl_ips l) (<[peer_public secret := entry]> (pl_peers l))
           (<[pl_fresh l := Peer_new now secret endpoint interval is_online ip]> (pl_store l))
           (S (pl_fresh l)), entry)
    end in
  (mkPeerList (pl_sessions l) (insert_cidrs (pe_peer entry) (elements (pe_allowed_ips entry)) (pl_ips l))
     (pl_peers l) (pl_store l) (pl_fresh l), pe_peer entry).

(** ** mod.rs *)

Record Settings := mkSettings { set_secret : LocalStaticSecret; set_cookie : Cookie; fwmark : Z }.
Definition Settings_new (private_key : bytes) (mark : Z) : Settings :=
  let secret := LocalStaticSecret_new private_key in
  mkSettings secret (Cookie_new secret) mark.

(** inbound.rs, [Inbound::endpoint_for]. *)
Definition endpoint_for (addr : SocketAddr) : Endpoint := mkEndpoint addr "Udp".

Definition insert_peer (now : Z) (s : Settings) (l : PeerList) (cfg : PeerConfig) : PeerList :=
  let secret := with_peer (set_secret s) (cfg_public_key cfg) in
  let secret := match cfg_preshared_key cfg with
                | Some psk => set_psk secret psk
                | None => secret
                end in
  let endpoint := endpoint_for <$> cfg_endpoint cfg in
  (PeerList_insert now l secret (cfg_allowed_ips cfg) endpoint (cfg_persistent_keepalive cfg)
     (cfg_is_online cfg) (cfg_ip_addr cfg)).1.

Definition reset_peers (now : Z) (s : Settings) (l : PeerList) (peers : list PeerConfig) : PeerList :=
  foldl (insert_peer now s) (PeerList_clear l) peers.

(** ** handle.rs *)

(** The destination of an IP packet; [None] is an early [return]. An empty packet panics at
    [buf[0]]. *)
Definition packet_dst {E} (buf : bytes) : res E (option IpAddr) :=
  b ← index 0 buf;
  let v := Z.land (u8 b) 0xF0 in
  if v =? 0x40 then
    if (length buf <? 20)%nat then Ok None else addr ← slice 16 20 buf; Ok (Some (IpV4 addr))
  else if v =? 0x60 then
    if (length buf <? 40)%nat then Ok None else addr ← slice 24 40 buf; Ok (Some (IpV6 addr))
  else Ok None.

(** Where a packet read from the tunnel goes: nowhere, back to the tunnel (an error of that
    write is only logged), or to a peer's outbound channel. *)
Inductive Routing :=
| Unrouted
| WrittenBack (buf : bytes)
| RoutedTo (peer : nat).

(** [macos] is [cfg(any(target_os = "macos", target_os = "ios"))]: on those targets a packet
    for the device's own address is written back. *)
Definition dev_tick_outbound {E} (macos : bool) (tun_addr : bytes) (l : PeerList) (buf : bytes)
    : res E Routing :=
  o ← packet_dst buf;
  match o with
  | None => Ok Unrouted
  | Some dst =>
      if macos && bool_decide (dst = IpV4 tun_addr) then Ok (WrittenBack buf)
      else
        match get_by_ip l dst with
        | Some peer => Ok (RoutedTo peer)
        | None => Ok Unrouted
        end
  end.

(** What the dispatch of one packet does. *)
Inductive Dispatch :=
| Dropped
| CookieReplied (endpoint : Endpoint) (reply : bytes)
| Staged (peer : nat) (ev : InboundEvent).

(** [rnd] are the bytes a cookie reply draws: nonce and secret. *)
Definition dev_tick_inbound {E} (clk : Z) (rnd : bytes * bytes) (rl : RateLimiter) (l : PeerList)
    (secret : LocalStaticSecret) (cookie : Cookie) (endpoint : Endpoint) (send_ok : bool) (payload : bytes)
    : res E (Cookie * Dispatch) :=
  handshake ← is_handshake payload;
  ok ← (if handshake : bool then validate_mac1 cookie payload else Ok true);
  if negb ok then Ok (cookie, Dropped)
  else if (handshake : bool) && negb (fetch_token rl) then
    ok2 ← validate_mac2 cookie payload;
    if negb ok2 then Ok (cookie, Dropped)
    else
      '(cookie, reply) ← generate_cookie_reply clk rnd.1 rnd.2 cookie payload (dst endpoint);
      if send_ok then Ok (cookie, CookieReplied endpoint reply) else Panic
  else
    match parse payload with
    | Ok (MsgHandshakeInitiation p) =>
        initiation ← unwrap (IncomingInitiation_parse secret p);
        Ok (cookie, match get_by_key l (ii_static_public_key initiation) with
                    | Some peer => Staged peer (EvHandshakeInitiation endpoint initiation)
                    | None => Dropped
                    end)
    | Ok (MsgHandshakeResponse p) =>
        Ok (cookie, match get_session_by_index l (hr_receiver_index p) with
                    | Some (session, peer) => Staged peer (EvHandshakeResponse endpoint p session)
                    | None => Dropped
                    end)
    | Ok (MsgCookieReply p) =>
        Ok (cookie, match get_session_by_index l (cr_receiver_index p) with
                    | Some (session, peer) => Staged peer (EvCookieReply endpoint p session)
                    | None => Dropped
                    end)
    | Ok (MsgTransportData p) =>
        Ok (cookie, match get_session_by_index l (td_receiver_index p) with
                    | Some (session, peer) =>
                        if REJECT_AFTER_MESSAGES <? td_counter p then Dropped
                        else Staged peer (EvTransportData endpoint p session)
                    | None => Dropped
                    end)
    | Err _ => Ok (cookie, Dropped)
    | Panic => Panic
    end.

End Device.

(** ** Lemmas *)

Section Routing.
Context `{IpNetworkLaws, CryptoPrims}.

Lemma insert_cidrs_entries v cs t n w :
  table_entries (insert_cidrs v cs t) !! n = Some w <->
  (n ∈ cs /\ w = v) \/ (n ∉ cs /\ table_entries t !! n = Some w).
Proof.
  induction cs as [|c cs IH]; cbn [insert_cidrs foldr]; [set_solver|].
  unfold CidrTable_insert. rewrite entries_insert. fold (insert_cidrs v cs t).
  rewrite lookup_insert_Some, IH. rewrite elem_of_cons.
  destruct (decide (c = n)) as [->|]; naive_solver.
Qed.

(** Peers known to a device, however it got there: configured, added, and with whatever its
    tasks did to sessions and peer states in between. *)
Inductive configured (s : Settings) : PeerList -> Prop :=
| conf_new r : configured s (PeerList_new r)
| conf_insert now l cfg : configured s l -> configured s (insert_peer now s l cfg)
| conf_clear l : configured s l -> configured s (PeerList_clear l)
| conf_tasks l sessions store : configured s l ->
    configured s (mkPeerList sessions (pl_ips l) (pl_peers l) store (pl_fresh l)).

Lemma conf_reset now s l cfgs : configured s l -> configured s (reset_peers now s l cfgs).
Proof.
  intros Hl. unfold reset_peers. assert (configured s (PeerList_clear l)) as Hc by by constructor.
  revert Hc. generalize (PeerList_clear l). induction cfgs as [|c cfgs IH]; intros l' Hc; [done|].
  apply IH. by constructor.
Qed.

(** The address table and the peers' allowed addresses agree. *)
Definition ips_ok (l : PeerList) : Prop :=
  (forall n v, table_entries (pl_ips l) !! n = Some v ->
     exists k e, pl_peers l !! k = Some e /\ pe_peer e = v /\ n ∈ pe_allowed_ips e) /\
  (forall k e n, pl_peers l !! k = Some e -> n ∈ pe_allowed_ips e ->
     is_Some (table_entries (pl_ips l) !! n)).

(** An entry is made, or the old one is found; its addresses are (re-)registered. *)
Lemma insert_entry now s l cfg : exists e,
  pl_peers (insert_peer now s l cfg) = <[cfg_public_key cfg := e]> (pl_peers l) /\
  pl_ips (insert_peer now s l cfg) =
    insert_cidrs (pe_peer e) (elements (pe_allowed_ips e)) (pl_ips l) /\
  (pl_peers l !! cfg_public_key cfg = Some e \/
   pl_peers l !! cfg_public_key cfg = None /\ e = mkPeerEntry (pl_fresh l) (cfg_allowed_ips cfg)).
Proof.
  unfold insert_peer, PeerList_insert.
  assert (peer_public (match cfg_preshared_key cfg with
    | Some psk => set_psk (with_peer (set_secret s) (cfg_public_key cfg)) psk
    | None => with_peer (set_secret s) (cfg_public_key cfg) end) = cfg_public_key cfg) as ->
    by by destruct (cfg_preshared_key cfg).
  destruct (pl_peers l !! cfg_public_key cfg) as [e|] eqn:He.
  - exists e. cbn. rewrite insert_id by done. auto.
  - eexists. cbn. auto.
Qed.

Lemma ips_ok_insert now s l cfg : ips_ok l -> ips_ok (insert_peer now s l cfg).
Proof.
  intros [Hsnd Hcmp]. destruct (insert_entry now s l cfg) as (e & Hp & Hi & Hold).
  unfold ips_ok. rewrite Hp, Hi. split.
  - intros n v. rewrite insert_cidrs_entries, elem_of_elements. intros [[Hn ->]|[Hn Hv]].
    + exists (cfg_public_key cfg), e. by rewrite lookup_insert_eq.
    + destruct (Hsnd n v Hv) as (k & e' & Hk & Hpe & Hin). exists k, e'.
      rewrite lookup_insert_ne; [done|]. intros <-. destruct Hold as [?|[? _]]; naive_solver.
  - intros k e' n Hk Hn. destruct (decide (n ∈ pe_allowed_ips e)) as [Hin|Hout].
    + exists (pe_peer e). rewrite insert_cidrs_entries, elem_of_elements. auto.
    + apply lookup_insert_Some in Hk as [[<- <-]|[Hne Hk]]; [done|].
      destruct (Hcmp k e' n Hk Hn) as [v Hv]. exists v. rewrite insert_cidrs_entries, elem_of_elements. auto.
Qed.

Lemma configured_ips s l : configured s l -> ips_ok l.
Proof.
  induction 1 as [r|now l cfg _ IH|l _ IH|l ? ? _ IH].
  - split; cbn; [intros n v; by rewrite entries_new|intros k e n; by rewrite lookup_empty].
  - by apply ips_ok_insert.
  - split; cbn; [intros n v; unfold CidrTable_clear; by rewrite entries_new|
                 intros k e n; by rewrite lookup_empty].
  - done.
Qed.

(** C18: routing of outgoing packets. On a device configured in any way, a packet from the
    tunnel interface is written back unchanged exactly when the target is macOS or iOS and it
    is for the device's own address. Any other packet goes to the peer that has an allowed
    prefix containing its destination address such that no peer has a longer one, and is
    dropped only if no peer's allowed prefixes contain the address. *)
Theorem outbound_longest_prefix {E} macos tun_addr s l buf a :
  configured s l -> packet_dst (E := E) buf = Ok (Some a) ->
  match dev_tick_outbound (E := E) macos tun_addr l buf with
  | Ok (WrittenBack b) => macos = true /\ a = IpV4 tun_addr /\ b = buf
  | Ok (RoutedTo v) =>
      ~ (macos = true /\ a = IpV4 tun_addr) /\
      exists k e n, pl_peers l !! k = Some e /\ pe_peer e = v /\ n ∈ pe_allowed_ips e /\
        contains n a = true /\
        forall k' e' n', pl_peers l !! k' = Some e' -> n' ∈ pe_allowed_ips e' ->
          contains n' a = true -> netmask n' <= netmask n
  | Ok Unrouted =>
      ~ (macos = true /\ a = IpV4 tun_addr) /\
      forall k e n, pl_peers l !! k = Some e -> n ∈ pe_allowed_ips e -> contains n a = false
  | _ => False
  end.
Proof.
  intros [Hsnd Hcmp]%configured_ips Ha. unfold dev_tick_outbound. rewrite Ha. cbn [mbind res_bind].
  destruct (macos && bool_decide (a = IpV4 tun_addr)) eqn:Hown.
  { by apply andb_prop in Hown as [-> ?%bool_decide_eq_true]. }
  assert (~ (macos = true /\ a = IpV4 tun_addr)) as Hne.
  { intros [-> ->]. by rewrite bool_decide_eq_true_2 in Hown. }
  unfold get_by_ip, CidrTable_get_by_ip. pose proof (longest_match_spec _ (pl_ips l) a) as Hm.
  destruct (longest_match (pl_ips l) a) as [[n v]|]; cbn; (split; [exact Hne|]).
  - destruct Hm as (Hv & Hc & Hmax). destruct (Hsnd n v Hv) as (k & e & Hk & He & Hn).
    exists k, e, n. split_and!; try done. intros k' e' n' Hk' Hn' Hc'.
    destruct (Hcmp k' e' n' Hk' Hn') as [v' Hv']. eauto.
  - intros k e n Hk Hn. destruct (Hcmp k e n Hk Hn) as [v Hv]. eauto.
Qed.

(** Adding a peer whose public key is already known changes nothing about it: its state,
    its allowed addresses, pre-shared key, keepalive interval and endpoint stay those of the
    first configuration, whatever the new one says. A new key gets a peer with what its
    configuration says, and no other peer is touched. *)
Theorem insert_peer_first_wins now s l cfg :
  let l' := insert_peer now s l cfg in
  let k := cfg_public_key cfg in
  (forall e, pl_peers l !! k = Some e ->
     pl_peers l' = pl_peers l /\ pl_store l' = pl_store l /\ pl_sessions l' = pl_sessions l) /\
  (pl_peers l !! k = None ->
     pl_peers l' = <[k := mkPeerEntry (pl_fresh l) (cfg_allowed_ips cfg)]> (pl_peers l) /\
     exists p, pl_store l' = <[pl_fresh l := p]> (pl_store l) /\ pub_key p = k /\
       endpoint p = endpoint_for <$> cfg_endpoint cfg /\ online p = cfg_is_online cfg /\
       psk (hs_secret (handshake p)) = default (replicate 32 x00) (cfg_preshared_key cfg) /\
       local (hs_secret (handshake p)) = set_secret s /\ sessions p = ActiveSession_new).
Proof.
  unfold insert_peer, PeerList_insert.
  assert (peer_public (match cfg_preshared_key cfg with
    | Some psk => set_psk (with_peer (set_secret s) (cfg_public_key cfg)) psk
    | None => with_peer (set_secret s) (cfg_public_key cfg) end) = cfg_public_key cfg) as Hpub
    by by destruct (cfg_preshared_key cfg).
  rewrite Hpub. split.
  - intros e He. rewrite He. done.
  - intros Hn. rewrite Hn. cbn. split; [done|]. eexists. split; [done|].
    cbn. rewrite Hpub. by destruct (cfg_preshared_key cfg).
Qed.

(** Parsing an address prefix never panics: [Cidr::from_str] fails with [InvalidIp] or
    [InvalidMask] exactly when a part does not parse or the mask is too long for the address,
    and what it returns contains the address and has the mask that was written (the full
    length when there was none). *)
Theorem cidr_from_str_spec (ip_from_str : list Ascii.ascii -> option IpAddr) s :
  match split_once slash s with
  | Some (a, m) =>
      match ip_from_str a, u8_from_str m with
      | None, _ => Cidr_from_str ip_from_str s = Err InvalidIp
      | Some _, None => Cidr_from_str ip_from_str s = Err InvalidMask
      | Some ip, Some mask =>
          (max_mask_for_ip ip < mask /\ Cidr_from_str ip_from_str s = Err InvalidMask) \/
          (0 <= mask <= max_mask_for_ip ip /\
           exists c, Cidr_from_str ip_from_str s = Ok c /\ contains c ip = true /\ netmask c = mask)
      end
  | None =>
      match ip_from_str s with
      | None => Cidr_from_str ip_from_str s = Err InvalidIp
      | Some ip => exists c, Cidr_from_str ip_from_str s = Ok c /\ contains c ip = true /\
          netmask c = max_mask_for_ip ip
      end
  end.
Proof.
  assert (forall acc t n, 0 <= acc -> digits acc t = Some n -> 0 <= n) as Hdig.
  { intros acc t. revert acc. induction t as [|c t IH]; intros acc n Hacc; cbn [digits]; [congruence|].
    destruct (andb _ _) eqn:Hr; [|done]. apply andb_true_iff in Hr as [Hlo%Z.leb_le _].
    destruct (_ <=? 255); [|done]. apply IH. lia. }
  unfold Cidr_from_str. destruct (split_once slash s) as [[a m]|].
  - destruct (ip_from_str a) as [ip|]; [|done]. cbn [ok_or mbind res_bind].
    destruct (u8_from_str m) as [mask|] eqn:Hm; [|done]. cbn [ok_or mbind res_bind].
    assert (0 <= mask) as Hpos.
    { revert Hm. unfold u8_from_str. destruct m as [|c [|c' m]]; [done|..];
        destruct (_ =? 43); try done; by apply Hdig. }
    destruct (Z.ltb_spec (max_mask_for_ip ip) mask); [by left|right]. split; [lia|].
    unfold Cidr_new. pose proof (new_truncate_spec ip mask Hpos) as Hn.
    destruct (new_truncate ip mask) as [c|]; [|lia]. exists c. tauto.
  - destruct (ip_from_str s) as [ip|]; [|done]. cbn [ok_or mbind res_bind].
    unfold Cidr_from, Cidr_new.
    assert (0 <= max_mask_for_ip ip) as Hpos by (destruct ip; cbn; lia).
    pose proof (new_truncate_spec ip _ Hpos) as Hn.
    destruct (new_truncate ip _) as [c|]; [|lia]. exists c. tauto.
Qed.
End Routing.

(** ** Dispatch of incoming packets *)

Section Dispatch.
Context `{IpNetworkLib, CryptoLaws}.
Context (l : PeerList) (secret : LocalStaticSecret) (cookie : Cookie) (rl : RateLimiter).
Context (clk : Z) (rnd : bytes * bytes) (ep : Endpoint) (send_ok : bool).

(** With the rate limiter of the source a packet is dispatched on its parsed form alone. *)
Definition dispatch {E} (m : Message) : res E Dispatch :=
  match m with
  | MsgHandshakeInitiation p =>
      ii ← unwrap (IncomingInitiation_parse secret p);
      Ok (match get_by_key l (ii_static_public_key ii) with
          | Some peer => Staged peer (EvHandshakeInitiation ep ii)
          | None => Dropped
          end)
  | MsgHandshakeResponse p =>
      Ok (match get_session_by_index l (hr_receiver_index p) with
          | Some (s, peer) => Staged peer (EvHandshakeResponse ep p s)
          | None => Dropped
          end)
  | MsgCookieReply p =>
      Ok (match get_session_by_index l (cr_receiver_index p) with
          | Some (s, peer) => Staged peer (EvCookieReply ep p s)
          | None => Dropped
          end)
  | MsgTransportData p =>
      Ok (match get_session_by_index l (td_receiver_index p) with
          | Some (s, peer) => if REJECT_AFTER_MESSAGES <? td_counter p then Dropped
                              else Staged peer (EvTransportData ep p s)
          | None => Dropped
          end)
  end.
Definition is_hs_message (m : Message) : bool :=
  match m with
  | MsgHandshakeInitiation _ | MsgHandshakeResponse _ => true
  | _ => false
  end.

Lemma is_handshake_encode {E} m : wf_message m -> is_handshake (E := E) (encode m) = Ok (is_hs_message m).
Proof.
  unfold is_handshake. destruct m as [p|p|p|p]; cbn [wf_message]; intros Hwf; destruct_and! Hwf; fields;
    cbn [is_hs_message].
  - change (index 0 _) with (Ok (E := E) x01). cbn [mbind res_bind].
    rewrite !length_app, length_tag, length_le_bytes. repeat match goal with Hl : length _ = _ |- _ => rewrite Hl; clear Hl end.
    reflexivity.
  - change (index 0 _) with (Ok (E := E) x02). cbn [mbind res_bind].
    rewrite !length_app, length_tag, !length_le_bytes. repeat match goal with Hl : length _ = _ |- _ => rewrite Hl; clear Hl end.
    reflexivity.
  - reflexivity.
  - reflexivity.
Qed.

Lemma validate_mac1_total {E} p : (length (mac1_hash cookie) <= 32)%nat -> (32 <= length p)%nat ->
  exists b, validate_mac1 (E := E) cookie p = Ok b.
Proof.
  intros Hk Hp. unfold validate_mac1, split_macs, split_at.
  rewrite (proj2 (Nat.ltb_ge _ _) Hp), decide_True by lia. cbn [mbind res_bind].
  rewrite decide_True by (rewrite length_drop; lia). cbn [mbind res_bind].
  destruct (mac_Ok (E := E) (mac1_hash cookie) (take (length p - 32) p) Hk) as (t & -> & _).
  by eexists.
Qed.

(** A packet that is not a message is dropped, unless parsing it panics. *)
Lemma tick_inbound_message {E} m : wf_message m ->
  dev_tick_inbound (E := E) clk rnd rl l secret cookie ep send_ok (encode m) =
  (if is_hs_message m then
     ok ← validate_mac1 cookie (encode m);
     if ok : bool then d ← dispatch m; Ok (cookie, d) else Ok (cookie, Dropped)
   else d ← dispatch m; Ok (cookie, d)).
Proof.
  intros Hwf. unfold dev_tick_inbound. rewrite is_handshake_encode by done. cbn [mbind res_bind].
  rewrite (parse_encode m Hwf). unfold fetch_token. cbn [negb]. rewrite andb_false_r.
  destruct m as [p|p|p|p]; cbn [is_hs_message dispatch negb mbind res_bind]; try done.
  - destruct (validate_mac1 cookie _) as [[]| |]; cbn [mbind res_bind negb]; try done.
    by destruct (unwrap _).
  - by destruct (validate_mac1 cookie _) as [[]| |].
Qed.

Lemma is_handshake_total {E} v : v <> [] ->
  exists b, is_handshake (E := E) v = Ok b /\ (b = true -> (32 <= length v)%nat /\ parse v <> Panic).
Proof.
  intros Hne. destruct v as [|x v]; [done|]. destruct (fixed_size_no_panic (x :: v)) as (Hi & Hr & _).
  unfold is_handshake. cbn [index lookup list_lookup unwrap_opt mbind res_bind]. eexists. split; [done|].
  unfold parse, MIN_PACKET_SIZE. cbn [index lookup list_lookup unwrap_opt mbind res_bind].
  unfold HANDSHAKE_INITIATION_PACKET_SIZE, HANDSHAKE_RESPONSE_PACKET_SIZE in *.
  destruct (_ <? 4)%nat; repeat case_bool_decide; cbn [andb];
    repeat match goal with |- context [(length ?w =? ?n)%nat] => destruct (Nat.eqb_spec (length w) n) end;
    try done; intros _; (split; [lia|]); try done;
    first [destruct (HandshakeInitiation_try_from _); cbn; congruence
          |destruct (HandshakeResponse_try_from _); cbn; congruence].
Qed.

(** The three reasons for a panic, refuted. *)
Ltac no_panic := by intros [?|[?|(? & ? & [=] & ? & ?)]]; subst; congruence.

(** C19: what an attacker can make the dispatch task do. For every payload from the network
    the task drops it, stages one event, or panics; it panics exactly on an empty payload, on
    a truncated transport header, and on a handshake initiation whose [mac1] (which needs only
    our public key) is right but which does not decrypt. It never sends a cookie reply. *)
Theorem inbound_panics_iff {E} payload :
  (length (mac1_hash cookie) <= 32)%nat ->
  let r := dev_tick_inbound (E := E) clk rnd rl l secret cookie ep send_ok payload in
  (r = Panic <->
     payload = [] \/ parse payload = Panic \/
     exists p er, parse payload = Ok (MsgHandshakeInitiation p) /\
       validate_mac1 (E := E) cookie payload = Ok true /\ IncomingInitiation_parse secret p = Err er) /\
  (r <> Panic -> r = Ok (cookie, Dropped) \/ exists v ev, r = Ok (cookie, Staged v ev)).
Proof.
  intros Hk r. unfold r. destruct (parse payload) as [m|er|] eqn:Hm.
  - pose proof (parse_Ok_encode payload m Hm) as [<- Hwf]. rewrite tick_inbound_message by done.
    assert (encode m <> []) as Hne by (destruct m; fields; done).
    destruct m as [p|p|p|p]; cbn [is_hs_message dispatch mbind res_bind].
    + destruct (validate_mac1_total (E := E) (encode (MsgHandshakeInitiation p)) Hk) as [b Hb].
      { destruct Hwf as (_ & ? & ? & ? & ? & ?). fields. rewrite !length_app. lia. }
      rewrite Hb. cbn [mbind res_bind].
      destruct (initiation_parse_cases secret p Hwf) as [[ii Hii]|Herr].
      * rewrite Hii. destruct b; cbn [unwrap mbind res_bind].
        -- split; [split; [done|no_panic]|]. intros _. destruct (get_by_key _ _); eauto.
        -- split; [split; [done|no_panic]|]. by left.
      * rewrite Herr. destruct b; cbn [unwrap mbind res_bind].
        -- split; [|done]. split; [|done]. intros _. right; right. by eexists _, _.
        -- split; [split; [done|no_panic]|]. by left.
    + destruct (validate_mac1_total (E := E) (encode (MsgHandshakeResponse p)) Hk) as [b ->].
      { destruct Hwf as (_ & _ & ? & ? & ? & ?). fields. rewrite !length_app. lia. }
      cbn [mbind res_bind]. destruct b; (split; [split; [done|no_panic]|]); [|by left].
      intros _. destruct (get_session_by_index _ _) as [[? ?]|]; eauto.
    + split; [split; [done|no_panic]|]. intros _.
      destruct (get_session_by_index _ _) as [[? ?]|]; eauto.
    + split; [split; [done|no_panic]|]. intros _.
      destruct (get_session_by_index _ _) as [[? ?]|]; [|eauto]. destruct (_ <? _); eauto.
  - destruct payload as [|x payload]; [split; [split; [by left|done]|done]|].
    destruct (is_handshake_total (E := E) (x :: payload)) as (b & Hb & Hlen); [done|].
    unfold dev_tick_inbound. rewrite Hb, Hm. cbn [mbind res_bind].
    assert (exists c, (if b then validate_mac1 (E := E) cookie (x :: payload) else Ok true) = Ok c) as [c ->].
    { destruct b; [|by eexists]. apply validate_mac1_total; [done|]. by apply Hlen. }
    cbn [mbind res_bind]. unfold fetch_token. cbn [negb]. rewrite andb_false_r.
    destruct c; cbn [negb]; (split; [split; [done|no_panic]|by left]).
  - destruct payload as [|x payload]; [done|].
    destruct (is_handshake_total (E := E) (x :: payload)) as (b & Hb & Hlen); [done|].
    unfold dev_tick_inbound. rewrite Hb, Hm. cbn [mbind res_bind].
    destruct b; [by destruct (proj2 (Hlen eq_refl))|]. cbn [mbind res_bind negb andb].
    split; [split; [auto|done]|done].
Qed.
End Dispatch.

(** ** A concrete prefix library

    Prefixes as bit strings, the table as a finite map searched for the longest match. *)
Module Prefixes.

Definition bits_of (o : bytes) : list bool :=
  o ≫= fun b => Z.testbit (u8 b) <$> [7; 6; 5; 4; 3; 2; 1; 0].
Definition ip_bits (ip : IpAddr) : bool * list bool :=
  match ip with
  | IpV4 o => (true, bits_of o)
  | IpV6 o => (false, bits_of o)
  end.

(** Family, mask length, the bits under the mask. *)
Definition prefix : Type := bool * Z * list bool.
Definition prefix_contains (n : prefix) (ip : IpAddr) : bool :=
  let '(f, m, bs) := n in
  bool_decide ((ip_bits ip).1 = f /\ take (Z.to_nat m) (ip_bits ip).2 = bs).
Definition truncate (ip : IpAddr) (m : Z) : option prefix :=
  if max_mask_for_ip ip <? m then None
  else Some ((ip_bits ip).1, m, take (Z.to_nat m) (ip_bits ip).2).

(** The entry of [l] with the longest mask among those that contain [ip]. *)
Definition better {T} (ip : IpAddr) (e : prefix * T) (best : option (prefix * T)) : option (prefix * T) :=
  if prefix_contains e.1 ip then
    match best with
    | Some b => if b.1.1.2 <? e.1.1.2 then Some e else best
    | None => Some e
    end
  else best.
Definition search {T} (ip : IpAddr) (l : list (prefix * T)) : option (prefix * T) :=
  foldr (better ip) None l.

Lemma search_spec {T} ip (l : list (prefix * T)) :
  match search ip l with
  | Some e => e ∈ l /\ prefix_contains e.1 ip = true /\
      forall e', e' ∈ l -> prefix_contains e'.1 ip = true -> e'.1.1.2 <= e.1.1.2
  | None => forall e, e ∈ l -> prefix_contains e.1 ip = false
  end.
Proof.
  induction l as [|x l IH]; cbn [search foldr]; [intros e Hin; set_solver|]. fold (search ip l).
  unfold better at 1. destruct (prefix_contains x.1 ip) eqn:Hx.
  - destruct (search ip l) as [b|].
    + destruct IH as (Hb & Hc & Hmax). destruct (Z.ltb_spec b.1.1.2 x.1.1.2).
      * split; [set_solver|]. split; [done|]. intros e' [->|He']%elem_of_cons Hc'; [lia|].
        specialize (Hmax e' He' Hc'). lia.
      * split; [set_solver|]. split; [done|]. intros e' [->|He']%elem_of_cons Hc'; [lia|eauto].
    + split; [set_solver|]. split; [done|]. intros e' [->|He']%elem_of_cons Hc'; [lia|].
      rewrite (IH e' He') in Hc'. done.
  - destruct (search ip l) as [b|].
    + destruct IH as (Hb & Hc & Hmax). split; [set_solver|]. split; [done|].
      intros e' [->|He']%elem_of_cons Hc'; [congruence|eauto].
    + intros e [->|He]%elem_of_cons; eauto.
Qed.

#[export] Instance lib : IpNetworkLib := {|
  IpNetwork := prefix;
  new_truncate := truncate;
  netmask n := n.1.2;
  contains := prefix_contains;
  IpNetworkTable T := gmap prefix T;
  table_new T := ∅;
  table_insert T n v t := <[n := v]> t;
  table_remove T n t := delete n t;
  longest_match T t ip := search ip (map_to_list t);
  table_entries T t := t;
|}.

#[export] Instance laws : IpNetworkLaws.
Proof.
  split; cbn; try done.
  - intros ip m Hm. unfold truncate. destruct (Z.ltb_spec (max_mask_for_ip ip) m); [done|].
    split; [done|]. split; [done|]. cbn. by apply bool_decide_eq_true.
  - intros T t ip. pose proof (search_spec ip (map_to_list t)) as Hs.
    destruct (search ip (map_to_list t)) as [[n v]|].
    + destruct Hs as (Hin & Hc & Hmax). split; [by apply elem_of_map_to_list|]. split; [done|].
      intros n' v' Hn' Hc'. apply (Hmax (n', v')); [by apply elem_of_map_to_list|done].
    + intros n v Hn. apply (Hs (n, v)). by apply elem_of_map_to_list.
Qed.
End Prefixes.

Section Witnesses.
#[local] Existing Instance Toy.prims.
#[local] Existing Instance Toy.laws.
#[local] Existing Instance Prefixes.lib.
#[local] Existing Instance Prefixes.laws.

Definition toy_settings : Settings := Settings_new (key_of x11) 0.
Definition toy_net (o : bytes) (m : Z) : gset Cidr :=
  match new_truncate (IpV4 o) m with Some n => {[n]} | None => ∅ end.
Definition toy_cfg (k : byte) (o : bytes) (m : Z) : PeerConfig :=
  mkPeerConfig [k] (toy_net o m) None None false true false None "".
(** 10.0.0.0/8 and 10.2.0.0/16 belong to different peers. *)
Definition toy_list : PeerList :=
  reset_peers 0 toy_settings (PeerList_new 7)
    [toy_cfg x01 [x0a; x00; x00; x00] 8; toy_cfg x02 [x0a; x02; x00; x00] 16].
Definition toy_ipv4 (d : bytes) : bytes := x45 :: replicate 15 x00 ++ d.

Lemma outbound_longest_prefix_witness :
  let own := [x0a; x02; x00; x01] in
  dev_tick_outbound (E := unit) false own toy_list (toy_ipv4 [x0a; x02; x03; x04]) = Ok (RoutedTo 1%nat) /\
  dev_tick_outbound (E := unit) true own toy_list (toy_ipv4 [x0a; x03; x03; x04]) = Ok (RoutedTo 0%nat) /\
  dev_tick_outbound (E := unit) true own toy_list (toy_ipv4 own) = Ok (WrittenBack (toy_ipv4 own)) /\
  dev_tick_outbound (E := unit) false own toy_list (toy_ipv4 own) = Ok (RoutedTo 1%nat) /\
  forall k e n, pl_peers toy_list !! k = Some e -> n ∈ pe_allowed_ips e ->
    contains n (IpV4 [x0b; x00; x00; x01]) = false.
Proof.
  intros own. do 4 (split; [vm_compute; reflexivity|]).
  assert (configured toy_settings toy_list) as Hc by (apply conf_reset; apply conf_new).
  exact (proj2 (outbound_longest_prefix (E := unit) true own toy_settings toy_list
    (toy_ipv4 [x0b; x00; x00; x01]) _ Hc eq_refl)).
Defined.

Definition toy_ip_from_str (s : list Ascii.ascii) : option IpAddr :=
  if (length s =? 1)%nat then Some (IpV4 [x0a; x02; x03; x04]) else None.
Lemma cidr_from_str_spec_witness :
  let s := String.list_ascii_of_string "a/33" in
  split_once slash s = Some (String.list_ascii_of_string "a", String.list_ascii_of_string "33") /\
  Cidr_from_str toy_ip_from_str s = Err InvalidMask.
Proof.
  split; [reflexivity|].
  destruct (cidr_from_str_spec toy_ip_from_str (String.list_ascii_of_string "a/33")) as [[_ H]|[[_ H] _]].
  - exact H.
  - exfalso. revert H. vm_compute. auto.
Defined.

Lemma inbound_panics_iff_witness :
  dev_tick_inbound (E := unit) 0 ([], []) (RateLimiter_new 0 65535) toy_list (local toy_R)
    (Cookie_new (local toy_R)) (toy_ep x09) true [x04; x00; x00; x00] = Panic.
Proof.
  apply (inbound_panics_iff (E := unit) toy_list (local toy_R) (Cookie_new (local toy_R))
    (RateLimiter_new 0 65535) 0 ([], []) (toy_ep x09) true [x04; x00; x00; x00]).
  - vm_compute. lia.
  - right; left. reflexivity.
Defined.
End Witnesses.
