(* ===== verification/Tunnel.v ===== *)
(** * Two devices set up a tunnel

    The pieces of the device put together, from the initiator's timer to the first packet the
    responder opens: [loop_handshake], the dispatch of the three packets by [tick_inbound] of
    device/handle.rs, the handlers of peer/inbound.rs and the outbound task, on two devices
    that have each other as peers. *)

From S2P Require Import Prelude Bytes NonceFilter Protocol Crypto Clock Noise Session PeerHandshake Monitor Peer Device.

Section Tunnel.
Context `{IpNetworkLib, CryptoLaws}.

(** A device's peer list with the session index as its tasks left it. *)
Definition with_index (l : PeerList) (i : SessionIndex) : PeerList :=
  mkPeerList i (pl_ips l) (pl_peers l) (pl_store l) (pl_fresh l).

(** What the dispatch task of the device that owns [sec] makes of a packet. *)
Definition recv (clk : Z) (rnd : bytes * bytes) (rl : RateLimiter) (l : PeerList) (st : St)
    (sec : PeerStaticSecret) (ep : Endpoint) (payload : bytes) : res unit Dispatch :=
  snd <$> dev_tick_inbound clk rnd rl (with_index l (st_index st)) (local sec)
    (Cookie_new (local sec)) ep true payload.

(** The state of a peer (named [v] in the list) that talks with the keys of [sec]. *)
Record linked (l : PeerList) (v : nat) (st : St) (sec : PeerStaticSecret) : Prop := mkLinked {
  lk_key : get_by_key l (peer_public sec) = Some v;
  lk_pub : pub_key (st_peer st) = peer_public sec;
  lk_hs : exists s, handshake (st_peer st) = mkHandshake s sec (MacGenerator_new sec);
  lk_idx : idx_ok (st_index st);
  lk_rep : rep (peer_public sec) (indexes (st_index st)) (sessions (st_peer st));
  lk_u32 : index_ok (st_index st);
  lk_free : indexes (st_index st) !! si_index (st_index st) = None;
}.

Context (clk : Z) (rnd : bytes * bytes) (rl : RateLimiter).

(** Dispatch of a handshake message made for us. *)
Lemma recv_initiation l st s ep c p pk ii v :
  ends_with_macs (MacGenerator_new s) c p -> parse p = Ok (MsgHandshakeInitiation pk) ->
  forall sec, local_public (local sec) = peer_public s ->
  IncomingInitiation_parse (local sec) pk = Ok ii -> get_by_key l (ii_static_public_key ii) = Some v ->
  recv clk rnd rl l st sec ep p = Ok (Staged v (EvHandshakeInitiation ep ii)).
Proof.
  intros Hmac Hp sec Hpub Hii Hv. destruct (parse_Ok_encode _ _ Hp) as [<- Hwf].
  unfold recv. rewrite tick_inbound_message by done. cbn [is_hs_message].
  rewrite (mac1_validates s (local sec) c) by done. cbn [mbind res_bind dispatch]. rewrite Hii.
  cbn [unwrap mbind res_bind]. change (get_by_key (with_index l _)) with (get_by_key l). by rewrite Hv.
Qed.
Lemma recv_session l st s sec v : peer_of s = peer_public sec ->
  get_by_key l (peer_public sec) = Some v -> indexes (st_index st) !! sender_index s = Some s ->
  get_session_by_index (with_index l (st_index st)) (sender_index s) = Some (s, v).
Proof.
  intros Hs Hv Hi. unfold get_session_by_index, get_by_index, get_by_key in *. cbn [pl_sessions pl_peers with_index].
  by rewrite Hi, Hs, Hv.
Qed.
Lemma recv_response l st s ep c p pk v sess :
  ends_with_macs (MacGenerator_new s) c p -> parse p = Ok (MsgHandshakeResponse pk) ->
  forall sec, local_public (local sec) = peer_public s ->
  get_session_by_index (with_index l (st_index st)) (hr_receiver_index pk) = Some (sess, v) ->
  recv clk rnd rl l st sec ep p = Ok (Staged v (EvHandshakeResponse ep pk sess)).
Proof.
  intros Hmac Hp sec Hpub Hv. destruct (parse_Ok_encode _ _ Hp) as [<- Hwf].
  unfold recv. rewrite tick_inbound_message by done. cbn [is_hs_message].
  rewrite (mac1_validates s (local sec) c) by done. cbn [mbind res_bind dispatch]. by rewrite Hv.
Qed.
Lemma recv_data l st ep d sec sess v :
  in_u 32 (td_receiver_index d) -> 0 <= td_counter d <= REJECT_AFTER_MESSAGES ->
  get_session_by_index (with_index l (st_index st)) (td_receiver_index d) = Some (sess, v) ->
  recv clk rnd rl l st sec ep (to_bytes d) = Ok (Staged v (EvTransportData ep d sess)).
Proof.
  intros Hi Hc Hv. assert (wf_message (MsgTransportData d)) as Hwf.
  { split; [done|]. unfold in_u, REJECT_AFTER_MESSAGES in *. change (Z.shiftl 1 13) with 8192 in Hc. lia. }
  unfold recv. change (to_bytes d) with (encode (MsgTransportData d)).
  rewrite tick_inbound_message by done. cbn [is_hs_message dispatch mbind res_bind]. rewrite Hv.
  destruct (Z.ltb_spec REJECT_AFTER_MESSAGES (td_counter d)); [lia|]. done.
Qed.

Lemma next_index_indexes i : indexes (next_index i).1 = indexes i.
Proof. done. Qed.

(** The initiator's timer fires: the packet goes out and its session waits under its index. *)
Lemma initiator_sends st sec v l env ep h1 A1 pre p1 :
  linked l v st sec -> endpoint (st_peer st) = Some ep ->
  (can_handshake (env_now env) (monitor (st_peer st))).2 = true ->
  initiate (E := unit) (env_rnd env) (env_sys env) (env_now env) (st_heap st, st_index st)
    (handshake (st_peer st)) = Ok ((h1, (next_index (st_index st)).1), A1, pre, p1) ->
  secret pre = sec -> sender_index pre = si_index (st_index st) ->
  exists st1 w, handshake_tick (E := unit) env st = Ok (st1, [Sent ep p1], w) /\
    st_heap st1 = h1 /\ handshake (st_peer st1) = A1 /\ pub_key (st_peer st1) = peer_public sec /\
    indexes (st_index st1) !! sender_index pre = Some pre /\ uninit (sessions (st_peer st1)) = Some pre /\
    idx_ok (st_index st1) /\ rep (peer_public sec) (indexes (st_index st1)) (sessions (st_peer st1)).
Proof.
  intros [] Hep Hgo Hini Hsec Hidx. unfold handshake_tick.
  destruct (can_handshake _ _) as [m go] eqn:Hcan. cbn [snd] in Hgo. subst go.
  cbn [handshake with_monitor sessions with_hs]. rewrite Hini. cbn [mbind res_bind].
  destruct (prepare_uninit_spec (E := unit) (peer_public sec) (next_index (st_index st)).1
    (sessions (st_peer st)) pre) as (i' & a' & -> & (Hok & Hrep & _) & Hun);
    [done|done|unfold peer_of; by rewrite Hsec|by rewrite next_index_indexes, Hidx|].
  cbn [mbind res_bind]. unfold send_outbound. cbn [endpoint with_sessions with_hs with_monitor]. rewrite Hep.
  eexists _, _. split; [reflexivity|]. cbn. split_and!; try done.
  destruct Hrep as (Hget & _). by apply (Hget Session.Uninit).
Qed.

(** The responder answers: its session waits in [next]. *)
Lemma responder_answers st sec v l env ep ii h1 sB p2 :
  linked l v st sec ->
  respond (env_rnd env) (env_now env) (st_heap st, st_index st) (handshake (st_peer st)) ii
    = Ok ((h1, (next_index (st_index st)).1), sB, p2) ->
  secret sB = sec -> sender_index sB = si_index (st_index st) ->
  exists st1, peer_tick_inbound (E := unit) env true st (EvHandshakeInitiation ep ii)
      = Ok (st1, [Sent ep p2]) /\
    st_heap st1 = h1 /\ indexes (st_index st1) !! sender_index sB = Some sB /\
    next (sessions (st_peer st1)) = Some sB /\ pub_key (st_peer st1) = peer_public sec /\
    idx_ok (st_index st1) /\ rep (peer_public sec) (indexes (st_index st1)) (sessions (st_peer st1)).
Proof.
  intros [] Hres Hsec Hidx. cbn [peer_tick_inbound]. unfold handle_handshake_initiation.
  cbn [handshake traffic_in with_monitor sessions]. rewrite Hres.
  destruct (prepare_next_spec (E := unit) (peer_public sec) (next_index (st_index st)).1
    (sessions (st_peer st)) sB) as (i' & a' & -> & (Hok & Hrep & _) & Hnx & _);
    [done|done|unfold peer_of; by rewrite Hsec|by rewrite next_index_indexes, Hidx|].
  eexists. split; [reflexivity|]. cbn. split_and!; try done.
  destruct Hrep as (Hget & _). by apply (Hget Next).
Qed.

(** The initiator reads the response: its session becomes current, the peer is told. *)
Lemma initiator_completes st1 sec env ep pk2 sess h2 sA pre :
  idx_ok (st_index st1) -> rep (peer_public sec) (indexes (st_index st1)) (sessions (st_peer st1)) ->
  pub_key (st_peer st1) = peer_public sec -> uninit (sessions (st_peer st1)) = Some pre ->
  finalize (env_now env) (st_heap st1) (handshake (st_peer st1)) pk2 = Ok (h2, sA) ->
  secret sA = sec -> sender_index pre = sender_index sA -> 0 <= env_sys env ->
  exists st2, peer_tick_inbound (E := unit) env true st1 (EvHandshakeResponse ep pk2 sess)
      = Ok (st2, [Publish (HandshakeComplete (peer_public sec) (protocol ep)); StageOutbound []]) /\
    st_heap st2 = h2 /\ current (sessions (st_peer st2)) = Some sA /\ endpoint (st_peer st2) = Some ep /\
    idx_ok (st_index st2) /\ rep (peer_public sec) (indexes (st_index st2)) (sessions (st_peer st2)).
Proof.
  intros Hidx Hrep Hpub Hun Hfin Hsec Hsi Hsys. cbn [peer_tick_inbound]. unfold handle_handshake_response.
  cbn [handshake traffic_in with_monitor sessions]. rewrite Hfin.
  destruct (complete_uninit_spec (E := unit) (peer_public sec) (st_index st1) (sessions (st_peer st1)) sA)
    as (i' & a' & ok & -> & (Hi' & Hr' & _) & Hok & Hcur); [done|done|unfold peer_of; by rewrite Hsec|].
  assert (ok = true) as ->. { rewrite Hok, Hun. cbn. by apply Z.eqb_eq. }
  destruct (Hcur eq_refl) as (Hc & _ & _). cbn [mbind res_bind negb].
  unfold mark_completed, completed, AtomicTimestamp_set_now. destruct (Z.ltb_spec (env_sys env) 0); [lia|].
  cbn [mbind res_bind]. eexists. cbn. rewrite Hpub. split; [reflexivity|]. done.
Qed.

(** ** A session in use

    [live st sec s n m]: the peer talks with the session [s], which it also finds in the index;
    its next packet has counter [n], and every counter it has recorded is below [m]. *)
Record live (st : St) (sec : PeerStaticSecret) (s : Session) (n m : Z) : Prop := mkLive {
  lv_current : current (sessions (st_peer st)) = Some s;
  lv_secret : secret s = sec;
  lv_endpoint : is_Some (endpoint (st_peer st));
  lv_cell : (cell s < length (st_heap st))%nat;
  lv_nonce : sender_nonce (st_heap st !!! cell s) = n;
  lv_filter : exists w, NonceFilter.rep (nonce_filter (st_heap st !!! cell s)) w /\ NonceFilter.hi w <= m;
  lv_idx : idx_ok (st_index st);
  lv_rep : rep (peer_public sec) (indexes (st_index st)) (sessions (st_peer st));
}.

(** What is sealed next goes to the endpoint with that counter. *)
Lemma seals_packet now st sec s t n m data :
  live st sec s n m -> paired s t -> in_u 64 (n + 1) -> Z.of_nat (length data) <= aead_max ->
  exists st' ep d, peer_tick_outbound (E := unit) now st data = Ok (st', [Sent ep (to_bytes d)]) /\
    endpoint (st_peer st) = Some ep /\ endpoint (st_peer st') = Some ep /\ live st' sec s (n + 1) m /\
    td_receiver_index d = sender_index t /\ td_counter d = n /\ decrypt_data t d = Ok data.
Proof.
  intros [Hc Hs [ep Hep] Hl Hn Hw Hi Hr] Hp Hu Hd. unfold peer_tick_outbound. rewrite Hc.
  destruct (data_roundtrip (st_heap st) s t data Hp Hd) as (h' & d & He & Hcnt & Hri & Hdec). rewrite He.
  eexists _, ep, d. unfold send_outbound. rewrite Hep. split; [reflexivity|]. rewrite Hn in Hcnt.
  split_and!; try done. revert He. unfold encrypt_data, next_nonce. intros [= <- _].
  constructor; try done; cbn [st_heap].
  - by rewrite length_insert.
  - rewrite list_lookup_total_insert_eq by done. cbn [sender_nonce]. rewrite Hn. by apply wrap_small.
  - by rewrite list_lookup_total_insert_eq.
Qed.

(** The confirmation arrives: the responder's session becomes current. *)
Lemma responder_confirms st1 sec env ep d sB :
  idx_ok (st_index st1) -> rep (peer_public sec) (indexes (st_index st1)) (sessions (st_peer st1)) ->
  next (sessions (st_peer st1)) = Some sB -> secret sB = sec -> 0 <= env_sys env ->
  (cell sB < length (st_heap st1))%nat -> st_heap st1 !!! cell sB = mkCell 0 NonceFilter.NonceFilter.new ->
  0 <= td_counter d -> decrypt_data sB d = Ok [] ->
  exists st2, peer_tick_inbound (E := unit) env true st1 (EvTransportData ep d sB) = Ok (st2, []) /\
    live st2 sec sB 0 1 /\ endpoint (st_peer st2) = Some ep.
Proof.
  intros Hidx Hrep Hnx Hsec Hsys Hlen Hcell Hcnt Hdec. cbn [peer_tick_inbound]. unfold handle_transport_data.
  cbn [sessions traffic_in with_monitor].
  destruct (complete_next_spec (E := unit) (peer_public sec) (st_index st1) (sessions (st_peer st1)) sB)
    as (i' & a' & ok & -> & (Hi' & Hr' & _) & Hok & Hcur); [done|done|unfold peer_of; by rewrite Hsec|].
  assert (ok = true) as ->. { rewrite Hok, Hnx. cbn. apply Z.eqb_refl. }
  destruct (Hcur eq_refl) as (Hc & _ & Hn). cbn [mbind res_bind].
  unfold mark_completed, completed, AtomicTimestamp_set_now. destruct (Z.ltb_spec (env_sys env) 0); [lia|].
  cbn [mbind res_bind]. unfold Session_can_accept. rewrite Hcell. cbn [nonce_filter].
  unfold NonceFilter.NonceFilter.can_accept. cbn [NonceFilter.NonceFilter.next NonceFilter.NonceFilter.new].
  rewrite (proj2 (Z.leb_le _ _) Hcnt). cbn [mbind res_bind negb]. rewrite Hdec.
  eexists. split; [reflexivity|]. split; [|done]. constructor; try done; cbn [st_heap]; rewrite Hcell; [done|].
  exists NonceFilter.spec_new. split; [apply NonceFilter.rep_new|done].
Qed.

(** A packet in order is written to the tunnel, whatever address it came from. *)
Lemma opens_packet env st sec s ep n m d data :
  live st sec s n m -> 0 <= m <= REJECT_AFTER_MESSAGES -> td_counter d = m ->
  decrypt_data s d = Ok data -> data <> [] ->
  exists st', peer_tick_inbound (E := unit) env true st (EvTransportData ep d s)
      = Ok (st', [TunWrite (cell s) m data]) /\
    live st' sec s n (m + 1) /\ endpoint (st_peer st') = Some ep.
Proof.
  intros [Hc Hsec Hep Hlen Hnn (w & Hw & Hhi) Hidx Hrep] Hn Hcnt Hdec Hne.
  unfold REJECT_AFTER_MESSAGES in Hn. change (Z.shiftl 1 13) with 8192 in Hn.
  assert (NonceFilter.spec_can_accept w m = true) as Hacc.
  { unfold NonceFilter.spec_can_accept. apply orb_true_iff. left. by apply Z.leb_le. }
  destruct (NonceFilter.rep_accept (E := unit) _ w m Hw) as (f' & Hf' & _ & Hr'); [lia|lia|done|].
  assert (same_index (next (sessions (st_peer st))) s = false) as Hnx.
  { destruct (next (sessions (st_peer st))) as [u|] eqn:Hu; [|done]. cbn. apply Z.eqb_neq. intros Heq.
    destruct Hrep as (_ & Hinj & _). by specialize (Hinj Next Current u s Hu Hc Heq). }
  cbn [peer_tick_inbound]. unfold handle_transport_data, complete_next.
  cbn [sessions traffic_in with_monitor]. rewrite Hnx. cbn [mbind res_bind].
  unfold Session_can_accept, NonceFilter.can_accept. rewrite Hcnt, (NonceFilter.rep_next _ _ Hw).
  rewrite (proj2 (Z.leb_le _ _) Hhi). cbn [mbind res_bind negb]. rewrite Hdec.
  destruct data as [|x data]; [done|]. cbn [length Nat.eqb]. unfold aceept. rewrite Hf'. cbn [mbind res_bind].
  eexists. split; [reflexivity|]. split; [|done].
  constructor; try done; cbn [st_heap]; [by rewrite length_insert|..].
  - by rewrite list_lookup_total_insert_eq.
  - rewrite list_lookup_total_insert_eq by done. exists (NonceFilter.spec_accept w m). split; [done|].
    cbn [NonceFilter.spec_accept NonceFilter.hi]. lia.
Qed.

(** ** The exchange that sets a session up *)
Record connected lA vB stA lB vA stB secA secB envA envA2 envB envB2 now epA epA' epB epB'
    (stA3 stB2 : St) (sA sB : Session) : Prop := mkConnected {
  cn_run : exists stA1 w p1 ev1 stB1 p2 ev2 stA2 note p3 ev3,
    handshake_tick (E := unit) envA stA = Ok (stA1, [Sent epB p1], w) /\
    recv clk rnd rl lB stB secB epA p1 = Ok (Staged vA ev1) /\
    peer_tick_inbound (E := unit) envB true stB ev1 = Ok (stB1, [Sent epA p2]) /\
    recv clk rnd rl lA stA1 secA epB' p2 = Ok (Staged vB ev2) /\
    peer_tick_inbound (E := unit) envA2 true stA1 ev2 = Ok (stA2, [Publish note; StageOutbound []]) /\
    peer_tick_outbound (E := unit) now stA2 [] = Ok (stA3, [Sent epB' p3]) /\
    recv clk rnd rl lB stB1 secB epA' p3 = Ok (Staged vA ev3) /\
    peer_tick_inbound (E := unit) envB2 true stB1 ev3 = Ok (stB2, []);
  cn_liveA : live stA3 secA sA 1 0;
  cn_liveB : live stB2 secB sB 0 1;
  cn_endpoints : endpoint (st_peer stA3) = Some epB' /\ endpoint (st_peer stB2) = Some epA';
  cn_paired : paired sA sB /\ paired sB sA;
  cn_index : in_u 32 (sender_index sA) /\ in_u 32 (sender_index sB);
}.

Lemma tunnel_up si sr k lA vB stA lB vA stB envA envA2 envB envB2 now epA epA' epB epB' :
  linked lA vB stA (initiator si sr k) -> linked lB vA stB (responder si sr k) ->
  endpoint (st_peer stA) = Some epB ->
  (can_handshake (env_now envA) (monitor (st_peer stA))).2 = true ->
  clock_ok (env_sys envA) -> 0 <= env_sys envA2 -> 0 <= env_sys envB2 ->
  exists stA3 stB2 sA sB, connected lA vB stA lB vA stB (initiator si sr k) (responder si sr k)
    envA envA2 envB envB2 now epA epA' epB epB' stA3 stB2 sA sB.
Proof.
  intros HA HB Hep Hgo Hclk HsysA HsysB.
  destruct (lk_hs _ _ _ _ HA) as [hsA HhsA]. destruct (lk_hs _ _ _ _ HB) as [hsB HhsB].
  destruct (exchange_sessions si sr k (env_rnd envA) (env_rnd envB) (env_sys envA) (env_now envA)
    (env_now envB) (env_now envA2) (st_heap stA) (st_index stA) (st_heap stB) (st_index stB)
    (MacGenerator_new (initiator si sr k)) (MacGenerator_new (responder si sr k)) hsA hsB
    (lk_u32 _ _ _ _ HA) (lk_u32 _ _ _ _ HB) Hclk (MacGenerator_new_ok _) (MacGenerator_new_ok _))
    as (A1 & pre & sA & sB & p1 & p2 & pk1 & ii & pk2 & hA1 & hA2 & hB1 & X).
  destruct X as [Xini Xp1 Xr1 Xst Xres Xp2 Xix Xfin (Xp & XA & XB) (Sp & SA & SB) [PAB PBA]
    (CA & CB & LA & LB) (M1 & M2)].
  rewrite <- HhsA in Xini. rewrite <- HhsB in Xres.
  destruct (initiator_sends stA _ vB lA envA epB hA1 A1 pre p1 HA Hep Hgo Xini Sp Xp)
    as (stA1 & w & T1 & Hh1 & HA1 & Hpub1 & Hreg1 & Hun1 & Hid1 & Hrep1).
  destruct (responder_answers stB _ vA lB envB epA ii hB1 sB p2 HB Xres SB XB)
    as (stB1 & T2 & HhB & HregB & HnxB & HpubB & HidB & HrepB).
  rewrite <- Hh1, <- HA1 in Xfin.
  destruct (initiator_completes stA1 _ envA2 epB' pk2 pre hA2 sA pre Hid1 Hrep1 Hpub1 Hun1 Xfin SA)
    as (stA2 & T3 & HhA2 & HcurA & HepA & HidA & HrepA); [congruence|done|].
  destruct (seals_packet now stA2 (initiator si sr k) sA sB 0 0 [])
    as (stA3 & ep & d & T4 & Hep2 & Hep3 & HlA & Hdi & Hdc & Hdec); [|done|done|apply aead_max_small; cbn; lia|].
  { constructor; rewrite ?HhA2, ?CA; try done.
    exists NonceFilter.spec_new. split; [apply NonceFilter.rep_new|done]. }
  rewrite HepA in Hep2. injection Hep2 as <-.
  destruct (responder_confirms stB1 _ envB2 epA' d sB HidB HrepB HnxB SB HsysB) as (stB2 & T5 & HlB & HepB2);
    [by rewrite HhB|by rewrite HhB|by rewrite Hdc|done|].
  assert (in_u 32 (sender_index sB)) as HuB by (rewrite XB; apply (lk_u32 _ _ _ _ HB)).
  assert (in_u 32 (sender_index sA)) as HuA by (rewrite XA; apply (lk_u32 _ _ _ _ HA)).
  exists stA3, stB2, sA, sB. constructor; [|done..].
  exists stA1, w, p1, (EvHandshakeInitiation epA ii), stB1, p2, (EvHandshakeResponse epB' pk2 pre), stA2,
    (HandshakeComplete (peer_public (initiator si sr k)) (protocol epB')), (to_bytes d), (EvTransportData epA' d sB).
  split_and!; try done.
  - eapply recv_initiation; [exact M1|exact Xp1|done|exact Xr1|]. rewrite Xst. apply (lk_key _ _ _ _ HB).
  - eapply recv_response; [exact M2|exact Xp2|done|]. rewrite Xix, <- Xp.
    eapply recv_session; [unfold peer_of; by rewrite Sp|apply (lk_key _ _ _ _ HA)|done].
  - apply recv_data; [by rewrite Hdi|rewrite Hdc; vm_compute; split; congruence|].
    rewrite Hdi. eapply recv_session; [unfold peer_of; by rewrite SB|apply (lk_key _ _ _ _ HB)|done].
Qed.

(** ** Packets through the session, both ways

    One packet from the sender's outbound channel: sealed and sent, dispatched by the receiver
    as coming from [hop_from], handled by the task of the peer it is staged to (which is the
    one whose state this is, or nothing happens). *)
Record Hop := mkHop { hop_now : Z; hop_from : Endpoint; hop_env : Env }.
Record Side := mkSide { sd_list : PeerList; sd_name : nat; sd_secret : PeerStaticSecret }.

Definition pass (to : Side) (h : Hop) (stA stB : St) (buf : bytes) : res unit (St * St * list Effect) :=
  '(stA, eff) ← peer_tick_outbound (hop_now h) stA buf;
  match eff with
  | [Sent _ p] =>
      d ← recv clk rnd rl (sd_list to) stB (sd_secret to) (hop_from h) p;
      match d with
      | Staged v ev =>
          if decide (v = sd_name to) then
            '(stB, eff) ← peer_tick_inbound (hop_env h) true stB ev; Ok (stA, stB, eff)
          else Ok (stA, stB, [])
      | _ => Ok (stA, stB, [])
      end
  | _ => Ok (stA, stB, [])
  end.
(** A conversation: [true] marks a packet of [a]'s tunnel, [false] one of [b]'s. The effects
    of the receiving tasks are kept, of [a] and of [b]. *)
Fixpoint talk (a b : Side) (ps : list (bool * (Hop * bytes))) (stA stB : St)
    : res unit (St * St * list Effect * list Effect) :=
  match ps with
  | [] => Ok (stA, stB, [], [])
  | (true, (h, buf)) :: ps =>
      '(stA, stB, eff) ← pass b h stA stB buf;
      '(stA, stB, effA, effB) ← talk a b ps stA stB;
      Ok (stA, stB, effA, eff ++ effB)
  | (false, (h, buf)) :: ps =>
      '(stB, stA, eff) ← pass a h stB stA buf;
      '(stA, stB, effA, effB) ← talk a b ps stA stB;
      Ok (stA, stB, eff ++ effA, effB)
  end.
(** What is written to a tunnel, in order, and nothing else. *)
Definition writes (effs : list Effect) (data : list bytes) : Prop :=
  Forall2 (fun e d => exists c n, e = TunWrite c n d) effs data.
(** The packets one side puts in. *)
Definition sent_by (d : bool) (ps : list (bool * (Hop * bytes))) : list bytes :=
  omap (fun p => if Bool.eqb p.1 d then Some p.2.2 else None) ps.
(** Data a tunnel interface yields: not empty, and not too long for the cipher. *)
Definition sendable (buf : bytes) : Prop := buf <> [] /\ Z.of_nat (length buf) <= aead_max.

Lemma pass_delivers to h stA stB secA s t nA mA nB n buf :
  get_by_key (sd_list to) (peer_public (sd_secret to)) = Some (sd_name to) ->
  live stA secA s n mA -> live stB (sd_secret to) t nB n -> paired s t ->
  in_u 32 (sender_index t) -> 0 <= n <= REJECT_AFTER_MESSAGES -> sendable buf -> nA = n + 1 ->
  exists stA' stB', pass to h stA stB buf = Ok (stA', stB', [TunWrite (cell t) n buf]) /\
    live stA' secA s nA mA /\ live stB' (sd_secret to) t nB nA /\
    endpoint (st_peer stA') = endpoint (st_peer stA) /\ endpoint (st_peer stB') = Some (hop_from h).
Proof.
  intros Hv HA HB Hp Hu Hn [Hne Hlen] ->. unfold pass.
  destruct (seals_packet (hop_now h) stA secA s t n mA buf HA Hp)
    as (stA' & ep & d & -> & Hep & Hep' & HA' & Hdi & Hdc & Hdec).
  { unfold in_u, REJECT_AFTER_MESSAGES in *. change (Z.shiftl 1 13) with 8192 in Hn. lia. }
  { done. }
  cbn [mbind res_bind]. pose proof HB as [Hc Hsec _ _ _ _ Hidx Hrep].
  assert (indexes (st_index stB) !! sender_index t = Some t) as Hreg.
  { destruct Hrep as (Hget & _). by apply (Hget Current). }
  rewrite (recv_data (sd_list to) stB (hop_from h) d (sd_secret to) t (sd_name to)); [|by rewrite Hdi|rewrite Hdc; lia|].
  2:{ rewrite Hdi. apply (recv_session _ stB t (sd_secret to)); [unfold peer_of; by rewrite Hsec|done|done]. }
  cbn [mbind res_bind]. rewrite decide_True by done.
  destruct (opens_packet (hop_env h) stB (sd_secret to) t (hop_from h) nB n d buf HB Hn Hdc Hdec Hne)
    as (stB' & -> & HB' & HepB).
  cbn [mbind res_bind]. exists stA', stB'. split_and!; try done. congruence.
Qed.

(** A pair of live sessions. *)
Record pair_live (a b : Side) (stA stB : St) (s t : Session) (n m : Z) : Prop := mkPairLive {
  pr_keyA : get_by_key (sd_list a) (peer_public (sd_secret a)) = Some (sd_name a);
  pr_keyB : get_by_key (sd_list b) (peer_public (sd_secret b)) = Some (sd_name b);
  pr_liveA : live stA (sd_secret a) s n m;
  pr_liveB : live stB (sd_secret b) t m n;
  pr_paired : paired s t /\ paired t s;
  pr_index : in_u 32 (sender_index s) /\ in_u 32 (sender_index t);
  pr_pos : 0 <= n /\ 0 <= m;
}.

Lemma talk_delivers a b s t ps : forall stA stB n m,
  pair_live a b stA stB s t n m -> Z.max n m + Z.of_nat (length ps) <= REJECT_AFTER_MESSAGES ->
  Forall (fun p => sendable p.2.2) ps ->
  exists stA' stB' effA effB n' m', talk a b ps stA stB = Ok (stA', stB', effA, effB) /\
    writes effB (sent_by true ps) /\ writes effA (sent_by false ps) /\ pair_live a b stA' stB' s t n' m'.
Proof.
  induction ps as [|[d [h buf]] ps IH]; intros stA stB n m HP Hmax Hps.
  - exists stA, stB, [], [], n, m. by split_and!; [|constructor..|].
  - apply Forall_cons in Hps as [Hb Hps]. cbn [length talk] in *. pose proof HP as [KA KB HA HB [PAB PBA] [UA UB] [Hn Hm]].
    destruct d; cbn [sent_by omap list_omap Bool.eqb fst snd].
    + destruct (pass_delivers b h stA stB (sd_secret a) s t (n + 1) m m n buf KB HA HB PAB UB) as (stA1 & stB1 & -> & HA1 & HB1 & _);
        [lia|done|done|]. cbn [mbind res_bind].
      destruct (IH stA1 stB1 (n + 1) m) as (stA2 & stB2 & effA & effB & n' & m' & -> & HwB & HwA & HP2);
        [by constructor; auto with lia|lia|done|]. cbn [mbind res_bind].
      exists stA2, stB2, effA, (TunWrite (cell t) n buf :: effB), n', m'. split_and!; try done.
      constructor; [by eexists _, _|done].
    + destruct (pass_delivers a h stB stA (sd_secret b) t s (m + 1) n n m buf KA HB HA PBA UA) as (stB1 & stA1 & -> & HB1 & HA1 & _);
        [lia|done|done|]. cbn [mbind res_bind].
      destruct (IH stA1 stB1 n (m + 1)) as (stA2 & stB2 & effA & effB & n' & m' & -> & HwB & HwA & HP2);
        [by constructor; auto with lia|lia|done|]. cbn [mbind res_bind].
      exists stA2, stB2, (TunWrite (cell s) m buf :: effA), effB, n', m'. split_and!; try done.
      constructor; [by eexists _, _|done].
Qed.

(** C20: the tunnel comes up. Two devices that list each other with the same pre-shared key,
    the initiator knowing an address of the responder and its handshake timer being due,
    whatever other peers and sessions they have: the initiation passes the responder's
    dispatch and is answered, the response passes the initiator's dispatch and completes its
    session, the packet the initiator then sends is opened by the responder and completes its
    session. In the end the current sessions of the two peers are each other's: each seals
    with the key and to the index the other opens with. *)
Theorem devices_connect si sr k lA vB stA lB vA stB envA envA2 envB envB2 now epA epA' epB epB' :
  linked lA vB stA (initiator si sr k) -> linked lB vA stB (responder si sr k) ->
  endpoint (st_peer stA) = Some epB ->
  (can_handshake (env_now envA) (monitor (st_peer stA))).2 = true ->
  clock_ok (env_sys envA) -> 0 <= env_sys envA2 -> 0 <= env_sys envB2 ->
  exists stA1 w p1 ev1 stB1 p2 ev2 stA2 note stA3 p3 ev3 stB2 sA sB,
    handshake_tick (E := unit) envA stA = Ok (stA1, [Sent epB p1], w) /\
    recv clk rnd rl lB stB (responder si sr k) epA p1 = Ok (Staged vA ev1) /\
    peer_tick_inbound (E := unit) envB true stB ev1 = Ok (stB1, [Sent epA p2]) /\
    recv clk rnd rl lA stA1 (initiator si sr k) epB' p2 = Ok (Staged vB ev2) /\
    peer_tick_inbound (E := unit) envA2 true stA1 ev2 = Ok (stA2, [Publish note; StageOutbound []]) /\
    peer_tick_outbound (E := unit) now stA2 [] = Ok (stA3, [Sent epB' p3]) /\
    recv clk rnd rl lB stB1 (responder si sr k) epA' p3 = Ok (Staged vA ev3) /\
    peer_tick_inbound (E := unit) envB2 true stB1 ev3 = Ok (stB2, []) /\
    current (sessions (st_peer stA3)) = Some sA /\ current (sessions (st_peer stB2)) = Some sB /\
    paired sA sB /\ paired sB sA.
Proof.
  intros HA HB Hep Hgo Hclk HsysA HsysB.
  destruct (tunnel_up si sr k lA vB stA lB vA stB envA envA2 envB envB2 now epA epA' epB epB' HA HB Hep Hgo Hclk HsysA HsysB)
    as (stA3 & stB2 & sA & sB & [Hrun HlA HlB _ Hp _]).
  destruct Hrun as (stA1 & w & p1 & ev1 & stB1 & p2 & ev2 & stA2 & note & p3 & ev3 & Hrun).
  destruct_and! Hrun. destruct Hp as [HAB HBA].
  exists stA1, w, p1, ev1, stB1, p2, ev2, stA2, note, stA3, p3, ev3, stB2, sA, sB.
  split_and!; [done..|apply (lv_current _ _ _ _ _ HlA)|apply (lv_current _ _ _ _ _ HlB)|done|done].
Qed.

End Tunnel.

Section Witnesses.
#[local] Existing Instance Toy.prims.
#[local] Existing Instance Toy.laws.
#[local] Existing Instance Prefixes.lib.

(** A fresh device with one peer. *)
Definition toy_dev (sec : PeerStaticSecret) (r : Z) : PeerList :=
  mkPeerList (SessionIndex_new r) table_new {[peer_public sec := mkPeerEntry 0 ∅]} ∅ 1.
Definition toy_st (sec : PeerStaticSecret) (r : Z) (ep : option Endpoint) : St :=
  mkSt [] (SessionIndex_new r) (Peer_new (secs 900) sec ep None true "").
Lemma toy_linked sec r ep : in_u 32 r -> linked (toy_dev sec r) 0 (toy_st sec r ep) sec.
Proof.
  intros Hr. constructor; try done.
  - unfold get_by_key, toy_dev. cbn [pl_peers]. rewrite lookup_singleton_eq. done.
  - by eexists.
  - apply rep_fresh. done.
Qed.

Lemma devices_connect_witness :
  exists stA1 w p1 ev1 stB1 p2,
    handshake_tick (E := unit) toy_env (toy_st toy_I 41 (Some (toy_ep x02))) = Ok (stA1, [Sent (toy_ep x02) p1], w) /\
    recv 0 ([], []) (RateLimiter_new 0 65535) (toy_dev toy_R 87) (toy_st toy_R 87 None) toy_R (toy_ep x01) p1
      = Ok (Staged 0 ev1) /\
    peer_tick_inbound (E := unit) toy_env true (toy_st toy_R 87 None) ev1 = Ok (stB1, [Sent (toy_ep x01) p2]).
Proof.
  destruct (devices_connect 0 ([], []) (RateLimiter_new 0 65535) (key_of x11) (key_of x22) (key_of x33)
    (toy_dev toy_I 41) 0 (toy_st toy_I 41 (Some (toy_ep x02))) (toy_dev toy_R 87) 0 (toy_st toy_R 87 None)
    toy_env toy_env toy_env toy_env 0 (toy_ep x01) (toy_ep x01) (toy_ep x02) (toy_ep x02))
    as (stA1 & w & p1 & ev1 & stB1 & p2 & ev2 & stA2 & note & stA3 & p3 & ev3 & stB2 & sA & sB & H1 & H2 & H3 & _).
  - apply toy_linked. split; vm_compute; congruence.
  - apply toy_linked. split; vm_compute; congruence.
  - reflexivity.
  - vm_compute. reflexivity.
  - split; vm_compute; congruence.
  - vm_compute. congruence.
  - vm_compute. congruence.
  - exists stA1, w, p1, ev1, stB1, p2. split; [exact H1|]. split; [exact H2|exact H3].
Defined.
End Witnesses.
