(* ===== verification/Queues.v ===== *)
(** * The channels between the tasks (vlink-tun/src/device/peer/peers.rs, mod.rs, handler.rs,
    device/handle.rs)

    Every peer has two bounded channels: packets of the tunnel on their way out, and packets
    of the network on their way in. The device's two loops fill them ([stage_outbound],
    [stage_inbound]), the peer's two loops empty them; the peer's loops also stage keepalives
    on the peer's own outbound channel. A sender waits while the channel is full. This file
    models who waits for whom: the handlers of [Peer] and [Device] say what is staged, the
    steps below are the sends and receives. The channels are tokio's: the class [Mpsc]. *)

From S2P Require Import Prelude Bytes NonceFilter Protocol Crypto Clock Noise Session PeerHandshake Monitor Peer Device Channels.

Section Queues.
Context `{Mpsc}.

Definition full {A} (c : chan A) : Prop := (capacity c <= length (contents c))%nat.

(** A peer's channels and what its two loops are waiting to stage on the outbound one.
    [pq_staged] and [pq_done] record what went into that channel and what [tick_outbound] was
    run on. *)
Record PeerQ := mkPeerQ {
  pq_outbound : chan bytes;
  pq_inbound : chan InboundEvent;
  pq_out_task : option bytes;
  pq_in_task : option bytes;
  pq_staged : list bytes;
  pq_done : list bytes;
}.
(** [PeerList::insert]. *)
Definition PeerQ_new : PeerQ := mkPeerQ (channel 32) (channel 32) None None [] [].

(** The peers, and what the device's loops are waiting to stage. *)
Record Tasks := mkTasks {
  q_peers : gmap nat PeerQ;
  q_out : option (nat * bytes);
  q_in : option (nat * InboundEvent);
}.
Definition on_peerq (s : Tasks) (p : nat) (q : PeerQ) : Tasks := mkTasks (<[p := q]> (q_peers s)) (q_out s) (q_in s).

(** [stage_outbound] and [stage_inbound], when there is room. *)
Definition stage_outbound (q : PeerQ) (data : bytes) : option PeerQ :=
  c ← try_send (pq_outbound q) data;
  Some (mkPeerQ c (pq_inbound q) (pq_out_task q) (pq_in_task q) (pq_staged q ++ [data]) (pq_done q)).
Definition stage_inbound (q : PeerQ) (ev : InboundEvent) : option PeerQ :=
  c ← try_send (pq_inbound q) ev;
  Some (mkPeerQ (pq_outbound q) c (pq_out_task q) (pq_in_task q) (pq_staged q) (pq_done q)).
(** The receive of [loop_outbound], with the [tick_outbound] it runs, and of [loop_inbound]. *)
Definition take_outbound (q : PeerQ) : option PeerQ :=
  '(data, c) ← recv (pq_outbound q);
  Some (mkPeerQ c (pq_inbound q) (pq_out_task q) (pq_in_task q) (pq_staged q) (pq_done q ++ [data])).
Definition take_inbound (q : PeerQ) : option (InboundEvent * PeerQ) :=
  '(ev, c) ← recv (pq_inbound q);
  Some (ev, mkPeerQ (pq_outbound q) c (pq_out_task q) (pq_in_task q) (pq_staged q) (pq_done q)).
Definition set_out_task (q : PeerQ) (t : option bytes) : PeerQ :=
  mkPeerQ (pq_outbound q) (pq_inbound q) t (pq_in_task q) (pq_staged q) (pq_done q).
Definition set_in_task (q : PeerQ) (t : option bytes) : PeerQ :=
  mkPeerQ (pq_outbound q) (pq_inbound q) (pq_out_task q) t (pq_staged q) (pq_done q).

(** What a handler stages. *)
Definition staged (eff : list Effect) : option bytes :=
  head (omap (fun e => match e with StageOutbound d => Some d | _ => None end) eff).

Context `{IpNetworkLib, CryptoPrims}.

Inductive tstep : Tasks -> Tasks -> Prop :=
(** device/handle.rs, [tick_outbound]: a packet from the tunnel is routed, then staged. *)
| step_out_route s macos tun_addr l buf p : q_out s = None ->
    dev_tick_outbound (E := unit) macos tun_addr l buf = Ok (RoutedTo p) ->
    tstep s (mkTasks (q_peers s) (Some (p, buf)) (q_in s))
| step_out_stage s p buf q q' : q_out s = Some (p, buf) -> q_peers s !! p = Some q ->
    stage_outbound q buf = Some q' ->
    tstep s (mkTasks (<[p := q']> (q_peers s)) None (q_in s))
(** device/handle.rs, [tick_inbound]. *)
| step_in_dispatch s clk rnd rl l secret cookie cookie' e ok payload p ev : q_in s = None ->
    dev_tick_inbound (E := unit) clk rnd rl l secret cookie e ok payload = Ok (cookie', Staged p ev) ->
    tstep s (mkTasks (q_peers s) (q_out s) (Some (p, ev)))
| step_in_stage s p ev q q' : q_in s = Some (p, ev) -> q_peers s !! p = Some q ->
    stage_inbound q ev = Some q' ->
    tstep s (mkTasks (<[p := q']> (q_peers s)) (q_out s) None)
(** peer/handler.rs, [loop_inbound]: a handler runs, then stages what it has to. *)
| step_peer_in s p q q' ev env ok st st' eff : q_peers s !! p = Some q -> pq_in_task q = None ->
    take_inbound q = Some (ev, q') -> peer_tick_inbound (E := unit) env ok st ev = Ok (st', eff) ->
    tstep s (on_peerq s p (set_in_task q' (staged eff)))
| step_peer_in_stage s p q q' d : q_peers s !! p = Some q -> pq_in_task q = Some d ->
    stage_outbound q d = Some q' -> tstep s (on_peerq s p (set_in_task q' None))
(** peer/handler.rs, [loop_outbound]: the packets, and the keepalive timer. *)
| step_peer_out s p q q' : q_peers s !! p = Some q -> pq_out_task q = None ->
    take_outbound q = Some q' -> tstep s (on_peerq s p q')
| step_keepalive s p q now pr pr' eff : q_peers s !! p = Some q -> pq_out_task q = None ->
    keepalive now pr = (pr', eff) -> tstep s (on_peerq s p (set_out_task q (staged eff)))
| step_keepalive_stage s p q q' d : q_peers s !! p = Some q -> pq_out_task q = Some d ->
    stage_outbound q d = Some q' -> tstep s (on_peerq s p (set_out_task q' None)).

(** The device as it starts, with its configured peers. *)
Definition tasks_start (ps : gset nat) : Tasks := mkTasks (gset_to_gmap PeerQ_new ps) None None.

(** The outbound loop of [p] waits for room in the channel only it empties. *)
Definition wedged (p : nat) (s : Tasks) : Prop :=
  exists q, q_peers s !! p = Some q /\ pq_out_task q <> None /\ full (pq_outbound q).

End Queues.

Section Waiting.
Context `{MpscLaws, IpNetworkLib, CryptoPrims}.

Lemma stage_outbound_full q d : full (pq_outbound q) -> stage_outbound q d = None.
Proof. intros Hf. unfold stage_outbound. by rewrite (proj2 (try_send_full _ _ d) Hf). Qed.
Lemma stage_inbound_full q ev : full (pq_inbound q) -> stage_inbound q ev = None.
Proof. intros Hf. unfold stage_inbound. by rewrite (proj2 (try_send_full _ _ ev) Hf). Qed.

(** What a queue of a wedged peer keeps over steps: its outbound channel, the wait, what was
    handled; the wait of the inbound loop once it has one, and from then a full inbound
    channel. *)
Definition frozen (q q' : PeerQ) : Prop :=
  pq_outbound q' = pq_outbound q /\ pq_out_task q' = pq_out_task q /\ pq_done q' = pq_done q /\
  (pq_in_task q <> None -> pq_in_task q' = pq_in_task q /\
     (full (pq_inbound q) -> pq_inbound q' = pq_inbound q)).

Lemma frozen_refl q : frozen q q.
Proof. by repeat split. Qed.
Lemma frozen_trans q1 q2 q3 : frozen q1 q2 -> frozen q2 q3 -> frozen q1 q3.
Proof.
  intros (A1 & A2 & A3 & A4) (B1 & B2 & B3 & B4). unfold frozen. rewrite B1, B2, B3. do 3 (split; [done|]).
  intros Hne. destruct (A4 Hne) as [A5 A6]. rewrite <- A5 in Hne. destruct (B4 Hne) as [B5 B6].
  split; [congruence|]. intros Hf. rewrite <- (A6 Hf). apply B6. by rewrite (A6 Hf).
Qed.

(** Updating a peer's queue: the wedged peer's own is frozen, the others do not matter. *)
Lemma frozen_insert (m : gmap nat PeerQ) p p' q q1 : m !! p = Some q ->
  (p' = p -> frozen q q1) -> exists q', <[p' := q1]> m !! p = Some q' /\ frozen q q'.
Proof.
  intros Hq Hf. destruct (decide (p' = p)) as [->|Hne].
  - exists q1. rewrite lookup_insert_eq. auto.
  - exists q. rewrite lookup_insert_ne by done. split; [done|apply frozen_refl].
Qed.

(** Peel the binds of a send or a receive. *)
Ltac queue_inv :=
  let Hch := fresh "Hch" in
  match goal with
  | Hs : stage_outbound _ _ = Some _ |- _ => unfold stage_outbound in Hs; apply bind_Some in Hs as (? & Hch & [= <-])
  | Hs : stage_inbound _ _ = Some _ |- _ => unfold stage_inbound in Hs; apply bind_Some in Hs as (? & Hch & [= <-])
  | Hs : take_outbound _ = Some _ |- _ => unfold take_outbound in Hs; apply bind_Some in Hs as ([? ?] & Hch & [= <-])
  | Hs : take_inbound _ = Some _ |- _ => unfold take_inbound in Hs; apply bind_Some in Hs as ([? ?] & Hch & [= <- <-])
  end.

Lemma wedged_step p s s' q : tstep s s' -> q_peers s !! p = Some q -> pq_out_task q <> None -> full (pq_outbound q) ->
  exists q', q_peers s' !! p = Some q' /\ frozen q q' /\
    (forall buf, q_out s = Some (p, buf) -> q_out s' = q_out s) /\
    (forall ev, pq_in_task q <> None -> full (pq_inbound q) -> q_in s = Some (p, ev) -> q_in s' = q_in s).
Proof.
  intros Hs Hq Hout Hfull. assert (forall d, stage_outbound q d = None) as Hno by (intros; by apply stage_outbound_full).
  destruct Hs as [s macos tun l buf p' Ho _|s p' buf q1 q2 Ho Hp Hst|s clk rnd rl l sec c c' e ok pl p' ev Hi _|s p' ev q1 q2 Hi Hp Hst
    |s p' q1 q2 ev env ok st st' eff Hp Hi Ht _|s p' q1 q2 d Hp Hi Hst|s p' q1 q2 Hp Ho Ht|s p' q1 now pr pr' eff Hp Ho _|s p' q1 q2 d Hp Ho Hst];
    cbn [q_peers q_out q_in on_peerq].
  - exists q. split; [done|]. split; [apply frozen_refl|]. split; [congruence|done].
  - destruct (frozen_insert (q_peers s) p p' q q2 Hq) as (q' & Hq' & Hf).
    { intros ->. rewrite Hq in Hp. injection Hp as <-. by rewrite Hno in Hst. }
    exists q'. do 2 (split; [done|]). split; [|done]. intros b Hb. rewrite Ho in Hb. injection Hb as -> ->.
    rewrite Hq in Hp. injection Hp as <-. by rewrite Hno in Hst.
  - exists q. split; [done|]. split; [apply frozen_refl|]. split; [done|congruence].
  - destruct (frozen_insert (q_peers s) p p' q q2 Hq) as (q' & Hq' & Hf).
    { intros ->. rewrite Hq in Hp. injection Hp as <-. split_and!; try (by queue_inv). intros _.
      split; [by queue_inv|]. intros Hfi. by rewrite stage_inbound_full in Hst. }
    exists q'. do 2 (split; [done|]). split; [done|]. intros ev' _ Hfi Hev. rewrite Hi in Hev. injection Hev as -> ->.
    rewrite Hq in Hp. injection Hp as <-. by rewrite stage_inbound_full in Hst.
  - destruct (frozen_insert (q_peers s) p p' q (set_in_task q2 (staged eff)) Hq) as (q' & Hq' & Hf); [|by eauto].
    intros ->. rewrite Hq in Hp. injection Hp as <-. queue_inv. by repeat split.
  - destruct (frozen_insert (q_peers s) p p' q (set_in_task q2 None) Hq) as (q' & Hq' & Hf); [|by eauto].
    intros ->. rewrite Hq in Hp. injection Hp as <-. by rewrite Hno in Hst.
  - destruct (frozen_insert (q_peers s) p p' q q2 Hq) as (q' & Hq' & Hf); [|by eauto]. naive_solver.
  - destruct (frozen_insert (q_peers s) p p' q (set_out_task q1 (staged eff)) Hq) as (q' & Hq' & Hf); [|by eauto]. naive_solver.
  - destruct (frozen_insert (q_peers s) p p' q (set_out_task q2 None) Hq) as (q' & Hq' & Hf); [|by eauto].
    intros ->. rewrite Hq in Hp. injection Hp as <-. by rewrite Hno in Hst.
Qed.

(** C14: a keepalive that comes due while the outbound channel is full stops a peer for good,
    and in time the device. [loop_outbound] is the only reader of the channel and, in
    [keepalive], waits for room in it. From then on, whatever the other tasks do, nothing is
    ever taken from the channel. The device's outbound loop, once it has a packet for this
    peer, waits for ever with it, so packets for every other peer stop; the peer's inbound loop
    waits for ever once it stages anything, and when the inbound channel is full the device's
    inbound loop does too. *)
Theorem full_channel_keepalive_deadlock p s s' q :
  rtc tstep s s' -> q_peers s !! p = Some q -> pq_out_task q <> None -> full (pq_outbound q) ->
  exists q', q_peers s' !! p = Some q' /\ pq_done q' = pq_done q /\
    pq_outbound q' = pq_outbound q /\ pq_out_task q' = pq_out_task q /\
    (forall buf, q_out s = Some (p, buf) -> q_out s' = Some (p, buf)) /\
    (pq_in_task q <> None -> pq_in_task q' = pq_in_task q) /\
    (forall ev, pq_in_task q <> None -> full (pq_inbound q) -> q_in s = Some (p, ev) -> q_in s' = Some (p, ev)).
Proof.
  intros Hs Hq Hout Hfull.
  assert (exists q', q_peers s' !! p = Some q' /\ frozen q q' /\
    (forall buf, q_out s = Some (p, buf) -> q_out s' = Some (p, buf)) /\
    (forall ev, pq_in_task q <> None -> full (pq_inbound q) -> q_in s = Some (p, ev) -> q_in s' = Some (p, ev)))
    as (q' & Hq' & (F1 & F2 & F3 & F4) & Ho & Hi).
  { revert q Hq Hout Hfull. induction Hs as [s|s s1 s2 Hstep _ IH]; intros q Hq Hout Hfull.
    { exists q. split; [done|]. split; [apply frozen_refl|done]. }
    destruct (wedged_step p s s1 q Hstep Hq Hout Hfull) as (q1 & Hq1 & Hf1 & Ho1 & Hi1).
    pose proof Hf1 as (F1 & F2 & F3 & F4). destruct (IH q1 Hq1) as (q2 & Hq2 & Hf2 & Ho2 & Hi2); [congruence..|].
    exists q2. split; [done|]. split; [by eapply frozen_trans|]. split.
    - intros buf Hb. apply Ho2. rewrite <- Hb. by eapply Ho1.
    - intros ev Hne Hfi Hev. destruct (F4 Hne) as [F5 F6]. apply Hi2; [congruence|by rewrite (F6 Hfi)|].
      rewrite <- Hev. by eapply Hi1. }
  exists q'. do 5 (split; [done|]). split; [|done]. intros Hne. by destruct (F4 Hne).
Qed.

(** *** Without it: order and progress *)

(** What was handled and what is waiting is what was staged, in order, within the channel's
    capacity. *)
Definition bounded {A} (c : chan A) : Prop := capacity c = 32%nat /\ (length (contents c) <= 32)%nat.
Definition queue_ok (q : PeerQ) : Prop :=
  pq_staged q = pq_done q ++ contents (pq_outbound q) /\ bounded (pq_outbound q) /\ bounded (pq_inbound q).

Lemma bounded_new {A} : bounded (channel (A := A) 32).
Proof. destruct (channel_empty A 32) as [Hc Hn]. split; [done|]. rewrite Hc. cbn. lia. Qed.
(** A send that is not refused finds room. *)
Lemma bounded_send {A} (c c' : chan A) a : bounded c -> try_send c a = Some c' -> bounded c'.
Proof.
  intros [Hcap Hlen] Hs. pose proof (try_send_Some _ _ _ _ Hs) as [Hc Hn]. split; [congruence|].
  rewrite Hc, length_app. cbn. destruct (decide (capacity c <= length (contents c))%nat) as [Hf|]; [|lia].
  apply (try_send_full _ c a) in Hf. congruence.
Qed.
Lemma bounded_recv {A} (c c' : chan A) a : bounded c -> recv c = Some (a, c') -> bounded c'.
Proof.
  intros [Hcap Hlen] Hr. apply recv_Some in Hr as [Hc Hn]. split; [congruence|]. rewrite Hc in Hlen.
  cbn in Hlen. lia.
Qed.
#[local] Hint Resolve bounded_new bounded_send bounded_recv : core.
Definition queues_ok (s : Tasks) : Prop := map_Forall (fun _ => queue_ok) (q_peers s).

Lemma queue_ok_stage q d q' : queue_ok q -> stage_outbound q d = Some q' -> queue_ok q'.
Proof.
  intros (Q1 & Q2 & Q3) Hs. queue_inv. unfold queue_ok. cbn. split; [|eauto].
  apply try_send_Some in Hch as [-> _]. by rewrite Q1, app_assoc.
Qed.
Lemma queue_ok_take q q' : queue_ok q -> take_outbound q = Some q' -> queue_ok q'.
Proof.
  intros (Q1 & Q2 & Q3) Hs. queue_inv. unfold queue_ok. cbn. split; [|eauto].
  apply recv_Some in Hch as [Hc _]. by rewrite Q1, Hc, <- app_assoc.
Qed.
Lemma queue_ok_stage_in q ev q' : queue_ok q -> stage_inbound q ev = Some q' -> queue_ok q'.
Proof. intros (Q1 & Q2 & Q3) Hs. queue_inv. split; [done|]. split; [done|]. cbn. eauto. Qed.
Lemma queue_ok_take_in q ev q' : queue_ok q -> take_inbound q = Some (ev, q') -> queue_ok q'.
Proof. intros (Q1 & Q2 & Q3) Hs. queue_inv. split; [done|]. split; [done|]. cbn. eauto. Qed.
#[local] Hint Resolve queue_ok_stage queue_ok_take queue_ok_stage_in queue_ok_take_in : core.

Lemma queues_ok_insert (m : gmap nat PeerQ) p q : map_Forall (fun _ => queue_ok) m -> queue_ok q ->
  map_Forall (fun _ => queue_ok) (<[p := q]> m).
Proof. intros. by apply map_Forall_insert_2. Qed.

Lemma queues_ok_step s s' : tstep s s' -> queues_ok s -> queues_ok s'.
Proof.
  unfold queues_ok. intros Hs Hok. destruct Hs; cbn [q_peers on_peerq]; try done; apply queues_ok_insert; eauto;
    match goal with Hp : q_peers _ !! _ = Some _ |- _ => pose proof (Hok _ _ Hp) as Hq end; eauto.
  all: match goal with |- queue_ok (set_in_task ?q _) => change (queue_ok q) | |- queue_ok (set_out_task ?q _) => change (queue_ok q) end; eauto.
Qed.

Lemma queues_ok_start ps : queues_ok (tasks_start ps).
Proof.
  intros p q Hq. apply lookup_gset_to_gmap_Some in Hq as [_ <-]. unfold queue_ok, PeerQ_new. cbn.
  split; [|eauto]. by destruct (channel_empty bytes 32) as [-> _].
Qed.
Lemma queues_ok_reach ps s : rtc tstep (tasks_start ps) s -> queues_ok s.
Proof.
  intros Hr. assert (queues_ok (tasks_start ps)) as Hok by apply queues_ok_start. revert Hok.
  induction Hr; eauto using queues_ok_step.
Qed.

(** A send that is not refused. *)
Lemma stage_outbound_room q d : ~ full (pq_outbound q) -> exists q',
  stage_outbound q d = Some q' /\ pq_out_task q' = pq_out_task q /\ pq_in_task q' = pq_in_task q.
Proof.
  intros Hnf. unfold stage_outbound. destruct (try_send (pq_outbound q) d) as [c|] eqn:Hc; [by eexists|].
  by apply try_send_full in Hc.
Qed.

(** The outbound loop on its own empties its channel, and touches nothing else. *)
Lemma drain p n : forall s q, q_peers s !! p = Some q -> pq_out_task q = None -> length (contents (pq_outbound q)) = n ->
  exists s' q', rtc tstep s s' /\ q_peers s' !! p = Some q' /\ contents (pq_outbound q') = [] /\
    pq_out_task q' = None /\ pq_in_task q' = pq_in_task q /\ q_out s' = q_out s.
Proof.
  induction n as [|n IH]; intros s q Hq Ho Hn.
  - apply nil_length_inv in Hn. exists s, q. by repeat split.
  - destruct (recv (pq_outbound q)) as [[d c]|] eqn:Hr.
    2:{ apply recv_empty in Hr. by rewrite Hr in Hn. }
    pose proof (recv_Some _ _ _ _ Hr) as [Hc _]. rewrite Hc in Hn. injection Hn as Hn.
    set (q1 := mkPeerQ c (pq_inbound q) (pq_out_task q) (pq_in_task q) (pq_staged q) (pq_done q ++ [d])).
    destruct (IH (on_peerq s p q1) q1) as (s' & q' & Hs & Hrest); [apply lookup_insert_eq|done..|].
    exists s', q'. split; [|done]. eapply rtc_l; [|exact Hs]. eapply step_peer_out; [done..|].
    unfold take_outbound. by rewrite Hr.
Qed.

(** An empty channel takes whatever is waiting to be staged. *)
Lemma room_when_empty q : queue_ok q -> contents (pq_outbound q) = [] -> ~ full (pq_outbound q).
Proof. intros (_ & [Hc _] & _) He. unfold full. rewrite Hc, He. cbn. lia. Qed.

Lemma reach_queue ps s p q : rtc tstep (tasks_start ps) s -> q_peers s !! p = Some q -> queue_ok q.
Proof. intros Hr. exact (queues_ok_reach ps s Hr p q). Qed.

Lemma flush_in ps s p q : rtc tstep (tasks_start ps) s -> q_peers s !! p = Some q -> pq_out_task q = None ->
  exists s' q', rtc tstep s s' /\ q_peers s' !! p = Some q' /\ contents (pq_outbound q') = [] /\
    pq_out_task q' = None /\ pq_in_task q' = None /\ q_out s' = q_out s.
Proof.
  intros Hr Hq Ho. destruct (drain p _ s q Hq Ho eq_refl) as (s1 & q1 & Hs1 & Hq1 & Hc1 & Ho1 & Hi1 & Ho2).
  destruct (pq_in_task q1) as [d|] eqn:Hd; [|by exists s1, q1; rewrite <- Ho2].
  assert (rtc tstep (tasks_start ps) s1) as Hr1 by (by etrans).
  destruct (stage_outbound_room q1 d) as (q2 & Hst & Ho3 & _); [by eapply room_when_empty; [eapply reach_queue|]|].
  destruct (drain p _ (on_peerq s1 p (set_in_task q2 None)) (set_in_task q2 None)
    (lookup_insert_eq _ _ _) (eq_trans Ho3 Ho1) eq_refl) as (s2 & q3 & Hs2 & Hq3 & Hc3 & Ho4 & Hi3 & Ho5).
  exists s2, q3. split; [|by rewrite Ho5]. etrans; [exact Hs1|]. eapply rtc_l; [|exact Hs2].
  by eapply step_peer_in_stage.
Qed.

(** C15: order, bound and progress of the outbound channels. In every state the tasks can
    reach, what was handed to [tick_outbound] and what is waiting is exactly what was staged,
    in the order it was staged, and no more than 32 packets wait in either channel of a
    peer. And unless its outbound loop is in the deadlock above, every peer's channel
    can be emptied by the tasks that wait on it alone: everything staged gets handled, and no
    task is left waiting for this channel. *)
Theorem outbound_fifo_progress ps s p q :
  rtc tstep (tasks_start ps) s -> q_peers s !! p = Some q ->
  pq_staged q = pq_done q ++ contents (pq_outbound q) /\
  (length (contents (pq_outbound q)) <= 32)%nat /\ (length (contents (pq_inbound q)) <= 32)%nat /\
  (~ wedged p s -> exists s' q', rtc tstep s s' /\ q_peers s' !! p = Some q' /\
     pq_done q' = pq_staged q' /\ pq_out_task q' = None /\ pq_in_task q' = None /\
     forall buf, q_out s' <> Some (p, buf)).
Proof.
  intros Hr Hq. destruct (reach_queue ps s p q Hr Hq) as (Hfifo & [_ Hout] & [_ Hin]).
  do 3 (split; [done|]). clear Hfifo Hout Hin. intros Hw.
  assert (exists s0 q0, rtc tstep s s0 /\ q_peers s0 !! p = Some q0 /\ pq_out_task q0 = None) as (s0 & q0 & Hs0 & Hq0 & Ho0).
  { destruct (pq_out_task q) as [d|] eqn:Hd; [|by exists s, q].
    destruct (stage_outbound_room q d) as (q1 & Hst & _); [intros Hf; apply Hw; exists q; by rewrite Hd|].
    eexists _, _. split; [apply rtc_once; by eapply step_keepalive_stage|]. split; [apply lookup_insert_eq|done]. }
  assert (rtc tstep (tasks_start ps) s0) as Hr0 by (by etrans).
  destruct (flush_in ps s0 p q0 Hr0 Hq0 Ho0) as (s1 & q1 & Hs1 & Hq1 & Hc1 & Ho1 & Hi1 & Hout1).
  assert (rtc tstep (tasks_start ps) s1) as Hr1 by (by etrans).
  assert (forall s' q', rtc tstep (tasks_start ps) s' -> q_peers s' !! p = Some q' -> contents (pq_outbound q') = [] ->
    pq_done q' = pq_staged q') as Hfin.
  { intros s' q' Hr' Hq' Hc'. destruct (reach_queue ps s' p q' Hr' Hq') as (-> & _). by rewrite Hc', app_nil_r. }
  assert ((exists buf, q_out s1 = Some (p, buf)) \/ forall buf, q_out s1 <> Some (p, buf)) as [[buf Hb]|Hno].
  { destruct (q_out s1) as [[p' b]|]; [|by right]. destruct (decide (p' = p)) as [->|]; [left; by eexists|].
    right. congruence. }
  - destruct (stage_outbound_room q1 buf) as (q2' & Hst & Ho2' & _); [by eapply room_when_empty; [eapply reach_queue|]|].
    destruct (flush_in ps (mkTasks (<[p := q2']> (q_peers s1)) None (q_in s1)) p q2') as (s2 & q2 & Hs2 & Hq2 & Hc2 & Ho2 & Hi2 & Hout2);
      [|apply lookup_insert_eq|by rewrite Ho2'|].
    + etrans; [exact Hr1|]. apply rtc_once. by eapply step_out_stage.
    + exists s2, q2. assert (rtc tstep s1 s2) as Hs12.
      { eapply rtc_l; [|exact Hs2]. by eapply step_out_stage. }
      split; [by do 2 (etrans; [done|])|]. split; [done|]. split; [eapply Hfin; [by etrans|done..]|].
      do 2 (split; [done|]). by rewrite Hout2.
  - exists s1, q1. split; [by etrans|]. split; [done|]. split; [by eapply Hfin|]. by do 2 (split; [done|]).
Qed.
End Waiting.

Section Witnesses.
#[local] Existing Instance Toy.prims.
#[local] Existing Instance Prefixes.lib.
#[local] Existing Instance ListChan.lib.
#[local] Existing Instance ListChan.laws.

Definition toy_buf : bytes := toy_ipv4 [x0a; x03; x00; x01].
Definition toy_q (n : nat) (t : option bytes) : PeerQ :=
  mkPeerQ (32%nat, replicate n toy_buf) (32%nat, []) t None (replicate n toy_buf) [].
Definition toy_tasks (n : nat) (t : option bytes) (o : option (nat * bytes)) : Tasks :=
  mkTasks (<[0%nat := toy_q n t]> (q_peers (tasks_start {[0; 1]}%nat))) o None.

(** The device stages packets for peer 0 while its outbound loop is busy. *)
Lemma toy_fill n : (n <= 32)%nat -> rtc tstep (tasks_start {[0; 1]}%nat) (toy_tasks n None None).
Proof.
  induction n as [|n IH]; intros Hn.
  - unfold toy_tasks. rewrite insert_id; [done|]. by vm_compute.
  - etrans; [apply IH; lia|]. eapply rtc_l; [eapply (step_out_route _ false [] toy_list toy_buf 0); [done|by vm_compute]|].
    apply rtc_once. unfold toy_tasks. cbn [q_peers q_in].
    rewrite <- (insert_insert_eq _ 0%nat (toy_q (S n) None) (toy_q n None)).
    eapply (step_out_stage (mkTasks _ (Some (0%nat, toy_buf)) None)); [done|apply lookup_insert_eq|].
    unfold stage_outbound. cbn. rewrite decide_False by (rewrite length_replicate; lia). cbn.
    unfold toy_q. by rewrite (replicate_S_end n).
Qed.

(** The keepalive of a peer with an interval comes due. *)
Definition toy_keep : Peer := Peer_new (secs 0) toy_I None (Some (secs 25)) true "10.0.0.2".
Lemma toy_wedge : rtc tstep (tasks_start {[0; 1]}%nat) (toy_tasks 32 (Some []) None).
Proof.
  etrans; [by apply (toy_fill 32)|]. apply rtc_once.
  unfold toy_tasks. rewrite <- (insert_insert_eq _ 0%nat (toy_q 32 (Some [])) (toy_q 32 None)).
  change (toy_q 32 (Some [])) with (set_out_task (toy_q 32 None) (staged (keepalive (secs 1000) toy_keep).2)).
  eapply (step_keepalive (toy_tasks 32 None None) 0 (toy_q 32 None) (secs 1000) toy_keep _ (keepalive (secs 1000) toy_keep).2); [apply lookup_insert_eq|done|]. apply surjective_pairing.
Qed.

Lemma full_channel_keepalive_deadlock_witness :
  rtc tstep (tasks_start {[0; 1]}%nat) (toy_tasks 32 (Some []) None) /\
  forall s', rtc tstep (toy_tasks 32 (Some []) (Some (0%nat, toy_buf))) s' -> q_out s' = Some (0%nat, toy_buf).
Proof.
  split; [exact toy_wedge|]. intros s' Hs.
  destruct (full_channel_keepalive_deadlock (H := ListChan.lib) 0 (toy_tasks 32 (Some []) (Some (0%nat, toy_buf))) s'
    (toy_q 32 (Some [])) Hs) as (q' & _ & _ & _ & _ & Ho & _); [apply lookup_insert_eq|done|by vm_compute; lia|].
  by apply Ho.
Defined.

Lemma outbound_fifo_progress_witness : exists s' q', rtc tstep (toy_tasks 20 None None) s' /\
  q_peers s' !! 0%nat = Some q' /\ pq_done q' = pq_staged q'.
Proof.
  destruct (outbound_fifo_progress (H := ListChan.lib) {[0; 1]}%nat (toy_tasks 20 None None) 0 (toy_q 20 None)) as (_ & _ & _ & Hp).
  - apply toy_fill. lia.
  - apply lookup_insert_eq.
  - destruct Hp as (s' & q' & Hs & Hq & Hd & _).
    + intros (q & Hq & Ho & _). unfold toy_tasks in Hq. cbn [q_peers] in Hq. rewrite lookup_insert_eq in Hq.
      injection Hq as <-. by apply Ho.
    + by exists s', q'.
Defined.
End Witnesses.
