(* ===== verification/Online.v ===== *)
(** * Waiting for a peer to come online (vlink-tun/src/device/peer/mod.rs)

    A peer's online flag is a watch channel; the handshake loop and the relay transport wait
    on it with [await_online]. [Lifecycle] and [Peer] let a task that waits go on exactly when
    the flag is set; this file has the loop itself, interleaved with [set_online], and shows
    that it does that: no wake-up is lost, and none is false. *)

From S2P Require Import Prelude Channels.
#[local] Open Scope nat_scope.

Module Online.
Section Online.
Context `{Watch}.

Record WatchOnline := mkWatchOnline { online_tx : wtx bool; online_rx : wrx bool }.
Definition WatchOnline_new (init : bool) : WatchOnline :=
  let '(tx, rx) := watch_channel init in mkWatchOnline tx rx.
Definition is_online (o : WatchOnline) : bool := wborrow (online_tx o) (online_rx o).
Definition set_online (o : WatchOnline) (val : bool) : WatchOnline := mkWatchOnline (wsend (online_tx o) val) (online_rx o).

(** Where [await_online] is: about to look at the flag, waiting for a change with a receiver of
    its own, woken and about to look, or returned. *)
Inductive Await := Start | Waiting (rx : wrx bool) | Woken (rx : wrx bool) | Back.
Definition await_online (o : WatchOnline) (s : Await) : Await :=
  match s with
  | Start => if is_online o then Back else Waiting (online_rx o)
  | Waiting rx => match changed (online_tx o) rx with Some rx => Woken rx | None => s end
  | Woken rx => if wborrow (online_tx o) rx then Back else Waiting rx
  | Back => Back
  end.
Inductive Ev := SetOnline (val : bool) | Turn.
Definition ev_step (y : WatchOnline * Await) (e : Ev) : WatchOnline * Await :=
  match e with
  | SetOnline val => (set_online y.1 val, y.2)
  | Turn => (y.1, await_online y.1 y.2)
  end.
Definition run (y : WatchOnline * Await) (es : list Ev) : WatchOnline * Await := foldl ev_step y es.
End Online.

Section Proofs.
Context `{WatchLaws}.

(** A receiver that has seen the last value is one that looked at it and found it unset. *)
Definition Inv (y : WatchOnline * Await) : Prop :=
  wseen (online_rx y.1) = 0 /\
  match y.2 with
  | Waiting rx => wseen rx <= wversion (online_tx y.1) /\ (wseen rx = wversion (online_tx y.1) -> is_online y.1 = false)
  | Woken rx => wseen rx <= wversion (online_tx y.1)
  | Start | Back => True
  end.

Lemma Inv_step y e : Inv y -> Inv (ev_step y e).
Proof.
  destruct y as [o s]. intros [Hz Hs]. cbn [fst snd] in *. destruct e as [v|]; cbn [ev_step]; (split; [done|]); cbn [fst snd].
  - cbn [set_online online_tx]. destruct (wsend_spec _ (online_tx o) v) as [-> _]. destruct s; [done| |lia|done].
    destruct Hs. split; lia.
  - destruct s as [|rx|rx|]; cbn [await_online]; [..|done].
    + destruct (is_online o) eqn:Eo; [done|]. split; [lia|done].
    + destruct (changed _ rx) as [rx'|] eqn:Hc; [|done]. apply changed_Some in Hc. lia.
    + unfold is_online. rewrite (wborrow_same _ _ rx (online_rx o)). by destruct (wborrow _ _) eqn:Eo.
Qed.
Lemma await_Inv init es : Inv (run (WatchOnline_new init, Start) es).
Proof.
  induction es as [|e es IH] using rev_ind.
  - unfold WatchOnline_new. destruct (watch_channel_new _ init) as (_ & Hs & _). by destruct (watch_channel init).
  - unfold run in *. rewrite foldl_snoc. by apply Inv_step.
Qed.

(** However [set_online] and the turns of a waiting task interleave: a task sleeps on the
    channel only while the peer is offline, a turn that brings it back finds the peer online,
    and once the peer is online (and stays so) three turns bring it back. *)
Lemma await_online_wakes init es : let '(o, s) := run (WatchOnline_new init, Start) es in
  (forall rx, s = Waiting rx -> changed (online_tx o) rx = None -> is_online o = false) /\
  (forall e, s <> Back -> (ev_step (o, s) e).2 = Back -> is_online o = true) /\
  (is_online o = true -> (run (o, s) [Turn; Turn; Turn]).2 = Back).
Proof.
  pose proof (await_Inv init es) as [_ Hi]. destruct (run _ es) as [o s]. cbn [fst snd] in Hi.
  assert (forall rx, wborrow (online_tx o) rx = is_online o) as Hb by (intros rx; apply wborrow_same). split_and!.
  - intros rx -> Hc%changed_None. by apply Hi.
  - intros [v|] Hs; cbn [ev_step snd]; [done|]. destruct s as [|rx|rx|]; cbn [await_online fst]; rewrite ?Hb; try done.
    + destruct (is_online o); [done|intros [=]].
    + destruct (changed _ rx); intros [=].
    + destruct (is_online o); [done|intros [=]].
  - intros Ho. cbn. destruct s as [|rx|rx|]; cbn [await_online]; rewrite ?Hb, ?Ho; [done| |done|done].
    destruct (changed _ rx) as [rx'|] eqn:Hc; cbn [await_online]; [by rewrite Hb, Ho|].
    exfalso. apply changed_None in Hc. destruct Hi as [_ Hi]. rewrite Hi in Ho by done. done.
Qed.
End Proofs.
End Online.
