(* ===== verification/Lifecycle.v ===== *)
(** * Tasks and their cancellation (vlink-tun/src/device/mod.rs, handle.rs,
    device/peer/mod.rs, peers.rs, handler.rs)

    Who ends the tasks of a peer. Every peer has three loops, each with a token of its own
    below the token of the peer's handle; the list cancels handles when it is cleared, a peer
    cancels its token when it is dropped, and it is dropped when nothing refers to it any
    more, the running loops included. What the loops do with packets is in [Peer] and
    [Queues]; here a loop is where it waits. Tokens are tokio_util's: the class
    [CancelTokens]. *)

From S2P Require Import Prelude Bytes.

(** [tokens] are the tokens made so far, [under ts t u] that [u] is [t] or was derived from it. *)
Class CancelTokens := {
  Token : Type;
  Token_eq_dec :: EqDecision Token;
  Tokens : Type;
  token_new : Tokens -> Tokens * Token;
  child_token : Token -> Tokens -> Tokens * Token;
  cancel : Token -> Tokens -> Tokens;
  is_cancelled : Tokens -> Token -> bool;
  made : Tokens -> Token -> Prop;
  under : Tokens -> Token -> Token -> bool;
}.

Section TokenLaws.
Context `{CancelTokens}.
(** A token was made: it is new, below no older one unless said otherwise, and the others are
    as they were. *)
Record adds (ts ts' : Tokens) (t : Token) : Prop := mkAdds {
  adds_fresh : ~ made ts t;
  adds_made : forall u, made ts' u <-> u = t \/ made ts u;
  adds_cancelled : forall u, made ts u -> is_cancelled ts' u = is_cancelled ts u;
  adds_under : forall a b, made ts a -> made ts b -> under ts' a b = under ts a b;
  adds_above : forall b, made ts b -> under ts' t b = false;
}.
(** [new]: not cancelled and below nothing. [child_token]: cancelled with its parent. *)
Class TokenLaws : Prop := {
  new_adds : forall ts ts' t, token_new ts = (ts', t) -> adds ts ts' t;
  new_token : forall ts ts' t, token_new ts = (ts', t) ->
    is_cancelled ts' t = false /\ forall a, made ts a -> under ts' a t = false;
  child_adds : forall p ts ts' t, made ts p -> child_token p ts = (ts', t) -> adds ts ts' t;
  child_new : forall p ts ts' t, made ts p -> child_token p ts = (ts', t) ->
    is_cancelled ts' t = is_cancelled ts p /\ forall a, made ts a -> under ts' a t = under ts a p;
  under_refl : forall ts t, under ts t t = true;
  cancel_made : forall t ts u, made (cancel t ts) u <-> made ts u;
  cancel_under : forall t ts a b, under (cancel t ts) a b = under ts a b;
  cancel_is : forall t ts u, is_cancelled (cancel t ts) u = is_cancelled ts u || under ts t u;
}.
End TokenLaws.

Module Lifecycle.

Section Life.
Context `{CancelTokens}.

(** [loop_handshake]: before the test of its token, waiting for the peer to be online, about
    to initiate, asleep. The other two loops are at their [select!]. *)
Inductive HandshakeAt := HTop | HOnline | HTry | HSleep | HDone.
Inductive LoopAt := LSelect | LDone.

(** [PeerHandle]: [handles] are the tasks [cancel] waits for. *)
Record PeerHandle := mkPeerHandle { ph_token : Token; ph_handles : list nat }.

(** A peer with its tasks. [lp_refs] counts the other references to it: handlers at work, the
    selectors of vlinkd, events on the bus. [lp_sent] counts initiations. *)
Record LPeer := mkLPeer {
  lp_token : Token;
  lp_handle : PeerHandle;
  lp_online : bool;
  lp_handshake : Token * HandshakeAt;
  lp_inbound : Token * LoopAt;
  lp_outbound : Token * LoopAt;
  lp_refs : nat;
  lp_sent : nat;
}.

(** [lf_index]: the peer list. [lf_spawned]: the cancellations [clear] has spawned and that
    have not run. The device: its token, the token of its peer list and of its UDP task, and
    whether the device, that task and its two loops are there. *)
Record Life := mkLife {
  lf_tokens : Tokens;
  lf_peers : list LPeer;
  lf_index : gmap bytes nat;
  lf_spawned : list PeerHandle;
  lf_device : Token;
  lf_list : Token;
  lf_udp : Token * bool;
  lf_loops : bool;
  lf_alive : bool;
}.

Definition set_tokens (s : Life) (ts : Tokens) : Life :=
  mkLife ts (lf_peers s) (lf_index s) (lf_spawned s) (lf_device s) (lf_list s) (lf_udp s) (lf_loops s) (lf_alive s).
Definition set_peers (s : Life) (ps : list LPeer) : Life :=
  mkLife (lf_tokens s) ps (lf_index s) (lf_spawned s) (lf_device s) (lf_list s) (lf_udp s) (lf_loops s) (lf_alive s).

(** [Device::new] before its peers are configured: the UDP task has a child of the device's
    token, the peer list another, the loops two more that nothing cancels but their parent. *)
Definition Device_life (ts : Tokens) : Life :=
  let '(ts, token) := token_new ts in
  let '(ts, udp) := child_token token ts in
  let '(ts, list) := child_token token ts in
  mkLife ts [] ∅ [] token list (udp, true) true true.

(** [Peer::new] makes a token; [PeerList::insert] takes a child of it for the handle, and
    [PeerHandle::spawn] a child of that for every loop. The handles of the tasks are not kept. *)
Definition spawn_peer (is_online : bool) (ts : Tokens) : Tokens * LPeer :=
  let '(ts, token) := token_new ts in
  let '(ts, handle) := child_token token ts in
  let '(ts, t1) := child_token handle ts in
  let '(ts, t2) := child_token handle ts in
  let '(ts, t3) := child_token handle ts in
  (ts, mkLPeer token (mkPeerHandle handle []) is_online (t1, HTop) (t2, LSelect) (t3, LSelect) 0 0).
Definition life_insert (key : bytes) (is_online : bool) (s : Life) : Life :=
  match lf_index s !! key with
  | Some _ => s
  | None =>
      let '(ts, p) := spawn_peer is_online (lf_tokens s) in
      mkLife ts (lf_peers s ++ [p]) (<[key := length (lf_peers s)]> (lf_index s)) (lf_spawned s)
        (lf_device s) (lf_list s) (lf_udp s) (lf_loops s) (lf_alive s)
  end.

(** [PeerList::clear] spawns the cancellation of every handle it drains. *)
Definition life_clear (s : Life) : Life :=
  mkLife (lf_tokens s) (lf_peers s) ∅
    (lf_spawned s ++ (lp_handle <$> omap (fun n => lf_peers s !! n) (map_to_list (lf_index s)).*2))
    (lf_device s) (lf_list s) (lf_udp s) (lf_loops s) (lf_alive s).
(** [PeerHandle::cancel]: the tokens are cancelled; the tasks that are still running after the
    timeout are aborted, of those whose handles it has. *)
Definition PeerHandle_cancel (running : nat -> bool) (h : PeerHandle) (ts : Tokens) : Tokens * list nat :=
  (cancel (ph_token h) ts, filter (fun t => running t = true) (ph_handles h)).
Definition life_cancel (s : Life) : Life :=
  match lf_spawned s with
  | [] => s
  | h :: hs =>
      let '(ts, _) := PeerHandle_cancel (fun _ => true) h (lf_tokens s) in
      mkLife ts (lf_peers s) (lf_index s) hs (lf_device s) (lf_list s) (lf_udp s) (lf_loops s) (lf_alive s)
  end.

(** [impl Drop for PeerList]: the list's token is cancelled, its entries are dropped: a handle
    has no [Drop]. [impl Drop for DeviceHandle] aborts the two loops. Nothing cancels the
    token of the device. *)
Definition life_drop_list (s : Life) : Life :=
  mkLife (cancel (lf_list s) (lf_tokens s)) (lf_peers s) ∅ (lf_spawned s) (lf_device s) (lf_list s) (lf_udp s) (lf_loops s) (lf_alive s).
Definition life_drop_device (s : Life) : Life :=
  if lf_alive s then
    let s := life_drop_list s in
    mkLife (lf_tokens s) (lf_peers s) (lf_index s) (lf_spawned s) (lf_device s) (lf_list s) (lf_udp s) false false
  else s.

(** The references to a peer; [listed] is whether the peer list has it. *)
Definition hs_running (a : HandshakeAt) : bool := match a with HDone => false | _ => true end.
Definition loop_running (a : LoopAt) : bool := match a with LDone => false | _ => true end.
Definition running (p : LPeer) : bool :=
  hs_running (lp_handshake p).2 || loop_running (lp_inbound p).2 || loop_running (lp_outbound p).2.
Definition listed (s : Life) (n : nat) : bool := existsb (fun m => m =? n)%nat (map_to_list (lf_index s)).*2.
(** [impl Drop for Peer]. *)
Definition life_drop_peer (n : nat) (s : Life) : Life :=
  match lf_peers s !! n with
  | Some p => if running p || listed s n || negb (lp_refs p =? 0)%nat then s else set_tokens s (cancel (lp_token p) (lf_tokens s))
  | None => s
  end.

(** One turn of [loop_handshake]; [can] is [can_handshake] when it gets there. *)
Definition life_handshake (can : bool) (ts : Tokens) (p : LPeer) : LPeer :=
  let '(t, a) := lp_handshake p in
  let '(a, sent) := match a with
    | HTop => (if is_cancelled ts t then HDone else HOnline, lp_sent p)
    | HOnline => (if lp_online p then HTry else HOnline, lp_sent p)
    | HTry => (HSleep, if can then S (lp_sent p) else lp_sent p)
    | HSleep => (HTop, lp_sent p)
    | HDone => (HDone, lp_sent p)
    end in
  mkLPeer (lp_token p) (lp_handle p) (lp_online p) (t, a) (lp_inbound p) (lp_outbound p) (lp_refs p) sent.
(** One turn of a [select!]: [cancelled] is whether it takes the branch of the token, if that
    is ready; else it handles an event or a timer and waits again. *)
Definition select_turn (cancelled : bool) (ts : Tokens) (l : Token * LoopAt) : Token * LoopAt :=
  (l.1, match l.2 with LSelect => if cancelled && is_cancelled ts l.1 then LDone else LSelect | LDone => LDone end).

Inductive LifeEv :=
| EvInsert (key : bytes) (is_online : bool)
| EvClear
| EvCancel
| EvDropDevice
| EvDropPeer (n : nat)
| EvSetOnline (key : bytes) (b : bool)
| EvRef (key : bytes)
| EvUnref (n : nat)
| EvRefOnline (n : nat) (b : bool)
| EvHandshake (n : nat) (can : bool)
| EvInbound (n : nat) (cancelled : bool)
| EvOutbound (n : nat) (cancelled : bool)
| EvUdp (fails : bool).

Definition life_online (b : bool) (p : LPeer) : LPeer :=
  mkLPeer (lp_token p) (lp_handle p) b (lp_handshake p) (lp_inbound p) (lp_outbound p) (lp_refs p) (lp_sent p).
Definition set_refs (r : nat) (p : LPeer) : LPeer :=
  mkLPeer (lp_token p) (lp_handle p) (lp_online p) (lp_handshake p) (lp_inbound p) (lp_outbound p) r (lp_sent p).
Definition set_inbound (l : Token * LoopAt) (p : LPeer) : LPeer :=
  mkLPeer (lp_token p) (lp_handle p) (lp_online p) (lp_handshake p) l (lp_outbound p) (lp_refs p) (lp_sent p).
Definition set_outbound (l : Token * LoopAt) (p : LPeer) : LPeer :=
  mkLPeer (lp_token p) (lp_handle p) (lp_online p) (lp_handshake p) (lp_inbound p) l (lp_refs p) (lp_sent p).
Definition on_peer (n : nat) (f : LPeer -> LPeer) (s : Life) : Life := set_peers s (alter f n (lf_peers s)).

(** A reference is taken through the list and may be used after the peer left it. The UDP
    task ends when its token is cancelled or a receive fails. *)
Definition life_step (s : Life) (ev : LifeEv) : Life :=
  match ev with
  | EvInsert key b => if lf_alive s then life_insert key b s else s
  | EvClear => if lf_alive s then life_clear s else s
  | EvCancel => life_cancel s
  | EvDropDevice => life_drop_device s
  | EvDropPeer n => life_drop_peer n s
  | EvSetOnline key b => match lf_index s !! key with Some n => on_peer n (life_online b) s | None => s end
  | EvRef key => match lf_index s !! key with Some n => on_peer n (fun p => set_refs (S (lp_refs p)) p) s | None => s end
  | EvUnref n => on_peer n (fun p => set_refs (pred (lp_refs p)) p) s
  | EvRefOnline n b => on_peer n (fun p => if (lp_refs p =? 0)%nat then p else life_online b p) s
  | EvHandshake n can => on_peer n (life_handshake can (lf_tokens s)) s
  | EvInbound n c => on_peer n (fun p => set_inbound (select_turn c (lf_tokens s) (lp_inbound p)) p) s
  | EvOutbound n c => on_peer n (fun p => set_outbound (select_turn c (lf_tokens s) (lp_outbound p)) p) s
  | EvUdp fails =>
      mkLife (lf_tokens s) (lf_peers s) (lf_index s) (lf_spawned s) (lf_device s) (lf_list s)
        ((lf_udp s).1, (lf_udp s).2 && negb (fails || is_cancelled (lf_tokens s) (lf_udp s).1)) (lf_loops s) (lf_alive s)
  end.
Definition life_run (s : Life) (evs : list LifeEv) : Life := foldl life_step s evs.

(** ** Whose token is whose *)

(** The tokens of a peer and of its tasks. *)
Definition toks (p : LPeer) : list Token :=
  [lp_token p; ph_token (lp_handle p); (lp_handshake p).1; (lp_inbound p).1; (lp_outbound p).1].
Definition loops (p : LPeer) : list Token := [(lp_handshake p).1; (lp_inbound p).1; (lp_outbound p).1].
(** Every peer has its own tokens, below nothing but themselves, and those of the device are
    none of them. *)
Record owned (ts : Tokens) (tl : list (list Token)) (dev : list Token) : Prop := mkOwned {
  own_made : forall n l t, tl !! n = Some l -> t ∈ l -> made ts t;
  own_under : forall n l t u, tl !! n = Some l -> made ts t -> t ∉ l -> u ∈ l -> under ts t u = false;
  own_disjoint : forall n m l l' t, tl !! n = Some l -> tl !! m = Some l' -> t ∈ l -> t ∈ l' -> n = m;
  dev_made : forall t, t ∈ dev -> made ts t;
  dev_other : forall n l t, tl !! n = Some l -> t ∈ dev -> t ∉ l;
}.
Definition dev_toks (s : Life) : list Token := [lf_device s; lf_list s; (lf_udp s).1].
(** The spawned cancellations are of peers that have left the list, a handle is above its
    loops, and the list names every peer once. *)
Record wf (s : Life) : Prop := mkWf {
  wf_owned : owned (lf_tokens s) (toks <$> lf_peers s) (dev_toks s);
  wf_spawned : forall h, h ∈ lf_spawned s -> exists n p, lf_peers s !! n = Some p /\ lp_handle p = h /\
    forall key, lf_index s !! key <> Some n;
  wf_chain : forall n p t, lf_peers s !! n = Some p -> t ∈ loops p -> under (lf_tokens s) (ph_token (lp_handle p)) t = true;
  wf_index : forall key n, lf_index s !! key = Some n -> (n < length (lf_peers s))%nat;
  wf_inj : forall k1 k2 n, lf_index s !! k1 = Some n -> lf_index s !! k2 = Some n -> k1 = k2;
}.
End Life.

Section Facts.
Context `{TokenLaws}.

Lemma owned_cancel ts tl dev t : owned ts tl dev -> owned (cancel t ts) tl dev.
Proof.
  intros [H1 H2 H3 H4 H5]. split.
  - intros n l u Hl Hu. apply cancel_made. eauto.
  - intros n l a b Hl Ha%cancel_made Hn Hb. rewrite cancel_under. eauto.
  - done.
  - intros u Hu. apply cancel_made. auto.
  - done.
Qed.

(** A chain of children made from fresh tokens. *)
Lemma adds_made_old ts ts' t u : adds ts ts' t -> made ts u -> made ts' u.
Proof. intros Ha Hu. apply (adds_made _ _ _ Ha). auto. Qed.
(** What [adds] keeps, over several tokens: the older ones are as they were, and none of the
    new ones is above them. *)
Record extends (ts ts' : Tokens) (new : list Token) : Prop := mkExtends {
  ext_made : forall u, made ts' u <-> u ∈ new \/ made ts u;
  ext_fresh : forall u, u ∈ new -> ~ made ts u;
  ext_cancelled : forall u, made ts u -> is_cancelled ts' u = is_cancelled ts u;
  ext_under : forall a b, made ts a -> made ts b -> under ts' a b = under ts a b;
  ext_above : forall a b, a ∈ new -> made ts b -> under ts' a b = false;
  ext_below : forall a b, made ts a -> b ∈ new -> under ts' a b = false;
  ext_live : forall u, u ∈ new -> is_cancelled ts' u = false;
}.
Lemma extends_new ts ts' t : token_new ts = (ts', t) -> extends ts ts' [t].
Proof.
  intros Hn. pose proof (new_adds _ _ _ Hn) as [A1 A2 A3 A4 A5]. destruct (new_token _ _ _ Hn) as [B1 B2].
  split.
  - intros u. rewrite A2. set_solver.
  - by intros u ->%list_elem_of_singleton.
  - auto.
  - auto.
  - intros a b ->%list_elem_of_singleton Hb. auto.
  - intros a b Ha ->%list_elem_of_singleton. auto.
  - by intros u ->%list_elem_of_singleton.
Qed.
Lemma extends_child ts ts1 ts' new p t : extends ts ts1 new -> p ∈ new -> child_token p ts1 = (ts', t) ->
  extends ts ts' (t :: new).
Proof.
  intros [E1 E2 E3 E4 E5 E6 E7] Hp Hc. assert (made ts1 p) as Hmp by (apply E1; auto).
  pose proof (child_adds _ _ _ _ Hmp Hc) as [A1 A2 A3 A4 A5]. destruct (child_new _ _ _ _ Hmp Hc) as [B1 B2].
  assert (forall u, made ts u -> made ts1 u) as Hold by (intros; apply E1; auto).
  assert (forall u, u ∈ new -> made ts1 u) as Hnew by (intros; apply E1; auto).
  split.
  - intros u. rewrite A2, E1. set_solver.
  - intros u [->|Hu]%elem_of_cons; [|auto]. intros Hm. apply A1. auto.
  - intros u Hu. rewrite A3 by auto. auto.
  - intros a b Ha Hb. rewrite A4 by auto. auto.
  - intros a b [->|Ha]%elem_of_cons Hb; [auto|]. rewrite A4 by auto. auto.
  - intros a b Ha [->|Hb]%elem_of_cons; [rewrite B2 by auto; auto|]. rewrite A4 by auto. auto.
  - intros u [->|Hu]%elem_of_cons; [rewrite B1; auto|]. rewrite A3 by auto. auto.
Qed.
(** A new peer: five new tokens, none cancelled, the handle's above those of the loops. *)
Lemma spawn_peer_extends b ts ts' p : spawn_peer b ts = (ts', p) ->
  (exists new, extends ts ts' new /\ forall t, t ∈ new <-> t ∈ toks p) /\
  under ts' (ph_token (lp_handle p)) (lp_handshake p).1 = true /\
  under ts' (ph_token (lp_handle p)) (lp_inbound p).1 = true /\
  under ts' (ph_token (lp_handle p)) (lp_outbound p).1 = true /\
  (lp_handshake p).2 = HTop /\ (lp_inbound p).2 = LSelect /\ (lp_outbound p).2 = LSelect.
Proof.
  unfold spawn_peer. destruct (token_new ts) as [ts1 t0] eqn:H1. destruct (child_token t0 ts1) as [ts2 h] eqn:H2.
  destruct (child_token h ts2) as [ts3 t1] eqn:H3. destruct (child_token h ts3) as [ts4 t2] eqn:H4.
  destruct (child_token h ts4) as [ts5 t3] eqn:H5. intros [= <- <-]. cbn.
  pose proof (extends_new _ _ _ H1) as E1.
  pose proof (extends_child _ _ _ _ t0 _ E1 ltac:(set_solver) H2) as E2.
  pose proof (extends_child _ _ _ _ h _ E2 ltac:(set_solver) H3) as E3.
  pose proof (extends_child _ _ _ _ h _ E3 ltac:(set_solver) H4) as E4.
  pose proof (extends_child _ _ _ _ h _ E4 ltac:(set_solver) H5) as E5.
  assert (made ts2 h) as M2 by (apply (ext_made _ _ _ E2); set_solver).
  assert (made ts3 h /\ made ts3 t1) as [M3 M3'] by (split; apply (ext_made _ _ _ E3); set_solver).
  assert (made ts4 h /\ made ts4 t1 /\ made ts4 t2) as (M4 & M4' & M4'') by (split_and!; apply (ext_made _ _ _ E4); set_solver).
  pose proof (child_adds _ _ _ _ M3 H4) as A4. pose proof (child_adds _ _ _ _ M4 H5) as A5.
  destruct (child_new _ _ _ _ M2 H3) as [_ B3]. destruct (child_new _ _ _ _ M3 H4) as [_ B4]. destruct (child_new _ _ _ _ M4 H5) as [_ B5].
  split; [exists [t3; t2; t1; h; t0]; split; [done|]; unfold toks; cbn; set_solver|].
  split; [rewrite (adds_under _ _ _ A5), (adds_under _ _ _ A4), B3 by done; apply under_refl|].
  split; [rewrite (adds_under _ _ _ A5), B4 by done; apply under_refl|].
  split; [rewrite B5 by done; apply under_refl|done].
Qed.

(** Changes to a peer that keep its tokens. *)
Definition same_toks (f : LPeer -> LPeer) : Prop := forall p, toks (f p) = toks p /\ lp_handle (f p) = lp_handle p.
Lemma loops_toks p q : toks p = toks q -> loops p = loops q.
Proof. unfold toks, loops. congruence. Qed.
Lemma toks_alter f n (l : list LPeer) : same_toks f -> toks <$> alter f n l = toks <$> l.
Proof.
  intros Hf. revert n. induction l as [|p l IH]; intros [|n]; try done; cbn.
  - by rewrite (proj1 (Hf p)).
  - f_equal. apply IH.
Qed.
Lemma on_peer_lookup n f s m p : lf_peers (on_peer n f s) !! m = Some p ->
  exists q, lf_peers s !! m = Some q /\ p = if decide (n = m) then f q else q.
Proof.
  cbn. rewrite list_lookup_alter. case_decide; [|eauto]. subst. intros (q & -> & ->)%fmap_Some. eauto.
Qed.
Lemma wf_on_peer n f s : same_toks f -> wf s -> wf (on_peer n f s).
Proof.
  intros Hf [W1 W2 W3 W4 W5]. split.
  - cbn. by rewrite toks_alter.
  - intros h (m & p & Hp & <- & Hi)%W2. exists m. cbn. rewrite list_lookup_alter. case_decide.
    + exists (f p). subst. rewrite Hp. cbn. split; [done|]. split; [apply Hf|done].
    + eauto.
  - intros m p t (q & Hq & ->)%on_peer_lookup Ht. change (lf_tokens (on_peer n f s)) with (lf_tokens s).
    destruct (decide (n = m)); [|by apply (W3 m)]. destruct (Hf q) as [Hq' Hh]. rewrite Hh. apply (W3 m); [done|].
    by rewrite <- (loops_toks _ _ Hq').
  - cbn. intros. rewrite length_alter. eauto.
  - done.
Qed.
(** Cancelling something keeps who owns what. *)
Lemma wf_tokens s t : wf s -> wf (set_tokens s (cancel t (lf_tokens s))).
Proof.
  intros [W1 W2 W3 W4 W5]. split; cbn; try done; [by apply owned_cancel|].
  intros n p u Hp Hu. rewrite cancel_under. eauto.
Qed.
Lemma wf_unlist s sp : wf s ->
  (forall h, h ∈ sp -> exists n p, lf_peers s !! n = Some p /\ lp_handle p = h) ->
  wf (mkLife (lf_tokens s) (lf_peers s) ∅ sp (lf_device s) (lf_list s) (lf_udp s) (lf_loops s) (lf_alive s)).
Proof.
  intros [W1 W2 W3 W4 W5] Hsp. split; cbn; try done.
  intros h Hh. destruct (Hsp h Hh) as (n & p & ? & ?). exists n, p. split; [done|]. split; [done|]. by intros key; rewrite lookup_empty.
Qed.

Lemma wf_insert key b s : wf s -> wf (life_insert key b s).
Proof.
  intros Hw. pose proof Hw as [W1 W2 W3 W4 W5]. unfold life_insert. destruct (lf_index s !! key) eqn:Hk; [done|].
  destruct (spawn_peer b (lf_tokens s)) as [ts p] eqn:Hs.
  destruct (spawn_peer_extends _ _ _ _ Hs) as ((new & E & Hnew) & U1 & U2 & U3 & _).
  destruct W1 as [O1 O2 O3 O4 O5]. destruct E as [E1 E2 E3 E4 E5 E6 E7].
  assert (forall n l, (toks <$> (lf_peers s ++ [p])) !! n = Some l ->
    (toks <$> lf_peers s) !! n = Some l \/ n = length (lf_peers s) /\ l = toks p) as Hlk.
  { intros n l. rewrite fmap_app. intros [?|[? Hn]]%lookup_app_Some; [auto|]. rewrite length_fmap in *. right.
    destruct (n - length (lf_peers s))%nat eqn:Hd; [|by destruct n0]. injection Hn as <-. split; [lia|done]. }
  assert (forall n l t, (toks <$> lf_peers s) !! n = Some l -> t ∈ l -> t ∉ toks p) as Hfresh.
  { intros n l t Hl Ht Hp. apply Hnew in Hp. by apply (E2 t), (O1 n l). }
  split; cbn.
  - split.
    + intros n l t [Hl|[-> ->]]%Hlk Ht; apply E1; [right; eauto|left; by apply Hnew].
    + intros n l t u [Hl|[-> ->]]%Hlk Ht%E1 Hn Hu.
      * assert (made (lf_tokens s) u) by eauto. destruct Ht as [Ht|Ht]; [by apply E5|]. rewrite E4 by done. eauto.
      * apply Hnew in Hu. destruct Ht as [Ht|Ht]; [by apply Hnew in Ht|]. by apply E6.
    + intros n m l l' t [Hl|[-> ->]]%Hlk [Hl'|[-> ->]]%Hlk Ht Ht'; [eauto|by destruct (Hfresh n l t)|by destruct (Hfresh m l' t)|done].
    + intros t Ht. apply E1. right. auto.
    + intros n l t [Hl|[-> ->]]%Hlk Ht; [eauto|]. intros Hp%Hnew. by apply (E2 t), O4.
  - intros h (n & q & Hq & <- & Hi)%W2. exists n, q. split; [by apply lookup_app_l_Some|]. split; [done|].
    intros k. destruct (decide (k = key)) as [->|]; [|by rewrite lookup_insert_ne]. rewrite lookup_insert_eq. intros [= <-].
    apply lookup_lt_Some in Hq. lia.
  - intros n q t [Hq|[? Hq]]%lookup_app_Some Ht.
    + rewrite E4; [eauto|..]; eapply (O1 n (toks q)); try (by rewrite list_lookup_fmap, Hq); unfold loops, toks in *; set_solver.
    + destruct (n - length (lf_peers s))%nat as [|n0]; [|by destruct n0]. injection Hq as <-. unfold loops in Ht. set_solver.
  - intros k n. destruct (decide (k = key)) as [->|]; [rewrite lookup_insert_eq|rewrite lookup_insert_ne by done]; rewrite length_app; cbn.
    + intros [= <-]. lia.
    + intros ?%W4. lia.
  - intros k1 k2 n. destruct (decide (k1 = key)) as [->|], (decide (k2 = key)) as [->|]; rewrite ?lookup_insert_eq, ?lookup_insert_ne by done;
      [done|intros [= <-] ?%W4; lia|intros ?%W4 [= <-]; lia|eauto].
Qed.

Lemma life_online_same b : same_toks (life_online b).
Proof. done. Qed.
Lemma life_handshake_same can ts : same_toks (life_handshake can ts).
Proof. intros p. unfold life_handshake, toks. destruct (lp_handshake p) as [t []]; done. Qed.
Lemma wf_step s ev : wf s -> wf (life_step s ev).
Proof.
  intros Hw. destruct ev as [key b| | | |n|key b|key|n|n b|n can|n c|n c|fails]; cbn [life_step].
  - destruct (lf_alive s); [by apply wf_insert|done].
  - destruct (lf_alive s); [|done]. apply wf_unlist; [done|]. intros h [Hh|Hh]%elem_of_app.
    + destruct (wf_spawned _ Hw h Hh) as (n & p & ? & ? & _). eauto.
    + apply list_elem_of_fmap in Hh as (p & -> & (n & _ & Hp)%list_elem_of_omap). eauto.
  - unfold life_cancel. destruct (lf_spawned s) as [|h hs] eqn:Hsp; [done|]. cbn.
    destruct (wf_tokens s (ph_token h) Hw) as [W1 W2 W3 W4 W5]. split; try done. intros h' Hh. apply W2. cbn. rewrite Hsp. set_solver.
  - unfold life_drop_device. destruct (lf_alive s); [|done].
    assert (wf (life_drop_list s)) as [W1 W2 W3 W4 W5].
    { apply (wf_unlist (set_tokens s (cancel (lf_list s) (lf_tokens s)))); [by apply wf_tokens|].
      intros h Hh. destruct (wf_spawned _ Hw h Hh) as (n & p & ? & ? & _). eauto. }
    by split.
  - unfold life_drop_peer. destruct (lf_peers s !! n); [|done]. destruct (_ || _); [done|]. by apply wf_tokens.
  - destruct (lf_index s !! key); [|done]. by apply wf_on_peer.
  - destruct (lf_index s !! key); [|done]. by apply wf_on_peer.
  - by apply wf_on_peer.
  - apply wf_on_peer; [|done]. intros p. by destruct (lp_refs p =? 0)%nat.
  - apply wf_on_peer; [apply life_handshake_same|done].
  - by apply wf_on_peer.
  - by apply wf_on_peer.
  - destruct Hw. by split.
Qed.

(** ** Peers whose tasks run on *)

(** Nothing of the peer is cancelled or about to be, and its three tasks run. *)
Definition live (n : nat) (s : Life) : Prop :=
  exists p, lf_peers s !! n = Some p /\ (forall t, t ∈ toks p -> is_cancelled (lf_tokens s) t = false) /\
    lp_handle p ∉ lf_spawned s /\
    hs_running (lp_handshake p).2 = true /\ loop_running (lp_inbound p).2 = true /\ loop_running (lp_outbound p).2 = true.
Definition unlisted (n : nat) (s : Life) : Prop := forall key, lf_index s !! key <> Some n.

Lemma toks_lookup s n p : lf_peers s !! n = Some p -> (toks <$> lf_peers s) !! n = Some (toks p).
Proof. intros Hp. by rewrite list_lookup_fmap, Hp. Qed.

(** Cancelling a token of another peer or of the device leaves a peer alone. *)
Lemma cancel_other s n p t u : wf s -> lf_peers s !! n = Some p -> made (lf_tokens s) t -> t ∉ toks p -> u ∈ toks p ->
  is_cancelled (cancel t (lf_tokens s)) u = is_cancelled (lf_tokens s) u.
Proof.
  intros Hw Hp Ht Hn Hu. rewrite cancel_is. rewrite (own_under _ _ _ (wf_owned _ Hw) n (toks p)); [by rewrite orb_false_r|..]; auto using toks_lookup.
Qed.
Lemma other_peer s n m p q t : wf s -> lf_peers s !! n = Some p -> lf_peers s !! m = Some q -> n <> m -> t ∈ toks q -> t ∉ toks p.
Proof.
  intros Hw Hp Hq Hne Ht Hp'. apply Hne. by eapply (own_disjoint _ _ _ (wf_owned _ Hw)); try apply toks_lookup.
Qed.
Lemma live_cancel n s p t ps ix sp dv ls ud lo al : wf s -> lf_peers s !! n = Some p -> made (lf_tokens s) t -> t ∉ toks p ->
  live n s -> ps = lf_peers s -> (forall h, h ∈ sp -> h ∈ lf_spawned s) ->
  live n (mkLife (cancel t (lf_tokens s)) ps ix sp dv ls ud lo al).
Proof.
  intros Hw Hp Ht Hn (p' & Hp' & Hc & Hsp & Hr) -> Hsub. rewrite Hp in Hp'. injection Hp' as <-. exists p. cbn.
  split; [done|]. split; [|split; [set_solver|done]]. intros u Hu. rewrite (cancel_other s n p); auto.
Qed.
(** A turn of a task whose token is not cancelled leaves it running. *)
Lemma live_on_peer n m f s : (forall p, lp_handle (f p) = lp_handle p /\ toks (f p) = toks p) ->
  (forall p, lf_peers s !! n = Some p -> (forall t, t ∈ toks p -> is_cancelled (lf_tokens s) t = false) ->
     hs_running (lp_handshake p).2 = true -> loop_running (lp_inbound p).2 = true -> loop_running (lp_outbound p).2 = true ->
     hs_running (lp_handshake (f p)).2 = true /\ loop_running (lp_inbound (f p)).2 = true /\ loop_running (lp_outbound (f p)).2 = true) ->
  live n s -> live n (on_peer m f s).
Proof.
  intros Hf Hrun (p & Hp & Hc & Hsp & H1 & H2 & H3). unfold live. cbn. rewrite list_lookup_alter. destruct (decide (m = n)) as [->|Hne].
  - exists (f p). rewrite Hp. destruct (Hf p) as [-> ->]. split; [done|]. split; [done|]. split; [done|]. by apply Hrun.
  - exists p. done.
Qed.
Lemma select_turn_live c ts l : is_cancelled ts l.1 = false -> select_turn c ts l = l.
Proof. intros Hl. destruct l as [t []]; unfold select_turn; cbn in *; [|done]. by rewrite Hl, andb_false_r. Qed.

Lemma live_step n s ev : wf s -> live n s -> (ev = EvClear -> unlisted n s) -> live n (life_step s ev).
Proof.
  intros Hw Hl Hev. pose proof Hl as (p & Hp & Hc & Hsp & H1 & H2 & H3).
  destruct ev as [key b| | | |m|key b|key|m|m b|m can|m c|m c|fails]; cbn [life_step].
  - destruct (lf_alive s); [|done]. unfold life_insert. destruct (lf_index s !! key); [done|].
    destruct (spawn_peer b (lf_tokens s)) as [ts q] eqn:Hs. destruct (spawn_peer_extends _ _ _ _ Hs) as ((new & E & _) & _).
    exists p. cbn. split; [by apply lookup_app_l_Some|]. split; [|done]. intros t Ht. rewrite (ext_cancelled _ _ _ E); [auto|].
    by eapply (own_made _ _ _ (wf_owned _ Hw)), Ht; apply toks_lookup.
  - destruct (lf_alive s); [|done]. exists p. cbn. split; [done|]. split; [done|]. split; [|done].
    intros [Hh|Hh]%elem_of_app; [done|]. apply list_elem_of_fmap in Hh as (q & Hh & (m & Hm & Hq)%list_elem_of_omap).
    apply list_elem_of_fmap in Hm as ([key m'] & -> & Hm%elem_of_map_to_list). cbn in Hq. destruct (decide (m' = n)) as [->|Hne].
    + by apply (Hev eq_refl key).
    + eapply (other_peer s n m' p q (ph_token (lp_handle q))); eauto; [set_solver|]. rewrite <- Hh. set_solver.
  - unfold life_cancel. destruct (lf_spawned s) as [|h hs] eqn:Hsh; [done|]. cbn.
    destruct (wf_spawned _ Hw h) as (m & q & Hq & Hh & _); [rewrite Hsh; set_solver|].
    assert (n <> m) as Hne. { intros <-. rewrite Hp in Hq. injection Hq as <-. subst h. apply Hsp. set_solver. }
    eapply (live_cancel n s p); eauto; [|subst h; eapply (other_peer s n m p q); eauto; set_solver|rewrite Hsh; set_solver].
    eapply (own_made _ _ _ (wf_owned _ Hw)); [by apply toks_lookup|]. subst h. set_solver.
  - unfold life_drop_device, life_drop_list. destruct (lf_alive s); [|done]. cbn.
    eapply (live_cancel n s p); eauto.
    + apply (dev_made _ _ _ (wf_owned _ Hw)). unfold dev_toks. set_solver.
    + apply (dev_other _ _ _ (wf_owned _ Hw) n (toks p)); [by apply toks_lookup|]. unfold dev_toks. set_solver.
  - unfold life_drop_peer. destruct (lf_peers s !! m) as [q|] eqn:Hq; [|done]. destruct (_ || _) eqn:Hr; [done|].
    assert (n <> m) as Hne. { intros <-. rewrite Hp in Hq. injection Hq as <-. unfold running in Hr. by rewrite H1 in Hr. }
    eapply (live_cancel n s p); eauto; [|eapply (other_peer s n m p q); eauto; set_solver].
    eapply (own_made _ _ _ (wf_owned _ Hw)); [by apply toks_lookup|]. set_solver.
  - destruct (lf_index s !! key); [|done]. by apply live_on_peer.
  - destruct (lf_index s !! key); [|done]. by apply live_on_peer.
  - by apply live_on_peer.
  - apply live_on_peer; [|intros q _ _; by destruct (lp_refs q =? 0)%nat|done]. intros q. by destruct (lp_refs q =? 0)%nat.
  - apply live_on_peer; [|intros q Hq Hcq; unfold life_handshake|done].
    { intros q. destruct (life_handshake_same can (lf_tokens s) q). done. }
    destruct (lp_handshake q) as [t a] eqn:Hhq. intros Ha ? ?. assert (is_cancelled (lf_tokens s) t = false) as Ht
      by (apply Hcq; unfold toks; rewrite Hhq; set_solver).
    destruct a; cbn; rewrite ?Ht; try done. by destruct (lp_online q).
  - apply live_on_peer; [done|intros q Hq Hcq ???|done]. rewrite select_turn_live; [done|]. apply Hcq. unfold toks. set_solver.
  - apply live_on_peer; [done|intros q Hq Hcq ???|done]. rewrite select_turn_live; [done|]. apply Hcq. unfold toks. set_solver.
  - exists p. done.
Qed.

Lemma life_peers_grow s ev n p : lf_peers s !! n = Some p -> exists q, lf_peers (life_step s ev) !! n = Some q /\ toks q = toks p.
Proof.
  intros Hp. assert (forall m f, same_toks f -> exists q, lf_peers (on_peer m f s) !! n = Some q /\ toks q = toks p) as Hon.
  { intros m f Hf. cbn. rewrite list_lookup_alter. case_decide; [|eauto]. subst m. exists (f p). rewrite Hp. split; [done|apply Hf]. }
  destruct ev as [key b| | | |m|key b|key|m|m b|m can|m c|m c|fails]; cbn [life_step]; try (by apply Hon); eauto.
  - destruct (lf_alive s); [|eauto]. unfold life_insert. destruct (lf_index s !! key); [eauto|].
    destruct (spawn_peer b (lf_tokens s)) as [ts q]. exists p. split; [by apply lookup_app_l_Some|done].
  - destruct (lf_alive s); eauto.
  - unfold life_cancel. destruct (lf_spawned s); eauto.
  - unfold life_drop_device. destruct (lf_alive s); eauto.
  - unfold life_drop_peer. destruct (lf_peers s !! m); [|eauto]. destruct (_ || _); eauto.
  - destruct (lf_index s !! key); [by apply Hon|eauto].
  - destruct (lf_index s !! key); [by apply Hon|eauto].
  - apply Hon. intros q. by destruct (lp_refs q =? 0)%nat.
  - apply Hon, life_handshake_same.
Qed.
(** The list after a step: what it had, but for a clear or a drop, and the peer inserted. *)
Lemma life_index s ev key n : lf_index (life_step s ev) !! key = Some n ->
  lf_index s !! key = Some n \/
  (n = length (lf_peers s) /\ exists b ts p, ev = EvInsert key b /\ spawn_peer b (lf_tokens s) = (ts, p) /\
     lf_peers (life_step s ev) = lf_peers s ++ [p] /\ lf_tokens (life_step s ev) = ts /\ lf_spawned (life_step s ev) = lf_spawned s).
Proof.
  destruct ev as [k b| | | |m|k b|k|m|m b|m can|m c|m c|fails]; cbn [life_step]; try (by left).
  - destruct (lf_alive s); [|by left]. unfold life_insert. destruct (lf_index s !! k) eqn:Hk; [by left|].
    destruct (spawn_peer b (lf_tokens s)) as [ts p] eqn:Hs. cbn. destruct (decide (k = key)) as [->|Hne].
    + rewrite lookup_insert_eq. intros [= <-]. right. split; [done|]. by exists b, ts, p.
    + rewrite lookup_insert_ne by done. by left.
  - destruct (lf_alive s); [|by left]. cbn. by rewrite lookup_empty.
  - unfold life_cancel. destruct (lf_spawned s); by left.
  - unfold life_drop_device. destruct (lf_alive s); [|by left]. cbn. by rewrite lookup_empty.
  - unfold life_drop_peer. destruct (lf_peers s !! m); [|by left]. destruct (_ || _); by left.
  - destruct (lf_index s !! k); by left.
  - destruct (lf_index s !! k); by left.
Qed.
Lemma unlisted_step n s ev : (n < length (lf_peers s))%nat -> unlisted n s -> unlisted n (life_step s ev).
Proof. intros Hn Hu key [Hk|(-> & _)]%life_index; [by apply (Hu key)|lia]. Qed.
Lemma lookup_alive (s : Life) n p : lf_peers s !! n = Some p -> (n < length (lf_peers s))%nat.
Proof. apply lookup_lt_Some. Qed.

(** In every reachable state the tasks of a listed peer run and nothing of it is cancelled. *)
Definition all_live (s : Life) : Prop := forall key n, lf_index s !! key = Some n -> live n s.
Lemma all_live_step s ev : wf s -> all_live s -> all_live (life_step s ev).
Proof.
  intros Hw Ha key n Hk. destruct (life_index s ev key n Hk) as [Hold|(-> & b & ts & p & -> & Hs & Hps & Hts & Hsp)].
  - assert (ev = EvClear \/ ev <> EvClear) as [->|] by (destruct ev; auto; right; congruence).
    + revert Hk. cbn [life_step]. destruct (lf_alive s); [cbn; by rewrite lookup_empty|intros _; by apply (Ha key)].
    + apply live_step; [done|by apply (Ha key)|done].
  - exists p. rewrite Hps, Hts, Hsp. destruct (spawn_peer_extends _ _ _ _ Hs) as ((new & E & Hnew) & _ & _ & _ & H1 & H2 & H3).
    split; [by rewrite lookup_app_r, Nat.sub_diag by done|]. split; [intros t Ht; by apply (ext_live _ _ _ E), Hnew|].
    split; [|by rewrite H1, H2, H3]. intros Hin. destruct (wf_spawned _ Hw _ Hin) as (m & q & Hq & Hh & _).
    assert (made (lf_tokens s) (ph_token (lp_handle p))) as Hm.
    { rewrite <- Hh. eapply (own_made _ _ _ (wf_owned _ Hw)); [by apply toks_lookup|]. set_solver. }
    apply (ext_fresh _ _ _ E) in Hm; [done|]. apply Hnew. set_solver.
Qed.
Lemma Device_life_wf ts : wf (Device_life ts) /\ all_live (Device_life ts).
Proof.
  unfold Device_life. destruct (token_new ts) as [ts1 t0] eqn:H1. destruct (child_token t0 ts1) as [ts2 u] eqn:H2.
  destruct (child_token t0 ts2) as [ts3 l] eqn:H3.
  pose proof (extends_child _ _ _ _ t0 _ (extends_new _ _ _ H1) ltac:(set_solver) H2) as E2.
  pose proof (extends_child _ _ _ _ t0 _ E2 ltac:(set_solver) H3) as E3. split.
  - split; cbn; try done; try (intros *; rewrite lookup_empty; done).
    + split; try done. intros t Ht. apply (ext_made _ _ _ E3). unfold dev_toks in Ht. cbn in Ht. set_solver.
    + intros h Hh. by apply not_elem_of_nil in Hh.
  - intros key n. cbn. by rewrite lookup_empty.
Qed.
Lemma life_run_wf evs : forall s, wf s -> all_live s -> wf (life_run s evs) /\ all_live (life_run s evs).
Proof.
  induction evs as [|ev evs IH]; intros s Hw Ha; [done|]. cbn [life_run foldl]. apply IH; [by apply wf_step|by apply all_live_step].
Qed.
Lemma live_run n evs : forall s, wf s -> live n s -> unlisted n s -> live n (life_run s evs).
Proof.
  induction evs as [|ev evs IH]; intros s Hw Hl Hu; [done|]. cbn [life_run foldl]. apply IH; [by apply wf_step|by apply live_step|].
  destruct Hl as (p & Hp & _). apply unlisted_step; [by eapply lookup_alive|done].
Qed.
Lemma Device_life_run ts evs : wf (life_run (Device_life ts) evs) /\ all_live (life_run (Device_life ts) evs).
Proof. destruct (Device_life_wf ts). by apply life_run_wf. Qed.

(** ** The UDP task *)

(** Only the device's token and its own can end the UDP task, and nothing cancels those. *)
Record udp_live (s : Life) : Prop := mkUdpLive {
  ul_under : forall t, made (lf_tokens s) t -> t <> lf_device s -> t <> (lf_udp s).1 -> under (lf_tokens s) t (lf_udp s).1 = false;
  ul_list : lf_list s <> lf_device s /\ lf_list s <> (lf_udp s).1;
  ul_token : is_cancelled (lf_tokens s) (lf_udp s).1 = false;
}.
Lemma udp_live_cancel s t ps ix sp lo al : wf s -> udp_live s -> made (lf_tokens s) t -> t <> lf_device s -> t <> (lf_udp s).1 ->
  udp_live (mkLife (cancel t (lf_tokens s)) ps ix sp (lf_device s) (lf_list s) (lf_udp s) lo al).
Proof.
  intros Hw [U1 U2 U3] Ht Hd Hu. split; cbn; [|done|].
  - intros u Hm%cancel_made ??. rewrite cancel_under. auto.
  - rewrite cancel_is, U3. cbn. auto.
Qed.
Lemma peer_not_device s n p t : wf s -> lf_peers s !! n = Some p -> t ∈ toks p ->
  made (lf_tokens s) t /\ t <> lf_device s /\ t <> (lf_udp s).1.
Proof.
  intros Hw Hp Ht. pose proof (wf_owned _ Hw) as O. split; [by eapply (own_made _ _ _ O); [apply toks_lookup|]|].
  assert (forall u, u ∈ dev_toks s -> t <> u) as Hne.
  { intros u Hu ->. by eapply (dev_other _ _ _ O n (toks p) u); [apply toks_lookup|..]. }
  unfold dev_toks in Hne. split; apply Hne; set_solver.
Qed.
Lemma udp_live_step s ev : wf s -> udp_live s -> udp_live (life_step s ev) /\ (life_step s ev).(lf_udp).1 = (lf_udp s).1 /\
  (ev <> EvUdp true -> (lf_udp (life_step s ev)).2 = (lf_udp s).2).
Proof.
  intros Hw Hul. pose proof Hul as [U1 U2 U3]. assert (forall m f, udp_live (on_peer m f s)) as Hon by (intros; by split).
  destruct ev as [key b| | | |m|key b|key|m|m b|m can|m c|m c|fails]; cbn [life_step]; try (by split_and!; [apply Hon|..]).
  - destruct (lf_alive s); [|done]. unfold life_insert. destruct (lf_index s !! key); [done|].
    destruct (spawn_peer b (lf_tokens s)) as [ts p] eqn:Hs. split; [|done].
    destruct (spawn_peer_extends _ _ _ _ Hs) as ((new & [E1 E2 E3 E4 E5 E6 E7] & _) & _).
    assert (made (lf_tokens s) (lf_udp s).1) as Hm by (apply (dev_made _ _ _ (wf_owned _ Hw)); unfold dev_toks; set_solver).
    split; cbn; [|done|by rewrite E3]. intros t [Ht|Ht]%E1 ??; [by apply E5|]. rewrite E4 by done. auto.
  - destruct (lf_alive s); [|done]. by split_and!.
  - unfold life_cancel. destruct (lf_spawned s) as [|h hs] eqn:Hsp; [done|]. cbn. split; [|done].
    destruct (wf_spawned _ Hw h) as (n & p & Hp & Hh & _); [rewrite Hsp; set_solver|].
    destruct (peer_not_device s n p (ph_token h) Hw Hp) as (? & ? & ?); [rewrite <- Hh; set_solver|]. by apply udp_live_cancel.
  - unfold life_drop_device. destruct (lf_alive s); [|done]. split; [|done]. cbn. apply udp_live_cancel; try done; [|by apply U2..].
    apply (dev_made _ _ _ (wf_owned _ Hw)). unfold dev_toks. set_solver.
  - unfold life_drop_peer. destruct (lf_peers s !! m) as [p|] eqn:Hp; [|done]. destruct (_ || _); [done|]. split; [|done].
    destruct (peer_not_device s m p (lp_token p) Hw Hp) as (? & ? & ?); [set_solver|]. by apply (udp_live_cancel s).
  - destruct (lf_index s !! key); [|done]. by split_and!; [apply Hon|..].
  - destruct (lf_index s !! key); [|done]. by split_and!; [apply Hon|..].
  - split; [by split|]. split; [done|]. cbn. rewrite U3. destruct fails; [done|]. cbn. by rewrite andb_true_r.
Qed.
Lemma Device_life_udp ts : udp_live (Device_life ts).
Proof.
  unfold Device_life. destruct (token_new ts) as [ts1 t0] eqn:H1. destruct (child_token t0 ts1) as [ts2 u] eqn:H2.
  destruct (child_token t0 ts2) as [ts3 l] eqn:H3. pose proof (extends_new _ _ _ H1) as E1.
  pose proof (extends_child _ _ _ _ t0 _ E1 ltac:(set_solver) H2) as E2.
  pose proof (extends_child _ _ _ _ t0 _ E2 ltac:(set_solver) H3) as E3.
  assert (made ts1 t0) as M1 by (apply (ext_made _ _ _ E1); set_solver).
  assert (made ts2 t0 /\ made ts2 u) as [M2 M2'] by (split; apply (ext_made _ _ _ E2); set_solver).
  pose proof (child_adds _ _ _ _ M1 H2) as A2. pose proof (child_adds _ _ _ _ M2 H3) as A3.
  destruct (child_new _ _ _ _ M1 H2) as [_ B2].
  assert (l <> t0 /\ l <> u) as Hne by (split; intros ->; by apply (adds_fresh _ _ _ A3)).
  split; cbn; [|done|apply (ext_live _ _ _ E3); set_solver].
  intros t [->|Ht]%(adds_made _ _ _ A3) Hd Hu; [by apply (adds_above _ _ _ A3)|]. rewrite (adds_under _ _ _ A3) by done.
  apply (adds_made _ _ _ A2) in Ht as [->|Ht]; [done|]. rewrite B2 by done.
  apply (ext_made _ _ _ E1) in Ht as [->%list_elem_of_singleton|Ht]; [done|]. apply (ext_below _ _ _ E1); [done|set_solver].
Qed.
Lemma udp_live_run evs : forall s, wf s -> udp_live s -> udp_live (life_run s evs) /\
  (Forall (fun ev => ev <> EvUdp true) evs -> (lf_udp (life_run s evs)).2 = (lf_udp s).2).
Proof.
  induction evs as [|ev evs IH]; intros s Hw Hu; [done|]. cbn [life_run foldl].
  destruct (udp_live_step s ev Hw Hu) as (Hu1 & _ & Hb). destruct (IH _ (wf_step s ev Hw) Hu1) as [Hu2 Hb2].
  split; [done|]. intros [Hne Hnes]%Forall_cons. unfold life_run in Hb2. rewrite Hb2 by done. auto.
Qed.

Lemma drop_device_loops evs : forall s, lf_alive s = false -> lf_loops s = false ->
  lf_loops (life_run s evs) = false /\ lf_alive (life_run s evs) = false.
Proof.
  induction evs as [|ev evs IH]; intros s Ha Hl; [done|]. cbn [life_run foldl]. apply IH;
    (destruct ev as [key b| | | |m|key b|key|m|m b|m can|m c|m c|fails]; cbn [life_step]; rewrite ?Ha; try done;
     [unfold life_cancel; by destruct (lf_spawned s)|unfold life_drop_device; by rewrite Ha
     |unfold life_drop_peer; destruct (lf_peers s !! m); [|done]; by destruct (_ || _)
     |by destruct (lf_index s !! key)|by destruct (lf_index s !! key)]).
Qed.


(** ** Peers that were removed *)

Lemma is_cancelled_mono s ev t : wf s -> made (lf_tokens s) t -> is_cancelled (lf_tokens s) t = true ->
  is_cancelled (lf_tokens (life_step s ev)) t = true.
Proof.
  intros Hw Hm Ht. assert (forall u, is_cancelled (cancel u (lf_tokens s)) t = true) as Hc by (intros u; by rewrite cancel_is, Ht).
  destruct ev as [key b| | | |m|key b|key|m|m b|m can|m c|m c|fails]; cbn [life_step]; try done.
  - destruct (lf_alive s); [|done]. unfold life_insert. destruct (lf_index s !! key); [done|].
    destruct (spawn_peer b (lf_tokens s)) as [ts p] eqn:Hs. destruct (spawn_peer_extends _ _ _ _ Hs) as ((new & E & _) & _).
    cbn. by rewrite (ext_cancelled _ _ _ E).
  - by destruct (lf_alive s).
  - unfold life_cancel. destruct (lf_spawned s); [done|]. apply Hc.
  - unfold life_drop_device. destruct (lf_alive s); [apply Hc|done].
  - unfold life_drop_peer. destruct (lf_peers s !! m); [|done]. destruct (_ || _); [done|apply Hc].
  - by destruct (lf_index s !! key).
  - by destruct (lf_index s !! key).
Qed.

(** How far the handshake loop of a cancelled peer is from its end, and whether it can still
    send an initiation. *)
Definition rank (a : HandshakeAt) : nat :=
  match a with HDone => 0 | HTop => 1 | HSleep => 2 | HTry => 3 | HOnline => 4 end.
Definition may_send (a : HandshakeAt) : nat := match a with HOnline | HTry => 1 | _ => 0 end.
(** How the tasks of a cancelled peer go on. *)
Record winds_down (n : nat) (ev : LifeEv) (p p' : LPeer) : Prop := mkWindsDown {
  wd_in : (loop_running (lp_inbound p).2 = false \/ ev = EvInbound n true) -> loop_running (lp_inbound p').2 = false;
  wd_out : (loop_running (lp_outbound p).2 = false \/ ev = EvOutbound n true) -> loop_running (lp_outbound p').2 = false;
  wd_sent : (lp_sent p' + may_send (lp_handshake p').2 <= lp_sent p + may_send (lp_handshake p).2)%nat;
  wd_refs : lp_refs p = 0%nat -> lp_refs p' = 0%nat /\ lp_online p' = lp_online p;
  wd_rank : (rank (lp_handshake p').2 <= rank (lp_handshake p).2)%nat;
  wd_turn : lp_online p = true -> forall can, ev = EvHandshake n can -> (rank (lp_handshake p').2 <= pred (rank (lp_handshake p).2))%nat;
  wd_stuck : lp_online p = false -> (lp_handshake p).2 = HOnline -> (lp_handshake p').2 = HOnline;
}.
Lemma winds_down_id n ev p : (forall can, ev <> EvHandshake n can) -> ev <> EvInbound n true -> ev <> EvOutbound n true ->
  winds_down n ev p p.
Proof. intros H1 H2 H3. split; try done; naive_solver. Qed.

Lemma winds_down_turn n can ts p : is_cancelled ts (lp_handshake p).1 = true -> winds_down n (EvHandshake n can) p (life_handshake can ts p).
Proof.
  unfold life_handshake. destruct (lp_handshake p) as [t a] eqn:Ha. cbn. intros Ht.
  destruct a; cbn; (split; cbn; rewrite ?Ha, ?Ht; cbn; [by intros [?|?]|by intros [?|?]|..]); try done; try lia;
    try (by destruct can; lia); try (by intros ->); by destruct (lp_online p); cbn; lia.
Qed.
Lemma winds_down_inbound n c ts p : is_cancelled ts (lp_inbound p).1 = true ->
  winds_down n (EvInbound n c) p (set_inbound (select_turn c ts (lp_inbound p)) p).
Proof.
  intros Ht. split; cbn; try done; try (by intros [?|?]). unfold select_turn. destruct (lp_inbound p) as [t []]; [|done].
  cbn in *. rewrite Ht. intros [?|[= ->]]; done.
Qed.
Lemma winds_down_outbound n c ts p : is_cancelled ts (lp_outbound p).1 = true ->
  winds_down n (EvOutbound n c) p (set_outbound (select_turn c ts (lp_outbound p)) p).
Proof.
  intros Ht. split; cbn; try done; try (by intros [?|?]). unfold select_turn. destruct (lp_outbound p) as [t []]; [|done].
  cbn in *. rewrite Ht. intros [?|[= ->]]; done.
Qed.

Lemma stop_step n s ev p : wf s -> unlisted n s -> lf_peers s !! n = Some p ->
  (forall t, t ∈ loops p -> is_cancelled (lf_tokens s) t = true) ->
  exists p', lf_peers (life_step s ev) !! n = Some p' /\ winds_down n ev p p' /\
    (forall t, t ∈ loops p' -> is_cancelled (lf_tokens (life_step s ev)) t = true).
Proof.
  intros Hw Hu Hp Hc. destruct (life_peers_grow s ev n p Hp) as (p' & Hp' & Ht'). exists p'. split; [done|]. split.
  2: { intros t Ht. rewrite (loops_toks _ _ Ht') in Ht. apply is_cancelled_mono; [done| |auto].
       eapply (own_made _ _ _ (wf_owned _ Hw)); [by apply toks_lookup|]. unfold loops, toks in *. set_solver. }
  assert (forall m f, lf_peers (on_peer m f s) !! n = Some p' -> p' = if decide (m = n) then f p else p) as Hon.
  { intros m f Hm. apply on_peer_lookup in Hm as (q & Hq & ->). rewrite Hp in Hq. by injection Hq as ->. }
  assert (lf_peers (life_step s ev) !! n = lf_peers s !! n -> p' = p) as Hsame by congruence.
  destruct ev as [key b| | | |m|key b|key|m|m b|m can|m c|m c|fails]; cbn [life_step] in Hp', Hsame;
    try (rewrite Hsame by done; by apply winds_down_id).
  - rewrite Hsame; [by apply winds_down_id|]. destruct (lf_alive s); [|done]. unfold life_insert. destruct (lf_index s !! key); [done|].
    destruct (spawn_peer b (lf_tokens s)). cbn. rewrite lookup_app_l; [done|]. by eapply lookup_alive.
  - rewrite Hsame; [by apply winds_down_id|]. by destruct (lf_alive s).
  - rewrite Hsame; [by apply winds_down_id|]. unfold life_cancel. by destruct (lf_spawned s).
  - rewrite Hsame; [by apply winds_down_id|]. unfold life_drop_device. by destruct (lf_alive s).
  - rewrite Hsame; [by apply winds_down_id|]. unfold life_drop_peer. destruct (lf_peers s !! m); [|done]. by destruct (_ || _).
  - destruct (lf_index s !! key) as [m|] eqn:Hk; [|rewrite Hsame by done; by apply winds_down_id]. apply Hon in Hp' as ->.
    rewrite decide_False by (intros ->; by apply (Hu key)). by apply winds_down_id.
  - destruct (lf_index s !! key) as [m|] eqn:Hk; [|rewrite Hsame by done; by apply winds_down_id]. apply Hon in Hp' as ->.
    rewrite decide_False by (intros ->; by apply (Hu key)). by apply winds_down_id.
  - apply Hon in Hp' as ->. case_decide; [|by apply winds_down_id]. split; try done; try (by intros [?|?]). cbn. intros ->. done.
  - apply Hon in Hp' as ->. case_decide; [|by apply winds_down_id]. destruct (Nat.eqb_spec (lp_refs p) 0); [by apply winds_down_id|].
    split; try done; by intros [?|?].
  - apply Hon in Hp' as ->. case_decide; [subst m|apply winds_down_id; intros; congruence]. apply winds_down_turn, Hc. unfold loops. set_solver.
  - apply Hon in Hp' as ->. case_decide; [subst m|apply winds_down_id; intros; congruence]. apply winds_down_inbound, Hc. unfold loops. set_solver.
  - apply Hon in Hp' as ->. case_decide; [subst m|apply winds_down_id; intros; congruence]. apply winds_down_outbound, Hc. unfold loops. set_solver.
Qed.

(** The turns of the handshake loop of a peer among some events. *)
Definition is_turn (n : nat) (ev : LifeEv) : bool := match ev with EvHandshake m _ => (m =? n)%nat | _ => false end.
Definition turns (n : nat) (evs : list LifeEv) : nat := length (filter (fun ev => is_turn n ev = true) evs).

Lemma stop_run n evs : forall s p, wf s -> unlisted n s -> lf_peers s !! n = Some p ->
  (forall t, t ∈ loops p -> is_cancelled (lf_tokens s) t = true) ->
  exists p', lf_peers (life_run s evs) !! n = Some p' /\
    (loop_running (lp_inbound p).2 = false \/ EvInbound n true ∈ evs -> loop_running (lp_inbound p').2 = false) /\
    (loop_running (lp_outbound p).2 = false \/ EvOutbound n true ∈ evs -> loop_running (lp_outbound p').2 = false) /\
    (lp_sent p' + may_send (lp_handshake p').2 <= lp_sent p + may_send (lp_handshake p).2)%nat /\
    (lp_refs p = 0%nat -> lp_online p = true -> (rank (lp_handshake p').2 <= rank (lp_handshake p).2 - turns n evs)%nat) /\
    (lp_refs p = 0%nat -> lp_online p = false -> (lp_handshake p).2 = HOnline -> (lp_handshake p').2 = HOnline).
Proof.
  induction evs as [|ev evs IH]; intros s p Hw Hu Hp Hc.
  { exists p. cbn. split; [done|]. split_and!; try lia; try done; intros [?|Hx]; try done; by apply not_elem_of_nil in Hx. }
  cbn [life_run foldl]. destruct (stop_step n s ev p Hw Hu Hp Hc) as (p1 & Hp1 & [W1 W2 W3 W4 W5 W6 W7] & Hc1).
  destruct (IH (life_step s ev) p1) as (p' & Hp' & I1 & I2 & I3 & I4 & I5); [by apply wf_step| |done..|].
  { apply unlisted_step; [by eapply lookup_alive|done]. }
  exists p'. split; [done|]. split_and!.
  - intros [?|[<-|?]%elem_of_cons]; auto.
  - intros [?|[<-|?]%elem_of_cons]; auto.
  - lia.
  - intros Hr Ho. destruct (W4 Hr) as [Hr1 Ho1]. specialize (I4 Hr1 ltac:(congruence)). unfold turns in *.
    destruct (is_turn n ev) eqn:Ht; [rewrite filter_cons_True by done|rewrite filter_cons_False by congruence; lia].
    destruct ev as [| | | | | | | | |m can| | |]; try done. apply Nat.eqb_eq in Ht as ->. specialize (W6 Ho can eq_refl). cbn [length]. lia.
  - intros Hr Ho Hh. destruct (W4 Hr) as [Hr1 Ho1]. apply I5; [done|congruence|auto].
Qed.

(** Running the cancellations that were spawned cancels every loop below them. *)
Lemma cancels_run k : forall s h t, (length (lf_spawned s) <= k)%nat ->
  (h ∈ lf_spawned s -> under (lf_tokens s) (ph_token h) t = true ->
   is_cancelled (lf_tokens (life_run s (replicate k EvCancel))) t = true) /\
  lf_peers (life_run s (replicate k EvCancel)) = lf_peers s /\
  lf_index (life_run s (replicate k EvCancel)) = lf_index s /\
  (is_cancelled (lf_tokens s) t = true -> is_cancelled (lf_tokens (life_run s (replicate k EvCancel))) t = true).
Proof.
  induction k as [|k IH]; intros s h t Hk.
  { destruct (lf_spawned s) as [|h' l] eqn:Hs; [|cbn in Hk; lia]. split_and!; try done. intros Hx. by apply not_elem_of_nil in Hx. }
  cbn [replicate life_run foldl life_step]. destruct (lf_spawned s) as [|h' hs] eqn:Hs.
  - assert (life_cancel s = s) as -> by (unfold life_cancel; by rewrite Hs).
    destruct (IH s h t) as (_ & I2 & I3 & I4); [rewrite Hs; cbn; lia|].
    split_and!; try done. intros Hx. by apply not_elem_of_nil in Hx.
  - assert (lf_spawned (life_cancel s) = hs /\ lf_peers (life_cancel s) = lf_peers s /\ lf_index (life_cancel s) = lf_index s /\
      lf_tokens (life_cancel s) = cancel (ph_token h') (lf_tokens s)) as (E1 & E2 & E3 & E4) by (unfold life_cancel; by rewrite Hs).
    destruct (IH (life_cancel s) h t) as (I1 & I2 & I3 & I4); [rewrite E1; cbn in Hk; lia|].
    rewrite E1, E4, cancel_under in I1. rewrite E2 in I2. rewrite E3 in I3. rewrite E4, cancel_is in I4.
    split_and!; try done.
    + intros [->|Hh]%elem_of_cons Ht; [|auto]. apply I4. by rewrite Ht, orb_true_r.
    + intros Ht. apply I4. by rewrite Ht.
Qed.

End Facts.

(** ** Witnesses *)
Module ToyTokens.
(** Every token with the older tokens above it and whether it is cancelled. *)
Definition above (ts : list (list nat * bool)) (b : nat) : list nat := default [] (fst <$> ts !! b).
Definition toy_under (ts : list (list nat * bool)) (a b : nat) : bool := (a =? b)%nat || bool_decide (a ∈ above ts b) && bool_decide (a < b)%nat.
Definition flag (ts : list (list nat * bool)) (b : nat) : bool := default false (snd <$> ts !! b).
Definition cancel_all (ts : list (list nat * bool)) (t : nat) : list (list nat * bool) :=
  imap (fun u e => (e.1, e.2 || toy_under ts t u)) ts.
#[export] Instance toy_tokens : CancelTokens := {|
  Token := nat;
  Tokens := list (list nat * bool);
  token_new ts := (ts ++ [([], false)], length ts);
  child_token p ts := (ts ++ [(p :: filter (fun a => (a < p)%nat) (above ts p), flag ts p)], length ts);
  cancel t ts := cancel_all ts t;
  is_cancelled ts t := flag ts t || bool_decide (length ts <= t)%nat;
  made ts t := (t < length ts)%nat;
  under := toy_under;
|}.

Lemma above_old ts x b : (b < length ts)%nat -> above (ts ++ [x]) b = above ts b.
Proof. intros Hb. unfold above. by rewrite lookup_app_l. Qed.
Lemma flag_old ts x b : (b < length ts)%nat -> flag (ts ++ [x]) b = flag ts b.
Proof. intros Hb. unfold flag. by rewrite lookup_app_l. Qed.
Lemma snoc_last (ts : list (list nat * bool)) x : (ts ++ [x]) !! length ts = Some x.
Proof. by rewrite lookup_app_r, Nat.sub_diag by done. Qed.
Lemma above_new ts x : above (ts ++ [x]) (length ts) = x.1.
Proof. unfold above. by rewrite snoc_last. Qed.
Lemma toy_adds ts x : adds (H := toy_tokens) ts (ts ++ [x]) (length ts).
Proof.
  split; cbn.
  - lia.
  - intros u. rewrite length_app. cbn. lia.
  - intros u Hu. rewrite flag_old, length_app by done. cbn [length].
    by rewrite !bool_decide_false by lia.
  - intros a b Ha Hb. unfold toy_under. by rewrite above_old.
  - intros b Hb. unfold toy_under. destruct (Nat.eqb_spec (length ts) b); [lia|].
    rewrite (bool_decide_false (length ts < b)%nat) by lia. by rewrite andb_false_r.
Qed.
Lemma cancel_lookup ts t u : cancel_all ts t !! u = (fun e => (e.1, e.2 || toy_under ts t u)) <$> ts !! u.
Proof. unfold cancel_all. by rewrite list_lookup_imap. Qed.
Lemma above_cancel ts t b : above (cancel_all ts t) b = above ts b.
Proof. unfold above. rewrite cancel_lookup. by destruct (ts !! b). Qed.
Lemma toy_cancel_is t ts u : flag (cancel_all ts t) u || bool_decide (length (cancel_all ts t) <= u)%nat =
  flag ts u || bool_decide (length ts <= u)%nat || toy_under ts t u.
Proof.
  unfold flag. rewrite cancel_lookup. unfold cancel_all. rewrite length_imap. destruct (ts !! u) as [[l b]|] eqn:Hu; cbn.
  - apply lookup_lt_Some in Hu. rewrite bool_decide_false by lia. by rewrite !orb_false_r.
  - apply lookup_ge_None in Hu. by rewrite bool_decide_true by lia.
Qed.
#[export] Instance toy_token_laws : TokenLaws.
Proof.
  split.
  - intros ts ts' t [= <- <-]. apply toy_adds.
  - intros ts ts' t [= <- <-]. cbn. unfold flag, toy_under, above. rewrite snoc_last, length_app. cbn. split.
    + by rewrite bool_decide_false by lia.
    + intros a Ha. destruct (Nat.eqb_spec a (length ts)); [lia|]. done.
  - intros p ts ts' t Hp [= <- <-]. apply toy_adds.
  - intros p ts ts' t Hp [= <- <-]. cbn in *. unfold flag at 1, toy_under. rewrite snoc_last, length_app. cbn. split.
    + by rewrite !bool_decide_false by lia.
    + intros a Ha. destruct (Nat.eqb_spec a (length ts)); [lia|]. rewrite above_new. cbn [fst].
      rewrite (bool_decide_true (a < length ts)%nat) by done. rewrite andb_true_r. cbn [orb]. apply eq_true_iff_eq.
      rewrite orb_true_iff, andb_true_iff, !bool_decide_eq_true, Nat.eqb_eq, elem_of_cons, list_elem_of_filter. tauto.
  - intros ts t. cbn. unfold toy_under. by rewrite Nat.eqb_refl.
  - intros t ts u. cbn. unfold cancel_all. by rewrite length_imap.
  - intros t ts a b. cbn. unfold toy_under at 1. by rewrite above_cancel.
  - exact toy_cancel_is.
Qed.
End ToyTokens.

Section Witnesses.
Import ToyTokens.
(** An online and an offline peer, whose handshake loops have had a turn. *)
Definition toy_device : Life := Device_life (H := toy_tokens) ([] : list (list nat * bool)).
Definition toy_life : list LifeEv := [EvInsert [x01] true; EvInsert [x02] false; EvHandshake 0 true; EvHandshake 1 true].


End Witnesses.
End Lifecycle.
