(* ===== verification/Udp.v ===== *)
(** * The UDP transport (vlink-tun/src/device/transport/udp.rs)

    The device's own transport: one IPv4 and one IPv6 socket on the same port, a task that
    passes every datagram to the dispatcher, and a sender per remote address. The socket calls
    of the host are the class [UdpHost], what they promise the class [UdpHostLaws]. *)

From S2P Require Import Prelude Bytes Host NonceFilter Protocol Crypto Clock Noise Session PeerHandshake Monitor Peer Device.

Definition PROTO_NAME : string := "Udp".

Definition sa_port (a : SocketAddr) : Z := match a with AddrV4 _ p | AddrV6 _ p => p end.
Definition is_v6 (a : SocketAddr) : bool := match a with AddrV4 _ _ => false | AddrV6 _ _ => true end.

(** socket2 and tokio sockets. [recv_into buf d] is what a receive call with buffer [buf]
    does with a waiting datagram [d]: the buffer after it and the length it reports. *)
Class UdpHost := {
  host : Type;
  IoError : Type;
  RawSocket : Type;
  UdpSocket : Type;
  socket_new : bool -> host -> host * (IoError + RawSocket);
  set_only_v6 : RawSocket -> bool -> host -> host * (IoError + unit);
  set_nonblocking : RawSocket -> bool -> host -> host * (IoError + unit);
  set_reuse_address : RawSocket -> bool -> host -> host * (IoError + unit);
  sock_bind : RawSocket -> SocketAddr -> host -> host * (IoError + unit);
  from_std : RawSocket -> host -> host * (IoError + UdpSocket);
  local_addr : UdpSocket -> host -> host * (IoError + SocketAddr);
  send_to : UdpSocket -> bytes -> SocketAddr -> host -> host * (IoError + nat);
  recv_into : bytes -> bytes -> bytes * nat;
}.

(** A socket bound to a port that is not 0 reports that port; a datagram longer than the
    buffer is cut to it. *)
Class UdpHostLaws `{UdpHost} : Prop := {
  bind_port : forall s a w w1 w2 u w3 w4 a', sock_bind s a w = (w1, inr tt) -> from_std s w1 = (w2, inr u) ->
    sa_port a <> 0 -> local_addr u w3 = (w4, inr a') -> sa_port a' = sa_port a;
  recv_truncates : forall buf d, let n := Nat.min (length buf) (length d) in
    recv_into buf d = (take n d ++ drop n buf, n);
}.

Section Udp.
Context `{UdpHost}.

Abbreviation hio := (io host IoError).

Record UdpTransport := mkUdpTransport {
  ut_port : Z;
  ut_ipv4 : UdpSocket;
  ut_ipv6 : UdpSocket;
  ipv4_buf : bytes;
  ipv6_buf : bytes;
}.
Record UdpSocketInfo := mkUdpSocketInfo { info_ipv4 : UdpSocket; info_ipv6 : UdpSocket }.
Record UdpOutboundSender := mkUdpOutboundSender {
  us_dst : SocketAddr;
  us_ipv4 : UdpSocket;
  us_ipv6 : UdpSocket;
}.

(** [OutboundSender for UdpOutboundSender]. *)
Definition udp_send (s : UdpOutboundSender) (data : bytes) : hio unit :=
  let dst := us_dst s in
  n ← (match dst with
       | AddrV4 _ _ => sys (send_to (us_ipv4 s) data dst)
       | AddrV6 _ _ => sys (send_to (us_ipv6 s) data dst)
       end);
  mret tt.
Definition udp_endpoint (s : UdpOutboundSender) : Endpoint := mkEndpoint (us_dst s) PROTO_NAME.

Definition bind_socket_v4 (addr : SocketAddr) : hio UdpSocket :=
  socket ← sys (socket_new false);
  _ ← sys (set_nonblocking socket true);
  _ ← sys (set_reuse_address socket true);
  _ ← sys (sock_bind socket addr);
  sys (from_std socket).

Definition bind_socket_v6 (addr : SocketAddr) : hio UdpSocket :=
  socket ← sys (socket_new true);
  _ ← sys (set_only_v6 socket true);
  _ ← sys (set_nonblocking socket true);
  _ ← sys (set_reuse_address socket true);
  _ ← sys (sock_bind socket addr);
  sys (from_std socket).

(** The [for] loop of [bind_socket]: [retries] turns left, [err] the last error. One turn is
    [bind_turn], which returns [inl] where the source continues. *)
Definition bind_turn (ipv4 ipv6 : bytes) (port : Z) : hio (IoError + (UdpSocket * UdpSocket * Z)) :=
  r ← try (bind_socket_v4 (AddrV4 ipv4 port));
  match r with
  | inl e => mret (inl e)
  | inr s4 =>
      a ← sys (local_addr s4);
      let port := sa_port a in
      r ← try (bind_socket_v6 (AddrV6 ipv6 port));
      match r with
      | inl e => mret (inl e)
      | inr s6 => mret (inr (s4, s6, port))
      end
  end.

Fixpoint bind_loop (ipv4 ipv6 : bytes) (port : Z) (retries : nat) (err : option IoError)
    : hio (UdpSocket * UdpSocket * Z) :=
  match retries with
  | O => pure_res (e ← unwrap_opt err; Err e)
  | S retries =>
      r ← bind_turn ipv4 ipv6 port;
      match r with
      | inl e => bind_loop ipv4 ipv6 port retries (Some e)
      | inr bound => mret bound
      end
  end.

Definition max_retry (port : Z) : nat := if port =? 0 then 10 else 1.
Definition bind_socket (ipv4 ipv6 : bytes) (port : Z) : hio (UdpSocket * UdpSocket * Z) :=
  bind_loop ipv4 ipv6 port (max_retry port) None.

(** The addresses are only logged, but a failure to get them is returned. *)
Definition bind (ipv4 ipv6 : bytes) (port : Z) : hio UdpTransport :=
  '(s4, s6, port) ← bind_socket ipv4 ipv6 port;
  _ ← sys (local_addr s4);
  _ ← sys (local_addr s6);
  mret (mkUdpTransport port s4 s6 [] []).

(** What the [select!] of [recv_from] is woken by: a datagram on one of the sockets and the
    address it came from, or an error of the call. *)
Inductive Arrival :=
| OnV4 (r : IoError + (bytes * SocketAddr))
| OnV6 (r : IoError + (bytes * SocketAddr)).

(** The second test is of [ipv6_buf], and what it sets is [ipv4_buf]. *)
Definition ready_bufs (t : UdpTransport) : UdpTransport :=
  let t := if (length (ipv4_buf t) =? 0)%nat
           then mkUdpTransport (ut_port t) (ut_ipv4 t) (ut_ipv6 t) (replicate 2048 x00) (ipv6_buf t) else t in
  if (length (ipv6_buf t) =? 0)%nat
  then mkUdpTransport (ut_port t) (ut_ipv4 t) (ut_ipv6 t) (replicate 2048 x00) (ipv6_buf t) else t.

Definition recv_from (t : UdpTransport) (a : Arrival) : UdpTransport * res IoError (SocketAddr * bytes) :=
  let t := ready_bufs t in
  match a with
  | OnV4 (inl e) | OnV6 (inl e) => (t, Err e)
  | OnV4 (inr (d, addr)) =>
      let '(buf, n) := recv_into (ipv4_buf t) d in
      let t := mkUdpTransport (ut_port t) (ut_ipv4 t) (ut_ipv6 t) buf (ipv6_buf t) in
      (t, data ← slice 0 n buf; Ok (addr, data))
  | OnV6 (inr (d, addr)) =>
      let '(buf, n) := recv_into (ipv6_buf t) d in
      let t := mkUdpTransport (ut_port t) (ut_ipv4 t) (ut_ipv6 t) (ipv4_buf t) buf in
      (t, data ← slice 0 n buf; Ok (addr, data))
  end.

(** The inbound task of [spawn]: what it sends to the dispatcher, until a receive fails; a
    failed send to the dispatcher is ignored. [None] is a panic. *)
Fixpoint inbound_task (t : UdpTransport) (arrivals : list Arrival) : option (list (bytes * Endpoint)) :=
  match arrivals with
  | [] => Some []
  | a :: arrivals =>
      match recv_from t a with
      | (t, Ok (addr, data)) =>
          let sender := mkUdpOutboundSender addr (ut_ipv4 t) (ut_ipv6 t) in
          rest ← inbound_task t arrivals;
          Some ((data, udp_endpoint sender) :: rest)
      | (t, Err _) => Some []
      | (t, Panic) => None
      end
  end.

Definition UNSPECIFIED_V4 : bytes := replicate 4 x00.
Definition UNSPECIFIED_V6 : bytes := replicate 16 x00.

(** [spawn]: the transport the inbound task runs on, and what is returned: the port it was
    asked for and the sockets. *)
Definition spawn (port : Z) : hio (UdpTransport * (Z * UdpSocketInfo)) :=
  udp ← bind UNSPECIFIED_V4 UNSPECIFIED_V6 port;
  let info := mkUdpSocketInfo (ut_ipv4 udp) (ut_ipv6 udp) in
  mret (udp, (port, info)).

(** ** Binding *)

(** The first turns that failed, with the last error. *)
Inductive failed_turns (ipv4 ipv6 : bytes) (port : Z) : nat -> option IoError -> host -> option IoError -> host -> Prop :=
| failed_none err w : failed_turns ipv4 ipv6 port 0 err w err w
| failed_turn n err e err' w w1 w' :
    bind_turn ipv4 ipv6 port w = (w1, Ok (inl e)) ->
    failed_turns ipv4 ipv6 port n (Some e) w1 err' w' -> failed_turns ipv4 ipv6 port (S n) err w err' w'.

Lemma bind_v4_pf a : panic_free (bind_socket_v4 a).
Proof. unfold bind_socket_v4. auto 12 with vlink. Qed.
Lemma bind_v6_pf a : panic_free (bind_socket_v6 a).
Proof. unfold bind_socket_v6. auto 14 with vlink. Qed.
Lemma bind_turn_pf v4 v6 p : panic_free (bind_turn v4 v6 p).
Proof.
  unfold bind_turn. apply panic_free_bind; [apply panic_free_try, bind_v4_pf|]. intros [e|s]; auto with vlink.
  apply panic_free_bind; auto with vlink. intros a.
  apply panic_free_bind; [apply panic_free_try, bind_v6_pf|]. intros []; auto with vlink.
Qed.

(** What a run of the loop is: some turns that failed, then a turn that bound both sockets or
    failed for good, or no turn left. *)
Lemma bind_loop_run v4 v6 p k : forall err w w' r,
  bind_loop v4 v6 p k err w = (w', r) -> (k <> O \/ err <> None) ->
  (exists n err1 w1 b, (n < k)%nat /\ failed_turns v4 v6 p n err w err1 w1 /\
     bind_turn v4 v6 p w1 = (w', Ok (inr b)) /\ r = Ok b) \/
  (exists n err1 w1 e, (n < k)%nat /\ failed_turns v4 v6 p n err w err1 w1 /\
     bind_turn v4 v6 p w1 = (w', Err e) /\ r = Err e) \/
  (exists e, failed_turns v4 v6 p k err w (Some e) w' /\ r = Err e).
Proof.
  induction k as [|k IH]; intros err w w' r Hl Hk.
  - destruct err as [e|]; [|naive_solver]. injection Hl as <- <-. right; right. exists e.
    split; [constructor|done].
  - cbn [bind_loop] in Hl. unfold mbind, io_bind in Hl.
    destruct (bind_turn v4 v6 p w) as [w1 [[e|b]|e|]] eqn:Ht.
    + destruct (IH (Some e) w1 w' r Hl) as [(n & err1 & w2 & b & ? & Hf & Hb & ->)|[(n & err1 & w2 & e' & ? & Hf & Hb & ->)|(e' & Hf & ->)]].
      * by right.
      * left. exists (S n), err1, w2, b. split; [lia|]. split; [by econstructor|done].
      * right; left. exists (S n), err1, w2, e'. split; [lia|]. split; [by econstructor|done].
      * right; right. exists e'. split; [by econstructor|done].
    + injection Hl as <- <-. left. exists O, err, w, b. split; [lia|]. split; [constructor|done].
    + injection Hl as <- <-. right; left. exists O, err, w, e. split; [lia|]. split; [constructor|done].
    + by destruct (bind_turn_pf v4 v6 p w w1).
Qed.

End Udp.

Section Bound.
Context `{UdpHostLaws}.

Lemma bind_v4_port a u w w' w1 w2 a' : bind_socket_v4 a w = (w', Ok u) -> sa_port a <> 0 ->
  local_addr u w1 = (w2, inr a') -> sa_port a' = sa_port a.
Proof.
  unfold bind_socket_v4. intros Hb Hne Hl. do 4 io_inv Hb. destruct a3.
  apply sys_Ok_inv in Hb, Hb3. by eapply bind_port.
Qed.
Lemma bind_v6_port a u w w' w1 w2 a' : bind_socket_v6 a w = (w', Ok u) -> sa_port a <> 0 ->
  local_addr u w1 = (w2, inr a') -> sa_port a' = sa_port a.
Proof.
  unfold bind_socket_v6. intros Hb Hne Hl. do 5 io_inv Hb. destruct a4.
  apply sys_Ok_inv in Hb, Hb4. by eapply bind_port.
Qed.
Lemma try_Ok_inv {W E F A} (m : io W E A) w w' (a : A) : try (F := F) m w = (w', Ok (inr a)) -> m w = (w', Ok a).
Proof. unfold try. destruct (m w) as [? []]; intros; by simplify_eq. Qed.

Lemma bind_turn_ports v4 v6 port w w' s4 s6 p : bind_turn v4 v6 port w = (w', Ok (inr (s4, s6, p))) ->
  (port <> 0 -> p = port) /\
  (p <> 0 -> forall w2 w3 a, local_addr s6 w2 = (w3, inr a) -> sa_port a = p).
Proof.
  unfold bind_turn. intros Ht. io_inv Ht. destruct a as [e|u]; [done|]. apply try_Ok_inv in Ht0.
  io_inv Ht. apply sys_Ok_inv in Ht1. io_inv Ht. destruct a0 as [e|u6]; [done|].
  apply try_Ok_inv in Ht2. injection Ht as -> -> -> <-. split; intros Hne.
  - by eapply (bind_v4_port (AddrV4 v4 port)).
  - intros w4 w5 a' Hl. by eapply (bind_v6_port (AddrV6 v6 (sa_port a))).
Qed.

(** C21: binding the device's sockets ends after at most [max_retry] turns (ten when the
    port is left to the host, otherwise one) and never panics. It succeeds with the first turn
    that binds both sockets, and then both are on the port it returns, the one asked for unless
    that was 0; it fails with the error of the turn that could not read its own address, or
    with the error of the last turn. *)
Theorem bind_socket_spec v4 v6 port w :
  let '(w', r) := bind_socket v4 v6 port w in
  exists n err w1, failed_turns v4 v6 port n None w err w1 /\ (n <= max_retry port)%nat /\
    match r with
    | Ok (s4, s6, p) =>
        (n < max_retry port)%nat /\ bind_turn v4 v6 port w1 = (w', Ok (inr (s4, s6, p))) /\
        (port <> 0 -> p = port) /\
        (p <> 0 -> forall w2 w3 a, local_addr s6 w2 = (w3, inr a) -> sa_port a = p)
    | Err e =>
        ((n < max_retry port)%nat /\ bind_turn v4 v6 port w1 = (w', Err e)) \/
        (n = max_retry port /\ err = Some e /\ w1 = w')
    | Panic => False
    end.
Proof.
  destruct (bind_socket v4 v6 port w) as [w' r] eqn:Hb.
  destruct (bind_loop_run v4 v6 port _ _ _ _ _ Hb) as
    [(n & err & w1 & [[s4 s6] p] & Hn & Hf & Ht & ->)|[(n & err & w1 & e & Hn & Hf & Ht & ->)|(e & Hf & ->)]].
  - left. unfold max_retry. by destruct (_ =? _).
  - exists n, err, w1. split; [done|]. split; [lia|]. split; [done|]. split; [done|]. by eapply bind_turn_ports.
  - exists n, err, w1. split; [done|]. split; [lia|]. by left.
  - exists (max_retry port), (Some e), w'. split; [done|]. split; [lia|]. by right.
Qed.

(** ** Receiving *)

(** What the dispatcher should get for an arrival, and what it gets. *)
Definition item_of (a : Arrival) : option (bytes * Endpoint) :=
  match a with
  | OnV4 (inr (d, addr)) => Some (take 2048 d, mkEndpoint addr "Udp")
  | OnV6 (inr (_, addr)) => Some ([], mkEndpoint addr "Udp")
  | _ => None
  end.
Fixpoint items_of (arrivals : list Arrival) : list (bytes * Endpoint) :=
  match arrivals with
  | [] => []
  | a :: arrivals => match item_of a with Some i => i :: items_of arrivals | None => [] end
  end.

(** The buffers in every turn of the inbound task. *)
Definition bufs_ok (t : UdpTransport) : Prop :=
  (ipv4_buf t = [] \/ length (ipv4_buf t) = 2048%nat) /\ ipv6_buf t = [].

Lemma ready_bufs_ok t : bufs_ok t -> length (ipv4_buf (ready_bufs t)) = 2048%nat /\ ipv6_buf (ready_bufs t) = [].
Proof.
  intros [H4 H6]. unfold ready_bufs. destruct (length (ipv4_buf t) =? 0)%nat; cbn [ipv6_buf]; rewrite H6; done.
Qed.

Lemma recv_from_item t a : bufs_ok t ->
  bufs_ok (recv_from t a).1 /\
  match item_of a with
  | Some (data, e) => (recv_from t a).2 = Ok (dst e, data) /\ protocol e = "Udp"%string
  | None => exists e, (recv_from t a).2 = Err e
  end.
Proof.
  intros [H4 H6]%ready_bufs_ok. unfold recv_from, bufs_ok.
  destruct a as [[e|[d addr]]|[e|[d addr]]]; cbn [item_of fst snd]; try by eauto.
  - rewrite recv_truncates. cbn [fst snd ipv4_buf ipv6_buf dst protocol].
    set (n := Nat.min (length (ipv4_buf _)) (length d)). assert (n = Nat.min 2048 (length d)) as Hn by lia.
    repeat split; try done.
    + right. rewrite length_app, length_take, length_drop. lia.
    + rewrite (slice_here n) by (rewrite length_take; lia). cbn. do 2 f_equal.
      by rewrite Hn, <- firstn_firstn, firstn_all.
  - rewrite recv_truncates, H6. cbn [length Nat.min]. rewrite take_0, drop_nil. cbn. eauto.
Qed.

Lemma inbound_task_items arrivals : forall t, bufs_ok t -> inbound_task t arrivals = Some (items_of arrivals).
Proof.
  induction arrivals as [|a arrivals IH]; intros t Ht; [done|]. cbn [inbound_task items_of].
  destruct (recv_from_item t a Ht) as [Ht' Hi]. destruct (recv_from t a) as [t' r]. cbn [fst snd] in *.
  destruct (item_of a) as [[data [d pr]]|]; cbn [dst protocol] in Hi.
  - destruct Hi as [-> ->]. by rewrite (IH _ Ht').
  - by destruct Hi as [e ->].
Qed.
End Bound.

(** ** The dispatcher behind it (device/handle.rs, [loop_inbound])

    The loop takes the secret and the cookie once; each turn sees the peer list, the clock and
    the random bytes of its moment. A panic ends the task: the result says whether it is still
    alive after the packets. *)
Section Loop.
Context `{IpNetworkLib, CryptoPrims}.

Record Turn := mkTurn { tn_clk : Z; tn_rnd : bytes * bytes; tn_peers : PeerList; tn_send_ok : bool }.

Fixpoint loop_inbound (rl : RateLimiter) (secret : LocalStaticSecret) (cookie : Cookie)
    (items : list (Turn * (bytes * Endpoint))) : list Dispatch * bool :=
  match items with
  | [] => ([], true)
  | (t, (data, sender)) :: items =>
      match dev_tick_inbound (E := Empty_set) (tn_clk t) (tn_rnd t) rl (tn_peers t) secret cookie sender (tn_send_ok t) data with
      | Ok (cookie, d) => let '(ds, alive) := loop_inbound rl secret cookie items in (d :: ds, alive)
      | _ => ([], false)
      end
  end.

Lemma loop_inbound_empty rl secret t e post : forall pre cookie,
  let '(ds, alive) := loop_inbound rl secret cookie (pre ++ (t, ([], e)) :: post) in
  alive = false /\ (length ds <= length pre)%nat.
Proof.
  induction pre as [|[u [data sender]] pre IH]; intros cookie; [done|].
  cbn [app loop_inbound]. destruct (dev_tick_inbound _ _ _ _ _ _ _ _ _) as [[c d]| |]; [|cbn [length]; split; [done|lia]..].
  specialize (IH c). destruct (loop_inbound rl secret c _) as [ds alive]. cbn [length]. destruct IH. split; [done|lia].
Qed.
End Loop.

Section Deaf.
Context `{UdpHostLaws, IpNetworkLib, CryptoPrims}.

Lemma items_of_app pre post : Forall (fun a => item_of a <> None) pre ->
  items_of (pre ++ post) = omap item_of pre ++ items_of post /\ length (omap item_of pre) = length pre.
Proof.
  induction 1 as [|a pre Ha _ [IH1 IH2]]; [done|]. cbn. destruct (item_of a); [|done]. cbn. by rewrite IH1, IH2.
Qed.

(** C22: what the UDP transport hands to the dispatcher, and how one IPv6 datagram silences
    the device. From the moment the sockets are bound, IPv4 datagrams are passed on in order
    with their first 2048 bytes, and the content of every IPv6 datagram is lost: the receive
    buffer that is made for it is put in the place of the IPv4 one, so it is received into an
    empty buffer. The dispatcher panics on the empty packet that arrives in its place,
    whatever the peers, keys and clocks: it handles none of the packets after it. *)
Theorem ipv6_datagram_ends_dispatch v4 v6 port w w' t pre d addr post turns rl secret cookie :
  bind v4 v6 port w = (w', Ok t) ->
  Forall (fun a => item_of a <> None) pre ->
  let arrivals := pre ++ OnV6 (inr (d, addr)) :: post in
  inbound_task t arrivals = Some (items_of arrivals) /\
  (length turns = length (items_of arrivals) ->
   let '(ds, alive) := loop_inbound rl secret cookie (zip turns (items_of arrivals)) in
   alive = false /\ (length ds <= length pre)%nat).
Proof.
  intros Hb Hpre arrivals. split.
  - apply inbound_task_items. unfold bind in Hb. io_inv Hb. destruct a as [[s4 s6] p].
    do 2 io_inv Hb. injection Hb as _ <-. split; [by left|done].
  - intros Hl. unfold arrivals in *. destruct (items_of_app pre (OnV6 (inr (d, addr)) :: post) Hpre) as [Hi Hn].
    rewrite Hi in *. cbn [items_of item_of] in *. rewrite length_app in Hl. cbn [length] in Hl.
    assert (exists t1 tn t2, turns = t1 ++ tn :: t2 /\ length t1 = length (omap item_of pre)) as (t1 & tn & t2 & -> & Ht1).
    { rewrite <- (take_drop (length (omap item_of pre)) turns).
      destruct (drop _ turns) as [|tn t2] eqn:Hd.
      - apply (f_equal length) in Hd. rewrite length_drop in Hd. cbn in Hd. lia.
      - exists (take (length (omap item_of pre)) turns), tn, t2. split; [done|]. rewrite length_take. lia. }
    rewrite zip_with_app by done. cbn [zip zip_with].
    pose proof (loop_inbound_empty rl secret tn (mkEndpoint addr "Udp") (zip t2 (items_of post)) (zip t1 (omap item_of pre)) cookie) as HL.
    destruct (loop_inbound _ _ _ _) as [ds alive]. rewrite length_zip_with, Ht1, Hn, Nat.min_id in HL. done.
Qed.
End Deaf.

(** ** A host

    Binding port 0 takes the next free number; an IPv6 port can be in use. *)
Module ToyHost.

Record state := mkState { next : Z; busy : list Z; last : SocketAddr }.
Definition with_port (a : SocketAddr) (p : Z) : SocketAddr :=
  match a with AddrV4 o _ => AddrV4 o p | AddrV6 o _ => AddrV6 o p end.

#[local] Instance lib : UdpHost := {|
  host := state;
  IoError := string;
  RawSocket := bool;
  UdpSocket := SocketAddr;
  socket_new v6 w := (w, inr v6);
  set_only_v6 _ _ w := (w, inr tt);
  set_nonblocking _ _ w := (w, inr tt);
  set_reuse_address _ _ w := (w, inr tt);
  sock_bind s a w :=
    if sa_port a =? 0 then (mkState (next w + 1) (busy w) (with_port a (next w)), inr tt)
    else if s && bool_decide (sa_port a ∈ busy w) then (w, inl "address in use"%string)
    else (mkState (next w) (busy w) a, inr tt);
  from_std _ w := (w, inr (last w));
  local_addr u w := (w, inr u);
  send_to _ data _ w := (w, inr (length data));
  recv_into buf d := let n := Nat.min (length buf) (length d) in (take n d ++ drop n buf, n);
|}.

#[local] Instance laws : UdpHostLaws.
Proof.
  split; [|done]. intros s a w w1 w2 u w3 w4 a' Hb Hf Hne Hl. cbn in *.
  destruct (Z.eqb_spec (sa_port a) 0); [done|]. destruct (s && _); by simplify_eq.
Qed.
End ToyHost.

Section Witnesses.
#[local] Existing Instance ToyHost.lib.
#[local] Existing Instance ToyHost.laws.
#[local] Existing Instance Toy.prims.
#[local] Existing Instance Prefixes.lib.

Definition toy_host : ToyHost.state := ToyHost.mkState 40000 [40000; 40001] (AddrV4 [] 0).

(** Two turns fail on a busy IPv6 port, the third binds. *)
Lemma bind_socket_spec_witness :
  bind_socket UNSPECIFIED_V4 UNSPECIFIED_V6 0 toy_host =
    (ToyHost.mkState 40003 [40000; 40001] (AddrV6 UNSPECIFIED_V6 40002),
     Ok (AddrV4 UNSPECIFIED_V4 40002, AddrV6 UNSPECIFIED_V6 40002, 40002)) /\
  let '(w', r) := bind_socket UNSPECIFIED_V4 UNSPECIFIED_V6 0 toy_host in
  exists n err w1, failed_turns UNSPECIFIED_V4 UNSPECIFIED_V6 0 n None toy_host err w1 /\ (n <= 10)%nat /\
    match r with
    | Ok (s4, s6, p) =>
        (n < 10)%nat /\ bind_turn UNSPECIFIED_V4 UNSPECIFIED_V6 0 w1 = (w', Ok (inr (s4, s6, p))) /\
        (0 <> 0 -> p = 0) /\
        (p <> 0 -> forall w2 w3 a, local_addr s6 w2 = (w3, inr a) -> sa_port a = p)
    | Err e =>
        ((n < 10)%nat /\ bind_turn UNSPECIFIED_V4 UNSPECIFIED_V6 0 w1 = (w', Err e)) \/
        (n = 10%nat /\ err = Some e /\ w1 = w')
    | Panic => False
    end.
Proof. split; [by vm_compute|]. exact (bind_socket_spec UNSPECIFIED_V4 UNSPECIFIED_V6 0 toy_host). Defined.

Definition toy_udp : UdpTransport := mkUdpTransport 51820 (AddrV4 UNSPECIFIED_V4 51820) (AddrV6 UNSPECIFIED_V6 51820) [] [].
Definition toy_rl : RateLimiter := RateLimiter_new 0 65535.
Definition toy_turn : Turn := mkTurn 0 ([], []) (PeerList_new 0) true.
Definition toy_arrivals : list Arrival := [OnV4 (inr ([x04; x00], AddrV4 [x0a; x00; x00; x01] 7))].

Lemma ipv6_datagram_ends_dispatch_witness :
  bind UNSPECIFIED_V4 UNSPECIFIED_V6 51820 toy_host = (ToyHost.mkState 40000 [40000; 40001] (AddrV6 UNSPECIFIED_V6 51820), Ok toy_udp) /\
  exists ds, loop_inbound toy_rl (LocalStaticSecret_new (key_of x11)) (Cookie_new (LocalStaticSecret_new (key_of x11)))
     (zip [toy_turn; toy_turn] (items_of (toy_arrivals ++ [OnV6 (inr ([x04], AddrV6 UNSPECIFIED_V6 7))]))) = (ds, false).
Proof.
  split; [by vm_compute|].
  destruct (ipv6_datagram_ends_dispatch (H := ToyHost.lib) UNSPECIFIED_V4 UNSPECIFIED_V6 51820 toy_host _ toy_udp toy_arrivals
    [x04] (AddrV6 UNSPECIFIED_V6 7) [] [toy_turn; toy_turn] toy_rl (LocalStaticSecret_new (key_of x11))
    (Cookie_new (LocalStaticSecret_new (key_of x11))) eq_refl) as [_ HL].
  - repeat constructor. done.
  - specialize (HL eq_refl). destruct (loop_inbound _ _ _ _) as [ds alive]. exists ds. f_equal. by destruct HL.
Defined.
End Witnesses.
