(* ===== verification/Framed.v ===== *)
(** * Framed streams

    A [Decoder] of tokio_util, as both relay clients use it: [decode] looks at the bytes
    buffered so far and returns an item, asks for more, or fails; the stream calls it on each
    chunk until it asks for more. The class [StreamDecoder] states what a decoder promises so
    that the items do not depend on how the transport cuts the stream; the codecs of [Derp]
    and [Frp] are its instances. *)

From S2P Require Import Prelude Bytes.

Inductive Stop (Er : Type) : Type :=
| More
| Failed (e : Er)
| Panicked
| OutOfFuel.
Arguments More {Er}.
Arguments Failed {Er} e.
Arguments Panicked {Er}.
Arguments OutOfFuel {Er}.

Section Framed.
Context {St Item Er : Type}.
Context (decode : St -> bytes -> St * bytes * res Er (option Item)).

(** The read loop over what is buffered. *)
Fixpoint drain (fuel : nat) (c : St) (src : bytes) : list Item * St * bytes * Stop Er :=
  match fuel with
  | O => ([], c, src, OutOfFuel)
  | S fuel =>
      let '(c, src, r) := decode c src in
      match r with
      | Ok (Some x) => let '(xs, c, src, s) := drain fuel c src in (x :: xs, c, src, s)
      | Ok None => ([], c, src, More)
      | Err e => ([], c, src, Failed e)
      | Panic => ([], c, src, Panicked)
      end
  end.

(** Three more than the bytes there are: no decoder of this development returns more items
    than that from one buffer. *)
Definition drain_all (c : St) (src : bytes) := drain (3 + length src) c src.

(** Chunk by chunk, until the loop stops. *)
Fixpoint feed (c : St) (buf : bytes) (chunks : list bytes) : list Item * St * bytes * Stop Er :=
  match chunks with
  | [] => ([], c, buf, More)
  | k :: chunks =>
      let '(xs, c, buf, s) := drain_all c (buf ++ k) in
      match s with
      | More => let '(ys, c, buf, s) := feed c buf chunks in (xs ++ ys, c, buf, s)
      | _ => (xs, c, buf, s)
      end
  end.

(** An item found in a buffer is found in a longer one and leaves the rest; a decoder that
    asked for more resumes where it stopped; a failure is final; every item decreases
    [measure], which exceeds the length of the buffer by at most two. *)
Class StreamDecoder (measure : St -> bytes -> nat) : Prop := {
  sd_item c a b c1 a1 x : decode c a = (c1, a1, Ok (Some x)) ->
    decode c (a ++ b) = (c1, a1 ++ b, Ok (Some x));
  sd_more c a b c1 a1 : decode c a = (c1, a1, Ok None) -> decode c (a ++ b) = decode c1 (a1 ++ b);
  sd_fail c a b c1 a1 r : decode c a = (c1, a1, r) -> (forall o, r <> Ok o) ->
    exists a2, decode c (a ++ b) = (c1, a2, r);
  sd_measure c a c1 a1 x : decode c a = (c1, a1, Ok (Some x)) -> (measure c1 a1 < measure c a)%nat;
  sd_bound c a : (measure c a <= 2 + length a)%nat;
}.

Context `{HD : StreamDecoder measure}.

Lemma drain_fuel n m c src : (measure c src < n)%nat -> (measure c src < m)%nat -> drain n c src = drain m c src.
Proof.
  revert m c src. induction n as [|n IH]; intros m c src Hn Hm; [lia|]. destruct m as [|m]; [lia|].
  cbn [drain]. destruct (decode c src) as [[c1 a1] r] eqn:Hd.
  destruct r as [[x|]| |]; try done. apply sd_measure in Hd. rewrite (IH m); [done|lia|lia].
Qed.
Lemma drain_S n c src : drain (S n) c src =
  let '(c1, a1, r) := decode c src in
  match r with
  | Ok (Some x) => let '(xs, c, src, s) := drain n c1 a1 in (x :: xs, c, src, s)
  | Ok None => ([], c1, a1, More)
  | Err e => ([], c1, a1, Failed e)
  | Panic => ([], c1, a1, Panicked)
  end.
Proof. reflexivity. Qed.
Lemma drain_all_step c src : drain_all c src =
  let '(c1, a1, r) := decode c src in
  match r with
  | Ok (Some x) => let '(xs, c, src, s) := drain_all c1 a1 in (x :: xs, c, src, s)
  | Ok None => ([], c1, a1, More)
  | Err e => ([], c1, a1, Failed e)
  | Panic => ([], c1, a1, Panicked)
  end.
Proof.
  unfold drain_all at 1. change (3 + length src)%nat with (S (2 + length src)). rewrite drain_S.
  destruct (decode c src) as [[c1 a1] r] eqn:Hd.
  destruct r as [[x|]| |]; try done. apply sd_measure in Hd.
  pose proof (sd_bound c src). pose proof (sd_bound c1 a1).
  unfold drain_all. by rewrite (drain_fuel _ (3 + length a1) c1 a1) by lia.
Qed.

(** Fuel is never the reason the loop stops. *)
Lemma drain_all_fuel n : forall c a xs c1 a1 s, (measure c a < n)%nat ->
  drain_all c a = (xs, c1, a1, s) -> s <> OutOfFuel.
Proof.
  induction n as [|n IH]; intros c a xs c1 a1 s Hn; [lia|]. rewrite drain_all_step.
  destruct (decode c a) as [[c' a'] r] eqn:Hd. destruct r as [[x|]| |]; try by intros [= <- <- <- <-].
  destruct (drain_all c' a') as [[[ys cy] ay] sy] eqn:Hdr. intros [= <- <- <- <-].
  apply sd_measure in Hd. eapply IH; [|done]. lia.
Qed.

Lemma drain_app n : forall c a b xs c1 a1, (measure c a < n)%nat ->
  drain_all c a = (xs, c1, a1, More) ->
  drain_all c (a ++ b) = let '(ys, c2, a2, s) := drain_all c1 (a1 ++ b) in (xs ++ ys, c2, a2, s).
Proof.
  induction n as [|n IH]; intros c a b xs c1 a1 Hn; [lia|]. rewrite (drain_all_step c a).
  destruct (decode c a) as [[c' a'] r] eqn:Hd. destruct r as [[x|]| |]; try done.
  - destruct (drain_all c' a') as [[[ys cy] ay] sy] eqn:Hdr. intros [= <- <- <- ->].
    rewrite drain_all_step, (sd_item _ _ b _ _ _ Hd).
    pose proof (sd_measure _ _ _ _ _ Hd).
    rewrite (IH c' a' b ys cy ay) by (done || lia). by destruct (drain_all cy (ay ++ b)) as [[[? ?] ?] ?].
  - intros [= <- <- <-]. rewrite (drain_all_step c), (drain_all_step c'), (sd_more _ _ b _ _ Hd).
    destruct (decode c' (a' ++ b)) as [[? ?] [[]| |]]; try done. by destruct (drain_all _ _) as [[[? ?] ?] ?].
Qed.

(** A drained decoder asks for more, a failed one has failed on the longer stream too. *)
Lemma drain_quiet n : forall c a xs c1 a1, (measure c a < n)%nat ->
  drain_all c a = (xs, c1, a1, More) -> drain_all c1 a1 = ([], c1, a1, More).
Proof.
  induction n as [|n IH]; intros c a xs c1 a1 Hn; [lia|]. rewrite (drain_all_step c a).
  destruct (decode c a) as [[c' a'] r] eqn:Hd. destruct r as [[x|]| |]; try done.
  - destruct (drain_all c' a') as [[[ys cy] ay] sy] eqn:Hdr. intros [= <- <- <- ->].
    pose proof (sd_measure _ _ _ _ _ Hd). eapply IH; [|done]. lia.
  - intros [= <- <- <-]. rewrite drain_all_step. pose proof (sd_more _ _ [] _ _ Hd) as Hr.
    rewrite !app_nil_r, Hd in Hr. by rewrite <- Hr.
Qed.
Lemma drain_failed_app n : forall c a b ys cy ay s, (measure c a < n)%nat ->
  drain_all c a = (ys, cy, ay, s) -> s <> More ->
  exists zs cz az s', drain_all c (a ++ b) = (zs, cz, az, s') /\ s' <> More.
Proof.
  induction n as [|n IH]; intros c a b ys cy ay s Hn; [lia|].
  rewrite (drain_all_step c a). destruct (decode c a) as [[c' a'] r] eqn:Hd. destruct r as [[x|]|e|].
  - destruct (drain_all c' a') as [[[zs cz] az] sz] eqn:Hdr. intros [= <- <- <- <-] Hs.
    pose proof (sd_measure _ _ _ _ _ Hd).
    destruct (IH c' a' b zs cz az sz ltac:(lia) Hdr Hs) as (? & ? & ? & ? & Hz & ?).
    rewrite drain_all_step, (sd_item _ _ b _ _ _ Hd), Hz. eauto 6.
  - by intros [= <- <- <- <-].
  - intros [= <- <- <- <-] _. destruct (sd_fail _ _ b _ _ _ Hd) as [a2 Ha]; [done|].
    rewrite drain_all_step, Ha. by eexists _, _, _, _.
  - intros [= <- <- <- <-] _. destruct (sd_fail _ _ b _ _ _ Hd) as [a2 Ha]; [done|].
    rewrite drain_all_step, Ha. by eexists _, _, _, _.
Qed.

(** A stream that drains completely is read the same in any chunks. *)
Lemma feed_drain chunks : forall c buf xs c1 rest,
  drain_all c buf = ([], c, buf, More) ->
  drain_all c (buf ++ concat chunks) = (xs, c1, rest, More) -> feed c buf chunks = (xs, c1, rest, More).
Proof.
  induction chunks as [|k chunks IH]; intros c buf xs c1 rest Hq Hd; cbn [feed concat] in *.
  - rewrite app_nil_r, Hq in Hd. by injection Hd as <- <- <-.
  - rewrite app_assoc in Hd. destruct (drain_all c (buf ++ k)) as [[[ys cy] by_] s] eqn:Hk.
    assert (s = More \/ s <> More) as [->|Hs] by (destruct s; auto).
    + rewrite (drain_app _ _ _ _ _ _ _ (Nat.lt_succ_diag_r _) Hk) in Hd.
      destruct (drain_all cy (by_ ++ concat chunks)) as [[[zs cz] bz] sz] eqn:Hz.
      injection Hd as <- <- <- ->. rewrite (IH cy by_ zs cz bz); [done| |done].
      by eapply drain_quiet; [apply Nat.lt_succ_diag_r|].
    + destruct (drain_failed_app _ _ _ (concat chunks) _ _ _ _ (Nat.lt_succ_diag_r _) Hk Hs)
        as (? & ? & ? & ? & Hf & ?). congruence.
Qed.
End Framed.
