(* ===== verification/Derp.v ===== *)
(** * The DERP relay client (derp/tailscale-derp/src/derp_codec.rs, derp_client.rs)

    The frame codec of the connection to a DERP server, its client handshake, and the limit on
    packets sent. The codec is a [Decoder] driven by a framed stream: [decode] is called on the
    buffered bytes until it asks for more. NaCl boxes, JSON and HTTP parsing are crates:
    arguments of the definitions that use them. *)

From S2P Require Import Prelude Bytes Framed.

Module Derp.

Inductive Error :=
| MaxPacket
| IoError
| TlsError
| BoxError
| WsHandshakeError
| ErrorMsg
| HttpError
| MaxFrameLength (len : Z)
| InvalidServerKey
| InvalidKey
| EncodeError
| NoServerKey
| EncryptError
| DecryptError
| NotConnect
| SendError
| HandshakeError.

(** "DERP" and the key emoji. *)
Definition MAGIC : bytes := [x44; x45; x52; x50; xf0; x9f; x94; x91].
Definition PROTOCOL_VERSION : Z := 2.
Definition KEY_LEN : nat := 32.
Definition MAX_PACKET_SIZE : Z := Z.shiftl 64 10.

Record ServerInfo := mkServerInfo { si_version : Z }.

Inductive DerpResponse :=
| Ws
| FrameServerKey_ (key : bytes)
| FrameRecvPacket_ (src : bytes) (data : bytes)
| FramePeerGonePacket (peer : bytes) (reason : byte)
| FrameKeepAlive_
| ServerInfo_ (info : ServerInfo)
| Test.

Record ClientInfo := mkClientInfo {
  version : Z;
  mesh_key : option string;
  can_ack_pings : bool;
  is_prober : bool;
}.
Definition ClientInfo_new (can_ack_pings : bool) : ClientInfo :=
  mkClientInfo PROTOCOL_VERSION None can_ack_pings false.

Inductive DerpRequest :=
| ClientInfo_ (info : ClientInfo)
| SendPacket (dst_key : bytes) (data : bytes)
| TestRequest.

Inductive CmdType :=
| FrameServerKey
| FrameClientInfo
| FrameServerInfo
| FrameSendPacket
| FrameRecvPacket
| FrameKeepAlive
| FramePeerGone
| FrameForwardPacket
| FramePing
| Unknown.

(** [num_enum]'s [IntoPrimitive] (the last variant follows [FramePing]) and [FromPrimitive]
    (everything else is the default). *)
Definition CmdType_into (c : CmdType) : byte :=
  match c with
  | FrameServerKey => x01
  | FrameClientInfo => x02
  | FrameServerInfo => x03
  | FrameSendPacket => x04
  | FrameRecvPacket => x05
  | FrameKeepAlive => x06
  | FramePeerGone => x08
  | FrameForwardPacket => x0a
  | FramePing => x12
  | Unknown => x13
  end.
Definition CmdType_from (b : byte) : CmdType :=
  match b with
  | x01 => FrameServerKey
  | x02 => FrameClientInfo
  | x03 => FrameServerInfo
  | x04 => FrameSendPacket
  | x05 => FrameRecvPacket
  | x06 => FrameKeepAlive
  | x08 => FramePeerGone
  | x0a => FrameForwardPacket
  | x12 => FramePing
  | _ => Unknown
  end.

Record Header := mkHeader { cmd_type : CmdType; len : Z }.

(** crypto_box: [salsa_encrypt pk sk nonce data] seals for the holder of [pk]. serde_json: the
    text of a [ClientInfo], the version in a server info. httparse: an error, a partial
    response, or the length of the head and its status code. *)
Class DerpLibs := {
  salsa_encrypt : bytes -> bytes -> bytes -> bytes -> option bytes;
  salsa_decrypt : bytes -> bytes -> bytes -> bytes -> option bytes;
  client_info_json : ClientInfo -> option bytes;
  server_info_of_json : bytes -> option ServerInfo;
  http_response : bytes -> option (option (nat * Z));
}.

(** [salsa_box] is the key pair the box was made from. *)
Record DerpCodec := mkDerpCodec {
  to_ws_response : bool;
  private_key : bytes;
  public_key : bytes;
  salsa_box : option (bytes * bytes);
  header : option Header;
}.

Definition DerpCodec_new (public_key private_key : bytes) (fast_connect : bool) : DerpCodec :=
  mkDerpCodec (negb fast_connect) private_key public_key None None.

Definition set_header (c : DerpCodec) (h : option Header) : DerpCodec :=
  mkDerpCodec (to_ws_response c) (private_key c) (public_key c) (salsa_box c) h.
Definition set_box (c : DerpCodec) (b : option (bytes * bytes)) : DerpCodec :=
  mkDerpCodec (to_ws_response c) (private_key c) (public_key c) b (header c).

Section Codec.
Context `{DerpLibs}.

(** [nonce] is the 24 random bytes drawn. *)
Definition encrypt_data (nonce : bytes) (c : DerpCodec) (data : bytes) : res Error (bytes * bytes) :=
  '(pk, sk) ← ok_or NoServerKey (salsa_box c);
  e ← ok_or EncryptError (salsa_encrypt pk sk nonce data);
  Ok (nonce, e).

(** [data[..24]] panics on less. *)
Definition decrypt_data (c : DerpCodec) (data : bytes) : res Error bytes :=
  nonce ← slice 0 24 data;
  '(pk, sk) ← ok_or NoServerKey (salsa_box c);
  body ← slice_from 24 data;
  ok_or DecryptError (salsa_decrypt pk sk nonce body).

(** [copy_from_slice] panics when the rest of the frame is not 32 bytes; [from_slice] then
    succeeds on 32 bytes, and the private key has 32. *)
Definition decode_frame (c : DerpCodec) (h : Header) (data : bytes) : DerpCodec * res Error (option DerpResponse) :=
  match cmd_type h with
  | FrameServerKey =>
      match slice_from (E := Error) (length MAGIC) data with
      | Ok key =>
          if (length key =? 32)%nat then
            if (length (private_key c) =? 32)%nat then
              (set_box c (Some (key, private_key c)), Ok (Some (FrameServerKey_ key)))
            else (c, Err InvalidKey)
          else (c, Panic)
      | _ => (c, Panic)
      end
  | FrameServerInfo =>
      (c, data ← decrypt_data c data;
          info ← ok_or ErrorMsg (server_info_of_json data);
          Ok (Some (ServerInfo_ info)))
  | FrameKeepAlive => (c, Ok (Some FrameKeepAlive_))
  | FrameRecvPacket =>
      (c, src_key ← slice 0 KEY_LEN data;
          data ← slice_from KEY_LEN data;
          Ok (Some (FrameRecvPacket_ src_key data)))
  | FramePeerGone =>
      (c, peer ← slice 0 KEY_LEN data;
          reason ← index KEY_LEN data;
          Ok (Some (FramePeerGonePacket peer reason)))
  | _ => (c, Ok (Some Test))
  end.

Definition validate_server_response (data : bytes) : res Error (option nat) :=
  match http_response data with
  | None => Err HttpError
  | Some None => Ok None
  | Some (Some (response_len, code)) =>
      if negb (code =? 101) then Err ErrorMsg else Ok (Some response_len)
  end.

(** The second half of [decode]: a header is known, the codec's is taken. *)
Definition decode_body (c : DerpCodec) (h : Header) (src : bytes)
    : DerpCodec * bytes * res Error (option DerpResponse) :=
  if Z.of_nat (length src) <? len h then (set_header c (Some h), src, Ok None)
  else
    let '(c, r) := decode_frame c h (take (Z.to_nat (len h)) src) in
    (c, drop (Z.to_nat (len h)) src, r).

Definition decode (c : DerpCodec) (src : bytes) : DerpCodec * bytes * res Error (option DerpResponse) :=
  if to_ws_response c then
    match validate_server_response src with
    | Ok (Some response_len) =>
        (mkDerpCodec false (private_key c) (public_key c) (salsa_box c) (header c),
         drop response_len src, Ok (Some Ws))
    | Ok None => (c, src, Ok None)
    | Err e => (c, src, Err e)
    | Panic => (c, src, Panic)
    end
  else
    match header c with
    | Some h => decode_body (set_header c None) h src
    | None =>
        match src with
        | b0 :: b1 :: b2 :: b3 :: b4 :: src =>
            let tb := CmdType_from b0 in
            let n := be_val [b1; b2; b3; b4] in
            if Z.shiftl 1 20 <? n then (c, src, Err (MaxFrameLength n))
            else decode_body c (mkHeader tb n) src
        | _ => (c, src, Ok None)
        end
    end.

(** [dst.put_u8; dst.put_u32; dst.put(data)]. *)
Definition write_frame (dst : bytes) (cmd : CmdType) (data : bytes) : bytes :=
  dst ++ [CmdType_into cmd] ++ be_bytes 4 (wrap 32 (Z.of_nat (length data))) ++ data.

Definition encode (nonce : bytes) (c : DerpCodec) (item : DerpRequest) (dst : bytes) : res Error bytes :=
  match item with
  | ClientInfo_ info =>
      info_json ← ok_or EncodeError (client_info_json info);
      '(nonce, sealed) ← encrypt_data nonce c info_json;
      Ok (write_frame dst FrameClientInfo (public_key c ++ nonce ++ sealed))
  | SendPacket dst_key data => Ok (write_frame dst FrameSendPacket (dst_key ++ data))
  | TestRequest => Ok dst
  end.

End Codec.

(** ** derp_client.rs *)

(** [open] is whether the request channel still has a receiver. *)
Definition send_to (open : bool) (dst data : bytes) : res Error DerpRequest :=
  if MAX_PACKET_SIZE <? Z.of_nat (length data) then Err MaxPacket
  else if open then Ok (SendPacket dst data) else Err SendError.

(** The client handshake on the items the stream yields: the requests sent and, when it
    returns, the items left. Every item but an error keeps it going; so does the end of the
    stream, which returns the stream as a success. *)
Fixpoint await_handshake (items : list (Error + DerpResponse)) : list DerpRequest * res Error (list (Error + DerpResponse)) :=
  match items with
  | [] => ([], Ok [])
  | inl _ :: _ => ([], Err HandshakeError)
  | inr n :: items =>
      match n with
      | FrameServerKey_ _ =>
          let '(tx, r) := await_handshake items in (ClientInfo_ (ClientInfo_new false) :: tx, r)
      | ServerInfo_ _ => ([], Ok items)
      | _ => await_handshake items
      end
  end.

(** ** Lemmas *)

(** httparse reads the head of a response and nothing after it: what it found in a prefix of
    the stream it finds in the stream, and what it cannot read it cannot read with more. *)
Class DerpLaws `{DerpLibs} : Prop := {
  http_head a b n code : http_response a = Some (Some (n, code)) ->
    (n <= length a)%nat /\ http_response (a ++ b) = Some (Some (n, code));
  http_error a b : http_response a = None -> http_response (a ++ b) = None;
}.

Section Facts.
Context `{DerpLaws}.

Lemma set_header_id c h : header c = h -> set_header c h = c.
Proof. intros <-. by destruct c. Qed.
Lemma decode_frame_header c h data : header (decode_frame c h data).1 = header c.
Proof.
  unfold decode_frame. destruct (cmd_type h); try done. destruct (slice_from _ _); try done.
  repeat case_match; done.
Qed.
Lemma decode_frame_ws c h data : to_ws_response (decode_frame c h data).1 = to_ws_response c.
Proof.
  unfold decode_frame. destruct (cmd_type h); try done. destruct (slice_from _ _); try done.
  repeat case_match; done.
Qed.

Lemma decode_frame_some c h data cf : decode_frame c h data <> (cf, Ok None).
Proof.
  unfold decode_frame. destruct (cmd_type h); try done.
  - destruct (slice_from _ _); try done. repeat case_match; done.
  - intros [= _ Hr]. repeat (apply bind_Ok_inv in Hr as (? & ? & Hr)). done.
  - intros [= _ Hr]. repeat (apply bind_Ok_inv in Hr as (? & ? & Hr)). done.
  - intros [= _ Hr]. repeat (apply bind_Ok_inv in Hr as (? & ? & Hr)). done.
Qed.

(** What [decode] found in the buffer it finds in a longer one, and leaves the rest. *)
Lemma decode_body_app c h a b c1 a1 r : decode_body c h a = (c1, a1, r) -> r <> Ok None ->
  decode_body c h (a ++ b) = (c1, a1 ++ b, r).
Proof.
  unfold decode_body. rewrite length_app. destruct (Z.ltb_spec (Z.of_nat (length a)) (len h)).
  { intros [= <- <- <-]. done. }
  intros Hd _. destruct (Z.ltb_spec (Z.of_nat (length a + length b)) (len h)); [lia|].
  rewrite take_app_le, drop_app_le by lia. destruct (decode_frame _ _ _). by injection Hd as <- <- <-.
Qed.
Lemma decode_app c a b c1 a1 x : decode c a = (c1, a1, Ok (Some x)) ->
  decode c (a ++ b) = (c1, a1 ++ b, Ok (Some x)).
Proof.
  unfold decode. destruct (to_ws_response c).
  - unfold validate_server_response. destruct (http_response a) as [[[n code]|]|] eqn:Hh; try done.
    destruct (http_head a b n code Hh) as [Hn ->]. destruct (negb _); [done|].
    intros [= <- <- <-]. by rewrite drop_app_le.
  - destruct (header c) as [h|]; [intros Hd; by apply (decode_body_app _ _ _ b) in Hd|].
    destruct a as [|b0 [|b1 [|b2 [|b3 [|b4 a]]]]]; try done. cbn [app].
    destruct (_ <? _); [done|]. intros Hd. by apply (decode_body_app _ _ _ b) in Hd.
Qed.
(** A [decode] that asked for more resumes where it stopped. *)
Lemma decode_resume c a b c1 a1 : decode c a = (c1, a1, Ok None) ->
  decode c (a ++ b) = decode c1 (a1 ++ b).
Proof.
  assert (forall c h a c1 a1, decode_body c h a = (c1, a1, Ok None) -> c1 = set_header c (Some h) /\ a1 = a \/
    exists cf, decode_frame c h (take (Z.to_nat (len h)) a) = (cf, Ok None)) as Hbody.
  { clear. intros c h a c1 a1. unfold decode_body. destruct (_ <? _); [intros [= <- <-]; auto|].
    destruct (decode_frame _ _ _) as [cf rf] eqn:Hf. intros [= <- <- ->]. eauto. }
  unfold decode. destruct (to_ws_response c) eqn:Hws.
  - destruct (validate_server_response a) as [[n|]| |]; try done. intros [= <- <-]. by rewrite Hws.
  - destruct (header c) as [h|] eqn:Hh.
    + intros [[-> ->]|[cf Hf]]%Hbody; [|by apply decode_frame_some in Hf]. cbn [to_ws_response set_header header].
      rewrite Hws. by rewrite <- (set_header_id c (Some h)) at 1.
    + destruct a as [|b0 [|b1 [|b2 [|b3 [|b4 a]]]]]; try (intros [= <- <-]; by rewrite Hws, Hh).
      destruct (_ <? _) eqn:Hlen; [done|].
      intros [[-> ->]|[cf Hf]]%Hbody; [|by apply decode_frame_some in Hf]. cbn [to_ws_response set_header header app].
      rewrite Hws, Hlen. f_equal. by destruct c; simpl in *; subst.
Qed.

(** Each item takes something off the stream or moves the codec on, so the loop ends. *)
Definition measure (c : DerpCodec) (src : bytes) : nat :=
  length src + (if header c then 1 else 0) + (if to_ws_response c then 1 else 0).
Lemma decode_measure c a c1 a1 x : decode c a = (c1, a1, Ok (Some x)) -> (measure c1 a1 < measure c a)%nat.
Proof.
  unfold decode, measure. destruct (to_ws_response c) eqn:Hws.
  - destruct (validate_server_response a) as [[n|]| |]; try done. intros [= <- <- <-]. cbn.
    rewrite length_drop. lia.
  - assert (forall c h a c1 a1, header c = None -> to_ws_response c = false ->
      decode_body c h a = (c1, a1, Ok (Some x)) ->
      header c1 = None /\ to_ws_response c1 = false /\ (length a1 <= length a)%nat) as Hbody.
    { clear. intros c h a c1 a1 Hh Hws. unfold decode_body. destruct (_ <? _); [done|].
      pose proof (decode_frame_header c h (take (Z.to_nat (len h)) a)).
      pose proof (decode_frame_ws c h (take (Z.to_nat (len h)) a)).
      destruct (decode_frame _ _ _) as [cf rf]. cbn in *. intros [= <- <- ->]. rewrite length_drop.
      split_and!; [congruence|congruence|lia]. }
    destruct (header c) as [h|] eqn:Hh.
    + intros (-> & -> & ?)%Hbody; [lia|done..].
    + destruct a as [|b0 [|b1 [|b2 [|b3 [|b4 a]]]]]; try done. destruct (_ <? _); [done|].
      intros (-> & -> & ?)%Hbody; [cbn [length]; lia|done..].
Qed.

(** A failure is final. *)
Lemma decode_fail_app c a b c1 a1 r : decode c a = (c1, a1, r) -> (forall o, r <> Ok o) ->
  exists a2, decode c (a ++ b) = (c1, a2, r).
Proof.
  intros Hd Hr. revert Hd. unfold decode. destruct (to_ws_response c).
  - unfold validate_server_response. destruct (http_response a) as [[[n code]|]|] eqn:Hh.
    + destruct (http_head a b n code Hh) as [Hn ->]. destruct (negb _); intros [= <- <- <-]; eauto.
    + intros [= <- <- <-]. by destruct (Hr None).
    + rewrite (http_error a b Hh). intros [= <- <- <-]. eauto.
  - destruct (header c) as [h|].
    + intros Hd. apply (decode_body_app _ _ _ b) in Hd; [eauto|done].
    + destruct a as [|b0 [|b1 [|b2 [|b3 [|b4 a]]]]]; try (intros [= <- <- <-]; by destruct (Hr None)).
      cbn [app]. destruct (_ <? _); [intros [= <- <- <-]; eauto|].
      intros Hd. apply (decode_body_app _ _ _ b) in Hd; [eauto|done].
Qed.
#[global] Instance derp_stream : StreamDecoder decode measure.
Proof.
  split.
  - intros *. apply decode_app.
  - intros *. apply decode_resume.
  - intros *. apply decode_fail_app.
  - intros *. apply decode_measure.
  - intros c a. unfold measure. destruct (header c), (to_ws_response c); lia.
Qed.

(** Frames as a server writes them. *)
Definition frame (cmd : CmdType) (data : bytes) : bytes := write_frame [] cmd data.
Lemma decode_frame_bytes c cmd data rest :
  to_ws_response c = false -> header c = None -> Z.of_nat (length data) <= 2 ^ 20 ->
  decode c (frame cmd data ++ rest) =
  let '(c1, r) := decode_frame c (mkHeader cmd (Z.of_nat (length data))) data in (c1, rest, r).
Proof.
  intros Hws Hh Hl. unfold decode. rewrite Hws, Hh. unfold frame, write_frame. cbn [app].
  rewrite wrap_small by (unfold in_u; lia).
  pose proof (length_be_bytes 4 (Z.of_nat (length data))) as Hlen.
  pose proof (be_val_bytes_small 4 (Z.of_nat (length data)) ltac:(unfold in_u; cbn; lia)) as Hval.
  destruct (be_bytes 4 (Z.of_nat (length data))) as [|b1 [|b2 [|b3 [|b4 [|]]]]]; try done. cbn [app].
  rewrite Hval. change (Z.shiftl 1 20) with (2 ^ 20).
  destruct (Z.ltb_spec (2 ^ 20) (Z.of_nat (length data))); [lia|].
  assert (CmdType_from (CmdType_into cmd) = cmd) as -> by by destruct cmd.
  unfold decode_body. cbn [len]. rewrite length_app.
  destruct (Z.ltb_spec (Z.of_nat (length data + length rest)) (Z.of_nat (length data))); [lia|].
  rewrite Nat2Z.id, take_app_length, drop_app_length. done.
Qed.

Lemma decode_long_frame c cmd data rest :
  to_ws_response c = false -> header c = None -> 2 ^ 20 < Z.of_nat (length data) < 2 ^ 32 ->
  decode c (frame cmd data ++ rest) = (c, data ++ rest, Err (MaxFrameLength (Z.of_nat (length data)))).
Proof.
  intros Hws Hh Hl. unfold decode. rewrite Hws, Hh. unfold frame, write_frame. cbn [app].
  rewrite wrap_small by (unfold in_u; lia).
  pose proof (length_be_bytes 4 (Z.of_nat (length data))) as Hlen.
  pose proof (be_val_bytes_small 4 (Z.of_nat (length data)) ltac:(unfold in_u; cbn; lia)) as Hval.
  destruct (be_bytes 4 (Z.of_nat (length data))) as [|b1 [|b2 [|b3 [|b4 [|]]]]]; try done. cbn [app].
  rewrite Hval. change (Z.shiftl 1 20) with (2 ^ 20).
  destruct (Z.ltb_spec (2 ^ 20) (Z.of_nat (length data))); [done|lia].
Qed.
Lemma decode_frame_no_max c h data c1 n : decode_frame c h data <> (c1, Err (MaxFrameLength n)).
Proof.
  unfold decode_frame. destruct (cmd_type h); try done.
  - destruct (slice_from _ _); try done. repeat case_match; done.
  - unfold decrypt_data, slice, slice_from. repeat case_decide; cbn; try done;
      destruct (salsa_box c) as [[? ?]|]; cbn; try done.
    destruct (salsa_decrypt _ _ _ _); cbn; [|done]. by destruct (server_info_of_json _).
  - unfold slice, slice_from. by repeat case_decide.
  - unfold slice. case_decide; [|done]. cbn. unfold index. by destruct (data !! KEY_LEN).
Qed.
Lemma frame_panics c cmd data n : length (private_key c) = 32%nat ->
  (decode_frame c (mkHeader cmd n) data).2 = Panic <->
  match cmd with
  | FrameServerKey => length data <> 40%nat
  | FrameServerInfo => (length data < 24)%nat
  | FrameRecvPacket => (length data < 32)%nat
  | FramePeerGone => (length data < 33)%nat
  | _ => False
  end.
Proof.
  intros Hk. unfold decode_frame. cbn [cmd_type]. destruct cmd; try done.
  - unfold slice_from. change (length MAGIC) with 8%nat. case_decide.
    + destruct (Nat.eqb_spec (length (drop 8 data)) 32) as [Hl|Hl]; rewrite length_drop in Hl.
      * rewrite Hk. cbn. split; [done|lia].
      * cbn. split; [lia|done].
    + cbn. split; [lia|done].
  - unfold decrypt_data, slice, slice_from. repeat case_decide; cbn; try lia.
    + split; [|lia]. destruct (salsa_box c) as [[? ?]|]; cbn; [|done].
      destruct (salsa_decrypt _ _ _ _); cbn; [|done]. by destruct (server_info_of_json _).
    + split; [lia|done].
  - unfold slice, slice_from, KEY_LEN. repeat case_decide; cbn; try lia; (split; [done||lia|done||lia]).
  - unfold slice, index, KEY_LEN. case_decide; cbn.
    + destruct (data !! 32%nat) eqn:Hi; cbn.
      * apply lookup_lt_Some in Hi. split; [done|lia].
      * apply lookup_ge_None in Hi. split; [lia|done].
    + split; [lia|done].
Qed.

Definition recv_frame (p : bytes * bytes) : bytes := frame FrameRecvPacket (p.1 ++ p.2).
Definition packet_ok (p : bytes * bytes) : Prop :=
  length p.1 = KEY_LEN /\ Z.of_nat (length p.2) <= MAX_PACKET_SIZE.

Lemma drain_packets c ps : to_ws_response c = false -> header c = None -> Forall packet_ok ps ->
  drain_all decode c (ps ≫= recv_frame) = ((fun p => FrameRecvPacket_ p.1 p.2) <$> ps, c, [], More).
Proof.
  intros Hws Hh. induction 1 as [|[k d] ps [Hk Hd] _ IH].
  - rewrite (drain_all_step decode (measure := measure)). unfold decode. rewrite Hws, Hh. done.
  - cbn [mbind list_bind]. fold (ps ≫= recv_frame). cbn [fst snd] in *. rewrite (drain_all_step decode (measure := measure)).
    unfold recv_frame at 1. cbn [fst snd]. unfold MAX_PACKET_SIZE in Hd. change (Z.shiftl 64 10) with 65536 in Hd.
    unfold KEY_LEN in Hk. rewrite decode_frame_bytes by (done || (rewrite length_app; lia)).
    unfold decode_frame. cbn [cmd_type]. unfold KEY_LEN.
    rewrite (slice_here 32 k d) by done. cbn [mbind res_bind].
    rewrite slice_from_Ok by (rewrite length_app; lia). cbn [mbind res_bind].
    rewrite (drop_app_length' k d 32) by lia. by rewrite IH.
Qed.

(** C24: packets come through the relay whole and in order, however TCP cuts the stream. A
    connected codec that is fed, in any chunks, the frames of any sequence of packets (32-byte
    source key, at most 64 KiB each, what [send_to] lets a peer send) yields exactly these
    packets in order, ends with an empty buffer and is ready for the next. *)
Theorem derp_stream_delivery c ps chunks :
  to_ws_response c = false -> header c = None -> Forall packet_ok ps ->
  concat chunks = ps ≫= recv_frame ->
  feed decode c [] chunks = ((fun p => FrameRecvPacket_ p.1 p.2) <$> ps, c, [], More).
Proof.
  intros Hws Hh Hps Hc. apply (feed_drain decode (measure := measure)).
  - rewrite (drain_all_step decode (measure := measure)). unfold decode. by rewrite Hws, Hh.
  - cbn [app]. rewrite Hc. by apply drain_packets.
Qed.

(** What a server can do to the decoder with one frame. The frame decoder panics exactly
    on a server key frame that does not hold 40 bytes, a server info of less than 24, a packet
    of less than 32 or a peer-gone notice of less than 33; a frame longer than 1 MiB is an
    error; every other frame of an unknown or unused type is skipped without touching the
    codec. *)
Theorem derp_frame_panics_iff c cmd data rest :
  to_ws_response c = false -> header c = None -> length (private_key c) = 32%nat ->
  Z.of_nat (length data) < 2 ^ 32 ->
  let r := (decode c (frame cmd data ++ rest)).2 in
  (r = Panic <-> Z.of_nat (length data) <= 2 ^ 20 /\
     match cmd with
     | FrameServerKey => length data <> 40%nat
     | FrameServerInfo => (length data < 24)%nat
     | FrameRecvPacket => (length data < 32)%nat
     | FramePeerGone => (length data < 33)%nat
     | _ => False
     end) /\
  (2 ^ 20 < Z.of_nat (length data) <-> r = Err (MaxFrameLength (Z.of_nat (length data)))).
Proof.
  intros Hws Hh Hk Hb r. destruct (decide (Z.of_nat (length data) <= 2 ^ 20)) as [Hl|Hl].
  - unfold r. rewrite decode_frame_bytes by done. split.
    + assert (forall P : Prop, P <-> (Z.of_nat (length data) <= 2 ^ 20 /\ P)) as Hand by tauto.
      rewrite <- Hand. rewrite <- (frame_panics c cmd data (Z.of_nat (length data)) Hk).
      by destruct (decode_frame c _ data).
    + split; [lia|]. intros He. exfalso. revert He.
      destruct (decode_frame c _ data) as [c1 r1] eqn:Hd. cbn [snd]. intros ->.
      by apply decode_frame_no_max in Hd.
  - unfold r. rewrite decode_long_frame by (done || lia). cbn [snd]. split; [|split; [done|lia]].
    split; [done|]. intros [? _]. lia.
Qed.
End Facts.

(** The client handshake. It fails only on a stream error before the server's info, it
    answers every server key with one client info, and it returns the items after the server
    info; but a stream that ends before any server info is reported as a success, with
    nothing left to read. *)
Theorem await_handshake_spec items :
  exists pre, 
    (forall x, x ∈ pre -> exists n, x = inr n /\ forall i, n <> ServerInfo_ i) /\
    (await_handshake items).1 = omap (fun x => match x with
        | inr (FrameServerKey_ _) => Some (ClientInfo_ (ClientInfo_new false)) | _ => None end) pre /\
    ((exists e rest, items = pre ++ inl e :: rest /\ (await_handshake items).2 = Err HandshakeError) \/
     (exists i rest, items = pre ++ inr (ServerInfo_ i) :: rest /\ (await_handshake items).2 = Ok rest) \/
     (items = pre /\ (await_handshake items).2 = Ok [])).
Proof.
  induction items as [|[e|n] items (pre & Hp & Htx & Hr)].
  - exists []. split; [set_solver|]. auto.
  - exists []. split; [set_solver|]. split; [done|]. left. by exists e, items.
  - assert ((exists i, n = ServerInfo_ i) \/ ~ exists i, n = ServerInfo_ i) as [[i ->]|Hn].
    { destruct n as [| | | | |i|]; [right; by intros [??]..|left; eauto|right; by intros [??]]. }
    { exists []. split; [set_solver|]. split; [done|]. right; left. by exists i, items. }
    exists (inr n :: pre). split.
    { intros x [->|Hx]%elem_of_cons; [|eauto]. exists n. split; [done|]. intros i ->. by destruct Hn; exists i. }
    assert ((await_handshake (inr n :: items)).2 = (await_handshake items).2) as Hsnd.
    { cbn [await_handshake]. destruct n; try done; [by destruct (await_handshake items)|by destruct Hn; eexists]. }
    split.
    + cbn [await_handshake]. destruct n; try exact Htx; [destruct (await_handshake items); cbn in *; by rewrite Htx|].
      by destruct Hn; eexists.
    + rewrite Hsnd. destruct Hr as [(e & rest & -> & ?)|[(i & rest & -> & ?)|[-> ?]]]; [left|right; left|auto]; eauto.
Qed.


(** ** Witnesses *)
Module Toy.
Definition head_end (a : bytes) : option nat :=
  match a with
  | x0a :: _ => Some 1%nat
  | _ => None
  end.
(** A response head is one line feed; boxes append the nonce. *)
#[export] Instance libs : DerpLibs := {|
  salsa_encrypt pk sk n d := Some (d ++ n);
  salsa_decrypt pk sk n d := Some (take (length d - 24) d);
  client_info_json i := Some [x7b; x7d];
  server_info_of_json d := Some (mkServerInfo 2);
  http_response a := match a with
    | [] => Some None
    | x0a :: _ => Some (Some (1%nat, 101))
    | _ => None
    end;
|}.
#[export] Instance laws : DerpLaws.
Proof.
  split.
  - intros [|x a] b n code; [done|]. cbn. destruct x; try done. intros [= <- <-]. split; [lia|done].
  - intros [|x a] b; [done|]. cbn. by destruct x.
Qed.
End Toy.

Section Witnesses.
#[local] Existing Instance Toy.libs.
#[local] Existing Instance Toy.laws.
Definition toy_codec : DerpCodec := mkDerpCodec false (replicate 32 x01) (replicate 32 x02) None None.
Definition toy_pkt : bytes * bytes := (replicate 32 x07, [x61; x62; x63]).

(** Two packets, cut inside the header of the first and inside the body of the second. *)
Lemma derp_stream_delivery_witness :
  let s := [toy_pkt; toy_pkt] ≫= recv_frame in
  feed decode toy_codec [] [take 3 s; take 70 (drop 3 s); drop 73 s]
  = ([FrameRecvPacket_ (replicate 32 x07) [x61; x62; x63]; FrameRecvPacket_ (replicate 32 x07) [x61; x62; x63]],
     toy_codec, [], More).
Proof.
  apply (derp_stream_delivery toy_codec [toy_pkt; toy_pkt]).
  - reflexivity.
  - reflexivity.
  - repeat constructor; vm_compute; congruence.
  - vm_compute. reflexivity.
Defined.

Lemma derp_frame_panics_iff_witness :
  (decode toy_codec (frame FrameRecvPacket [x61] ++ [])).2 = Panic.
Proof.
  apply (derp_frame_panics_iff toy_codec FrameRecvPacket [x61] []).
  - reflexivity.
  - reflexivity.
  - reflexivity.
  - vm_compute. reflexivity.
  - split; [vm_compute; congruence|]. cbn. lia.
Defined.
End Witnesses.
End Derp.
