(* ===== verification/DerpConn.v ===== *)
(** * Connecting to a DERP relay (derp/tailscale-derp/src: ssl.rs, derp_utils.rs,
    derp_client.rs; vlinkd/src/transport/proto/relay_transport.rs)

    The TLS wrapper of a stream, the upgrade request, the client that connects, and the relay
    transport that turns a connection into the endpoint of a peer. A connection has two tasks
    that share the codec: the reader, which runs the handshake and then hands out packets, and
    the sender, which empties the channel of requests; [conn_step] is one turn of either, and
    theorems are about every order of turns. The URL parser, TCP, TLS and NaCl are crates:
    arguments of the definitions that use them. *)

From S2P Require Import Prelude Bytes Host Framed Derp.
From stdpp Require Import pretty.
#[local] Open Scope Z_scope.

Module DerpConn.
Import Derp.

(** ** ssl.rs *)

(** The cargo features of the crate; [__ssl] and [__ssl-rustls] are implied ones. *)
Record Features := mkFeatures {
  ssl_native_tls : bool;
  ssl_rustls_webpki_roots : bool;
  ssl_rustls_native_roots : bool;
}.
Definition ssl_rustls (f : Features) : bool := ssl_rustls_webpki_roots f || ssl_rustls_native_roots f.
Definition ssl (f : Features) : bool := ssl_native_tls f || ssl_rustls f.
(** The two [compile_error!]s. *)
Definition compiles (f : Features) : bool :=
  negb (ssl_native_tls f && ssl_rustls f) && negb (ssl_rustls_webpki_roots f && ssl_rustls_native_roots f).

Inductive Poll (A : Type) :=
| Ready (a : A)
| Pending.
Arguments Ready {A} a.
Arguments Pending {A}.

(** A stream of bytes: [Read] and [Write] with [F A := A], what polling an [AsyncRead] and an
    [AsyncWrite] returns with [F := Poll], what awaiting it returns with [F A := A]. An I/O
    error is [inl tt]. *)
Class ByteStream (F : Type -> Type) (W S : Type) := {
  bs_read : S -> nat -> W -> W * F (unit + bytes)%type;
  bs_write : S -> bytes -> W -> W * F (unit + nat)%type;
  bs_flush : S -> W -> W * F (unit + unit)%type;
  bs_shutdown : S -> W -> W * F (unit + unit)%type;
}.

(** native-tls and rustls, over the TCP streams [Tcp]. [load_native_certs] is a store, or an
    error with perhaps a partial store. errors.rs has no conversion for the error of a name
    that is not one: [dns_error] is what a rustls build has to add. *)
Class TlsLibs (W Tcp : Type) := {
  NativeConnector : Type;
  NativeStream : Type;
  native_connector_new : W -> W * (unit + NativeConnector)%type;
  native_connect : NativeConnector -> string -> Tcp -> W -> W * (unit + NativeStream)%type;
  RootStore : Type;
  RustlsConnector : Type;
  RustlsStream : Type;
  TLS_SERVER_ROOTS : RootStore;
  load_native_certs : W -> W * (option RootStore + RootStore)%type;
  store_is_empty : RootStore -> bool;
  rustls_connector : RootStore -> RustlsConnector;
  dns_name_ok : string -> bool;
  dns_error : Error;
  rustls_connect : RustlsConnector -> string -> Tcp -> W -> W * (unit + RustlsStream)%type;
}.

Section Ssl.
Context {W Tcp : Type} `{TlsLibs W Tcp}.
Abbreviation tio := (io W Error).

Inductive Connector :=
| Plain
| NativeTls (c : NativeConnector)
| Rustls (c : RustlsConnector).
Inductive MaybeTlsStream :=
| PlainStream (s : Tcp)
| NativeTlsStream (s : NativeStream)
| RustlsTlsStream (s : RustlsStream).
(** [AsyncConnector] and [AsyncMaybeTlsStream] have the same variants over tokio's types. *)

Definition Connector_fmt (c : Connector) (native_fmt : NativeConnector -> string) : string :=
  match c with
  | Plain => "Connector::Plain"
  | NativeTls c => native_fmt c
  | Rustls _ => "Connector::Rustls"
  end.
Definition AsyncConnector_fmt (c : Connector) (native_fmt : NativeConnector -> string) : string :=
  match c with
  | Plain => "AsyncConnector::Plain"
  | NativeTls c => native_fmt c
  | Rustls _ => "AsyncConnector::Rustls"
  end.

(** Every variant passes the call on to its stream: the asynchronous stream, polled or
    awaited, and below the blocking one. *)
Section Streams.
Context {F : Type -> Type} `{!ByteStream F W Tcp, !ByteStream F W NativeStream, !ByteStream F W RustlsStream}.
Definition poll_read (s : MaybeTlsStream) (n : nat) : W -> W * F (unit + bytes)%type :=
  match s with
  | PlainStream s => bs_read s n
  | NativeTlsStream s => bs_read s n
  | RustlsTlsStream s => bs_read s n
  end.
Definition poll_write (s : MaybeTlsStream) (buf : bytes) : W -> W * F (unit + nat)%type :=
  match s with
  | PlainStream s => bs_write s buf
  | NativeTlsStream s => bs_write s buf
  | RustlsTlsStream s => bs_write s buf
  end.
Definition poll_flush (s : MaybeTlsStream) : W -> W * F (unit + unit)%type :=
  match s with
  | PlainStream s => bs_flush s
  | NativeTlsStream s => bs_flush s
  | RustlsTlsStream s => bs_flush s
  end.
Definition poll_shutdown (s : MaybeTlsStream) : W -> W * F (unit + unit)%type :=
  match s with
  | PlainStream s => bs_shutdown s
  | NativeTlsStream s => bs_shutdown s
  | RustlsTlsStream s => bs_shutdown s
  end.
#[global] Instance maybe_tls_stream : ByteStream F W MaybeTlsStream := {|
  bs_read := poll_read; bs_write := poll_write; bs_flush := poll_flush; bs_shutdown := poll_shutdown;
|}.
End Streams.

Section Blocking.
Context `{!ByteStream (fun A => A) W Tcp, !ByteStream (fun A => A) W NativeStream, !ByteStream (fun A => A) W RustlsStream}.
Definition std_read (s : MaybeTlsStream) (n : nat) : W -> W * (unit + bytes)%type :=
  match s with
  | PlainStream s => bs_read (F := fun A => A) s n
  | NativeTlsStream s => bs_read (F := fun A => A) s n
  | RustlsTlsStream s => bs_read (F := fun A => A) s n
  end.
Definition std_write (s : MaybeTlsStream) (buf : bytes) : W -> W * (unit + nat)%type :=
  match s with
  | PlainStream s => bs_write (F := fun A => A) s buf
  | NativeTlsStream s => bs_write (F := fun A => A) s buf
  | RustlsTlsStream s => bs_write (F := fun A => A) s buf
  end.
Definition std_flush (s : MaybeTlsStream) : W -> W * (unit + unit)%type :=
  match s with
  | PlainStream s => bs_flush (F := fun A => A) s
  | NativeTlsStream s => bs_flush (F := fun A => A) s
  | RustlsTlsStream s => bs_flush (F := fun A => A) s
  end.
End Blocking.

(** The blocks under [#[cfg]], of which a build that compiles has one. *)
Definition rustls_native_connector : tio Connector := fun w =>
  let '(w, r) := load_native_certs w in
  match r with
  | inr store | inl (Some store) =>
      if store_is_empty store then (w, Panic) else (w, Ok (Rustls (rustls_connector store)))
  | inl None => (w, Err IoError)
  end.
Definition new_with_default_tls_config (f : Features) : tio Connector :=
  if negb (ssl f) then mret Plain
  else if ssl_native_tls f then c ← io_map_err (fun _ => TlsError) (sys native_connector_new); mret (NativeTls c)
  else if ssl_rustls_webpki_roots f then mret (Rustls (rustls_connector TLS_SERVER_ROOTS))
  else rustls_native_connector.

(** The blocking connector is configured in the same way. *)
Definition Connector_new_with_default_tls_config (f : Features) : tio Connector := new_with_default_tls_config f.

(** The handshake of [Connector::wrap] fails with the error that keeps the stream, the one of
    [AsyncConnector::wrap] with the library's. A blocking rustls stream shakes hands with its
    first read or write. *)
Definition Connector_wrap (rustls_session : RustlsConnector -> string -> Tcp -> RustlsStream)
    (c : Connector) (domain : string) (stream : Tcp) : tio MaybeTlsStream :=
  match c with
  | Plain => mret (PlainStream stream)
  | NativeTls c => s ← io_map_err (fun _ => WsHandshakeError) (sys (native_connect c domain stream)); mret (NativeTlsStream s)
  | Rustls c =>
      if dns_name_ok domain then mret (RustlsTlsStream (rustls_session c domain stream))
      else pure_res (Err dns_error)
  end.
Definition AsyncConnector_wrap (c : Connector) (domain : string) (stream : Tcp) : tio MaybeTlsStream :=
  match c with
  | Plain => mret (PlainStream stream)
  | NativeTls c => s ← io_map_err (fun _ => TlsError) (sys (native_connect c domain stream)); mret (NativeTlsStream s)
  | Rustls c =>
      if dns_name_ok domain then
        s ← io_map_err (fun _ => IoError) (sys (rustls_connect c domain stream)); mret (RustlsTlsStream s)
      else pure_res (Err dns_error)
  end.
End Ssl.
#[global] Arguments Connector W Tcp {_}.
#[global] Arguments MaybeTlsStream W Tcp {_}.

(** ** derp_utils.rs *)

(** The url crate. [url_host] is the text of the host, [url_domain] its name if it is not an
    address, [url_port] the port or the known one of the scheme. *)
Class UrlLib (W Addr : Type) := {
  Url : Type;
  url_parse : string -> option Url;
  url_scheme : Url -> string;
  url_path : Url -> string;
  url_query : Url -> option string;
  url_host : Url -> option string;
  url_domain : Url -> option string;
  url_port : Url -> option Z;
  url_socket_addrs : Url -> W -> W * (unit + list Addr)%type;
}.

Definition CRLF : string := String (Ascii.ascii_of_nat 13) (String (Ascii.ascii_of_nat 10) EmptyString).

Section Utils.
Context {W Addr : Type} `{UrlLib W Addr}.

Definition header_lines (headers : list (string * string)) : string :=
  foldr (fun '(name, value) s => name +:+ ": " +:+ value +:+ CRLF +:+ s) "" headers.
Definition build_request (url : Url) (headers : list (string * string)) : string :=
  "GET " +:+ url_path url +:+ (match url_query url with Some query => "?" +:+ query | None => "" end) +:+
  " HTTP/1.1" +:+ CRLF +:+
  match url_host url with
  | Some host => "Host: " +:+ host +:+ (match url_port url with Some port => ":" +:+ pretty port | None => "" end) +:+ CRLF
  | None => ""
  end +:+
  "Upgrade: websocket" +:+ CRLF +:+ "Connection: Upgrade" +:+ CRLF +:+ "Sec-WebSocket-Version: 13" +:+ CRLF +:+
  header_lines headers +:+ CRLF.

Definition resolve (url : Url) : io W Error Addr :=
  addrs ← io_map_err (fun _ => IoError) (sys (url_socket_addrs url));
  pure_res (ok_or ErrorMsg (head addrs)).
End Utils.

(** ** derp_client.rs: connecting *)

(** The rest of what [async_connect] uses: TCP, and the public key of a NaCl secret. *)
Class NetLib (W Addr Tcp : Type) := {
  tcp_connect : Addr -> W -> W * (unit + Tcp)%type;
  secret_public : bytes -> bytes;
}.

Section Connect.
Context {W Addr Tcp : Type} `{!TlsLibs W Tcp, !UrlLib W Addr, !NetLib W Addr Tcp}.
Context `{!ByteStream (fun A => A) W Tcp, !ByteStream (fun A => A) W NativeStream, !ByteStream (fun A => A) W RustlsStream}.

(** [rx] is whether the receiver of the request channel is still there to be taken. *)
Record DerpClient := mkDerpClient { dc_key : bytes; server_url : Url; rx : bool }.
Definition DerpClient_new (key : bytes) (url : string) : option DerpClient :=
  url ← url_parse url; Some (mkDerpClient key url true).

(** [DerpClient::send] is [send_to] on the client's own channel. *)
Definition DerpClient_send (open : bool) (c : DerpClient) (dst data : bytes) : res Error DerpRequest := send_to open dst data.

(** [AsyncWriteExt::write_all]: a write that takes nothing is an error. Every other one
    leaves less to write, so the length of the buffer is enough fuel. *)
Fixpoint write_all_loop (fuel : nat) (s : MaybeTlsStream W Tcp) (buf : bytes) : io W Error unit :=
  match buf, fuel with
  | [], _ => mret tt
  | _, O => pure_res (Err IoError)
  | _, S fuel =>
      n ← io_map_err (fun _ => IoError) (sys (bs_write (F := fun A => A) s buf));
      if (n =? 0)%nat then pure_res (Err IoError) else write_all_loop fuel s (drop n buf)
  end.
Definition write_all (s : MaybeTlsStream W Tcp) (buf : bytes) : io W Error unit := write_all_loop (length buf) s buf.

(** The connection as [async_connect] has it when it starts to wait for the handshake: the
    stream, upgraded and with the request written, and a fresh codec. *)
Definition open_stream (f : Features) (c : DerpClient) : io W Error (MaybeTlsStream W Tcp * DerpCodec) :=
  let url := server_url c in
  addr ← resolve url;
  stream ← io_map_err (fun _ => IoError) (sys (tcp_connect addr));
  connector ← (if String.eqb (url_scheme url) "wss" then new_with_default_tls_config f else mret Plain);
  stream ← AsyncConnector_wrap connector (default "" (url_domain url)) stream;
  _ ← write_all stream (String.list_byte_of_string (build_request url []));
  mret (stream, DerpCodec_new (secret_public (dc_key c)) (dc_key c) false).
(** The first half of [async_connect], up to the task it spawns: [rx.take().unwrap()] panics
    when the receiver was taken. The client's own state changes with its host. *)
Definition async_connect_start (f : Features) : io (W * DerpClient) Error (MaybeTlsStream W Tcp * DerpCodec) :=
  fun '(w, c) =>
    match open_stream f c w with
    | (w, Ok conn) => if rx c then ((w, mkDerpClient (dc_key c) (server_url c) false), Ok conn) else ((w, c), Panic)
    | (w, Err e) => ((w, c), Err e)
    | (w, Panic) => ((w, c), Panic)
    end.
End Connect.

(** ** derp_client.rs: the connection *)

(** The reader waits for the handshake, reads ([async_connect] has returned its stream), has
    seen the end of the stream, has failed the handshake, or panicked in the codec. *)
Inductive Reader := Shaking | Reading | Ended | Refused | Crashed.

(** [cn_wait]: the handshake waits for room to send the client info. [cn_sending]: the sender
    task runs, so the channel has a receiver. [cn_sent] are the frames written after the
    request, [cn_items] what the returned stream has yielded. *)
Record Conn := mkConn {
  cn_codec : DerpCodec;
  cn_buf : bytes;
  cn_eof : bool;
  cn_reader : Reader;
  cn_wait : bool;
  cn_queue : list DerpRequest;
  cn_sending : bool;
  cn_sent : list bytes;
  cn_items : list DerpResponse;
}.
Definition Conn_new (codec : DerpCodec) : Conn := mkConn codec [] false Shaking false [] true [] [].
(** [mpsc::channel(32)]. *)
Definition CHANNEL : nat := 32.

Inductive ConnEv :=
| Arrive (k : bytes)
| Close
| Next
| SendTurn (nonce : bytes) (ok : bool)
| Stage (r : DerpRequest).

Definition set_reader (c : Conn) (r : Reader) : Conn :=
  mkConn (cn_codec c) (cn_buf c) (cn_eof c) r (cn_wait c) (cn_queue c) (cn_sending c) (cn_sent c) (cn_items c).
Definition set_input (c : Conn) (codec : DerpCodec) (buf : bytes) : Conn :=
  mkConn codec buf (cn_eof c) (cn_reader c) (cn_wait c) (cn_queue c) (cn_sending c) (cn_sent c) (cn_items c).
(** [Sender::send]: without a receiver it fails, without room it waits. *)
Definition push (c : Conn) (r : DerpRequest) : Conn :=
  if cn_sending c && (length (cn_queue c) <? CHANNEL)%nat then
    mkConn (cn_codec c) (cn_buf c) (cn_eof c) (cn_reader c) (cn_wait c) (cn_queue c ++ [r]) (cn_sending c) (cn_sent c) (cn_items c)
  else c.
Definition push_info (c : Conn) : Conn :=
  let c' := push c (ClientInfo_ (ClientInfo_new false)) in
  mkConn (cn_codec c') (cn_buf c') (cn_eof c') (cn_reader c') (cn_sending c && negb (length (cn_queue c) <? CHANNEL)%nat)
    (cn_queue c') (cn_sending c') (cn_sent c') (cn_items c').

(** What the reader does with an item: one turn of [await_handshake], then the items are for
    whoever has the stream. *)
Definition on_item (c : Conn) (x : DerpResponse) : Conn :=
  match cn_reader c with
  | Shaking =>
      match x with
      | FrameServerKey_ _ => push_info c
      | ServerInfo_ _ => set_reader c Reading
      | _ => c
      end
  | _ => mkConn (cn_codec c) (cn_buf c) (cn_eof c) (cn_reader c) (cn_wait c) (cn_queue c) (cn_sending c) (cn_sent c) (cn_items c ++ [x])
  end.
(** An error item ends the stream, and refuses the handshake. *)
Definition on_error (c : Conn) : Conn :=
  match cn_reader c with
  | Shaking => set_reader c Refused
  | _ => set_reader c Ended
  end.

Section Connection.
Context `{DerpLibs}.

(** [stream.next()]: an item of the buffer, or the end. What is left when the stream ends is
    an error; the end itself lets the handshake succeed. *)
Definition next_item (c : Conn) : Conn :=
  let '(codec, buf, r) := decode (cn_codec c) (cn_buf c) in
  let c := set_input c codec buf in
  match r with
  | Ok (Some x) => on_item c x
  | Ok None => if negb (cn_eof c) then c else if (length buf =? 0)%nat then set_reader c Ended else on_error c
  | Err _ => on_error c
  | Panic => set_reader c Crashed
  end.
(** One turn of the spawned task: the next request is encoded and written, a failure ends the
    task and drops the receiver with what is queued. *)
Definition send_turn (nonce : bytes) (ok : bool) (c : Conn) : Conn :=
  match cn_queue c with
  | r :: q =>
      match encode nonce (cn_codec c) r [] with
      | Ok frame =>
          if ok then
            mkConn (cn_codec c) (cn_buf c) (cn_eof c) (cn_reader c) (cn_wait c) q (cn_sending c) (cn_sent c ++ [frame]) (cn_items c)
          else mkConn (cn_codec c) (cn_buf c) (cn_eof c) (cn_reader c) (cn_wait c) [] false (cn_sent c) (cn_items c)
      | _ => mkConn (cn_codec c) (cn_buf c) (cn_eof c) (cn_reader c) (cn_wait c) [] false (cn_sent c) (cn_items c)
      end
  | [] => c
  end.
Definition conn_step (c : Conn) (ev : ConnEv) : Conn :=
  match ev with
  | Arrive k => if cn_eof c then c else set_input c (cn_codec c) (cn_buf c ++ k)
  | Close => mkConn (cn_codec c) (cn_buf c) true (cn_reader c) (cn_wait c) (cn_queue c) (cn_sending c) (cn_sent c) (cn_items c)
  | Next =>
      match cn_reader c with
      | Shaking => if cn_wait c then push_info c else next_item c
      | Reading => next_item c
      | _ => c
      end
  | SendTurn nonce ok => if cn_sending c then send_turn nonce ok c else c
  | Stage r => push c r
  end.
Definition conn_run (c : Conn) (evs : list ConnEv) : Conn := foldl conn_step c evs.
Definition arrivals (evs : list ConnEv) : bytes := evs ≫= (fun ev => match ev with Arrive k => k | _ => [] end).

(** The items a stream holds. *)
Inductive yields : DerpCodec -> bytes -> list DerpResponse -> Prop :=
| yields_nil c s c1 s1 : decode c s = (c1, s1, Ok None) -> yields c s []
| yields_cons c s c1 s1 x xs : decode c s = (c1, s1, Ok (Some x)) -> yields c1 s1 xs -> yields c s (x :: xs).
End Connection.

Section Reading.
Context `{DerpLaws}.

(** Reading a prefix of a stream gives its first item, or changes nothing of what it holds. *)
Lemma yields_next c a b xs c1 a1 r : yields c (a ++ b) xs -> decode c a = (c1, a1, r) ->
  r = Ok None /\ yields c1 (a1 ++ b) xs \/
  exists x xs', r = Ok (Some x) /\ xs = x :: xs' /\ yields c1 (a1 ++ b) xs'.
Proof.
  intros Hy Hd. destruct r as [[x|]|e|].
  - right. apply (decode_app _ _ b) in Hd. destruct Hy as [c s c' s' Hn|c s c' s' y ys Hn Hy]; rewrite Hd in Hn; [done|].
    injection Hn as -> -> ->. eauto.
  - left. split; [done|]. apply (decode_resume _ _ b) in Hd. destruct Hy as [c s c' s' Hn|c s c' s' y ys Hn Hy].
    + rewrite Hd in Hn. by eapply yields_nil.
    + rewrite Hd in Hn. by eapply yields_cons.
  - destruct (decode_fail_app _ _ b _ _ _ Hd) as [a2 Ha]; [done|]. destruct Hy as [c s c' s' Hn|c s c' s' y ys Hn Hy]; congruence.
  - destruct (decode_fail_app _ _ b _ _ _ Hd) as [a2 Ha]; [done|]. destruct Hy as [c s c' s' Hn|c s c' s' y ys Hn Hy]; congruence.
Qed.

(** What decoding does to the keys of a codec. *)
Definition box_after (sk : bytes) (b : option (bytes * bytes)) (x : option DerpResponse) : option (bytes * bytes) :=
  match x with Some (FrameServerKey_ k) => Some (k, sk) | _ => b end.
Lemma decode_frame_keys c h data c1 x : decode_frame c h data = (c1, Ok x) ->
  private_key c1 = private_key c /\ public_key c1 = public_key c /\ salsa_box c1 = box_after (private_key c) (salsa_box c) x.
Proof.
  unfold decode_frame. destruct (cmd_type h); try (intros [= <- <-]; done).
  - destruct (slice_from _ _); try done. repeat case_match; try done. by intros [= <- <-].
  - intros [= <- Hr]. bind_inv Hr. bind_inv Hr. by injection Hr as <-.
  - intros [= <- Hr]. bind_inv Hr. bind_inv Hr. by injection Hr as <-.
  - intros [= <- Hr]. bind_inv Hr. bind_inv Hr. by injection Hr as <-.
Qed.
Lemma decode_keys c a c1 a1 x : decode c a = (c1, a1, Ok x) ->
  private_key c1 = private_key c /\ public_key c1 = public_key c /\ salsa_box c1 = box_after (private_key c) (salsa_box c) x.
Proof.
  assert (forall c h a c1 a1, decode_body c h a = (c1, a1, Ok x) ->
    private_key c1 = private_key c /\ public_key c1 = public_key c /\ salsa_box c1 = box_after (private_key c) (salsa_box c) x) as Hb.
  { clear. intros c h a c1 a1. unfold decode_body. destruct (_ <? _); [by intros [= <- <- <-]|].
    destruct (decode_frame _ _ _) as [cf rf] eqn:Hf. intros [= <- <- ->]. by eapply decode_frame_keys. }
  unfold decode. destruct (to_ws_response c).
  - destruct (validate_server_response a) as [[n|]| |]; try done; by intros [= <- <- <-].
  - destruct (header c) as [h|]; [by intros ?%Hb|].
    destruct a as [|b0 [|b1 [|b2 [|b3 [|b4 a]]]]]; try by intros [= <- <- <-].
    destruct (_ <? _); [done|]. apply Hb.
Qed.
End Reading.

(** *** The handshake, in any order of turns *)

Definition keys_of (l : list DerpResponse) : list bytes :=
  omap (fun x => match x with FrameServerKey_ k => Some k | _ => None end) l.
Definition no_info (l : list DerpResponse) : Prop := forall i, ServerInfo_ i ∉ l.
(** Turns of a connection that stays up, with nothing staged by others. *)
Definition calm (ev : ConnEv) : bool :=
  match ev with
  | Arrive _ | Next | SendTurn _ true => true
  | _ => false
  end.

Section Session.
Context `{DerpLaws}.
Context (pub priv k json : bytes) (seal : bytes -> bytes) (i : ServerInfo) (pre post : list DerpResponse).
Hypothesis Hjson : client_info_json (ClientInfo_new false) = Some json.
Hypothesis Hseal : forall n, salsa_encrypt k priv n json = Some (seal n).
Hypothesis Hpre : no_info pre.
Hypothesis Hkey : keys_of pre = [k].
Hypothesis Hpost : keys_of post = [].

Definition info_frame (n : bytes) : bytes := write_frame [] FrameClientInfo (pub ++ n ++ seal n).
Definition info_request : DerpRequest := ClientInfo_ (ClientInfo_new false).

(** The reader has read [done] and [rem] is left, of which [R] has not arrived. *)
Definition reader_at (c : Conn) (done rem : list DerpResponse) : Prop :=
  (exists l, pre = done ++ l /\ rem = l ++ ServerInfo_ i :: post /\ cn_reader c = Shaking /\ cn_items c = []) \/
  (exists l, done = pre ++ ServerInfo_ i :: l /\ post = l ++ rem /\ cn_reader c = Reading /\ cn_items c = l).
Definition sender_at (c : Conn) (done : list DerpResponse) : Prop :=
  keys_of done = [] /\ cn_queue c = [] /\ cn_sent c = [] \/
  keys_of done = [k] /\ salsa_box (cn_codec c) = Some (k, priv) /\
    (cn_queue c = [info_request] /\ cn_sent c = [] \/ cn_queue c = [] /\ exists n, cn_sent c = [info_frame n]).
Definition sess (R : bytes) (c : Conn) (rem : list DerpResponse) : Prop :=
  yields (cn_codec c) (cn_buf c ++ R) rem /\
  private_key (cn_codec c) = priv /\ public_key (cn_codec c) = pub /\
  cn_eof c = false /\ cn_wait c = false /\ cn_sending c = true /\
  exists done, reader_at c done rem /\ sender_at c done.

Lemma keys_of_app a b : keys_of (a ++ b) = keys_of a ++ keys_of b.
Proof. unfold keys_of. apply omap_app. Qed.
Definition is_key (x : DerpResponse) : bool := match x with FrameServerKey_ _ => true | _ => false end.
Lemma keys_of_other done x : is_key x = false -> keys_of (done ++ [x]) = keys_of done.
Proof. intros Hx. rewrite keys_of_app. destruct x; try done; by rewrite app_nil_r. Qed.
(** An item that is not the server's key leaves the sender where it was. *)
Lemma sender_at_other c c' done x : is_key x = false ->
  cn_queue c' = cn_queue c -> cn_sent c' = cn_sent c -> salsa_box (cn_codec c') = salsa_box (cn_codec c) ->
  sender_at c done -> sender_at c' (done ++ [x]).
Proof. intros Hx Hq Hs Hb. unfold sender_at. by rewrite keys_of_other, Hq, Hs, Hb. Qed.

(** The handshake reads an item, or the stream yields it. *)
Lemma on_item_sess R c x rem done codec buf :
  yields codec (buf ++ R) rem -> private_key codec = priv -> public_key codec = pub ->
  salsa_box codec = box_after priv (salsa_box (cn_codec c)) (Some x) ->
  cn_eof c = false -> cn_wait c = false -> cn_sending c = true ->
  reader_at c done (x :: rem) -> sender_at c done ->
  sess R (on_item (set_input c codec buf) x) rem.
Proof.
  intros Hy Hpriv Hpub Hbox He Hw Hs Hr Hsnd.
  assert (is_key x = false -> salsa_box codec = salsa_box (cn_codec c)) as Hbox' by (rewrite Hbox; by destruct x).
  unfold on_item. cbn [cn_reader set_input]. destruct Hr as [(l & Hl & Hrem & Hrd & Hit)|(l & Hdone & Hl & Hrd & Hit)]; rewrite Hrd.
  - destruct l as [|y l].
    { injection Hrem as -> ->. do 6 (split; [done|]). exists (done ++ [ServerInfo_ i]). split.
      - right. exists []. rewrite app_nil_r in Hl. by rewrite Hl.
      - apply (sender_at_other c); [done..|by apply Hbox'|done]. }
    injection Hrem as -> ->. assert (reader_at (set_input c codec buf) (done ++ [y]) (l ++ ServerInfo_ i :: post)) as Hrd'.
    { left. exists l. by rewrite <- app_assoc. }
    destruct (is_key y) eqn:Hk.
    + destruct y as [|k'| | | | |]; try done. unfold push_info, push. cbn.
      assert (keys_of done = [] /\ k' = k) as [Hnil ->].
      { rewrite Hl, keys_of_app in Hkey. cbn in Hkey. destruct (keys_of done) as [|? [|??]]; try done; by injection Hkey. }
      destruct Hsnd as [(_ & Hq & Hsn)|(Hd & _)]; [|congruence]. rewrite Hs, Hq. cbn.
      do 6 (split; [done|]). exists (done ++ [FrameServerKey_ k]). split; [exact Hrd'|].
      right. rewrite keys_of_app, Hnil. split; [done|]. split; [done|]. left. by rewrite Hsn.
    + assert (sess R (set_input c codec buf) (l ++ ServerInfo_ i :: post)) as Hgoal.
      { do 6 (split; [done|]). exists (done ++ [y]). split; [done|]. apply (sender_at_other c); [done..|by apply Hbox'|done]. }
      destruct y; try done. by destruct (Hpre info); rewrite Hl; set_solver.
  - assert (is_key x = false) as Hx.
    { destruct x as [|k'| | | | |]; try done. rewrite Hl, keys_of_app in Hpost. by destruct (keys_of l). }
    do 6 (split; [done|]). exists (done ++ [x]). split.
    + right. exists (l ++ [x]). rewrite Hdone, <- !app_assoc. cbn. by rewrite Hit.
    + apply (sender_at_other c); [done..|by apply Hbox'|done].
Qed.

(** One call of [next]: nothing changes, or the next item is read, which it is once
    everything has arrived. *)
Lemma next_item_sess R c rem : sess R c rem ->
  (sess R (next_item c) rem \/ exists x rem', rem = x :: rem' /\ sess R (next_item c) rem') /\
  (forall x rem', R = [] -> rem = x :: rem' -> sess R (next_item c) rem').
Proof.
  intros (Hy & Hpriv & Hpub & He & Hw & Hs & done & Hr & Hsnd). unfold next_item.
  destruct (decode (cn_codec c) (cn_buf c)) as [[codec buf] r] eqn:Hd.
  destruct (yields_next _ _ _ _ _ _ _ Hy Hd) as [(-> & Hy')|(x & xs & -> & -> & Hy')];
    destruct (decode_keys _ _ _ _ _ Hd) as (Hp1 & Hp2 & Hb); rewrite Hpriv in Hb.
  - split.
    + left. cbn [cn_eof set_input]. rewrite He. cbn [negb]. split_and!; cbn; try done; [congruence..|].
      exists done. split; [done|]. unfold sender_at. cbn. by rewrite Hb.
    + intros x rem' -> ->. rewrite app_nil_r in Hy. inversion Hy; congruence.
  - assert (sess R (on_item (set_input c codec buf) x) xs) as Hgoal by (eapply on_item_sess; eauto; congruence).
    split; [right; eauto|]. by intros ?? _ [= <- <-].
Qed.

Lemma send_turn_sess R c rem n : sess R c rem -> sess R (send_turn n true c) rem.
Proof.
  intros (Hy & Hpriv & Hpub & He & Hw & Hs & done & Hr & [(Hk & Hq & Hsn)|(Hk & Hb & Hq)]); unfold send_turn.
  - rewrite Hq. do 6 (split; [done|]). exists done. split; [done|]. by left.
  - destruct Hq as [[Hq Hsn]|[Hq Hsn]]; rewrite Hq.
    + unfold info_request, encode, encrypt_data. rewrite Hjson. cbn [mbind res_bind ok_or].
      rewrite Hb. cbn [mbind res_bind ok_or]. rewrite Hseal. cbn [mbind res_bind ok_or].
      do 6 (split; [done|]). exists done. split; [done|]. right. do 2 (split; [done|]). right. split; [done|].
      exists n. unfold info_frame. by rewrite Hsn, Hpub.
    + do 6 (split; [done|]). exists done. split; [done|]. right. auto.
Qed.
Lemma conn_step_sess R c rem ev : calm ev = true -> sess (arrivals [ev] ++ R) c rem ->
  exists rem', sess R (conn_step c ev) rem'.
Proof.
  intros Hc Hsess. pose proof Hsess as (Hy & Hpriv & Hpub & He & Hw & Hs & done & Hr & Hsnd).
  destruct ev as [k'| | |n [] |]; try done; unfold arrivals in *; cbn [mbind list_bind app] in *; rewrite ?app_nil_r in *; cbn [conn_step].
  - rewrite He. exists rem. split; [cbn; by rewrite <- app_assoc|]. do 5 (split; [done|]). eauto.
  - assert (exists rem', sess R (next_item c) rem') as Hgoal
      by (destruct (next_item_sess R c rem Hsess) as [[?|(? & ? & ? & ?)] _]; eauto).
    destruct Hr as [(? & ? & ? & -> & ?)|(? & ? & ? & -> & ?)]; [by rewrite Hw|done].
  - rewrite Hs. exists rem. by apply send_turn_sess.
Qed.
Lemma conn_run_sess R evs : forall c rem, forallb calm evs = true -> sess (arrivals evs ++ R) c rem ->
  exists rem', sess R (conn_run c evs) rem'.
Proof.
  induction evs as [|ev evs IH]; intros c rem Hc Hsess; cbn [conn_run foldl forallb] in *; [eauto|].
  apply andb_true_iff in Hc as [Hc Hcs].
  assert (arrivals (ev :: evs) = arrivals [ev] ++ arrivals evs) as Ha
    by (unfold arrivals; cbn [mbind list_bind]; by rewrite app_nil_r).
  rewrite Ha, <- app_assoc in Hsess. destruct (conn_step_sess _ _ _ _ Hc Hsess) as [rem1 H1]. by apply (IH _ rem1).
Qed.
(** Once everything has arrived every call of [next] reads one item. *)
Lemma nexts_sess n : forall c rem, sess [] c rem -> (length rem <= n)%nat -> sess [] (conn_run c (replicate n Next)) [].
Proof.
  induction n as [|n IH]; intros c rem Hsess Hn; [by destruct rem; [|cbn in Hn; lia]|]. cbn [replicate conn_run foldl].
  pose proof Hsess as (_ & _ & _ & _ & Hw & _ & done & Hr & _).
  assert (conn_step c Next = next_item c) as ->.
  { cbn [conn_step]. destruct Hr as [(? & ? & ? & -> & ?)|(? & ? & ? & -> & ?)]; [by rewrite Hw|done]. }
  destruct (next_item_sess [] c rem Hsess) as [Hone Hall]. destruct rem as [|x rem].
  - destruct Hone as [H1|(? & ? & ? & _)]; [|done]. apply (IH _ [] H1). cbn. lia.
  - apply (IH _ rem); [by apply (Hall x)|]. cbn in Hn. lia.
Qed.
(** A session that has read everything and sent what it queued. *)
Lemma sess_done c n : sess [] c [] ->
  let c := conn_step c (SendTurn n true) in
  cn_reader c = Reading /\ cn_items c = post /\ cn_queue c = [] /\ exists n, cn_sent c = [info_frame n].
Proof.
  intros Hsess c'. pose proof Hsess as (_ & _ & _ & _ & _ & Hs & _).
  assert (sess [] c' []) as (_ & _ & _ & _ & _ & _ & done & Hr & Hsnd).
  { unfold c'. cbn [conn_step]. rewrite Hs. by apply send_turn_sess. }
  destruct Hr as [(l & _ & Hl & _)|(l & Hdone & Hl & Hrd & Hit)]; [by destruct l|]. rewrite app_nil_r in Hl. subst l.
  split; [done|]. split; [done|].
  assert (keys_of done = [k]) as Hk.
  { rewrite Hdone, keys_of_app, Hkey. change (keys_of (ServerInfo_ i :: post)) with (keys_of post). by rewrite Hpost. }
  destruct Hsnd as [(Hk' & _)|(_ & _ & [[Hq Hsn]|[Hq Hsn]])]; [congruence| |done]. exfalso.
  destruct Hsess as (_ & _ & _ & _ & _ & _ & done0 & _ & Hsnd0). revert Hq. unfold c'. cbn [conn_step]. rewrite Hs.
  unfold send_turn. destruct Hsnd0 as [(_ & Hq & _)|(_ & Hb & [[Hq _]|[Hq _]])]; rewrite Hq; try congruence.
  unfold info_request, encode, encrypt_data. rewrite Hjson. cbn [mbind res_bind ok_or]. rewrite Hb. cbn [mbind res_bind ok_or].
  rewrite Hseal. done.
Qed.
End Session.

(** *** A server's side of a session *)

Section Server.
Context `{DerpLaws}.

Definition packet_item (p : bytes * bytes) : DerpResponse := FrameRecvPacket_ p.1 p.2.
Lemma yields_packets c ps : to_ws_response c = false -> header c = None -> Forall packet_ok ps ->
  yields c (ps ≫= recv_frame) (packet_item <$> ps).
Proof.
  intros Hws Hh. induction 1 as [|[k d] ps [Hk Hd] _ IH].
  - apply (yields_nil _ _ c []). unfold decode. by rewrite Hws, Hh.
  - cbn [mbind list_bind fmap list_fmap]. apply (yields_cons _ _ c (ps ≫= recv_frame)); [|done].
    unfold recv_frame at 1. cbn [fst snd] in *. unfold MAX_PACKET_SIZE in Hd. change (Z.shiftl 64 10) with 65536 in Hd.
    unfold KEY_LEN in Hk. rewrite decode_frame_bytes by (done || (rewrite length_app; lia)).
    unfold decode_frame. cbn [cmd_type]. unfold KEY_LEN. rewrite (slice_here 32 k d) by done. cbn [mbind res_bind].
    rewrite slice_from_Ok by (rewrite length_app; lia). cbn [mbind res_bind]. by rewrite (drop_app_length' k d 32) by lia.
Qed.

(** What a server writes: the answer to the upgrade, its key, its sealed information, then
    the packets of other clients. *)
Definition server_stream (head key nonce sealed : bytes) (ps : list (bytes * bytes)) : bytes :=
  head ++ frame FrameServerKey (MAGIC ++ key) ++ frame FrameServerInfo (nonce ++ sealed) ++ (ps ≫= recv_frame).

Lemma yields_server pub priv head key nonce sealed text info ps :
  http_response head = Some (Some (length head, 101)) ->
  length priv = 32%nat -> length key = 32%nat -> length nonce = 24%nat ->
  Z.of_nat (length (nonce ++ sealed)) <= 2 ^ 20 ->
  salsa_decrypt key priv nonce sealed = Some text -> server_info_of_json text = Some info ->
  Forall packet_ok ps ->
  yields (DerpCodec_new pub priv false) (server_stream head key nonce sealed ps)
    ([Ws; FrameServerKey_ key] ++ ServerInfo_ info :: (packet_item <$> ps)).
Proof.
  intros Hhead Hpriv Hkey Hnonce Hlen Hdec Hinfo Hps. unfold server_stream. cbn [app].
  set (c1 := mkDerpCodec false priv pub None None). set (c2 := mkDerpCodec false priv pub (Some (key, priv)) None).
  eapply (yields_cons _ _ c1).
  { unfold decode, DerpCodec_new. cbn [negb to_ws_response]. unfold validate_server_response.
    destruct (http_head head (frame FrameServerKey (MAGIC ++ key) ++ frame FrameServerInfo (nonce ++ sealed) ++ (ps ≫= recv_frame)) _ _ Hhead)
      as [_ ->]. cbn [negb Z.eqb Pos.eqb]. rewrite drop_app_length. reflexivity. }
  eapply (yields_cons _ _ c2).
  { rewrite decode_frame_bytes; [|done..|rewrite length_app, Hkey; cbn; lia].
    unfold decode_frame. cbn [cmd_type]. rewrite slice_from_Ok by (rewrite length_app; lia).
    rewrite drop_app_length, Hkey. unfold c1. cbn [private_key Nat.eqb]. rewrite Hpriv. reflexivity. }
  eapply (yields_cons _ _ c2).
  { rewrite decode_frame_bytes by done. unfold decode_frame. cbn [cmd_type]. unfold decrypt_data.
    rewrite (slice_here 24 nonce sealed) by done. cbn [mbind res_bind salsa_box c2 ok_or].
    rewrite slice_from_Ok by (rewrite length_app; lia). cbn [mbind res_bind].
    rewrite (drop_app_length' nonce sealed 24) by lia. rewrite Hdec. cbn [mbind res_bind ok_or]. rewrite Hinfo. reflexivity. }
  by apply yields_packets.
Qed.

Context (public : bytes -> bytes).

(** A session with a relay, whatever the order of turns. Let a server answer the upgrade,
    send its key and its sealed information and then packets of other clients, cut into any
    chunks, and let the client's reader and sender take turns in any order. Then the handshake
    is never refused, packets are handed out in order, and at most the client info is sent;
    and once everything has arrived and both tasks have had their turns, the handshake has
    succeeded, every packet was handed out, and exactly one client info was sent, which the
    server can open with its key. *)
Theorem derp_session priv sk head nonce sealed text info json ps evs R :
  (forall a b n d e, salsa_encrypt (public b) a n d = Some e -> salsa_decrypt (public a) b n e = Some d) ->
  http_response head = Some (Some (length head, 101)) ->
  length priv = 32%nat -> length (public sk) = 32%nat -> length nonce = 24%nat ->
  Z.of_nat (length (nonce ++ sealed)) <= 2 ^ 20 ->
  salsa_decrypt (public sk) priv nonce sealed = Some text -> server_info_of_json text = Some info ->
  client_info_json (ClientInfo_new false) = Some json ->
  (forall n, is_Some (salsa_encrypt (public sk) priv n json)) ->
  Forall packet_ok ps -> forallb calm evs = true ->
  arrivals evs ++ R = server_stream head (public sk) nonce sealed ps ->
  let c := conn_run (Conn_new (DerpCodec_new (public priv) priv false)) evs in
  (cn_reader c = Shaking \/ cn_reader c = Reading) /\ (length (cn_sent c) <= 1)%nat /\
  (exists rest, packet_item <$> ps = cn_items c ++ rest) /\
  (R = [] -> forall m n, (3 + length ps <= m)%nat ->
     let c := conn_run c (replicate m Next ++ [SendTurn n true]) in
     cn_reader c = Reading /\ cn_items c = packet_item <$> ps /\ cn_queue c = [] /\
     exists n e, cn_sent c = [frame FrameClientInfo (public priv ++ n ++ e)] /\
       salsa_decrypt (public priv) sk n e = Some json).
Proof.
  intros Hbox Hhead Hpriv Hpk Hnonce Hlen Hdec Hinfo Hjson Henc Hps Hcalm Harr c.
  pose (seal := fun n => default [] (salsa_encrypt (public sk) priv n json)).
  assert (forall n, salsa_encrypt (public sk) priv n json = Some (seal n)) as Hseal.
  { intros n. unfold seal. by destruct (Henc n) as [e ->]. }
  set (P := [Ws; FrameServerKey_ (public sk)]). set (Q := packet_item <$> ps).
  assert (no_info P) as Hni by (intros i; unfold P; set_solver).
  assert (keys_of Q = []) as HQ by (unfold Q; clear; induction ps as [|? ps IH]; [done|exact IH]).
  assert (sess (public priv) priv (public sk) seal info P Q (server_stream head (public sk) nonce sealed ps)
    (Conn_new (DerpCodec_new (public priv) priv false)) (P ++ ServerInfo_ info :: Q)) as Hstart.
  { split; [by eapply yields_server|]. do 5 (split; [done|]). exists []. split; [left|by left]. by exists P. }
  rewrite <- Harr in Hstart. destruct (conn_run_sess _ _ _ _ _ _ _ _ Hjson Hseal Hni eq_refl HQ R evs _ _ Hcalm Hstart) as [rem Hrem].
  fold c in Hrem. pose proof Hrem as (_ & _ & _ & _ & _ & _ & done & Hr & Hsnd).
  split; [destruct Hr as [(? & _ & _ & -> & _)|(? & _ & _ & -> & _)]; auto|]. split.
  { destruct Hsnd as [(_ & _ & ->)|(_ & _ & [[_ ->]|[_ [? ->]]])]; cbn; lia. }
  split; [destruct Hr as [(? & _ & _ & _ & ->)|(? & _ & -> & _ & ->)]; eauto|].
  intros -> m n Hm. unfold conn_run. rewrite foldl_app. cbn [foldl].
  assert (length rem <= m)%nat as Hlr.
  { destruct Hr as [(l & Hl & -> & _)|(l & _ & Hl & _)].
    - apply (f_equal length) in Hl. rewrite length_app in Hl. cbn in Hl. rewrite length_app. unfold Q. cbn [length]. rewrite length_fmap. lia.
    - apply (f_equal length) in Hl. unfold Q in Hl. rewrite length_app, length_fmap in Hl. lia. }
  pose proof (nexts_sess _ _ _ _ _ _ _ _ Hjson Hseal Hni eq_refl HQ m _ _ Hrem Hlr) as Hdone.
  destruct (sess_done _ _ _ _ _ _ P Q Hjson Hseal eq_refl HQ _ n Hdone) as (H1 & H2 & H3 & [n' H4]).
  split; [done|]. split; [done|]. split; [done|]. exists n', (seal n'). split; [exact H4|]. by eapply Hbox, Hseal.
Qed.
End Server.

(** ** The upgrade request as a server reads it *)

(** Lines end with CR LF, the head with an empty line. *)
Fixpoint read_line (s : string) : option (string * string) :=
  match s with
  | EmptyString => None
  | String c1 r =>
      match r with
      | String c2 r2 =>
          if Ascii.eqb c1 (Ascii.ascii_of_nat 13) && Ascii.eqb c2 (Ascii.ascii_of_nat 10) then Some (""%string, r2)
          else '(l, rest) ← read_line r; Some (String c1 l, rest)
      | EmptyString => None
      end
  end.
Fixpoint read_head (fuel : nat) (s : string) : option (list string * string) :=
  match fuel with
  | O => None
  | S fuel =>
      '(l, rest) ← read_line s;
      if String.eqb l "" then Some ([], rest) else '(ls, rest) ← read_head fuel rest; Some (l :: ls, rest)
  end.
(** Text without a carriage return. *)
Fixpoint plain_text (s : string) : bool :=
  match s with
  | EmptyString => true
  | String c s => negb (Ascii.eqb c (Ascii.ascii_of_nat 13)) && plain_text s
  end.
(** A line of the request. *)
Definition line (s : string) : Prop := plain_text s = true /\ s <> ""%string.

Lemma string_cons_app x (a b : string) : String x a +:+ b = String x (a +:+ b).
Proof. done. Qed.
Lemma string_app_assoc (a b c : string) : (a +:+ b) +:+ c = a +:+ b +:+ c.
Proof. induction a as [|x a IH]; [done|]. rewrite !string_cons_app. by f_equal. Qed.
Lemma plain_text_app a b : plain_text (a +:+ b) = plain_text a && plain_text b.
Proof. induction a as [|x a IH]; [done|]. rewrite string_cons_app. cbn [plain_text]. by rewrite IH, andb_assoc. Qed.
Lemma line_app a b : line a -> plain_text b = true -> line (a +:+ b).
Proof. intros [Ha Hn] Hb. split; [by rewrite plain_text_app, Ha, Hb|]. by destruct a. Qed.

Lemma read_line_crlf a b : plain_text a = true -> read_line (a +:+ CRLF +:+ b) = Some (a, b).
Proof.
  induction a as [|x a IH]; intros Ha; [done|]. cbn [plain_text] in Ha. apply andb_true_iff in Ha as [Hx Ha].
  apply negb_true_iff in Hx. specialize (IH Ha). rewrite string_cons_app.
  cbn [read_line]. destruct (a +:+ CRLF +:+ b) as [|y r] eqn:Hr; [by destruct a|]. rewrite Hx. cbn [andb]. by rewrite IH.
Qed.
(** Lines, an empty line, and what follows. *)
Definition lines (ls : list string) (rest : string) : string := foldr (fun l s => l +:+ CRLF +:+ s) rest ls.
Lemma read_head_lines ls rest n : Forall line ls -> (length ls < n)%nat ->
  read_head n (lines ls (CRLF +:+ rest)) = Some (ls, rest).
Proof.
  intros Hls. revert n. induction Hls as [|l ls [Hp Hne] _ IH]; intros [|n] Hn; try (cbn in Hn; lia).
  - done.
  - cbn [read_head lines foldr]. rewrite read_line_crlf by done. cbn [mbind option_bind].
    destruct (String.eqb_spec l ""); [done|]. fold (lines ls (CRLF +:+ rest)). rewrite IH by (cbn in Hn; lia). done.
Qed.

Lemma pretty_N_plain n : forall s, plain_text s = true -> plain_text (pretty_N_go n s) = true.
Proof.
  induction (N.lt_wf_0 n) as [n _ IH]. intros s Hs. destruct (decide (n = 0)%N) as [->|Hn]; [by rewrite pretty_N_go_0|].
  rewrite pretty_N_go_step by lia. apply IH; [apply N.div_lt; lia|]. cbn [plain_text]. rewrite Hs, andb_true_r.
  unfold pretty_N_char. by repeat case_match.
Qed.
Lemma pretty_plain (z : Z) : plain_text (pretty z) = true.
Proof.
  assert (forall n : N, plain_text (pretty n) = true) as Hn.
  { intros n. unfold pretty, pretty_N. case_decide; [done|]. by apply pretty_N_plain. }
  destruct z as [|p|p]; [done|exact (Hn (N.pos p))|]. change (pretty (Z.neg p)) with ("-" +:+ pretty (N.pos p)).
  by rewrite plain_text_app, Hn.
Qed.

Section Request.
Context {W Addr : Type} `{UrlLib W Addr}.

(** The lines of the upgrade request. *)
Definition request_line (url : Url) : string :=
  "GET " +:+ url_path url +:+ (match url_query url with Some query => "?" +:+ query | None => "" end) +:+ " HTTP/1.1".
Definition host_line (url : Url) (host : string) : string :=
  "Host: " +:+ host +:+ match url_port url with Some port => ":" +:+ pretty port | None => "" end.
Definition request_lines (url : Url) (headers : list (string * string)) : list string :=
  request_line url :: (match url_host url with Some host => [host_line url host] | None => [] end) ++
  ["Upgrade: websocket"; "Connection: Upgrade"; "Sec-WebSocket-Version: 13"]%string ++
  ((fun '(n, v) => n +:+ ": " +:+ v) <$> headers).

Lemma header_lines_lines headers rest :
  header_lines headers +:+ rest = lines ((fun '(n, v) => n +:+ ": " +:+ v) <$> headers) rest.
Proof.
  induction headers as [|[n v] headers IH]; [done|]. cbn [header_lines foldr lines fmap list_fmap].
  fold (header_lines headers). rewrite !string_app_assoc. by rewrite IH.
Qed.
Lemma build_request_lines url headers : build_request url headers = lines (request_lines url headers) CRLF.
Proof.
  unfold build_request, request_lines, request_line, lines. rewrite header_lines_lines. cbn [foldr].
  destruct (url_host url) as [host|]; unfold host_line; cbn [app foldr];
    rewrite !string_app_assoc; done.
Qed.

(** A URL and headers of one line each, as the url crate makes them. *)
Definition plain_url (url : Url) : Prop :=
  plain_text (url_path url) = true /\ (forall q, url_query url = Some q -> plain_text q = true) /\
  (forall h, url_host url = Some h -> plain_text h = true).
Definition plain_headers (headers : list (string * string)) : Prop :=
  Forall (fun h => plain_text h.1 = true /\ plain_text h.2 = true) headers.

Lemma request_lines_ok url headers : plain_url url -> plain_headers headers -> Forall line (request_lines url headers).
Proof.
  intros (Hp & Hq & Hh) Hhs. unfold request_lines. apply Forall_cons. split.
  { unfold request_line. apply (line_app "GET "); [done|]. rewrite plain_text_app, Hp. cbn [andb]. rewrite plain_text_app.
    destruct (url_query url) as [q|]; [|done]. rewrite plain_text_app, (Hq q) by done. done. }
  apply Forall_app. split.
  { destruct (url_host url) as [h|]; [|done]. cbn. apply Forall_singleton. unfold host_line. apply (line_app "Host: "); [done|].
    rewrite plain_text_app, (Hh h) by done. destruct (url_port url); [|done]. by rewrite plain_text_app, pretty_plain. }
  apply Forall_app. split; [by do 3 (apply Forall_cons_2; [by split|])|]. apply Forall_fmap. eapply Forall_impl; [exact Hhs|].
  intros [n v] [Hn Hv]. cbn in *. split; [by rewrite !plain_text_app, Hn, Hv|]. by destruct n.
Qed.

(** The server reads the request line, the host, the upgrade and the headers as they were
    given, and nothing is left. *)
Lemma build_request_read url headers n : plain_url url -> plain_headers headers ->
  (length (request_lines url headers) < n)%nat ->
  read_head n (build_request url headers) = Some (request_lines url headers, ""%string).
Proof.
  intros Hu Hh Hn. rewrite build_request_lines. apply (read_head_lines _ ""); [by apply request_lines_ok|done].
Qed.
End Request.

(** ** What connecting does *)

(** What was written to a stream: nothing to a new one; a write adds the part it took. *)
Class StreamLog (W S : Type) `{ByteStream (fun A => A) W S} := {
  sent : S -> W -> bytes;
  sent_write : forall (s : S) buf w w' n, bs_write (F := fun A => A) s buf w = (w', inr n) ->
    (n <= length buf)%nat /\ sent s w' = sent s w ++ take n buf;
}.

Section Connects.
Context {W Addr Tcp : Type} `{!TlsLibs W Tcp, !UrlLib W Addr, !NetLib W Addr Tcp}.
Context `{BT : !ByteStream (fun A => A) W Tcp, BN : !ByteStream (fun A => A) W NativeStream, BR : !ByteStream (fun A => A) W RustlsStream}.
Context `{LT : !StreamLog W Tcp, LN : !StreamLog W NativeStream, LR : !StreamLog W RustlsStream}.

Definition sent_of (s : MaybeTlsStream W Tcp) (w : W) : bytes :=
  match s with
  | PlainStream s => sent s w
  | NativeTlsStream s => sent s w
  | RustlsTlsStream s => sent s w
  end.
Definition encrypted (s : MaybeTlsStream W Tcp) : bool :=
  match s with PlainStream _ => false | _ => true end.

Lemma sent_of_write s buf w w' n : bs_write (F := fun A => A) s buf w = (w', inr n) ->
  (n <= length buf)%nat /\ sent_of s w' = sent_of s w ++ take n buf.
Proof. destruct s as [s|s|s]; intros Hw; exact (sent_write s _ _ _ _ Hw). Qed.

(** [io_map_err] over a call. *)
Lemma sys_err_Ok {E A} (e : E) (c : W -> W * (unit + A)) w w' a :
  io_map_err (fun _ => e) (sys c) w = (w', Ok a) -> c w = (w', inr a).
Proof. unfold io_map_err, sys. destruct (c w) as [? []]; intros; by simplify_eq/=. Qed.

Lemma write_all_sent n : forall s buf w w' u, (length buf <= n)%nat ->
  write_all_loop n s buf w = (w', Ok u) -> sent_of s w' = sent_of s w ++ buf.
Proof.
  induction n as [|n IH]; intros s buf w w' u Hn Hw.
  - destruct buf; [|cbn in Hn; lia]. injection Hw as <- _. by rewrite app_nil_r.
  - destruct buf as [|b buf]; [injection Hw as <- _; by rewrite app_nil_r|].
    cbn [write_all_loop] in Hw. io_step Hw as k w1 Hk. apply sys_err_Ok, sent_of_write in Hk as [Hle Hs].
    destruct (Nat.eqb_spec k 0); [done|]. apply IH in Hw; [|rewrite length_drop; cbn in *; lia].
    by rewrite Hw, Hs, <- app_assoc, take_drop.
Qed.

(** A new stream has nothing on it. *)
Class NewStreams : Prop := {
  new_tcp : forall a w w' s, tcp_connect a w = (w', inr s) -> sent s w' = [];
  new_native : forall c d s w w' s', native_connect c d s w = (w', inr s') -> sent s' w' = [];
  new_rustls : forall c d s w w' s', rustls_connect c d s w = (w', inr s') -> sent s' w' = [];
}.
Context `{!NewStreams}.

Definition is_plain (c : Connector W Tcp) : bool := match c with Plain => true | _ => false end.
Lemma connector_plain f w w' c : new_with_default_tls_config f w = (w', Ok c) ->
  is_plain c = negb (ssl f) /\ (is_plain c = true -> w' = w).
Proof.
  unfold new_with_default_tls_config. destruct (ssl f); cbn [negb]; [|by intros [= <- <-]].
  destruct (ssl_native_tls f).
  { intros Hc. io_step Hc as n w1 Hn. by injection Hc as <- <-. }
  destruct (ssl_rustls_webpki_roots f); [by intros [= <- <-]|]. unfold rustls_native_connector.
  destruct (load_native_certs w) as [w1 [[store|]|store]]; [|done|]; destruct (store_is_empty store); by intros [= <- <-].
Qed.
Lemma wrap_stream c d t w w' s : AsyncConnector_wrap c d t w = (w', Ok s) -> sent t w = [] ->
  encrypted s = negb (is_plain c) /\ sent_of s w' = [].
Proof.
  intros Hw Ht. destruct c as [|c|c]; cbn [AsyncConnector_wrap] in Hw.
  - by injection Hw as <- <-.
  - io_step Hw as n w1 Hn. injection Hw as <- <-. apply sys_err_Ok in Hn. split; [done|]. by eapply new_native.
  - destruct (dns_name_ok d); [|done]. io_step Hw as n w1 Hn. injection Hw as <- <-. apply sys_err_Ok in Hn.
    split; [done|]. by eapply new_rustls.
Qed.

Lemma open_stream_Ok f c w w' s codec : open_stream f c w = (w', Ok (s, codec)) ->
  codec = DerpCodec_new (secret_public (dc_key c)) (dc_key c) false /\
  (encrypted s = true <-> url_scheme (server_url c) = "wss"%string /\ ssl f = true) /\
  sent_of s w' = String.list_byte_of_string (build_request (server_url c) []).
Proof.
  intros Ho. unfold open_stream in Ho.
  io_step Ho as a w1 Ha. io_step Ho as t w2 Ht. apply sys_err_Ok, new_tcp in Ht.
  io_step Ho as cn w3 Hc. io_step Ho as st w4 Hs. io_step Ho as u w5 Hw. injection Ho as <- <- <-.
  assert ((is_plain cn = false <-> url_scheme (server_url c) = "wss"%string /\ ssl f = true) /\
    (is_plain cn = true -> w3 = w2)) as [Hp Hkeep].
  { destruct (String.eqb_spec (url_scheme (server_url c)) "wss"%string) as [->|Hne].
    - destruct (connector_plain _ _ _ _ Hc) as [Hp Hk]. split; [|done]. rewrite Hp. destruct (ssl f); naive_solver.
    - injection Hc as <- <-. cbn. naive_solver. }
  split; [done|].
  destruct (is_plain cn) eqn:Hpl.
  - rewrite (Hkeep eq_refl) in Hs. destruct (wrap_stream _ _ _ _ _ _ Hs Ht) as [He Hn]. rewrite Hpl in He.
    apply write_all_sent in Hw; [|done]. rewrite Hw, Hn, He. cbn. naive_solver.
  - destruct cn as [|cn|cn]; [done|..]; cbn [AsyncConnector_wrap] in Hs.
    + io_step Hs as n w6 Hn. injection Hs as <- <-. apply sys_err_Ok, new_native in Hn.
      apply write_all_sent in Hw; [|done]. rewrite Hw. cbn [sent_of]. rewrite Hn. cbn. naive_solver.
    + destruct (dns_name_ok _); [|done]. io_step Hs as n w6 Hn. injection Hs as <- <-. apply sys_err_Ok, new_rustls in Hn.
      apply write_all_sent in Hw; [|done]. rewrite Hw. cbn [sent_of]. rewrite Hn. cbn. naive_solver.
Qed.

(** C25: connecting to a relay. When the first half of [async_connect] succeeds, everything
    the server has been sent is one upgrade request, which it reads back line by line with
    nothing left over; the stream is encrypted exactly when the scheme is wss and the build
    has a TLS library, so a build without one sends a wss request in the clear. It takes the
    receiver with it: the client cannot connect a second time, also after the handshake was
    refused; such an attempt still opens a stream and then panics. An error before that leaves
    the client as it was. *)
Theorem derp_connects_once f w c w' c' r :
  plain_url (server_url c) ->
  async_connect_start f (w, c) = ((w', c'), r) ->
  match r with
  | Ok (s, codec) =>
      rx c = true /\ c' = mkDerpClient (dc_key c) (server_url c) false /\
      codec = DerpCodec_new (secret_public (dc_key c)) (dc_key c) false /\
      (encrypted s = true <-> url_scheme (server_url c) = "wss"%string /\ ssl f = true) /\
      read_head 7 (String.string_of_list_byte (sent_of s w')) = Some (request_lines (server_url c) [], ""%string)
  | _ => c' = c
  end /\
  (forall s codec, rx c = false -> open_stream f c w = (w', Ok (s, codec)) -> r = Panic) /\
  (forall w2 w2' c2 r2, is_ok r = true -> async_connect_start f (w2, c') = ((w2', c2), r2) -> is_ok r2 = false).
Proof.
  intros Hu Hs. unfold async_connect_start in Hs. destruct (open_stream f c w) as [w1 [[s codec]|e|]] eqn:Ho.
  - destruct (rx c) eqn:Hrx; injection Hs as <- <- <-.
    + destruct (open_stream_Ok _ _ _ _ _ _ Ho) as (Hcodec & Henc & Hsent). split.
      * do 4 (split; [done|]). rewrite Hsent, String.string_of_list_byte_of_string.
        apply build_request_read; [done|by apply Forall_nil|]. unfold request_lines. cbn [length]. destruct (url_host _); cbn; lia.
      * split; [done|]. intros w2 w2' c2 r2 _. unfold async_connect_start. cbn [rx].
        destruct (open_stream f _ w2) as [w3 [| |]]; intros [= _ _ <-]; done.
    + split; [done|]. split; [|done]. done.
  - injection Hs as <- <- <-. split; [done|]. split; [|done]. congruence.
  - injection Hs as <- <- <-. split; [done|]. split; [|done]. congruence.
Qed.
End Connects.

(** ** Witnesses *)
Module ToyNet.
(** A host that remembers what was written to its one stream; TLS needs a name. *)
#[export] Instance tls : TlsLibs bytes unit := {|
  NativeConnector := unit; NativeStream := unit;
  native_connector_new w := (w, inr tt);
  native_connect _ d _ w := if String.eqb d "" then (w, inl tt) else ([], inr tt);
  RootStore := unit; RustlsConnector := unit; RustlsStream := unit;
  TLS_SERVER_ROOTS := tt;
  load_native_certs w := (w, inr tt);
  store_is_empty _ := false;
  rustls_connector _ := tt;
  dns_name_ok d := negb (String.eqb d "");
  dns_error := ErrorMsg;
  rustls_connect _ _ _ _ := ([], inr tt);
|}.
#[export] Instance urls : UrlLib bytes nat := {|
  Url := string;
  url_parse s := Some s;
  url_scheme s := s;
  url_path _ := "/derp"; url_query _ := None;
  url_host _ := Some "relay.example"%string; url_domain _ := Some "relay.example"%string;
  url_port _ := Some 443;
  url_socket_addrs _ w := (w, inr [7%nat]);
|}.
#[export] Instance net : NetLib bytes nat unit := {|
  tcp_connect _ _ := ([], inr tt);
  secret_public k := k;
|}.
(** At most ten bytes at a time. *)
#[export] Instance stream : ByteStream (fun A => A) bytes unit := {|
  bs_read _ _ w := (w, inr []);
  bs_write _ buf w := (w ++ take 10 buf, inr (Nat.min 10 (length buf)));
  bs_flush _ w := (w, inr tt);
  bs_shutdown _ w := (w, inr tt);
|}.
#[export] Program Instance log : StreamLog bytes unit := {| sent _ w := w |}.
Next Obligation.
  intros s buf w w' n H. cbn [bs_write stream] in H. assert (w' = w ++ take 10 buf) as -> by congruence.
  assert (n = Nat.min 10 (length buf)) as -> by congruence. split; [apply Nat.le_min_r|]. f_equal.
  destruct (Nat.le_ge_cases (length buf) 10) as [Hl|Hl]; [|by rewrite Nat.min_l].
  rewrite Nat.min_r by done. rewrite (take_ge buf 10) by done. by rewrite take_ge.
Qed.
End ToyNet.

Section Witnesses.
Import ToyNet.
#[local] Instance toy_new_streams : NewStreams (W := bytes) (Addr := nat) (Tcp := unit).
Proof. split; [by intros ???? [= <- <-]| |by intros ?????? [= <- <-]]. intros c d s w w' s'. cbn. destruct (String.eqb d ""); [done|]. by intros [= <- <-]. Qed.
Definition toy_features : Features := mkFeatures true false false.
Definition toy_client : DerpClient := mkDerpClient (W := bytes) (Addr := nat) (replicate 32 x01) "wss"%string true.

(** The default build connects to a wss server over TLS; the second attempt panics. *)
Lemma derp_connects_once_witness :
  let '((w, c), r) := async_connect_start toy_features ([], toy_client) in
  is_ok r = true /\ rx c = false /\ (async_connect_start toy_features (w, c)).2 = Panic /\
  is_ok (async_connect_start toy_features (w, c)).2 = false.
Proof.
  destruct (async_connect_start toy_features ([], toy_client)) as [[w c] r] eqn:Hr.
  assert (plain_url (server_url toy_client)) as Hu by (split; [reflexivity|split; [intros q; discriminate|intros h [= <-]; reflexivity]]).
  pose proof (derp_connects_once toy_features [] toy_client w c r Hu Hr) as (_ & _ & H2).
  vm_compute in Hr. injection Hr as <- <- <-. split; [reflexivity|]. split; [reflexivity|]. split; [vm_compute; reflexivity|].
  destruct (async_connect_start toy_features _) as [[w2 c2] r2] eqn:H3. exact (H2 _ _ _ _ eq_refl H3).
Defined.
End Witnesses.
End DerpConn.
