(* ===== verification/Frp.v ===== *)
(** * The frp relay client (derp/frp-client/src: frp_codec.rs, buf_crypto.rs, msg.rs,
    frp_control.rs, conn_control.rs)

    The control connection to an frp server: a login message in clear, the answer, an IV, and
    from then on messages under AES-CFB. The codec is a state machine over the stages
    [Login], [WaitIv] and [Work], driven by a framed stream. AES-CFB, PBKDF2, MD5, JSON and
    yamux are crates: arguments of the definitions that use them. *)

From S2P Require Import Prelude Bytes Crypto Framed.
From stdpp Require Import pretty.
#[local] Open Scope Z_scope.

Module Frp.

(** The messages of [Error::from], one constructor per text. *)
Inductive Reason :=
| MainStreamNone
| RunIdNone
| LoginRejected (e : string)
| NoRunId
| NoLoginResp
| LoginTimeout.
Inductive Error :=
| IoError
| SerdeJsonError
| ConnectionError
| Encrypt
| LoginError
| ErrorMsg (m : Reason)
| HandlerMsg
| FrpCodecError
| SendError
| Canceled.

(** ** Messages (msg.rs) *)

Definition FRP_VERSION : string := "0.44.0".

Record AuthInfo := mkAuthInfo { privilege_key : list Ascii.ascii; timestamp : Z }.
Record LoginRequest := mkLoginRequest {
  lq_version : string;
  hostname : string;
  os : string;
  arch : string;
  user : string;
  metas : gmap string string;
  pool_count : Z;
  auth_info : option AuthInfo;
}.
Record PingRequest := mkPingRequest { ping_auth_info : option AuthInfo }.
Record LoginResp := mkLoginResp {
  lr_version : string;
  lr_run_id : option string;
  lr_error : option string;
  login_message : option string;
  rx_limit : option Z;
  tx_limit : option Z;
}.
Record NewWorkConn := mkNewWorkConn {
  wc_run_id : string;
  wc_privilege_key : option (list Ascii.ascii);
  wc_timestamp : option Z;
}.
Record StartWorkConnResp := mkStartWorkConnResp {
  sw_proxy_name : string;
  src_addr : string;
  dst_addr : string;
  src_port : Z;
  dst_port : Z;
}.
Record NewProxyRequest := mkNewProxyRequest {
  proxy_name : string;
  proxy_type : string;
  remote_port : option Z;
  custom_domains : option (list string);
  subdomain : option string;
}.
Record NewProxyResp := mkNewProxyResp { npr_proxy_name : string; npr_remote_addr : string; npr_error : string }.
Definition NewProxyRequest_new (proxy_name proxy_type : string) : NewProxyRequest :=
  mkNewProxyRequest proxy_name proxy_type None None None.
Definition set_remote_port (r : NewProxyRequest) (p : Z) : NewProxyRequest :=
  mkNewProxyRequest (proxy_name r) (proxy_type r) (Some p) (custom_domains r) (subdomain r).
Definition set_custom_domains (r : NewProxyRequest) (ds : list string) : NewProxyRequest :=
  mkNewProxyRequest (proxy_name r) (proxy_type r) (remote_port r) (Some ds) (subdomain r).
Definition set_subdomain (r : NewProxyRequest) (s : string) : NewProxyRequest :=
  mkNewProxyRequest (proxy_name r) (proxy_type r) (remote_port r) (custom_domains r) (Some s).

Abbreviation MsgType := byte.
Definition TYPE_LOGIN : MsgType := x6f.
Definition TYPE_LOGIN_RESP : MsgType := x31.
Definition TYPE_REQ_WORK_CONN : MsgType := x72.
Definition TYPE_PING : MsgType := x68.
Definition TYPE_NEW_WORK_CONN : MsgType := x77.
Definition TYPE_NEW_PROXY : MsgType := x70.
Definition TYPE_NEW_PROXY_RESP : MsgType := x32.
Definition TYPE_START_WORK_CONN : MsgType := x73.
Definition TypeCloseProxy : MsgType := x63.
Definition TypeNewVisitorConn : MsgType := x76.
Definition TypeNewVisitorConnResp : MsgType := x33.
Definition TypePong : MsgType := x34.
Definition TypeUDPPacket : MsgType := x75.
Definition TypeNatHoleVisitor : MsgType := x69.
Definition TypeNatHoleClient : MsgType := x6e.
Definition TypeNatHoleResp : MsgType := x6d.
Definition TypeNatHoleClientDetectOK : MsgType := x64.
Definition TypeNatHoleSid : MsgType := x35.

Definition MSG_HEADER_SIZE : nat := 9.
Record MsgHeader := mkMsgHeader { msg_type : MsgType; mh_len : Z }.
Definition msg_header_encode (hdr : MsgHeader) : bytes := msg_type hdr :: be_bytes 8 (mh_len hdr).
(** On an array of nine bytes. *)
Definition msg_header_decode (buf : bytes) : res Error MsgHeader :=
  t ← index 0 buf;
  l ← slice 1 9 buf;
  Ok (mkMsgHeader t (be_val l)).

(** The crates. [pbkdf2_sha1 rounds salt secret] fills the 16 bytes of the key; [enc_new] and
    [dec_new] start AES-128-CFB from a key and an IV, [cfb_encrypt] and [cfb_decrypt] process
    a buffer in place and move the cipher on. *)
Class FrpLibs := {
  CfbEnc : Type;
  CfbDec : Type;
  pbkdf2_sha1 : Z -> bytes -> bytes -> bytes;
  enc_new : bytes -> bytes -> option CfbEnc;
  dec_new : bytes -> bytes -> option CfbDec;
  cfb_encrypt : CfbEnc -> bytes -> CfbEnc * bytes;
  cfb_decrypt : CfbDec -> bytes -> CfbDec * bytes;
  md5 : bytes -> bytes;
  login_json : LoginRequest -> option bytes;
  work_conn_json : NewWorkConn -> option bytes;
  ping_json : PingRequest -> option bytes;
  new_proxy_json : NewProxyRequest -> option bytes;
  login_resp_of_json : bytes -> option LoginResp;
  start_work_conn_of_json : bytes -> option StartWorkConnResp;
}.

Section Client.
Context `{FrpLibs}.

(** [format!("{}{}", auth_token, timestamp)], hashed and printed as hexadecimal. *)
Definition get_privilege_key (timestamp : Z) (auth_token : string) : list Ascii.ascii :=
  let seed := (auth_token +:+ pretty timestamp)%string in
  encode_to_hex (md5 (String.list_byte_of_string seed)).

(** [now] is the time in seconds, [os] and [arch] what the binary was built for. *)
Definition LoginRequest_new (now : Z) (os arch token user : string) : LoginRequest :=
  mkLoginRequest FRP_VERSION "" os arch user ∅ 1 (Some (mkAuthInfo (get_privilege_key now token) now)).
Definition NewWorkConn_from_run_id (run_id : string) : NewWorkConn := mkNewWorkConn run_id None None.
Definition NewWorkConn_new (now : Z) (run_id token : string) : NewWorkConn :=
  mkNewWorkConn run_id (Some (get_privilege_key now token)) (Some now).

(** ** The cipher (buf_crypto.rs) *)

Definition DEFAULT_SALT : string := "frp".
Definition derive_key (token : string) : bytes :=
  pbkdf2_sha1 64 (String.list_byte_of_string DEFAULT_SALT) (String.list_byte_of_string token).

Record FrpBufCrypto := mkFrpBufCrypto {
  iv : bytes;
  key : bytes;
  enc : CfbEnc;
  dec : CfbDec;
}.
(** [Aes128::new_from_slice] refuses keys that are not 16 bytes. *)
Definition FrpBufCrypto_new (token : string) (iv : bytes) : res Error FrpBufCrypto :=
  let key := derive_key token in
  if negb (length key =? 16)%nat then Err Encrypt
  else
    enc ← ok_or Encrypt (enc_new key iv);
    dec ← ok_or Encrypt (dec_new key iv);
    Ok (mkFrpBufCrypto iv key enc dec).
Definition decrypt_buf (k : FrpBufCrypto) (buf : bytes) : FrpBufCrypto * bytes :=
  let '(d, buf) := cfb_decrypt (dec k) buf in (mkFrpBufCrypto (iv k) (key k) (enc k) d, buf).
Definition encrypt_buf (k : FrpBufCrypto) (buf : bytes) : FrpBufCrypto * bytes :=
  let '(e, buf) := cfb_encrypt (enc k) buf in (mkFrpBufCrypto (iv k) (key k) e (dec k), buf).

(** ** The codec (frp_codec.rs) *)

Inductive FrpRequest :=
| Login_ (r : LoginRequest)
| ReqWorkConn (r : NewWorkConn)
| Ping (r : PingRequest)
| NewProxy (r : NewProxyRequest)
| IV.
Inductive FrpResponse :=
| LoginResp_ (r : LoginResp)
| IV_
| TypeReqWorkConn
| StartWorkConn (r : StartWorkConnResp)
| Test.
Definition is_encrypt (r : FrpRequest) : bool := match r with NewProxy _ => true | _ => false end.

Record Header := mkHeader { type_byte : MsgType; len : Z }.
Inductive Stage := Login | WaitIv | Work.
#[global] Instance Stage_eq_dec : EqDecision Stage.
Proof. solve_decision. Defined.

Record FrpCodec := mkFrpCodec {
  token : string;
  header : option Header;
  frp_coder : option FrpBufCrypto;
  stage : Stage;
}.
Definition FrpCodec_new (token : string) : FrpCodec := mkFrpCodec token None None Login.
Definition set_header (c : FrpCodec) (h : option Header) : FrpCodec :=
  mkFrpCodec (token c) h (frp_coder c) (stage c).
Definition set_stage (c : FrpCodec) (s : Stage) : FrpCodec :=
  mkFrpCodec (token c) (header c) (frp_coder c) s.

(** [if let Some(c) = self.frp_coder.as_mut() { c.decrypt_buf(data) }]. *)
Definition decrypt_data (c : FrpCodec) (data : bytes) : FrpCodec * bytes :=
  match frp_coder c with
  | Some k => let '(k, data) := decrypt_buf k data in (mkFrpCodec (token c) (header c) (Some k) (stage c), data)
  | None => (c, data)
  end.

(** The match on the message type. *)
Definition decode_msg (c : FrpCodec) (t : MsgType) (data : bytes) : FrpCodec * res Error (option FrpResponse) :=
  if decide (t = TYPE_LOGIN_RESP) then
    match login_resp_of_json data with
    | Some resp => (set_stage c WaitIv, Ok (Some (LoginResp_ resp)))
    | None => (c, Err SerdeJsonError)
    end
  else if decide (t = TYPE_REQ_WORK_CONN) then (c, Ok (Some TypeReqWorkConn))
  else if decide (t = TYPE_NEW_PROXY_RESP) then (c, Ok (Some Test))
  else if decide (t = TYPE_START_WORK_CONN) then
    match start_work_conn_of_json data with
    | Some r => (c, Ok (Some (StartWorkConn r)))
    | None => (c, Err SerdeJsonError)
    end
  else (c, Panic).

(** [decode] once the header is known; the codec's own has been taken. *)
Definition decode_body (c : FrpCodec) (h : Header) (src : bytes)
    : FrpCodec * bytes * res Error (option FrpResponse) :=
  if Z.shiftl 2 10 <? len h then (c, src, Err FrpCodecError)
  else if Z.of_nat (length src) <? len h then (set_header c (Some h), src, Ok None)
  else
    let n := Z.to_nat (len h) in
    let '(c, data) := decrypt_data c (take n src) in
    let '(c, r) := decode_msg c (type_byte h) data in
    (c, drop n src, r).

Definition decode (c : FrpCodec) (src : bytes) : FrpCodec * bytes * res Error (option FrpResponse) :=
  if decide (stage c = WaitIv) then
    if (length src <? 16)%nat then (c, src, Ok None)
    else
      match FrpBufCrypto_new (token c) (take 16 src) with
      | Ok k => (mkFrpCodec (token c) (header c) (Some k) Work, drop 16 src, Ok (Some IV_))
      | Err e => (c, drop 16 src, Err e)
      | Panic => (c, drop 16 src, Panic)
      end
  else
    match header c with
    | Some h => decode_body (set_header c None) h src
    | None =>
        if (length src <? 9)%nat then (c, src, Ok None)
        else
          let '(c, data) := decrypt_data c (take 9 src) in
          match data with
          | t :: l => decode_body c (mkHeader t (be_val l)) (drop 9 src)
          | [] => (c, drop 9 src, Panic)
          end
    end.

(** A message in clear: type, length, text. *)
Definition frame (t : MsgType) (str : bytes) : bytes :=
  t :: be_bytes 8 (wrap 64 (Z.of_nat (length str))) ++ str.

Definition encode (c : FrpCodec) (item : FrpRequest) (dst : bytes) : FrpCodec * res Error bytes :=
  match item with
  | IV =>
      (c, k ← ok_or FrpCodecError (frp_coder c); Ok (dst ++ iv k))
  | _ =>
      let m := match item with
        | Login_ r => (TYPE_LOGIN, login_json r)
        | ReqWorkConn r => (TYPE_NEW_WORK_CONN, work_conn_json r)
        | Ping r => (TYPE_PING, ping_json r)
        | NewProxy r => (TYPE_NEW_PROXY, new_proxy_json r)
        | IV => (TYPE_LOGIN, None)
        end in
      match m.2 with
      | None => (c, Err SerdeJsonError)
      | Some str =>
          let data := frame m.1 str in
          if is_encrypt item then
            match frp_coder c with
            | None => (c, Err FrpCodecError)
            | Some k =>
                let '(k, data) := encrypt_buf k data in
                (mkFrpCodec (token c) (header c) (Some k) (stage c), Ok (dst ++ data))
            end
          else (c, Ok (dst ++ data))
      end
  end.

(** Items sent one after the other over the sink, up to the first error. *)
Fixpoint encode_all (c : FrpCodec) (items : list FrpRequest) (dst : bytes) : FrpCodec * res Error bytes :=
  match items with
  | [] => (c, Ok dst)
  | x :: items =>
      match encode c x dst with
      | (c, Ok dst) => encode_all c items dst
      | (c, r) => (c, r)
      end
  end.

(** ** The control connection (frp_control.rs) *)

(** The stream: what arrives before the deadline and whether it ends after that. *)
Record FrpStream := mkFrpStream { items : list (Error + FrpResponse); ended : bool }.
Inductive Next := Item (x : Error + FrpResponse) (s : FrpStream) | End | Pending.
Definition next (s : FrpStream) : Next :=
  match items s with
  | x :: xs => Item x (mkFrpStream xs (ended s))
  | [] => if ended s then End else Pending
  end.

Record FrpControl := mkFrpControl {
  fc_token : string;
  run_id : option string;
  main_stream : option FrpStream;
}.

(** [send] is what the sink answers; the first component is what it accepted. *)
Definition login (send : FrpRequest -> option Error) (login_msg : LoginRequest) (c : FrpControl)
    : list FrpRequest * FrpControl * res Error unit :=
  match send (Login_ login_msg) with
  | Some _ => ([], c, Panic)
  | None =>
      let tx := [Login_ login_msg] in
      match main_stream c with
      | None => (tx, c, Err (ErrorMsg MainStreamNone))
      | Some s =>
          match next s with
          | Pending => (tx, c, Err (ErrorMsg LoginTimeout))
          | Item (inr (LoginResp_ resp)) s =>
              let c := mkFrpControl (fc_token c) (run_id c) (Some s) in
              match lr_error resp with
              | Some e => (tx, c, Err (ErrorMsg (LoginRejected e)))
              | None =>
                  match lr_run_id resp with
                  | None => (tx, c, Err (ErrorMsg NoRunId))
                  | Some id =>
                      let c := mkFrpControl (fc_token c) (Some id) (Some s) in
                      match next s with
                      | Pending => (tx, c, Err (ErrorMsg LoginTimeout))
                      | Item (inr IV_) s =>
                          let c := mkFrpControl (fc_token c) (Some id) (Some s) in
                          match send IV with
                          | None => (tx ++ [IV], c, Ok tt)
                          | Some e => (tx, c, Err e)
                          end
                      | Item _ s => (tx, mkFrpControl (fc_token c) (Some id) (Some s), Ok tt)
                      | End => (tx, c, Ok tt)
                      end
                  end
              end
          | Item _ s => (tx, mkFrpControl (fc_token c) (run_id c) (Some s), Err (ErrorMsg NoLoginResp))
          | End => (tx, c, Err (ErrorMsg NoLoginResp))
          end
      end
  end.

(** [run] takes the stream before it looks at [run_id]; what it spawns gets both. *)
Definition run (c : FrpControl) : FrpControl * res Error (string * FrpStream) :=
  let c' := mkFrpControl (fc_token c) (run_id c) None in
  match main_stream c with
  | None => (c', Err (ErrorMsg MainStreamNone))
  | Some s => (c', id ← ok_or (ErrorMsg RunIdNone) (run_id c); Ok (id, s))
  end.

(** The messages of the stream up to the first error: one work connection per request.
    [open] is what [open_stream().await.unwrap()] finds each time. *)
Fixpoint handle_stream (open : list bool) (xs : list (Error + FrpResponse)) : res Error nat :=
  match xs with
  | inr TypeReqWorkConn :: xs =>
      match open with
      | true :: open => n ← handle_stream open xs; Ok (S n)
      | _ => Panic
      end
  | inr _ :: xs => handle_stream open xs
  | _ => Ok O
  end.

(** A work connection: what it writes, and what it makes of the answer; [None] while the
    answer is incomplete. The type of the answer is not looked at; a length that no vector can
    have panics. *)
Definition work_conn_request (now : Z) (run_id token : string) : res Error bytes :=
  str ← ok_or SerdeJsonError (work_conn_json (NewWorkConn_new now run_id token));
  Ok (frame TYPE_NEW_WORK_CONN str).
Definition work_conn_reply (src : bytes) : res Error (option StartWorkConnResp) :=
  if (length src <? MSG_HEADER_SIZE)%nat then Ok None
  else
    len ← slice 1 9 src;
    if 2 ^ 63 <=? be_val len then Panic else
    let len := Z.to_nat (be_val len) in
    if (length src <? 9 + len)%nat then Ok None
    else
      data ← slice 9 (9 + len) src;
      resp ← ok_or SerdeJsonError (start_work_conn_of_json data);
      Ok (Some resp).


(** ** The multiplexed connection (conn_control.rs) *)

Inductive Poll (A : Type) : Type := Ready (a : A) | PollPending.
#[global] Arguments Ready {A} a.
#[global] Arguments PollPending {A}.
(** [tx] names the one-shot channel the caller waits on. *)
Inductive ControlCommand := OpenStream (tx : nat) | CloseConnection (tx : nat).

(** One poll of the event loop: what is sent on one-shot channels, the channels dropped
    without an answer, and [Ok tt] for [Pending]. A command taken from the queue while the
    connection cannot open a stream yet is dropped with its channel. *)
Definition poll {Stream} (recv : Poll (option ControlCommand)) (outbound : Poll (Error + Stream))
    (inbound : Poll (option (Error + Stream))) : list (nat * (Error + Stream)) * list nat * res Error unit :=
  let poll_inbound :=
    match inbound with
    | Ready (Some (inl e)) => Err e
    | Ready _ => Panic
    | PollPending => Ok tt
    end in
  match recv with
  | Ready (Some (OpenStream tx)) =>
      match outbound with
      | Ready r => ([(tx, r)], [], poll_inbound)
      | PollPending => ([], [tx], Ok tt)
      end
  | Ready (Some (CloseConnection tx)) => ([], [tx], Panic)
  | _ => ([], [], poll_inbound)
  end.
End Client.

(** ** Lemmas *)

(** Documented behaviour of the ciphers: AES-128 takes keys and IVs of 16 bytes, CFB works in
    place and on a stream (in pieces as in one), decryption inverts encryption. *)
Class FrpLaws `{FrpLibs} : Prop := {
  pbkdf2_len n s t : length (pbkdf2_sha1 n s t) = 16%nat;
  enc_new_some k v : length k = 16%nat -> length v = 16%nat -> is_Some (enc_new k v);
  dec_new_some k v : length k = 16%nat -> length v = 16%nat -> is_Some (dec_new k v);
  cfb_encrypt_app e a b : cfb_encrypt e (a ++ b) =
    let '(e, a) := cfb_encrypt e a in let '(e, b) := cfb_encrypt e b in (e, a ++ b);
  cfb_decrypt_app d a b : cfb_decrypt d (a ++ b) =
    let '(d, a) := cfb_decrypt d a in let '(d, b) := cfb_decrypt d b in (d, a ++ b);
  cfb_encrypt_len e a : length (cfb_encrypt e a).2 = length a;
  cfb_decrypt_len d a : length (cfb_decrypt d a).2 = length a;
  cfb_inverse k v e d p : enc_new k v = Some e -> dec_new k v = Some d ->
    (cfb_decrypt d (cfb_encrypt e p).2).2 = p;
}.

Section Facts.
Context `{FrpLaws}.

Lemma decrypt_data_fields c data c1 d1 : decrypt_data c data = (c1, d1) ->
  length d1 = length data /\ header c1 = header c /\ stage c1 = stage c /\ token c1 = token c.
Proof.
  unfold decrypt_data, decrypt_buf. destruct (frp_coder c) as [k|].
  - pose proof (cfb_decrypt_len (dec k) data). destruct (cfb_decrypt _ _). intros [= <- <-]. done.
  - by intros [= <- <-].
Qed.
Lemma decode_msg_some c t data c1 : decode_msg c t data <> (c1, Ok None).
Proof. unfold decode_msg. repeat case_match; congruence. Qed.
Lemma decode_msg_header c t data : header (decode_msg c t data).1 = header c.
Proof. unfold decode_msg. repeat case_match; done. Qed.

Lemma decode_body_more c h a c1 a1 : decode_body c h a = (c1, a1, Ok None) ->
  c1 = set_header c (Some h) /\ a1 = a.
Proof.
  unfold decode_body. destruct (_ <? _); [done|]. destruct (_ <? _); [by intros [= <- <-]|].
  destruct (decrypt_data _ _). destruct (decode_msg _ _ _) as [c2 r] eqn:Hm.
  intros [= <- <- ->]. by apply decode_msg_some in Hm.
Qed.
Lemma frp_decode_body_app c h a b c1 a1 r : decode_body c h a = (c1, a1, r) -> r <> Ok None ->
  decode_body c h (a ++ b) = (c1, a1 ++ b, r).
Proof.
  unfold decode_body. rewrite length_app. destruct (_ <? _); [by intros [= <- <- <-]|].
  destruct (Z.ltb_spec (Z.of_nat (length a)) (len h)); [intros [= <- <- <-]; done|].
  intros Hd _. destruct (Z.ltb_spec (Z.of_nat (length a + length b)) (len h)); [lia|].
  rewrite take_app_le, drop_app_le by lia. destruct (decrypt_data _ _). destruct (decode_msg _ _ _).
  by injection Hd as <- <- <-.
Qed.
Lemma decode_body_header c h a c1 a1 x : decode_body c h a = (c1, a1, Ok (Some x)) ->
  header c1 = header c /\ (length a1 <= length a)%nat.
Proof.
  unfold decode_body. destruct (_ <? _); [done|]. destruct (_ <? _); [done|].
  destruct (decrypt_data _ _) as [c2 d] eqn:Hd. pose proof (decode_msg_header c2 (type_byte h) d) as Hm.
  destruct (decode_msg _ _ _) as [c3 r]. intros [= <- <- ->]. rewrite length_drop.
  apply decrypt_data_fields in Hd as (_ & <- & _). cbn in Hm. split; [done|lia].
Qed.

(** Appending to the buffer changes nothing but the rest, unless more was asked for. *)
Lemma frp_decode_app c a b c1 a1 r : decode c a = (c1, a1, r) -> r <> Ok None ->
  decode c (a ++ b) = (c1, a1 ++ b, r).
Proof.
  unfold decode. rewrite length_app. destruct (decide _).
  - destruct (Nat.ltb_spec (length a) 16); [intros [= <- <- <-]; done|].
    destruct (Nat.ltb_spec (length a + length b) 16); [lia|].
    rewrite take_app_le, drop_app_le by lia.
    destruct (FrpBufCrypto_new _ _); by intros [= <- <- <-].
  - destruct (header c) as [h|]; [apply frp_decode_body_app|].
    destruct (Nat.ltb_spec (length a) 9); [intros [= <- <- <-]; done|].
    destruct (Nat.ltb_spec (length a + length b) 9); [lia|].
    rewrite take_app_le, drop_app_le by lia. destruct (decrypt_data _ _) as [c2 [|t l]];
      [by intros [= <- <- <-]|apply frp_decode_body_app].
Qed.
Lemma frp_decode_resume c a b c1 a1 : decode c a = (c1, a1, Ok None) ->
  decode c (a ++ b) = decode c1 (a1 ++ b).
Proof.
  unfold decode at 1. destruct (decide _) as [Hs|Hs].
  - destruct (_ <? _)%nat; [by intros [= <- <-]|]. destruct (FrpBufCrypto_new _ _); done.
  - destruct (header c) as [h|] eqn:Hh.
    + intros [-> ->]%decode_body_more. f_equal. destruct c; cbn in *; by subst.
    + destruct (Nat.ltb_spec (length a) 9) as [?|Ha]; [by intros [= <- <-]|].
      destruct (decrypt_data _ _) as [c2 [|t l]] eqn:Hd; [done|]. intros [-> ->]%decode_body_more.
      unfold decode. rewrite decide_False by done. rewrite Hh, length_app.
      destruct (Nat.ltb_spec (length a + length b) 9); [lia|]. rewrite take_app_le, drop_app_le, Hd by lia.
      apply decrypt_data_fields in Hd as (_ & Hh2 & Hs2 & _). cbn [set_header stage header].
      rewrite decide_False by congruence. f_equal. destruct c2; unfold set_header; cbn in *. congruence.
Qed.

Definition measure (c : FrpCodec) (src : bytes) : nat := length src + (if header c then 1 else 0).
Lemma frp_decode_measure c a c1 a1 x : decode c a = (c1, a1, Ok (Some x)) -> (measure c1 a1 < measure c a)%nat.
Proof.
  unfold decode, measure. destruct (decide _).
  - destruct (Nat.ltb_spec (length a) 16); [done|]. destruct (FrpBufCrypto_new _ _); [|done..].
    intros [= <- <- <-]. cbn [header]. rewrite length_drop. lia.
  - destruct (header c) as [h|] eqn:Hh.
    + intros [-> ?]%decode_body_header. cbn. lia.
    + destruct (Nat.ltb_spec (length a) 9); [done|]. destruct (decrypt_data _ _) as [c2 [|t l]] eqn:Hd; [done|].
      apply decrypt_data_fields in Hd as (_ & Hh2 & _). intros [-> Hl]%decode_body_header.
      rewrite length_drop in Hl. rewrite Hh2, Hh. lia.
Qed.

#[global] Instance frp_stream : StreamDecoder decode measure.
Proof.
  split.
  - intros * Hd. by apply frp_decode_app.
  - intros *. apply frp_decode_resume.
  - intros * Hd Hr. eexists. by apply frp_decode_app.
  - intros *. apply frp_decode_measure.
  - intros c a. unfold measure. destruct (header c); lia.
Qed.

(** *** The stream a server sends *)

Lemma frame_header t str rest : (Z.of_nat (length str) <= 2048) ->
  exists l, length l = 8%nat /\ be_val l = Z.of_nat (length str) /\
    frame t str ++ rest = (t :: l) ++ str ++ rest.
Proof.
  intros Hs. exists (be_bytes 8 (Z.of_nat (length str))). split; [apply length_be_bytes|].
  split; [apply be_val_bytes_small; unfold in_u; cbn; lia|].
  unfold frame. rewrite wrap_small by (unfold in_u; lia). cbn [app]. by rewrite <- app_assoc.
Qed.
Lemma decrypt_split d a d' p n : cfb_decrypt d a = (d', p) ->
  exists d1, cfb_decrypt d (take n a) = (d1, take n p) /\ cfb_decrypt d1 (drop n a) = (d', drop n p).
Proof.
  intros Hd. rewrite <- (take_drop n a), cfb_decrypt_app in Hd.
  pose proof (cfb_decrypt_len d (take n a)) as Hl.
  destruct (cfb_decrypt d (take n a)) as [d1 p1]. cbn in Hl.
  pose proof (cfb_decrypt_len d1 (drop n a)) as Hl2.
  destruct (cfb_decrypt d1 (drop n a)) as [d2 p2] eqn:E2. cbn in Hl2.
  injection Hd as <- <-. exists d1. rewrite E2. rewrite length_take in Hl. rewrite length_drop in Hl2.
  destruct (decide (n <= length a)%nat).
  - rewrite take_app_length', drop_app_length' by lia. done.
  - destruct p2; [|cbn in *; lia]. rewrite app_nil_r, (take_ge p1), (drop_ge p1) by lia. done.
Qed.

(** What a message of the working stage is decoded to. *)
Definition work_msg (m : MsgType * bytes) : option FrpResponse :=
  if decide (m.1 = TYPE_REQ_WORK_CONN) then Some TypeReqWorkConn
  else if decide (m.1 = TYPE_NEW_PROXY_RESP) then Some Test
  else if decide (m.1 = TYPE_START_WORK_CONN) then StartWorkConn <$> start_work_conn_of_json m.2
  else None.
Definition msg_ok (m : MsgType * bytes) : Prop := Z.of_nat (length m.2) <= 2048 /\ is_Some (work_msg m).
Definition msg_frame (m : MsgType * bytes) : bytes := frame m.1 m.2.

Lemma decode_work_msg c m x : work_msg m = Some x -> decode_msg c m.1 m.2 = (c, Ok (Some x)).
Proof.
  destruct m as [t b]. unfold work_msg, decode_msg. cbn [fst snd].
  destruct (decide (t = TYPE_REQ_WORK_CONN)) as [->|]; [intros [= <-]; reflexivity|].
  destruct (decide (t = TYPE_NEW_PROXY_RESP)) as [->|]; [intros [= <-]; reflexivity|].
  destruct (decide (t = TYPE_START_WORK_CONN)) as [->|]; [|done].
  destruct (start_work_conn_of_json b); intros [= <-]. reflexivity.
Qed.

Definition working (token : string) (k : FrpBufCrypto) : FrpCodec := mkFrpCodec token None (Some k) Work.
Definition set_dec (k : FrpBufCrypto) (d : CfbDec) : FrpBufCrypto := mkFrpBufCrypto (iv k) (key k) (enc k) d.

Lemma decode_encrypted tok k m rest cipher d' : Z.of_nat (length m.2) <= 2048 ->
  cfb_decrypt (dec k) cipher = (d', msg_frame m ++ rest) ->
  exists d1 cipher1, decode (working tok k) cipher =
    (let '(c, r) := decode_msg (working tok (set_dec k d1)) m.1 m.2 in (c, cipher1, r)) /\
    cfb_decrypt d1 cipher1 = (d', rest).
Proof.
  intros Hlen Hd. pose proof (cfb_decrypt_len (dec k) cipher) as Hlc. rewrite Hd in Hlc.
  destruct (frame_header m.1 m.2 rest Hlen) as (l & Hl & Hv & Hf). unfold msg_frame in *.
  rewrite Hf in Hd, Hlc. cbn [snd] in Hlc. rewrite !length_app in Hlc. cbn [length] in Hlc. rewrite Hl in Hlc.
  destruct (decrypt_split _ _ _ _ 9 Hd) as (d1 & Hd1 & Hd2).
  rewrite take_app_length' in Hd1 by (cbn; lia). rewrite drop_app_length' in Hd2 by (cbn; lia).
  destruct (decrypt_split _ _ _ _ (length m.2) Hd2) as (d2 & Hd3 & Hd4).
  rewrite take_app_length in Hd3. rewrite drop_app_length in Hd4.
  exists d2, (drop (length m.2) (drop 9 cipher)). split; [|done].
  unfold decode, working. cbn [stage]. rewrite decide_False by done. cbn [header].
  destruct (Nat.ltb_spec (length cipher) 9); [lia|]. unfold decrypt_data at 1. cbn [frp_coder].
  unfold decrypt_buf. rewrite Hd1. cbn [token header stage]. unfold decode_body. cbn [len].
  rewrite Hv. change (Z.shiftl 2 10) with 2048. destruct (Z.ltb_spec 2048 (Z.of_nat (length m.2))); [lia|].
  rewrite length_drop. destruct (Z.ltb_spec (Z.of_nat (length cipher - 9)) (Z.of_nat (length m.2))); [lia|].
  rewrite Nat2Z.id. unfold decrypt_data. cbn [frp_coder]. unfold decrypt_buf. cbn [dec]. by rewrite Hd3.
Qed.
Lemma decode_clear tok m rest : Z.of_nat (length m.2) <= 2048 ->
  decode (FrpCodec_new tok) (msg_frame m ++ rest) =
  let '(c, r) := decode_msg (FrpCodec_new tok) m.1 m.2 in (c, rest, r).
Proof.
  intros Hl. unfold msg_frame. destruct (frame_header m.1 m.2 rest Hl) as (l & Hll & Hval & ->).
  unfold decode. cbn [FrpCodec_new stage header]. rewrite decide_False by done.
  rewrite length_app. cbn [length]. rewrite Hll. cbn [Nat.add Nat.ltb Nat.leb].
  rewrite (take_app_length' (_ :: l)), (drop_app_length' (_ :: l)) by (cbn; lia).
  unfold decrypt_data at 1. cbn [frp_coder FrpCodec_new]. unfold decode_body. cbn [len type_byte]. rewrite Hval.
  change (Z.shiftl 2 10) with 2048.
  destruct (Z.ltb_spec 2048 (Z.of_nat (length m.2))); [lia|]. rewrite length_app.
  destruct (Z.ltb_spec (Z.of_nat (length m.2 + length rest)) (Z.of_nat (length m.2))); [lia|].
  rewrite Nat2Z.id, take_app_length, drop_app_length. done.
Qed.

Lemma drain_work tok ms : forall k cipher d', Forall msg_ok ms ->
  cfb_decrypt (dec k) cipher = (d', ms ≫= msg_frame) ->
  exists d1, drain_all decode (working tok k) cipher = (omap work_msg ms, working tok (set_dec k d1), [], More).
Proof.
  induction ms as [|m ms IH]; intros k cipher d' Hms Hd.
  - pose proof (cfb_decrypt_len (dec k) cipher) as Hl. rewrite Hd in Hl. destruct cipher; [|done].
    exists (dec k). rewrite (drain_all_step decode (measure := measure)). cbn. by destruct k.
  - apply Forall_cons in Hms as [[Hl [x Hx]] Hms]. cbn [mbind list_bind] in Hd. fold (ms ≫= msg_frame) in Hd.
    destruct (decode_encrypted tok k m _ _ _ Hl Hd) as (d1 & c1 & Hdec & Hd1).
    rewrite (decode_work_msg _ m x Hx) in Hdec.
    destruct (IH (set_dec k d1) c1 d' Hms Hd1) as [d2 Hdr].
    exists d2. rewrite (drain_all_step decode (measure := measure)), Hdec, Hdr. cbn. by rewrite Hx.
Qed.

Lemma FrpBufCrypto_new_ok tok v : length v = 16%nat -> exists k, FrpBufCrypto_new tok v = Ok k /\
  iv k = v /\ key k = derive_key tok /\ enc_new (derive_key tok) v = Some (enc k) /\
  dec_new (derive_key tok) v = Some (dec k).
Proof.
  intros Hv. assert (length (derive_key tok) = 16%nat) as Hk by apply pbkdf2_len.
  unfold FrpBufCrypto_new. rewrite Hk. cbn [Nat.eqb negb].
  destruct (enc_new_some _ _ Hk Hv) as [e He]. destruct (dec_new_some _ _ Hk Hv) as [d Hd].
  rewrite He, Hd. cbn. by eexists.
Qed.

Lemma drain_login tok js resp v rest : Z.of_nat (length js) <= 2048 -> login_resp_of_json js = Some resp ->
  length v = 16%nat -> exists k, FrpBufCrypto_new tok v = Ok k /\
  drain_all decode (FrpCodec_new tok) (frame TYPE_LOGIN_RESP js ++ v ++ rest) =
  let '(xs, c, a, s) := drain_all decode (working tok k) rest in (LoginResp_ resp :: IV_ :: xs, c, a, s).
Proof.
  intros Hl Hj Hv. destruct (FrpBufCrypto_new_ok tok v Hv) as (k & Hk & _). exists k. split; [done|].
  rewrite (drain_all_step decode (measure := measure) (FrpCodec_new tok)).
  rewrite (decode_clear tok (TYPE_LOGIN_RESP, js)) by done. cbn [fst snd].
  unfold decode_msg. rewrite decide_True by done. rewrite Hj. unfold set_stage. cbn [FrpCodec_new token header frp_coder].
  rewrite (drain_all_step decode (measure := measure)). unfold decode at 1. cbn [stage]. rewrite decide_True by done.
  rewrite length_app, Hv. cbn [Nat.add Nat.ltb Nat.leb]. rewrite (take_app_length' v), (drop_app_length' v) by lia.
  cbn [token header]. rewrite Hk. fold (working tok k). by destruct (drain_all decode (working tok k) rest) as [[[? ?] ?] ?].
Qed.

(** C28: the control stream is decoded whole, through the key exchange and however the
    transport cuts it. A server that answers the login, sends an IV and then encrypts any
    sequence of the messages the client knows (each at most 2048 bytes) under the key of the
    shared token is read as exactly: the login response, the IV, and these messages in order,
    with nothing left over and the codec ready for more. *)
Theorem frp_session_delivery tok js resp v e msgs chunks :
  Z.of_nat (length js) <= 2048 -> login_resp_of_json js = Some resp ->
  length v = 16%nat -> enc_new (derive_key tok) v = Some e -> Forall msg_ok msgs ->
  concat chunks = frame TYPE_LOGIN_RESP js ++ v ++ (cfb_encrypt e (msgs ≫= msg_frame)).2 ->
  exists k, feed decode (FrpCodec_new tok) [] chunks =
    (LoginResp_ resp :: IV_ :: omap work_msg msgs, working tok k, [], More).
Proof.
  intros Hl Hj Hv He Hms Hc.
  destruct (FrpBufCrypto_new_ok tok v Hv) as (k & Hk & _ & _ & _ & Hd).
  destruct (drain_login tok js resp v (cfb_encrypt e (msgs ≫= msg_frame)).2 Hl Hj Hv) as (k' & Hk' & Hdr).
  rewrite Hk in Hk'. injection Hk' as <-.
  pose proof (cfb_inverse _ _ _ _ (msgs ≫= msg_frame) He Hd) as Hinv.
  destruct (cfb_decrypt (dec k) _) as [d' p] eqn:Hdec. cbn in Hinv. subst p.
  destruct (drain_work tok msgs k _ d' Hms Hdec) as [d1 Hw]. rewrite Hw in Hdr.
  exists (set_dec k d1). apply (feed_drain decode (measure := measure)); [|cbn [app]; by rewrite Hc].
  by rewrite (drain_all_step decode (measure := measure)).
Qed.

Lemma decode_msg_panics c m : (decode_msg c m.1 m.2).2 = Panic <->
  m.1 ∉ [TYPE_LOGIN_RESP; TYPE_REQ_WORK_CONN; TYPE_NEW_PROXY_RESP; TYPE_START_WORK_CONN].
Proof.
  unfold decode_msg. rewrite !not_elem_of_cons.
  repeat case_decide; repeat case_match; cbn; split; try done; try tauto.
  intros _. repeat split; try done. apply not_elem_of_nil.
Qed.

(** What a server can do to the decoder after the login. A complete encrypted message of
    at most 2048 bytes makes it panic exactly when its type is none of the four it matches on
    (login response, work connection request, proxy response, work connection start), so the
    answer to the [Ping] the client can send takes it down; a longer length is an error. *)
Theorem frp_decode_panics_iff tok k m cipher d' rest :
  cfb_decrypt (dec k) cipher = (d', msg_frame m ++ rest) -> Z.of_nat (length m.2) < 2 ^ 64 ->
  let r := (decode (working tok k) cipher).2 in
  (r = Panic <-> Z.of_nat (length m.2) <= 2048 /\
     m.1 ∉ [TYPE_LOGIN_RESP; TYPE_REQ_WORK_CONN; TYPE_NEW_PROXY_RESP; TYPE_START_WORK_CONN]) /\
  (r = Err FrpCodecError <-> 2048 < Z.of_nat (length m.2)).
Proof.
  intros Hd Hw r. destruct (decide (Z.of_nat (length m.2) <= 2048)) as [Hl|Hl].
  - destruct (decode_encrypted tok k m rest cipher d' Hl Hd) as (d1 & c1 & Hdec & _).
    unfold r. rewrite Hdec. pose proof (decode_msg_panics (working tok (set_dec k d1)) m) as Hp.
    assert ((decode_msg (working tok (set_dec k d1)) m.1 m.2).2 <> Err FrpCodecError) as Hn.
    { unfold decode_msg. repeat case_match; done. }
    destruct (decode_msg _ _ _) as [c2 r2]. cbn [snd] in *. rewrite Hp. split; [tauto|]. split; [done|lia].
  - assert (r = Err FrpCodecError) as ->; [|split; [split; [done|lia]|split; [lia|done]]].
    pose proof (cfb_decrypt_len (dec k) cipher) as Hlc. rewrite Hd in Hlc. cbn [snd] in Hlc.
    destruct (decrypt_split _ _ _ _ 9 Hd) as (d1 & Hd1 & _). unfold msg_frame, frame in *.
    rewrite wrap_small in * by (unfold in_u; lia).
    pose proof (length_be_bytes 8 (Z.of_nat (length m.2))) as Hb. rewrite length_app in Hlc. cbn [length] in Hlc.
    rewrite length_app in Hlc. unfold r, decode, working. cbn [stage]. rewrite decide_False by done. cbn [header].
    destruct (Nat.ltb_spec (length cipher) 9); [lia|]. unfold decrypt_data at 1. cbn [frp_coder].
    unfold decrypt_buf. rewrite Hd1. cbn [app take]. rewrite <- app_assoc, take_app_length' by lia.
    unfold decode_body. cbn [len]. rewrite be_val_bytes_small by (unfold in_u; cbn; lia).
    change (Z.shiftl 2 10) with 2048. destruct (Z.ltb_spec 2048 (Z.of_nat (length m.2))); [done|lia].
Qed.

Lemma encode_new_proxies tok reqs : forall k strs dst, mapM new_proxy_json reqs = Some strs ->
  exists k', encode_all (working tok k) (NewProxy <$> reqs) dst =
    (working tok k', Ok (dst ++ (cfb_encrypt (enc k) (strs ≫= frame TYPE_NEW_PROXY)).2)).
Proof.
  induction reqs as [|r reqs IH]; intros k strs dst.
  - intros [= <-]. exists k. cbn. pose proof (cfb_encrypt_len (enc k) []) as Hl.
    destruct (cfb_encrypt _ _) as [? []]; [|done]. cbn. by rewrite app_nil_r.
  - cbn [mapM]. rewrite bind_Some. intros (str & Hstr & Hs). apply bind_Some in Hs as (strs' & Hs & [= <-]).
    cbn [mbind list_bind]. fold (strs' ≫= frame TYPE_NEW_PROXY). rewrite cfb_encrypt_app.
    cbn [fmap list_fmap encode_all encode is_encrypt]. cbn [snd fst]. rewrite Hstr. unfold working at 1. cbn [frp_coder].
    unfold encrypt_buf. destruct (cfb_encrypt (enc k) (frame TYPE_NEW_PROXY str)) as [e1 a1].
    destruct (IH (mkFrpBufCrypto (iv k) (key k) e1 (dec k)) strs' (dst ++ a1) Hs) as [k' Hk'].
    exists k'. cbn [working token header stage]. fold (working tok (mkFrpBufCrypto (iv k) (key k) e1 (dec k))). rewrite Hk'. cbn [enc].
    destruct (cfb_encrypt e1 _) as [e2 a2]. cbn. by rewrite <- app_assoc.
Qed.

(** What the client sends after the key exchange. The IV and then any proxy requests go
    out as the IV in clear followed by bytes that a server holding the token decrypts to these
    requests, framed, in order; a [Ping], by contrast, leaves in clear and without moving the
    cipher, whatever was exchanged before. *)
Theorem frp_requests_encrypted tok v k d reqs strs r str :
  FrpBufCrypto_new tok v = Ok k -> dec_new (derive_key tok) v = Some d ->
  mapM new_proxy_json reqs = Some strs -> ping_json r = Some str ->
  exists k' cipher,
    encode_all (working tok k) (IV :: (NewProxy <$> reqs)) [] = (working tok k', Ok (v ++ cipher)) /\
    (cfb_decrypt d cipher).2 = strs ≫= frame TYPE_NEW_PROXY /\
    encode (working tok k') (Ping r) (v ++ cipher) = (working tok k', Ok (v ++ cipher ++ frame TYPE_PING str)).
Proof.
  intros Hk Hd Hs Hr. unfold FrpBufCrypto_new in Hk. destruct (negb _); [done|].
  apply bind_Ok_inv in Hk as (e & He & Hk). apply bind_Ok_inv in Hk as (d' & Hd' & [= <-]).
  destruct (enc_new _ _) as [e'|] eqn:Henc; [injection He as ->|done].
  destruct (encode_new_proxies tok reqs (mkFrpBufCrypto v (derive_key tok) e d') strs v Hs) as [k' Hk'].
  exists k', (cfb_encrypt e (strs ≫= frame TYPE_NEW_PROXY)).2. cbn [encode_all encode working frp_coder ok_or mbind res_bind iv app].
  split; [exact Hk'|]. split; [by eapply cfb_inverse|]. cbn [encode]. cbn [snd fst is_encrypt]. rewrite Hr. by rewrite app_assoc.
Qed.

(** The login. It panics exactly if the sink refuses the login message; it succeeds
    exactly if the first item is a login response with a run id and without an error and the
    stream then yields or ends in time (and takes the IV, if one is due), and then the run id
    is kept; but it also succeeds, without the IV ever being sent, when what follows the
    response is the end of the stream, an error or any other message. *)
Theorem login_spec send msg c tx c' r : login send msg c = (tx, c', r) ->
  (r = Panic <-> send (Login_ msg) <> None) /\
  (r = Ok tt <-> send (Login_ msg) = None /\ exists s resp id xs, main_stream c = Some s /\
     items s = inr (LoginResp_ resp) :: xs /\ lr_error resp = None /\ lr_run_id resp = Some id /\
     run_id c' = Some id /\ (xs = [] -> ended s = true) /\ (head xs = Some (inr IV_) -> send IV = None)) /\
  (IV ∈ tx <-> r = Ok tt /\ exists s x xs, main_stream c = Some s /\ items s = x :: inr IV_ :: xs).
Proof.
  unfold login. destruct (send (Login_ msg)) as [e|] eqn:Hsend; [intros [= <- <- <-]; set_solver|].
  assert (IV ∉ [Login_ msg]) as Hni by set_solver.
  destruct (main_stream c) as [[xs en]|]; [|intros [= <- <- <-]; naive_solver].
  unfold next. cbn [items ended].
  destruct xs as [|[e|x] xs]; [destruct en; intros [= <- <- <-]; naive_solver|intros [= <- <- <-]; naive_solver|].
  destruct x as [resp| | | |]; try (intros [= <- <- <-]; naive_solver).
  destruct (lr_error resp) as [e|] eqn:Hre; [intros [= <- <- <-]; naive_solver|].
  destruct (lr_run_id resp) as [id|] eqn:Hid; [|intros [= <- <- <-]; naive_solver]. cbn [items ended].
  destruct xs as [|[e|y] xs]; [destruct en; intros [= <- <- <-]; naive_solver|intros [= <- <- <-]; naive_solver|].
  destruct y; try (intros [= <- <- <-]; naive_solver).
  destruct (send IV) eqn:Hiv; intros [= <- <- <-]; [naive_solver|].
  assert (IV ∈ [Login_ msg] ++ [IV]) by set_solver. naive_solver.
Qed.
End Facts.

(** ** Witnesses *)
Module Toy.
Definition resp : LoginResp := mkLoginResp "0.44.0" (Some "id"%string) None None None None.
(** A stateless stand-in for the cipher: every byte complemented. *)
#[export] Instance libs : FrpLibs := {|
  CfbEnc := unit;
  CfbDec := unit;
  pbkdf2_sha1 _ _ _ := replicate 16 x00;
  enc_new k v := if decide (length k = 16%nat /\ length v = 16%nat) then Some tt else None;
  dec_new k v := if decide (length k = 16%nat /\ length v = 16%nat) then Some tt else None;
  cfb_encrypt _ b := (tt, (fun x => b8 (255 - u8 x)) <$> b);
  cfb_decrypt _ b := (tt, (fun x => b8 (255 - u8 x)) <$> b);
  md5 m := replicate 16 x00;
  login_json _ := Some [x7b; x7d];
  work_conn_json _ := Some [x7b; x7d];
  ping_json _ := Some [x7b; x7d];
  new_proxy_json _ := Some [x7b; x7d];
  login_resp_of_json d := Some resp;
  start_work_conn_of_json d := None;
|}.
#[export] Instance laws : FrpLaws.
Proof.
  split; try done.
  - intros k v Hk Hv. cbn. rewrite decide_True by done. by eexists.
  - intros k v Hk Hv. cbn. rewrite decide_True by done. by eexists.
  - intros e a b. cbn. by rewrite fmap_app.
  - intros e a b. cbn. by rewrite fmap_app.
  - intros e a. cbn. by rewrite length_fmap.
  - intros e a. cbn. by rewrite length_fmap.
  - intros k v e d p _ _. cbn. rewrite <- list_fmap_compose. rewrite <- (list_fmap_id p) at 2.
    apply list_fmap_ext. intros _ x _. cbn. destruct x; reflexivity.
Qed.
End Toy.

Section Witnesses.
#[local] Existing Instance Toy.libs.
#[local] Existing Instance Toy.laws.
Definition toy_iv : bytes := replicate 16 x09.
Definition toy_msgs : list (MsgType * bytes) := [(TYPE_REQ_WORK_CONN, [x7b; x7d]); (TYPE_NEW_PROXY_RESP, [])].
Definition toy_stream : bytes :=
  frame TYPE_LOGIN_RESP [x7b; x7d] ++ toy_iv ++ (cfb_encrypt (FrpLibs := Toy.libs) tt (toy_msgs ≫= msg_frame)).2.
Definition toy_coder : FrpBufCrypto := mkFrpBufCrypto (H := Toy.libs) toy_iv (derive_key "t") tt tt.

(** Login, IV and two encrypted messages, cut inside each of them. *)
Lemma frp_session_delivery_witness :
  exists k, feed decode (FrpCodec_new "t") [] [take 4 toy_stream; take 11 (drop 4 toy_stream); take 23 (drop 15 toy_stream); drop 38 toy_stream]
    = ([LoginResp_ Toy.resp; IV_; TypeReqWorkConn; Test], working "t" k, [], More).
Proof.
  apply (frp_session_delivery (H := Toy.libs) "t" [x7b; x7d] Toy.resp toy_iv tt toy_msgs).
  - vm_compute. congruence.
  - reflexivity.
  - reflexivity.
  - reflexivity.
  - repeat constructor; vm_compute; try congruence; by eexists.
  - vm_compute. reflexivity.
Defined.

(** A pong. *)
Lemma frp_decode_panics_iff_witness :
  (decode (working "t" toy_coder) (cfb_encrypt (FrpLibs := Toy.libs) tt (msg_frame (TypePong, [x7b; x7d]))).2).2 = Panic.
Proof.
  apply (frp_decode_panics_iff (H := Toy.libs) "t" toy_coder (TypePong, [x7b; x7d]) _ tt []).
  - vm_compute. reflexivity.
  - vm_compute. reflexivity.
  - split; [vm_compute; congruence|]. by apply (bool_decide_unpack (_ ∉ _)).
Defined.

Lemma frp_requests_encrypted_witness : exists k' cipher,
  encode_all (working "t" toy_coder) [IV; NewProxy (NewProxyRequest_new "p" "tcp")] [] = (working "t" k', Ok (toy_iv ++ cipher)) /\
  (cfb_decrypt (FrpLibs := Toy.libs) tt cipher).2 = frame TYPE_NEW_PROXY [x7b; x7d] /\
  encode (working "t" k') (Ping (mkPingRequest None)) (toy_iv ++ cipher)
    = (working "t" k', Ok (toy_iv ++ cipher ++ frame TYPE_PING [x7b; x7d])).
Proof.
  apply (frp_requests_encrypted (H := Toy.libs) "t" toy_iv toy_coder tt [NewProxyRequest_new "p" "tcp"] [[x7b; x7d]]); reflexivity.
Defined.

(** A server that closes after its answer: the client is logged in without a cipher. *)
Definition toy_control : FrpControl :=
  mkFrpControl "t" None (Some (mkFrpStream [inr (LoginResp_ Toy.resp)] true)).
Lemma login_spec_witness : IV ∉ (login (fun _ => None) (LoginRequest_new 0 "linux" "x86_64" "t" "u") toy_control).1.1.
Proof.
  intros Hin. pose proof (login_spec (fun _ => None) (LoginRequest_new 0 "linux" "x86_64" "t" "u") toy_control
    _ _ _ eq_refl) as (_ & _ & Hiv).
  apply Hiv in Hin as (_ & s & x & xs & [= <-] & Hx). discriminate Hx.
Defined.
End Witnesses.
End Frp.
