(* ===== verification/FrpConn.v ===== *)
(** * The connections of the frp client (derp/frp-client/src: conn_control.rs, frp_control.rs,
    msg.rs)

    All streams of the client are multiplexed over one connection. A task polls it
    ([ConnControlFuture]); callers ask it for new streams over a bounded channel and wait for
    the answer. [Frp.poll] is one poll of the task; this file adds when the task is polled at
    all: a poll that finds the channel empty leaves its waker there, and one that takes a
    command does not. What is built on the streams follows: the control connection's stream,
    and the work connections with the bytes they copy. The channel is [Channels.Mpsc]; the
    multiplexer is what its polls return. *)

From S2P Require Import Prelude Bytes Channels Frp.
#[local] Open Scope nat_scope.

Module FrpConn.
Import Frp.

(** ** conn_control.rs *)
Section Conn.
Context `{Mpsc} {Stream : Type}.

(** [ct_waker]: the channel has the task's waker; [ct_woken]: the task is to be polled;
    [ct_alive]: it has neither ended nor panicked. [ct_done] are the callers that were answered,
    or whose one-shot channel was dropped ([None]), in that order. *)
Record ConnTask := mkConnTask {
  ct_chan : chan ControlCommand;
  ct_waker : bool;
  ct_woken : bool;
  ct_alive : bool;
  ct_done : list (nat * option (Error + Stream));
}.
(** [ConnControl::new], and the spawn of its future. *)
Definition ConnControl_new : ConnTask := mkConnTask (channel 8) false true true [].

Definition tx_of (c : ControlCommand) : nat := match c with OpenStream tx | CloseConnection tx => tx end.

(** [open_stream]: the command is sent when there is room; sending wakes the task if its waker
    is there, and takes the waker away. When the future is gone sending fails. *)
Definition ask (tx : nat) (s : ConnTask) : ConnTask :=
  if ct_alive s then
    match try_send (ct_chan s) (OpenStream tx) with
    | Some c => mkConnTask c false (ct_woken s || ct_waker s) true (ct_done s)
    | None => s
    end
  else mkConnTask (ct_chan s) (ct_waker s) (ct_woken s) false (ct_done s ++ [(tx, Some (inl SendError))]).
(** What the caller makes of its one-shot channel. *)
Definition open_stream (answer : option (Error + Stream)) : res Error Stream :=
  match answer with
  | Some (inr st) => Ok st
  | Some (inl e) => Err e
  | None => Err Canceled
  end.

(** A poll of the task, if it was woken. When the future ends, its receiver is dropped with the
    commands in the channel. *)
Definition poll_task (outbound : Poll (Error + Stream)) (inbound : Poll (option (Error + Stream))) (s : ConnTask) : ConnTask :=
  if ct_alive s && ct_woken s then
    let '(r, c) := match recv (ct_chan s) with
      | Some (cmd, c) => (Ready (Some cmd), c)
      | None => (PollPending, ct_chan s)
      end in
    let '(answers, dropped, res) := poll r outbound inbound in
    let done_ := ct_done s ++ ((fun '(tx, x) => (tx, Some x)) <$> answers) ++ ((fun tx => (tx, None)) <$> dropped) in
    match res with
    | Ok _ => mkConnTask c (match r with PollPending => true | _ => ct_waker s end) false true done_
    | _ => mkConnTask (channel 8) false false false (done_ ++ ((fun cmd => (tx_of cmd, None)) <$> contents c))
    end
  else s.

Inductive Turn :=
| Ask (tx : nat)
| ConnWake
| PollTask (outbound : Poll (Error + Stream)) (inbound : Poll (option (Error + Stream))).
Definition turn (s : ConnTask) (t : Turn) : ConnTask :=
  match t with
  | Ask tx => ask tx s
  | ConnWake => mkConnTask (ct_chan s) (ct_waker s) true (ct_alive s) (ct_done s)
  | PollTask outbound inbound => poll_task outbound inbound s
  end.
Definition run (s : ConnTask) (ts : list Turn) : ConnTask := foldl turn s ts.

(** The callers that are past the send. *)
Fixpoint asked (s : ConnTask) (ts : list Turn) : list nat :=
  match ts with
  | [] => []
  | t :: ts =>
      match t with
      | Ask tx => if ct_alive s && bool_decide (try_send (ct_chan s) (OpenStream tx) = None) then [] else [tx]
      | _ => []
      end ++ asked (turn s t) ts
  end.
Definition resolved (s : ConnTask) : list nat := (ct_done s).*1.
Definition queued (s : ConnTask) : list nat := tx_of <$> contents (ct_chan s).
Definition is_open (c : ControlCommand) : bool := match c with OpenStream _ => true | _ => false end.

(** The task sleeps, nobody in the channel will wake it, and somebody is in the channel. *)
Definition stuck (s : ConnTask) : Prop :=
  ct_alive s = true /\ ct_woken s = false /\ ct_waker s = false /\ contents (ct_chan s) <> [].
(** It sleeps with its waker in the empty channel. *)
Definition idle (s : ConnTask) : Prop :=
  ct_alive s = true /\ ct_woken s = false /\ ct_waker s = true /\ contents (ct_chan s) = [].
(** A woken poll, in which the connection can open a stream and the server does nothing. *)
Definition serve (st : Stream) : list Turn := [ConnWake; PollTask (Ready (inr st)) PollPending].

Context `{!MpscLaws}.

Definition Inv (s : ConnTask) : Prop :=
  Forall (fun c => is_open c = true) (contents (ct_chan s)) /\
  (ct_alive s = false -> contents (ct_chan s) = []) /\ 0 < capacity (ct_chan s).

Lemma new_Inv : Inv ConnControl_new.
Proof. unfold Inv, ConnControl_new. cbn. destruct (channel_empty ControlCommand 8) as [-> ->]. split_and!; [constructor|done|lia]. Qed.

Lemma turn_asked s t : Inv s -> Inv (turn s t) /\ resolved (turn s t) ++ queued (turn s t) = resolved s ++ queued s ++ asked s [t].
Proof.
  intros (Ho & Hd & Hc). unfold Inv, resolved, queued. cbn [asked]. rewrite app_nil_r. destruct t as [tx| |outbound inbound]; cbn [turn].
  - unfold ask. destruct (ct_alive s) eqn:Ha; cbn [andb ct_alive ct_chan ct_done].
    + destruct (try_send (ct_chan s) (OpenStream tx)) as [c|] eqn:Hs; cbn [ct_alive ct_chan ct_done bool_decide].
      * apply try_send_Some in Hs as [Hs Hcc]. rewrite Hs, Hcc, fmap_app. rewrite bool_decide_eq_false_2 by done. cbn.
        split_and!; [by apply Forall_app; split; [|constructor]|done|done|done].
      * rewrite bool_decide_eq_true_2 by done. rewrite app_nil_r. split_and!; [done|by rewrite Ha|done|done].
    + rewrite (Hd eq_refl), fmap_app. cbn. split_and!; [constructor|done|done|by rewrite app_nil_r].
  - cbn. rewrite app_nil_r. done.
  - rewrite app_nil_r. unfold poll_task. destruct (ct_alive s && ct_woken s) eqn:Hw; [|done]. apply andb_prop in Hw as [Ha _].
    destruct (recv (ct_chan s)) as [[cmd c]|] eqn:Hr.
    + apply recv_Some in Hr as [Hr Hcc]. rewrite Hr in Ho. apply Forall_cons in Ho as [Hcmd Ho]. destruct cmd as [tx|tx]; [|done].
      destruct (channel_empty ControlCommand 8) as [He Hec]. unfold poll.
      destruct outbound as [r|]; [destruct inbound as [[[e|st]|]|]|]; cbn [ct_alive ct_chan ct_done]; rewrite ?Hr, ?Hcc, ?He, ?Hec, ?fmap_app; cbn;
        rewrite ?app_nil_r, <- ?app_assoc; cbn; rewrite <- ?list_fmap_compose; split_and!; try done; try lia.
    + apply recv_empty in Hr as He. destruct (channel_empty ControlCommand 8) as [He8 Hec]. unfold poll.
      destruct inbound as [[[e|st]|]|]; cbn [ct_alive ct_chan ct_done]; rewrite ?He, ?He8, ?Hec; cbn; rewrite ?app_nil_r; split_and!; try done; try lia.
Qed.
Lemma run_asked ts : forall s, Inv s -> Inv (run s ts) /\ resolved (run s ts) ++ queued (run s ts) = resolved s ++ queued s ++ asked s ts.
Proof.
  induction ts as [|t ts IH]; intros s Hi; [cbn; by rewrite app_nil_r|]. destruct (turn_asked s t Hi) as [Hi1 Heq].
  change (run s (t :: ts)) with (run (turn s t) ts). destruct (IH _ Hi1) as [Hi2 ->]. split; [done|].
  rewrite app_assoc, Heq, <- !app_assoc. do 2 f_equal. cbn [asked]. by rewrite app_nil_r.
Qed.

(** A stuck task stays stuck until the connection itself wakes it. *)
Lemma stuck_stays ts : forall s, stuck s -> ConnWake ∉ ts -> stuck (run s ts) /\ ct_done (run s ts) = ct_done s.
Proof.
  induction ts as [|t ts IH]; intros s Hs Hn; [done|]. apply not_elem_of_cons in Hn as [Hne Hn].
  change (run s (t :: ts)) with (run (turn s t) ts). pose proof Hs as (Ha & Hw & Hk & Hc).
  assert (stuck (turn s t) /\ ct_done (turn s t) = ct_done s) as [Hs1 <-]; [|by apply IH].
  destruct t as [tx| |outbound inbound]; [| done|]; cbn [turn].
  - unfold ask. rewrite Ha. destruct (try_send _ _) as [c|] eqn:Ht; [|done]. apply try_send_Some in Ht as [Ht _].
    split; [|done]. unfold stuck. cbn. rewrite Hw, Hk, Ht. split_and!; [done..|]. by destruct (contents (ct_chan s)).
  - unfold poll_task. by rewrite Ha, Hw.
Qed.

(** One served poll takes the next command. *)
Lemma serve_one s st cmd rest : Inv s -> ct_alive s = true -> contents (ct_chan s) = OpenStream cmd :: rest ->
  let s' := run s (serve st) in
  ct_alive s' = true /\ contents (ct_chan s') = rest /\ ct_done s' = ct_done s ++ [(cmd, Some (inr st))] /\ Inv s' /\
  ct_woken s' = false /\ ct_waker s' = ct_waker s.
Proof.
  intros (Ho & Hd & Hcap) Ha Hc. cbn. unfold poll_task. cbn. rewrite Ha. cbn.
  destruct (recv (ct_chan s)) as [[c0 c]|] eqn:Hr; [|apply recv_empty in Hr; congruence].
  apply recv_Some in Hr as [Hr Hcc]. rewrite Hc in Hr. injection Hr as <- Hr. rewrite Hc in Ho.
  apply Forall_cons in Ho as [_ Ho]. cbn. split_and!; try done. unfold Inv. cbn. rewrite <- Hr. split_and!; [done|done|lia].
Qed.
Lemma serve_all st q : forall s, Inv s -> ct_alive s = true -> contents (ct_chan s) = OpenStream <$> q ->
  let s' := run s (concat (replicate (length q) (serve st))) in
  contents (ct_chan s') = [] /\ ct_done s' = ct_done s ++ ((fun tx => (tx, Some (inr st))) <$> q).
Proof.
  induction q as [|tx q IH]; intros s Hi Ha Hc; [cbn; by rewrite app_nil_r|].
  destruct (serve_one s st tx _ Hi Ha Hc) as (Ha1 & Hc1 & Hd1 & Hi1 & _). cbn [length replicate concat].
  assert (run s (serve st ++ concat (replicate (length q) (serve st))) = run (run s (serve st)) (concat (replicate (length q) (serve st)))) as ->
    by apply foldl_app.
  destruct (IH _ Hi1 Ha1 Hc1) as [-> ->]. split; [done|]. by rewrite Hd1, <- app_assoc.
Qed.

(** What becomes of the requests for streams. From the start, over any turns of the
    callers, the connection and the task: every request that was sent is resolved at most once
    and in order, the others wait in the channel. One that finds the task idle is served by
    the poll it causes; but a second one that is in the channel by then loses its wake-up: the
    task sleeps on it, and on every later request, until the connection has something to do.
    Whenever the connection wakes the task and can open streams, each poll serves one. *)
Theorem streams_opened ts : let s := run ConnControl_new ts in
  resolved s ++ queued s = asked ConnControl_new ts /\
  (forall tx st, idle s -> ct_done (run s [Ask tx; PollTask (Ready (inr st)) PollPending]) = ct_done s ++ [(tx, Some (inr st))]) /\
  (forall tx tx' st ts', idle s -> 2 <= capacity (ct_chan s) -> ConnWake ∉ ts' ->
     let s' := run s [Ask tx; Ask tx'; PollTask (Ready (inr st)) PollPending] in
     ct_done s' = ct_done s ++ [(tx, Some (inr st))] /\ ct_done (run s' ts') = ct_done s' /\ stuck (run s' ts')) /\
  (forall st, ct_alive s = true ->
     ct_done (run s (concat (replicate (length (queued s)) (serve st)))) = ct_done s ++ ((fun tx => (tx, Some (inr st))) <$> queued s)).
Proof.
  intros s. destruct (run_asked ts _ new_Inv) as [Hi Heq]. fold s in Hi, Heq. split_and!.
  - rewrite Heq. unfold resolved, queued, ConnControl_new. cbn. by rewrite (proj1 (channel_empty _ _)).
  - intros tx st (Ha & Hw & Hk & Hc). cbn. unfold ask. rewrite Ha.
    destruct (try_send _ _) as [c|] eqn:Ht; [|apply try_send_full in Ht; rewrite Hc in Ht; destruct Hi as (_ & _ & ?); cbn in Ht; lia].
    apply try_send_Some in Ht as [Ht _]. rewrite Hc in Ht. unfold poll_task. cbn. rewrite Hw, Hk. cbn.
    destruct (recv c) as [[c0 c']|] eqn:Hr; [|apply recv_empty in Hr; by rewrite Ht in Hr].
    apply recv_Some in Hr as [Hr _]. rewrite Ht in Hr. injection Hr as <- _. done.
  - intros tx tx' st ts' (Ha & Hw & Hk & Hc) Hcap Hn. cbn. unfold ask. rewrite Ha.
    destruct (try_send (ct_chan s) _) as [c|] eqn:Ht; [|apply try_send_full in Ht; rewrite Hc in Ht; cbn in Ht; lia].
    apply try_send_Some in Ht as [Ht Hcc]. rewrite Hc in Ht. cbn.
    destruct (try_send c _) as [c1|] eqn:Ht1; [|apply try_send_full in Ht1; rewrite Ht in Ht1; cbn in Ht1; lia].
    apply try_send_Some in Ht1 as [Ht1 _]. rewrite Ht in Ht1. unfold poll_task. cbn. rewrite Hw, Hk. cbn.
    destruct (recv c1) as [[c0 c']|] eqn:Hr; [|apply recv_empty in Hr; by rewrite Ht1 in Hr].
    apply recv_Some in Hr as [Hr _]. rewrite Ht1 in Hr. injection Hr as <- Hr. cbn. split; [done|].
    match goal with |- context [run ?x ts'] => destruct (stuck_stays ts' x) as [? ?] end; [|done|done].
    unfold stuck. cbn. rewrite <- Hr. done.
  - intros st Ha. destruct Hi as (Ho & Hi'). destruct (serve_all st (queued s) s) as [_ ->]; [done|done| |done].
    unfold queued. clear -Ho. induction (contents (ct_chan s)) as [|[tx|tx] l IH]; [done| |by apply Forall_cons in Ho as [? _]].
    apply Forall_cons in Ho as [_ Ho]. cbn. by rewrite <- IH.
Qed.
End Conn.

(** ** What runs on the streams (frp_control.rs, msg.rs) *)
Section Streams.
Context `{FrpLibs}.

(** [FrpControl::new]: the control connection's stream is the first one opened; [framed] is the
    framed stream with its codec, split. *)
Definition FrpControl_new {Stream} (framed : FrpCodec -> Stream -> FrpStream) (token : string) (answer : option (Error + Stream)) : res Error FrpControl :=
  stream_main ← open_stream answer;
  Ok (mkFrpControl token None (Some (framed (FrpCodec_new token) stream_main))).

(** [LoginRequest::send_msg]: the login without the codec. [src] is what the server answers;
    [None] while the answer is incomplete. [from_utf8_lossy] is the conversion of the text. *)
Definition send_msg (from_utf8_lossy : bytes -> bytes) (self : LoginRequest) (src : bytes) : res Error (list bytes * option LoginResp) :=
  str ← ok_or SerdeJsonError (login_json self);
  let hdr := mkMsgHeader TYPE_LOGIN (wrap 64 (Z.of_nat (length str))) in
  let written := [msg_header_encode hdr; str] in
  if (length src <? MSG_HEADER_SIZE)%nat then Ok (written, None)
  else
    header ← msg_header_decode (take MSG_HEADER_SIZE src);
    if (2 ^ 63 <=? mh_len header)%Z then Panic else
    let len := Z.to_nat (mh_len header) in
    let src := drop MSG_HEADER_SIZE src in
    if (length src <? len)%nat then Ok (written, None)
    else
      resp ← ok_or SerdeJsonError (login_resp_of_json (from_utf8_lossy (take len src)));
      Ok (written, Some resp).

(** [hande_work_conn] up to the copying: the request, the answer, and the connection to the
    address the code has. *)
Definition local_addr : string := "192.168.3.142:80".
Inductive WorkConn :=
| WorkFailed (written : bytes) (r : res Error unit)
| WorkWaits (written : bytes)
| WorkCopies (written : bytes) (addr : string) (rest : bytes).
(** [write] and [connect] are the errors of the two, [src] what the stream has brought and
    [ended_] whether it ends there. *)
Definition hande_work_conn (now : Z) (run_id token : string) (write : option Error) (src : bytes) (ended_ : bool) (connect : option Error) : WorkConn :=
  match work_conn_request now run_id token with
  | Ok req =>
      match write with
      | Some e => WorkFailed [] (Err e)
      | None =>
          match work_conn_reply src with
          | Ok None => if ended_ then WorkFailed req (Err IoError) else WorkWaits req
          | Ok (Some _) =>
              match connect with
              | Some e => WorkFailed req (Err e)
              | None => WorkCopies req local_addr (drop (9 + Z.to_nat (be_val (take 8 (drop 1 src)))) src)
              end
          | Err e => WorkFailed req (Err e)
          | Panic => WorkFailed req Panic
          end
      end
  | Err e => WorkFailed [] (Err e)
  | Panic => WorkFailed [] Panic
  end.

(** [io::copy]: the bytes read and not yet written, those written, and whether the source is at
    its end. It returns when the source is and the buffer is empty. *)
Record Copy := mkCopy { cp_buf : bytes; cp_out : bytes; cp_eof : bool }.
Inductive CopyStep := Read (chunk : bytes) | Eof | Wrote (n : nat) | CopyFailed (e : Error).
Definition copy_step (c : Copy) (x : CopyStep) : Copy * option (res Error unit) :=
  match x with
  | Read chunk => if cp_eof c then (c, None) else (mkCopy (cp_buf c ++ chunk) (cp_out c) false, None)
  | Eof => (mkCopy (cp_buf c) (cp_out c) true, if decide (cp_buf c = []) then Some (Ok tt) else None)
  | Wrote n =>
      let c' := mkCopy (drop n (cp_buf c)) (cp_out c ++ take n (cp_buf c)) (cp_eof c) in
      (c', if decide (cp_buf c' = []) then if cp_eof c then Some (Ok tt) else None else None)
  | CopyFailed e => (c, Some (Err e))
  end.

(** [proxy]: the two copies side by side, [true] the one from the local stream, up to the first
    of them that returns; the other is dropped. *)
Record Copies := mkCopies { upload : Copy; download : Copy }.
Definition copies0 : Copies := mkCopies (mkCopy [] [] false) (mkCopy [] [] false).
Fixpoint proxy (s : Copies) (xs : list (bool * CopyStep)) : Copies * option (res Error unit) :=
  match xs with
  | [] => (s, None)
  | (up, x) :: xs =>
      let '(c, r) := copy_step (if up then upload s else download s) x in
      let s := if up then mkCopies c (download s) else mkCopies (upload s) c in
      match r with Some r => (s, Some r) | None => proxy s xs end
  end.

(** What the source of a copy gave it, up to its end. *)
Fixpoint read_of (up : bool) (xs : list (bool * CopyStep)) : bytes :=
  match xs with
  | [] => []
  | (up', x) :: xs =>
      if Bool.eqb up up' then
        match x with Read chunk => chunk ++ read_of up xs | Eof => [] | _ => read_of up xs end
      else read_of up xs
  end.
Definition side (up : bool) (s : Copies) : Copy := if up then upload s else download s.
Definition taken (c : Copy) : bytes := cp_out c ++ cp_buf c.

Lemma copy_step_taken c x : let '(c', r) := copy_step c x in
  taken c' = taken c ++ (match x with Read chunk => if cp_eof c then [] else chunk | _ => [] end) /\
  cp_eof c' = (cp_eof c || match x with Eof => true | _ => false end)%bool /\
  (r = Some (Ok tt) -> cp_eof c' = true /\ cp_buf c' = []).
Proof.
  unfold taken. destruct x; cbn; repeat case_match; simplify_eq/=; rewrite ?app_nil_r, ?orb_false_r, ?orb_true_r;
    split_and!; try done; try by rewrite <- ?app_assoc.
  all: rewrite <- app_assoc; by rewrite (take_drop n (cp_buf c)).
Qed.

(** When the proxy ends well, one of the copies has brought everything over. *)
Lemma proxy_ends xs : forall s s', proxy s xs = (s', Some (Ok tt)) ->
  exists up, cp_eof (side up s') = true /\ cp_buf (side up s') = [].
Proof.
  induction xs as [|[up x] xs IH]; intros s s'; [done|]. cbn [proxy].
  change (if up then upload s else download s) with (side up s).
  pose proof (copy_step_taken (side up s) x) as Hc. destruct (copy_step (side up s) x) as [c [r|]]; [|apply IH].
  intros [= <- ->]. destruct Hc as (_ & _ & Hr). exists up. by destruct up; apply Hr.
Qed.

(** What reaches each side is a prefix of what the other side sent, in order. *)
Lemma proxy_prefix up xs : forall s, exists more,
  (taken (side up s) ++ (if cp_eof (side up s) then [] else read_of up xs)) = taken (side up (proxy s xs).1) ++ more /\
  (cp_eof (side up (proxy s xs).1) = true -> more = []).
Proof.
  induction xs as [|[up' x] xs IH]; intros s.
  - exists []. cbn. rewrite app_nil_r. destruct (cp_eof _); rewrite app_nil_r; done.
  - cbn [proxy read_of]. change (if up' then upload s else download s) with (side up' s).
    pose proof (copy_step_taken (side up' s) x) as Hc. destruct (copy_step (side up' s) x) as [c r] eqn:Hx. destruct Hc as (Ht & He & _).
    set (s1 := if up' then mkCopies c (download s) else mkCopies (upload s) c).
    assert (Hs : taken (side up s) ++ (if cp_eof (side up s) then [] else if Bool.eqb up up' then
        match x with Read chunk => chunk ++ read_of up xs | Eof => [] | _ => read_of up xs end else read_of up xs) =
      taken (side up s1) ++ (if cp_eof (side up s1) then [] else read_of up xs)).
    { destruct (Bool.eqb up up') eqn:Hu; [apply Bool.eqb_prop in Hu as ->|].
      - replace (side up' s1) with c by (by subst s1; destruct up'). rewrite Ht, He, <- app_assoc. f_equal.
        destruct (cp_eof (side up' s)), x; cbn; by rewrite ?app_nil_r.
      - replace (side up s1) with (side up s) by (by subst s1; destruct up, up'). done. }
    rewrite Hs. destruct r as [r|]; [|apply IH].
    cbn [fst]. destruct (cp_eof (side up s1)) eqn:Heof; [exists []; by rewrite ?app_nil_r|]. by exists (read_of up xs).
Qed.
End Streams.

(** A local side that has sent its request and closes its direction ends the proxy, with the
    reply still in the buffer of the other. *)
Example half_close_loses :
  let '(s, r) := proxy copies0 [(true, Read [x41]); (true, Wrote 1); (false, Read [x42]); (true, Eof)] in
  r = Some (Ok tt) /\ cp_out (upload s) = [x41] /\ cp_out (download s) = [] /\ cp_buf (download s) = [x42].
Proof. by vm_compute. Qed.

(** The message types the code names are different bytes. *)
Definition msg_types : list MsgType :=
  [TYPE_LOGIN; TYPE_LOGIN_RESP; TYPE_REQ_WORK_CONN; TYPE_PING; TYPE_NEW_WORK_CONN; TYPE_NEW_PROXY; TYPE_NEW_PROXY_RESP;
   TYPE_START_WORK_CONN; TypeCloseProxy; TypeNewVisitorConn; TypeNewVisitorConnResp; TypePong; TypeUDPPacket;
   TypeNatHoleVisitor; TypeNatHoleClient; TypeNatHoleResp; TypeNatHoleClientDetectOK; TypeNatHoleSid].
Lemma msg_types_distinct : NoDup msg_types.
Proof. apply (bool_decide_unpack _). by vm_compute. Qed.

(** [send_msg] writes the bytes the codec writes for a login. *)
Lemma send_msg_as_codec `{FrpLibs} lossy c r written resp src dst :
  send_msg lossy r src = Ok (written, resp) -> (encode c (Login_ r) dst).2 = Ok (dst ++ concat written).
Proof.
  intros Hs. assert (exists str, login_json r = Some str /\ concat written = frame TYPE_LOGIN str) as (str & Hj & ->).
  { revert Hs. unfold send_msg. destruct (login_json r) as [str|]; [|done]. cbn [ok_or mbind res_bind].
    set (w := [_; str]). intros Hs. exists str. split; [done|]. replace written with w.
    - subst w. unfold frame, msg_header_encode. cbn. by rewrite app_nil_r.
    - clearbody w. unfold mbind, res_bind, ok_or in Hs. repeat (case_match; simplify_eq/=); done. }
  unfold encode. cbn. by rewrite Hj.
Qed.
End FrpConn.
