(* ===== verification/Abi.v ===== *)
(** * The control protocol (vlink-core/src/proto/pb/abi.rs, vlink-core/src/utils/network.rs)

    The messages between a client (vlinkd) and the registration server (headlink), and the
    text of IPv4 addresses, in which they carry the addresses of peers. An address is a [u32]
    as a [Z]. The protobuf encoding is prost's; messages travel as values. *)

From S2P Require Import Prelude.
From stdpp Require Import pretty.
#[local] Open Scope Z_scope.

(** ** IPv4 text *)

Definition octet (i a : Z) : Z := (a / 2 ^ (8 * i)) mod 256.
(** [Ipv4Addr::to_string]. *)
Definition ipv4_to_string (a : Z) : string :=
  pretty (octet 3 a) +:+ "." +:+ pretty (octet 2 a) +:+ "." +:+ pretty (octet 1 a) +:+ "." +:+ pretty (octet 0 a).

Definition dot : Ascii.ascii := Ascii.ascii_of_nat 46.
(** The parts of a string between dots. *)
Fixpoint split_dots (s : string) : list string :=
  match s with
  | EmptyString => [""%string]
  | String c s =>
      match split_dots s with
      | p :: ps => if Ascii.eqb c dot then ""%string :: p :: ps else String c p :: ps
      | [] => []
      end
  end.
Fixpoint dec_digits (acc : Z) (s : string) : option Z :=
  match s with
  | EmptyString => Some acc
  | String c s =>
      let d := Z.of_nat (Ascii.nat_of_ascii c) - 48 in
      if (0 <=? d) && (d <=? 9) then dec_digits (10 * acc + d) s else None
  end.
(** One to three digits, no leading zero, at most 255. *)
Definition octet_from_str (s : string) : option Z :=
  match s with
  | EmptyString => None
  | String c r =>
      if Ascii.eqb c (Ascii.ascii_of_nat 48) && negb (String.eqb r "") then None
      else if (3 <? String.length s)%nat then None
      else n ← dec_digits 0 s; if n <=? 255 then Some n else None
  end.
(** [Ipv4Addr::from_str]. *)
Definition ipv4_from_str (s : string) : option Z :=
  match split_dots s with
  | [a; b; c; d] =>
      a ← octet_from_str a; b ← octet_from_str b; c ← octet_from_str c; d ← octet_from_str d;
      Some (((a * 256 + b) * 256 + c) * 256 + d)
  | _ => None
  end.

(** vlink-core/src/utils/network.rs: 32 minus the leading zeros, and the masks of a prefix
    length; the shift of [!0] drops the bits beyond the width. *)
Definition bit_length (number : Z) : Z := if number =? 0 then 0 else Z.log2 number + 1.
Definition bite_mask (mask : Z) : Z := if mask =? 0 then 0 else wrap 32 (Z.shiftl (2 ^ 32 - 1) (32 - mask)).
Definition bite_mask_u128 (mask : Z) : Z :=
  if mask =? 0 then 0 else wrap 128 (Z.shiftl (2 ^ 128 - 1) (128 - mask)).

(** ** Messages *)

Record RequireReply := mkRequireReply { rr_src : string; rr_proto : string; rr_server : string }.
Inductive ForwardData := FdRequireReply (r : RequireReply).
Record PeerForward := mkPeerForward { pf_target_pub_key : string; pf_data : option ForwardData }.
Record DevHandshakeComplete := mkDevHandshakeComplete { dh_target_pub_key : string; dh_proto : string }.
Record ExtraEndpoint := mkExtraEndpoint { ee_proto : string; ee_endpoint : string }.
Record ReqHandshake := mkReqHandshake {
  rh_version : Z;
  rh_pub_key : string;
  rh_token : option string;
  rh_sign : string;
}.
Record PeerEnter := mkPeerEnter {
  pe_ip : string;
  pe_endpoint_addr : option string;
  pe_port : Z;
  pe_extra_endpoints : list ExtraEndpoint;
}.
(** The messages without fields carry nothing. *)
Inductive ToServerData :=
| TsHandshake (r : ReqHandshake)
| TsReqConfig
| TsPeerForward (r : PeerForward)
| TsPeerEnter (r : PeerEnter)
| TsPeerLeave
| TsPeerChange
| TsPeerMessage
| TsPeerReport
| TsUpdateExtraEndpoint (r : ExtraEndpoint)
| TsDevHandshakeComplete (r : DevHandshakeComplete).
Record ToServer := mkToServer { ts_id : Z; to_server_data : option ToServerData }.

Record BcPeerLevel := mkBcPeerLevel { bl_pub_key : string }.
Record BcUpdateExtraEndpoint := mkBcUpdateExtraEndpoint {
  bu_pub_key : string; bu_proto : string; bu_endpoint : string;
}.
Record RespServerInfo := mkRespServerInfo { rs_version : string; rs_key : string; rs_desc : option string }.
Record ExtraTransport := mkExtraTransport { et_proto : string; et_params : string }.
Record PeerExtraTransport := mkPeerExtraTransport {
  px_target_pub_key : string;
  px_proto : string;
  px_endpoint : string;
  px_index : Z;
}.
Inductive ConType := ConUdp.
Inductive ConnectionMode := ModeActive | ModePassive | ModeBidirectional | ModeNone.
Definition ConnectionMode_i32 (m : ConnectionMode) : Z :=
  match m with
  | ModeActive => 0
  | ModePassive => 1
  | ModeBidirectional => 2
  | ModeNone => 3
  end.
Record BcPeerEnter := mkBcPeerEnter {
  bp_pub_key : string;
  bp_ip : string;
  bp_endpoint_addr : option string;
  bp_port : Z;
  bp_last_con_type : option Z;
  bp_mode : Z;
  bp_is_online : bool;
}.
Record RespConfig := mkRespConfig {
  rc_network_id : Z;
  rc_address : Z;
  rc_mask : Z;
  rc_network : Z;
  rc_port : Z;
  rc_ipv6_addr : option string;
  rc_peers : list BcPeerEnter;
  rc_extra_transports : list ExtraTransport;
  rc_peer_extra_transports : list PeerExtraTransport;
}.
(** The texts of [ToClientError] and [RespHandshake] are those of the error they report,
    which the model keeps as the value [E]. *)
Inductive ToClientData (E : Type) : Type :=
| TcError (code : Z) (e : E)
| TcRespServerInfo (r : RespServerInfo)
| TcRespHandshake (success : bool) (e : option E)
| TcRespConfig (r : RespConfig)
| TcPeerEnter (r : BcPeerEnter)
| TcPeerLeave (r : BcPeerLevel)
| TcRequireReply (r : RequireReply)
| TcUpdateExtraEndpoint (r : BcUpdateExtraEndpoint).
Arguments TcError {E} code e.
Arguments TcRespServerInfo {E} r.
Arguments TcRespHandshake {E} success e.
Arguments TcRespConfig {E} r.
Arguments TcPeerEnter {E} r.
Arguments TcPeerLeave {E} r.
Arguments TcRequireReply {E} r.
Arguments TcUpdateExtraEndpoint {E} r.
Record ToClient (E : Type) := mkToClient { tc_id : Z; to_client_data : option (ToClientData E) }.
Arguments mkToClient {E}.
Arguments tc_id {E}.
Arguments to_client_data {E}.

(** ** Lemmas *)

Definition octet_text_ok (z : Z) : bool :=
  bool_decide (octet_from_str (pretty z) = Some z) &&
  bool_decide (split_dots (pretty z) = [pretty z]).
Lemma octet_texts : forallb octet_text_ok (seqZ 0 256) = true.
Proof. vm_compute. reflexivity. Qed.
Lemma octet_text i a : octet_from_str (pretty (octet i a)) = Some (octet i a) /\
  split_dots (pretty (octet i a)) = [pretty (octet i a)].
Proof.
  pose proof octet_texts as Ho. rewrite forallb_forall in Ho. unfold octet.
  specialize (Ho ((a / 2 ^ (8 * i)) mod 256)).
  assert (octet_text_ok ((a / 2 ^ (8 * i)) mod 256) = true) as Hok.
  { apply Ho, list_elem_of_In, elem_of_seqZ. pose proof (Z.mod_pos_bound (a / 2 ^ (8 * i)) 256). lia. }
  unfold octet_text_ok in Hok. apply andb_true_iff in Hok as [H1%bool_decide_eq_true H2%bool_decide_eq_true]. done.
Qed.

Lemma split_dots_nonempty s : split_dots s <> [].
Proof. induction s as [|c s IH]; cbn; [done|]. destruct (split_dots s); [done|]. by destruct (Ascii.eqb c dot). Qed.
Lemma split_dots_dot s : split_dots (String dot s) = ""%string :: split_dots s.
Proof.
  pose proof (split_dots_nonempty s) as Hn. cbn [split_dots]. destruct (split_dots s) as [|p ps]; done.
Qed.
Lemma split_dots_cons p s : split_dots p = [p] -> split_dots (p +:+ "." +:+ s) = p :: split_dots s.
Proof.
  induction p as [|c p IH].
  - intros _. apply split_dots_dot.
  - change (String c p +:+ "." +:+ s)%string with (String c (p +:+ "." +:+ s)). cbn [split_dots].
    destruct (split_dots p) as [|q qs] eqn:Hp; [done|]. destruct (Ascii.eqb c dot) eqn:Hc; [done|].
    intros [= -> ->]. by rewrite (IH eq_refl).
Qed.

Lemma ipv4_roundtrip a : in_u 32 a -> ipv4_from_str (ipv4_to_string a) = Some a.
Proof.
  intros Ha. unfold ipv4_from_str, ipv4_to_string.
  rewrite !split_dots_cons by apply octet_text. rewrite (proj2 (octet_text 0 a)).
  rewrite (proj1 (octet_text 3 a)), (proj1 (octet_text 2 a)), (proj1 (octet_text 1 a)), (proj1 (octet_text 0 a)).
  cbn [mbind option_bind]. f_equal. unfold octet, in_u in *.
  change (2 ^ (8 * 3)) with 16777216. change (2 ^ (8 * 2)) with 65536. change (2 ^ (8 * 1)) with 256.
  change (2 ^ (8 * 0)) with 1. change (2 ^ 32) with 4294967296 in Ha. dlia.
Qed.

(** The text of an octet is the only one. *)
Definition digits : list Ascii.ascii := Ascii.ascii_of_nat <$> seq 48 10.
Fixpoint digit_strings (n : nat) : list string :=
  match n with
  | O => [""%string]
  | S n => ""%string :: (c ← digits; String c <$> digit_strings n)
  end.
Definition octet_string_ok (t : string) : bool :=
  match octet_from_str t with
  | Some z => bool_decide (pretty z = t) && (0 <=? z) && (z <? 256)
  | None => true
  end.
Lemma octet_strings : forallb octet_string_ok (digit_strings 3) = true.
Proof. vm_compute. reflexivity. Qed.
Lemma dec_digits_strings n s : forall acc z, dec_digits acc s = Some z -> (String.length s <= n)%nat -> s ∈ digit_strings n.
Proof.
  revert s. induction n as [|n IH]; intros [|c s] acc z Hd Hl; cbn [String.length] in Hl; try lia; [left|left|].
  right. cbn [dec_digits] in Hd. destruct (_ && _) eqn:Hc in Hd; [|done]. apply list_elem_of_bind. exists c. split.
  - apply list_elem_of_fmap_2. apply (IH s _ _ Hd). lia.
  - apply andb_true_iff in Hc as [H1%Z.leb_le H2%Z.leb_le]. unfold digits. rewrite <- (Ascii.ascii_nat_embedding c).
    apply list_elem_of_fmap_2, elem_of_seq. lia.
Qed.
Lemma octet_from_str_text s z : octet_from_str s = Some z -> pretty z = s /\ 0 <= z < 256.
Proof.
  intros Hs. assert (s ∈ digit_strings 3) as Hin.
  { unfold octet_from_str in Hs. destruct s as [|c r]; [done|]. destruct (_ && _) in Hs; [done|].
    destruct (3 <? _)%nat eqn:Hl in Hs; [done|]. apply Nat.ltb_ge in Hl.
    destruct (dec_digits 0 _) eqn:Hd in Hs; [|done]. by eapply dec_digits_strings. }
  pose proof octet_strings as Ho. rewrite forallb_forall in Ho. specialize (Ho s (proj1 (list_elem_of_In _ _) Hin)).
  unfold octet_string_ok in Ho. rewrite Hs in Ho.
  apply andb_true_iff in Ho as [[H1%bool_decide_eq_true H2%Z.leb_le]%andb_true_iff H3%Z.ltb_lt]. done.
Qed.

Fixpoint join_dots (ps : list string) : string :=
  match ps with
  | [] => ""
  | [p] => p
  | p :: ps => p +:+ "." +:+ join_dots ps
  end.
Lemma join_split s : join_dots (split_dots s) = s.
Proof.
  induction s as [|c s IH]; [done|]. cbn [split_dots]. destruct (split_dots s) as [|p ps] eqn:Hs.
  { by destruct (split_dots_nonempty s). }
  destruct (Ascii.eqb_spec c dot) as [->|_].
  - change (String dot (join_dots (p :: ps)) = String dot s). by rewrite IH.
  - rewrite <- IH. by destruct ps.
Qed.
Lemma ipv4_from_str_text s a : ipv4_from_str s = Some a -> ipv4_to_string a = s /\ in_u 32 a.
Proof.
  intros Hs. rewrite <- (join_split s). unfold ipv4_from_str in Hs.
  destruct (split_dots s) as [|p3 [|p2 [|p1 [|p0 []]]]]; try done.
  destruct (octet_from_str p3) as [z3|] eqn:H3; [|done]. destruct (octet_from_str p2) as [z2|] eqn:H2; [|done].
  destruct (octet_from_str p1) as [z1|] eqn:H1; [|done]. destruct (octet_from_str p0) as [z0|] eqn:H0; [|done].
  injection Hs as <-. apply octet_from_str_text in H3 as [<- ?], H2 as [<- ?], H1 as [<- ?], H0 as [<- ?].
  cbn [join_dots]. unfold ipv4_to_string, octet, in_u.
  change (2 ^ (8 * 3)) with 16777216. change (2 ^ (8 * 2)) with 65536. change (2 ^ (8 * 1)) with 256.
  change (2 ^ (8 * 0)) with 1. change (2 ^ 32) with 4294967296. split; [|dlia].
  repeat f_equal; dlia.
Qed.
