(* ===== verification/TunIf.v ===== *)
(** * Tunnel interfaces and device start-up (vlink-tun/src: tun, router, device/mod.rs)

    What a device needs of the tunnel interface is the trait [Tun], here the class [Tun]; its
    implementations for Linux, macOS and Windows are instances. A [struct ifreq] is its 40
    bytes, because the code copies names and addresses in and out of it without checks; the
    ioctls, file descriptors, wintun.dll and the shell are the host's. *)

From stdpp Require Import pretty.
From S2P Require Import Prelude Bytes Host NonceFilter Protocol Crypto Clock Noise Session PeerHandshake Monitor Peer Device Udp Abi.

Module TunIf.

(** The calls of the host. [ioctl] takes the number of the request and the [ifreq], and
    returns the [ifreq] as the kernel leaves it; a write that would block is [None]. *)
Class TunHost `{UdpHost} := {
  Fd : Type;
  open_file : string -> host -> host * (IoError + Fd);
  ctrl_socket : host -> host * (IoError + Fd);
  get_fl : Fd -> host -> host * (IoError + Z);
  set_fl : Fd -> Z -> host -> host * (IoError + unit);
  async_fd : Fd -> host -> host * (IoError + Fd);
  ioctl : Z -> Fd -> bytes -> host -> host * (IoError + bytes);
  fd_write : Fd -> bytes -> host -> host * (IoError + option nat);
  shell : string -> host -> host * (IoError + bool);
}.

Section TunIf.
Context `{TunHost}.

(** tun/error.rs, with the [io::Error]s the code makes itself. *)
Inductive IfError :=
| InvalidName
| IfIO (e : IoError)
| IfOther (msg : string)
| InvalidIpPacket
| Unsupported (what : string).
Abbreviation tio := (io host IfError).
Definition call {A} (c : host -> host * (IoError + A)) : tio A := io_map_err IfIO (sys c).

(** ** The trait *)

(** What waits in the interface when it is read: nothing yet, an error, or a packet. *)
Inductive ReadOutcome := WouldBlock | ReadErr (e : IoError) | ReadOk (packet : bytes).

(** Setters return the interface, which may remember what was set. [recv] is given what the
    reads find; [None] when it waits for more. *)
Class Tun (T : Type) := {
  enabled : T -> bool -> tio unit;
  if_name : T -> bytes;
  mtu : T -> tio Z;
  set_mtu : T -> Z -> tio unit;
  address : T -> tio bytes;
  set_address : T -> bytes -> tio T;
  netmask : T -> tio bytes;
  set_netmask : T -> bytes -> tio T;
  set_ip : T -> bytes -> bytes -> tio T;
  if_recv : T -> list ReadOutcome -> option (res IfError bytes);
  if_send : T -> bytes -> tio unit;
}.
(** The default body of [set_ip]. *)
Definition default_set_ip {T} (sa sm : T -> bytes -> tio T) (t : T) (a m : bytes) : tio T :=
  t ← sa t a; sm t m.

(** ** tun/unix/sockaddr.rs

    A [sockaddr_in]: two bytes of family, two of port, the address, eight of padding. *)
Definition AF_INET : Z := 2.
Definition SockAddr_new (value : bytes) : res IfError bytes :=
  if negb (le_val (take 2 value) =? AF_INET) then Err (IfOther "invalid address") else Ok (take 16 value).
Definition SockAddr_from_ipv4 (ip : bytes) : bytes := le_bytes 2 AF_INET ++ le_bytes 2 0 ++ ip ++ replicate 8 x00.
Definition ipv4_from_SockAddr (a : bytes) : bytes := take 4 (drop 4 a).

(** ** tun/linux/sys.rs and tun.rs *)

Definition ifreq_zero : bytes := replicate 40 x00.
Definition IFNAMSIZ : nat := 16.
(** [ifr.ifr_ifru]: the union after the name. *)
Definition ifr_ifru (ifr : bytes) : bytes := drop IFNAMSIZ ifr.
Definition set_ifru (ifr value : bytes) : bytes :=
  take IFNAMSIZ ifr ++ value ++ drop (IFNAMSIZ + length value) ifr.
(** [CStr::from_ptr(..)]: up to the first zero byte. *)
Fixpoint c_str (b : bytes) : bytes :=
  match b with
  | [] => []
  | x :: b => if bool_decide (x = x00) then [] else x :: c_str b
  end.

(** [ifr.ifr_name[..name.len()]] panics for a name of more than 16 bytes. *)
Definition new_ifreq {E} (name : bytes) : res E bytes :=
  if decide (length name <= IFNAMSIZ)%nat then Ok (name ++ drop (length name) ifreq_zero) else Panic.
Definition O_NONBLOCK : Z := 0x800.
Definition fd_set_nonblocking (fd : Fd) : tio unit :=
  flag ← call (get_fl fd);
  call (set_fl fd (Z.lor O_NONBLOCK flag)).

Record LinuxTun := mkLinuxTun { lt_fd : Fd; lt_ctrl : Fd; lt_name : bytes }.

Definition TUNSETIFF : Z := 0x400454ca.
Definition IFF_TUN : Z := 1.
Definition IFF_NO_PI : Z := 0x1000.
Definition LinuxTun_new (name : option bytes) : tio LinuxTun :=
  if match name with Some n => (16 <? length n)%nat | None => false end then pure_res (Err InvalidName)
  else
    fd ← call (open_file "/dev/net/tun");
    ifr ← pure_res (match name with None => Ok ifreq_zero | Some n => new_ifreq n end);
    let ifr := set_ifru ifr (le_bytes 2 (Z.lor IFF_TUN IFF_NO_PI) ++ replicate 22 x00) in
    ifr ← call (ioctl TUNSETIFF fd ifr);
    _ ← fd_set_nonblocking fd;
    ctrl ← call ctrl_socket;
    fd ← call (async_fd fd);
    ctrl ← call (async_fd ctrl);
    mret (mkLinuxTun fd ctrl (c_str ifr)).

(** [request]: the name is copied over the start of the structure, whatever its length. *)
Definition request (name : bytes) : bytes := name ++ drop (length name) ifreq_zero.

Definition IFF_UP : Z := 1.
Definition IFF_RUNNING : Z := 0x40.
Definition set_flags (flags : Z) (value : bool) : Z :=
  if value then Z.lor flags (Z.lor IFF_UP IFF_RUNNING) else Z.land flags (Z.lnot IFF_UP).
Definition linux_enabled (t : LinuxTun) (value : bool) : tio unit :=
  req ← call (ioctl 0x8913 (lt_ctrl t) (request (lt_name t)));
  let flags := le_val (take 2 (ifr_ifru req)) in
  _ ← call (ioctl 0x8914 (lt_ctrl t) (set_ifru req (le_bytes 2 (set_flags flags value))));
  mret tt.

(** The [c_int] of the union, cast to [u16]. *)
Definition ifru_mtu (ifr : bytes) : Z := wrap 16 (le_val (take 4 (ifr_ifru ifr))).
Definition linux_set_mtu (name : bytes) (mtu : Z) : tio unit :=
  fd ← call ctrl_socket;
  ifr ← pure_res (new_ifreq name);
  _ ← call (ioctl 0x8922 fd (set_ifru ifr (le_bytes 4 mtu)));
  mret tt.
Definition linux_get_mtu (name : bytes) : tio Z :=
  fd ← call ctrl_socket;
  ifr ← pure_res (new_ifreq name);
  ifr ← call (ioctl 0x8921 fd ifr);
  mret (ifru_mtu ifr).

(** Reading and writing a socket address of the interface. *)
Definition get_sockaddr (num : Z) (fd : Fd) (name : bytes) : tio bytes :=
  req ← call (ioctl num fd (request name));
  pure_res (ipv4_from_SockAddr <$> SockAddr_new (ifr_ifru req)).
Definition put_sockaddr (num : Z) (fd : Fd) (name : bytes) (value : bytes) : tio unit :=
  _ ← call (ioctl num fd (set_ifru (request name) (SockAddr_from_ipv4 value)));
  mret tt.
Definition linux_address (t : LinuxTun) : tio bytes := get_sockaddr 0x8915 (lt_ctrl t) (lt_name t).
Definition linux_set_address (t : LinuxTun) (value : bytes) : tio LinuxTun :=
  _ ← put_sockaddr 0x8916 (lt_ctrl t) (lt_name t) value; mret t.
Definition linux_netmask (t : LinuxTun) : tio bytes := get_sockaddr 0x891b (lt_ctrl t) (lt_name t).
Definition linux_set_netmask (t : LinuxTun) (value : bytes) : tio LinuxTun :=
  _ ← put_sockaddr 0x891c (lt_ctrl t) (lt_name t) value; mret t.

(** [libc::read] of a packet into a buffer. *)
Definition read_into (buf packet : bytes) : bytes * nat :=
  let n := Nat.min (length buf) (length packet) in (take n packet ++ drop n buf, n).
Fixpoint linux_recv_loop (buf : bytes) (reads : list ReadOutcome) : option (res IfError bytes) :=
  match reads with
  | [] => None
  | WouldBlock :: reads => linux_recv_loop buf reads
  | ReadErr e :: _ => Some (Err (IfIO e))
  | ReadOk p :: _ => let '(buf, n) := read_into buf p in Some (Ok (take n buf))
  end.
Definition linux_recv (reads : list ReadOutcome) : option (res IfError bytes) := linux_recv_loop (replicate 1500 x00) reads.
(** A write that would block is dropped. *)
Definition linux_send (t : LinuxTun) (buf : bytes) : tio unit :=
  _ ← call (fd_write (lt_fd t) buf); mret tt.

#[global] Instance linux_tun : Tun LinuxTun := {|
  enabled := linux_enabled;
  if_name := lt_name;
  mtu t := linux_get_mtu (lt_name t);
  set_mtu t := linux_set_mtu (lt_name t);
  address := linux_address;
  set_address := linux_set_address;
  netmask := linux_netmask;
  set_netmask := linux_set_netmask;
  set_ip := default_set_ip linux_set_address linux_set_netmask;
  if_recv _ := linux_recv;
  if_send := linux_send;
|}.

(** ** tun/macos/tun.rs *)

(** The regular expression [^utun([1-9]\d*|0)?$]; a digit that is not ASCII would be refused
    by the parse that follows. *)
Definition is_digit (c : Ascii.ascii) : bool :=
  let z := Z.of_N (Ascii.N_of_ascii c) in (48 <=? z) && (z <=? 57).
Fixpoint all_digits (s : string) : bool :=
  match s with "" => true | String.String c s => is_digit c && all_digits s end%string.
Definition utun_index (rest : string) : bool :=
  match rest with
  | "" => true
  | String.String c s =>
      if bool_decide (c = Ascii.ascii_of_nat 48) then String.eqb s "" else is_digit c && all_digits s
  end%string.
Fixpoint strip_prefix (p s : string) : option string :=
  match p, s with
  | "", s => Some s
  | String.String a p, String.String b s => if Ascii.eqb a b then strip_prefix p s else None
  | _, _ => None
  end%string.
(** [str::parse::<u32>] of digits. *)
Fixpoint digits_val (acc : Z) (s : string) : Z :=
  match s with
  | "" => acc
  | String.String c s => digits_val (10 * acc + (Z.of_N (Ascii.N_of_ascii c) - 48)) s
  end%string.
Definition u32_from_str (s : string) : option Z :=
  if String.eqb s "" || negb (all_digits s) then None
  else let v := digits_val 0 s in if v <? 2 ^ 32 then Some v else None.

Definition parse_name (name : string) : res IfError Z :=
  if String.eqb name "utun" then Ok 0
  else
    match strip_prefix "utun" name with
    | Some rest =>
        if utun_index rest then
          match u32_from_str rest with
          | Some i => Ok (wrap 32 (i + 1))
          | None => Err InvalidName
          end
        else Err InvalidName
    | None => Err InvalidName
    end.
(** The start of [NativeTun::new]: the unit that is asked of the kernel. *)
Definition mac_unit (name : option string) : res IfError Z :=
  match name with
  | Some name => if (16 <? String.length name)%nat then Err (IfOther "name too long") else parse_name name
  | None => Ok 0
  end.

(** A packet comes with four bytes that tell its protocol family. *)
Fixpoint mac_recv_loop (buf : bytes) (reads : list ReadOutcome) : option (res IfError bytes) :=
  match reads with
  | [] => None
  | WouldBlock :: reads => mac_recv_loop buf reads
  | ReadErr e :: _ => Some (Err (IfIO e))
  | ReadOk p :: reads =>
      let '(buf, n) := read_into buf p in
      if (4 <=? n)%nat then Some (Ok (take (n - 4) (drop 4 buf))) else mac_recv_loop buf reads
  end.
Definition mac_recv (reads : list ReadOutcome) : option (res IfError bytes) := mac_recv_loop (replicate 1500 x00) reads.
(** What [send] writes. *)
Definition mac_frame (buf : bytes) : res IfError bytes :=
  b ← index 0 buf;
  let v := Z.shiftr (u8 b) 4 in
  if v =? 4 then Ok ([x00; x00; x00; x02] ++ buf)
  else if v =? 6 then Ok ([x00; x00; x00; x1e] ++ buf)
  else Err InvalidIpPacket.
Definition mac_send (fd : Fd) (buf : bytes) : tio unit :=
  m ← pure_res (mac_frame buf);
  _ ← call (fd_write fd m); mret tt.

(** ** router *)

(** darwin.rs: the command; that it cannot be run is a panic, that it fails is not looked at.
    The routers of the other systems do nothing. *)
Definition route_command (ip_to_string : IpAddr -> string) (tun_name : string) (addr mask : IpAddr) : string :=
  "route -n add " +:+ ip_to_string addr +:+ " -netmask " +:+ ip_to_string mask +:+ " -interface " +:+ tun_name.
Definition darwin_add_route (ip_to_string : IpAddr -> string) (tun_name : string) (addr mask : IpAddr) : tio unit :=
  _ ← io_unwrap (call (shell (route_command ip_to_string tun_name addr mask))); mret tt.
Definition add_route_noop (addr mask : IpAddr) : tio unit := mret tt.

(** ** tun/windows *)

(** mod.rs, [exe_cmd]; netsh.rs. *)
Definition exe_cmd (cmd : string) : tio unit :=
  ok ← call (shell cmd);
  if ok : bool then mret tt else pure_res (Err (IfOther cmd)).
Definition ip_text (ip : bytes) : string := ipv4_to_string (be_val ip).
Definition set_interface_ip (idx : Z) (addr mask : bytes) : tio unit :=
  exe_cmd ("netsh interface ip set address " +:+ pretty (Z.to_N idx) +:+ " static " +:+ ip_text addr +:+ " " +:+ ip_text mask +:+ " ").
Definition set_interface_mtu (idx mtu : Z) : tio unit :=
  exe_cmd ("netsh interface ipv4 set subinterface " +:+ pretty (Z.to_N idx) +:+ "  mtu=" +:+ pretty (Z.to_N mtu) +:+ " store=persistent").
Definition set_interface_metric (idx metric : Z) : tio unit :=
  exe_cmd ("netsh interface ip set interface " +:+ pretty (Z.to_N idx) +:+ " metric=" +:+ pretty (Z.to_N metric)).
Definition delete_cache : tio unit := exe_cmd "netsh interface ip delete destinationcache".
Definition disabled_ipv6 (idx : Z) : tio unit :=
  exe_cmd ("netsh interface ipv6 set interface " +:+ pretty (Z.to_N idx) +:+ " disabled").

(** [ctl_code]. *)
Definition ctl_code (device_type function method access : Z) : Z :=
  Z.lor (Z.lor (Z.lor (wrap 32 (Z.shiftl device_type 16)) (wrap 32 (Z.shiftl access 14))) (wrap 32 (Z.shiftl function 2))) method.
(** [encode_utf16] and [decode_utf16] on code units. *)
Definition encode_c (units : list Z) : list Z := units ++ [0].
Fixpoint decode_c (units : list Z) : list Z :=
  match units with
  | [] => []
  | u :: units => if u =? 0 then [] else u :: decode_c units
  end.

(** tun/packet.rs: dropping a packet that was allocated and not sent panics. *)
Inductive Kind := SendPacketPending | SendPacketSent | ReceivePacket.
Definition TunPacket_drop {E} (k : Kind) : res E unit :=
  match k with SendPacketPending => Panic | _ => Ok tt end.

(** tun/mod.rs. [alloc] and [transmit] are [WintunAllocateSendPacket] and [WintunSendPacket]. *)
Record IpInfo := mkIpInfo { ii_address : bytes; ii_netmask : bytes }.
Record WinTun := mkWinTun { wt_index : Z; wt_name : bytes; wt_ip_info : option IpInfo }.

Definition win_set_ip (t : WinTun) (addr mask : bytes) : tio WinTun :=
  _ ← set_interface_ip (wt_index t) addr mask;
  mret (mkWinTun (wt_index t) (wt_name t) (Some (mkIpInfo addr mask))).
Definition win_address (t : WinTun) : tio bytes :=
  pure_res (match wt_ip_info t with Some i => Ok (ii_address i) | None => Err (IfOther "NotFound") end).
Definition win_set_mtu (t : WinTun) (mtu : Z) : tio unit := set_interface_mtu (wt_index t) mtu.

Context (alloc : Z -> host -> host * (IoError + unit)) (transmit : bytes -> host -> host).
(** [copy_from_slice] panics when the lengths differ; the packet is then dropped unsent. *)
Definition win_send (buf : bytes) : tio unit :=
  let size := wrap 16 (Z.of_nat (length buf)) in
  _ ← call (alloc size);
  if negb (Z.of_nat (length buf) =? size) then pure_res Panic
  else
    _ ← (fun w => (transmit buf w, Ok tt));
    pure_res (TunPacket_drop SendPacketSent).

(** [receive_blocking]: twenty tries, then a wait for an event. *)
Inductive TryReceive := NoMoreItems | TryErr | TryPacket (p : bytes).
Inductive WaitResult := WaitFailed | WaitData | WaitShutdown | WaitOther.
Fixpoint receive_blocking (n : nat) (tries : list TryReceive) (waits : list WaitResult) : option (res IfError bytes) :=
  match tries with
  | [] => None
  | TryErr :: _ => Some (Err (IfOther "try_receive failed"))
  | TryPacket p :: _ => Some (Ok p)
  | NoMoreItems :: tries =>
      match n with
      | S (S n) => receive_blocking (S n) tries waits
      | _ =>
          match waits with
          | [] => None
          | WaitFailed :: _ => Some (Err (IfOther "WAIT_FAILED"))
          | WaitShutdown :: _ => Some (Err (IfOther "Shutdown event triggered"))
          | _ :: waits => receive_blocking 20 tries waits
          end
      end
  end.
(** The reads of [recv] as the class has them: a packet or an error at the first try. *)
Definition win_recv (reads : list ReadOutcome) : option (res IfError bytes) :=
  receive_blocking 20
    ((fun r => match r with WouldBlock => NoMoreItems | ReadErr _ => TryErr | ReadOk p => TryPacket p end) <$> reads)
    (replicate (length reads) WaitData).

#[global] Instance win_tun : Tun WinTun := {|
  enabled _ _ := mret tt;
  if_name := wt_name;
  mtu _ := pure_res (Err (Unsupported "mtu"));
  set_mtu := win_set_mtu;
  address := win_address;
  set_address _ _ := pure_res (Err (IfOther "Unsupported"));
  netmask _ := pure_res (Err (IfOther "Unsupported"));
  set_netmask _ _ := pure_res (Err (IfOther "Unsupported"));
  set_ip := win_set_ip;
  if_recv _ := win_recv;
  if_send _ := win_send;
|}.
End TunIf.

(** ** The contract of an interface

    What the device relies on: after [set_ip] the interface has the address, and [address]
    returns the address it has. [addr_of] is the address as the host has it. *)
Class TunLaws `{TunHost} (T : Type) {I : Tun T} := {
  if_ok : T -> Prop;
  addr_of : T -> host -> option bytes;
  set_ip_addr : forall t a m w w' t', if_ok t -> length a = 4%nat -> set_ip t a m w = (w', Ok t') ->
    if_ok t' /\ addr_of t' w' = Some a;
  address_addr : forall t w w' a, if_ok t -> address t w = (w', Ok a) -> addr_of t w = Some a;
}.

(** The kernel's side of the ioctls on Linux: the address of each interface by its name. *)
Class LinuxKernel `{TunHost} := {
  kernel_addr : bytes -> host -> option bytes;
  siocsifaddr : forall fd ifr w w' r, ioctl 0x8916 fd ifr w = (w', inr r) ->
    le_val (take 2 (ifr_ifru ifr)) = AF_INET ->
    kernel_addr (c_str (take IFNAMSIZ ifr)) w' = Some (take 4 (drop 4 (ifr_ifru ifr)));
  siocsifnetmask : forall fd ifr w w' r n, ioctl 0x891c fd ifr w = (w', inr r) -> kernel_addr n w' = kernel_addr n w;
  siocgifaddr : forall fd ifr w w' r, ioctl 0x8915 fd ifr w = (w', inr r) ->
    exists a, kernel_addr (c_str (take IFNAMSIZ ifr)) w = Some a /\ length a = 4%nat /\ take 4 (drop 4 (ifr_ifru r)) = a;
}.

Section Contract.
Context `{TunHost}.

Lemma call_Ok_inv {A} (c : host -> host * (IoError + A)) w w' a : call c w = (w', Ok a) -> c w = (w', inr a).
Proof. unfold call, io_map_err, sys. destruct (c w) as [? []]; cbn; intros; by simplify_eq. Qed.

(** Names that fit: no zero byte, at most 15 bytes. *)
Definition name_ok (n : bytes) : Prop := (length n < IFNAMSIZ)%nat /\ Forall (fun b => b <> x00) n.

Lemma c_str_terminated n b : Forall (fun b => b <> x00) n -> c_str (n ++ x00 :: b) = n.
Proof.
  induction 1 as [|x n Hx _ IH]; cbn [app c_str]; [by rewrite bool_decide_true|].
  rewrite bool_decide_false by done. by rewrite IH.
Qed.
(** A zeroed structure of [k] bytes with a name copied over its start. *)
Lemma zeroed_name k n : name_ok n -> (IFNAMSIZ <= k)%nat ->
  let req := n ++ drop (length n) (replicate k x00) in
  (IFNAMSIZ <= length req)%nat /\ c_str (take IFNAMSIZ req) = n.
Proof.
  intros [Hl Hn] Hk. unfold IFNAMSIZ in *. cbn zeta. split.
  - rewrite length_app, length_drop, length_replicate. lia.
  - rewrite take_app_ge by lia. rewrite drop_replicate, take_replicate.
    destruct (Nat.min _ _) as [|j] eqn:Hj; [lia|]. cbn [replicate]. by apply c_str_terminated.
Qed.
Lemma length_request n : name_ok n -> (IFNAMSIZ <= length (request n))%nat.
Proof. intros Hn. apply (zeroed_name 40 n Hn). unfold IFNAMSIZ. lia. Qed.
Lemma request_name n : name_ok n -> c_str (take IFNAMSIZ (request n)) = n.
Proof. intros Hn. apply (zeroed_name 40 n Hn). unfold IFNAMSIZ. lia. Qed.
Lemma set_ifru_name ifr v : (IFNAMSIZ <= length ifr)%nat -> take IFNAMSIZ (set_ifru ifr v) = take IFNAMSIZ ifr.
Proof. intros Hl. unfold set_ifru, IFNAMSIZ in *. rewrite take_app_le, firstn_firstn; [done|]. rewrite length_take. lia. Qed.
Lemma set_ifru_value ifr v n : (IFNAMSIZ <= length ifr)%nat -> (n <= length v)%nat -> take n (ifr_ifru (set_ifru ifr v)) = take n v.
Proof.
  intros Hl Hn. unfold ifr_ifru, set_ifru, IFNAMSIZ in *. rewrite drop_app_ge by (rewrite length_take; lia).
  rewrite length_take. replace (16 - _)%nat with 0%nat by lia. rewrite drop_0. by rewrite take_app_le.
Qed.

(** The socket address of an IPv4 address, read back. *)
Lemma length_SockAddr ip : length ip = 4%nat -> length (SockAddr_from_ipv4 ip) = 16%nat.
Proof. intros Hl. unfold SockAddr_from_ipv4. rewrite !length_app, !length_le_bytes, length_replicate. lia. Qed.
Lemma sockaddr_roundtrip ip : length ip = 4%nat ->
  le_val (take 2 (SockAddr_from_ipv4 ip)) = AF_INET /\ take 4 (drop 4 (SockAddr_from_ipv4 ip)) = ip /\
  ipv4_from_SockAddr <$> SockAddr_new (SockAddr_from_ipv4 ip) = Ok ip.
Proof.
  intros Hl. do 5 (destruct ip as [|? ip]; try done).
Qed.
End Contract.

(** Linux. *)
Section Linux.
Context `{LinuxKernel}.

Lemma put_sockaddr_Ok {A} num fd name v (k : A) w w' k' :
  (_ ← put_sockaddr num fd name v; mret k) w = (w', Ok k') ->
  k' = k /\ exists r, ioctl num fd (set_ifru (request name) (SockAddr_from_ipv4 v)) w = (w', inr r).
Proof.
  intros Hp. io_inv Hp. injection Hp as -> <-. split; [done|]. unfold put_sockaddr in Hp0.
  io_inv Hp0. injection Hp0 as ->. apply call_Ok_inv in Hp1. by eexists.
Qed.

Lemma linux_set_ip (t : LinuxTun) a m w w' t' : name_ok (lt_name t) -> length a = 4%nat ->
  set_ip t a m w = (w', Ok t') -> t' = t /\ kernel_addr (lt_name t) w' = Some a.
Proof.
  intros Hok Hl Hs. cbn in Hs. unfold default_set_ip in Hs. io_inv Hs.
  apply put_sockaddr_Ok in Hs0 as [-> [r Hr]]. apply put_sockaddr_Ok in Hs as [-> [r' Hr']]. split; [done|].
  pose proof (length_request _ Hok) as Hlen. rewrite (siocsifnetmask _ _ _ _ _ _ Hr').
  destruct (sockaddr_roundtrip a Hl) as (Hf & Ha & _).
  apply siocsifaddr in Hr.
  - rewrite set_ifru_name, request_name in Hr by done. rewrite Hr. f_equal.
    rewrite take_drop_commute, set_ifru_value by (rewrite ?length_SockAddr by done; done || lia).
    by rewrite <- take_drop_commute.
  - rewrite set_ifru_value by (rewrite ?length_SockAddr by done; done || lia). done.
Qed.

Lemma linux_get_address (t : LinuxTun) w w' a : name_ok (lt_name t) -> address t w = (w', Ok a) ->
  kernel_addr (lt_name t) w = Some a.
Proof.
  intros Hok Ha. cbn in Ha. unfold linux_address, get_sockaddr in Ha. io_inv Ha. apply call_Ok_inv in Ha0.
  injection Ha as -> Ha. apply siocgifaddr in Ha0 as (a' & Hk & Hl & Ht). rewrite request_name in Hk by done.
  rewrite Hk. f_equal. rewrite <- Ht. unfold SockAddr_new in Ha. destruct (negb _); [done|]. injection Ha as <-.
  unfold ipv4_from_SockAddr. rewrite !take_drop_commute. f_equal. by rewrite firstn_firstn.
Qed.

#[global] Instance linux_laws : TunLaws LinuxTun.
Proof.
  refine {| if_ok t := name_ok (lt_name t); addr_of t w := kernel_addr (lt_name t) w |}.
  - intros t a m w w' t' Hok Hl Hs. by destruct (linux_set_ip t a m w w' t' Hok Hl Hs) as [-> ?].
  - intros t w w' a. apply linux_get_address.
Defined.
End Linux.

(** Windows remembers what it has set. *)
#[global] Instance win_laws `{TunHost} alloc transmit : TunLaws (I := win_tun alloc transmit) WinTun.
Proof.
  refine {| if_ok _ := True; addr_of t _ := ii_address <$> wt_ip_info t |}.
  - intros t a m w w' t' _ _ Hs. cbn in Hs. unfold win_set_ip in Hs. io_inv Hs. injection Hs as _ <-. done.
  - intros t w w' a _ Ha. cbn in Ha. unfold win_address, pure_res in Ha. destruct (wt_ip_info t); [|done].
    by injection Ha as _ <-.
Defined.

(** ** Packets through the interface *)

Section Packets.
Context `{TunHost}.

Lemma linux_recv_loop_packet buf p rest : length buf = 1500%nat ->
  linux_recv_loop buf (ReadOk p :: rest) = Some (Ok (take 1500 p)).
Proof.
  intros Hb. cbn [linux_recv_loop]. unfold read_into. rewrite Hb. do 2 f_equal.
  rewrite take_app_le by (rewrite length_take; lia). rewrite firstn_firstn, Nat.min_id.
  by rewrite <- firstn_firstn, firstn_all.
Qed.
Lemma mac_recv_loop_packet buf p rest : length buf = 1500%nat -> (4 <= length p)%nat ->
  mac_recv_loop buf (ReadOk p :: rest) = Some (Ok (drop 4 (take 1500 p))).
Proof.
  intros Hb Hp. cbn [mac_recv_loop]. unfold read_into. rewrite Hb. set (n := Nat.min 1500 (length p)).
  rewrite (proj2 (Nat.leb_le 4 n)) by lia. do 2 f_equal. rewrite take_drop_commute.
  replace (4 + (n - 4))%nat with n by lia. rewrite take_app_le by (rewrite length_take; lia).
  rewrite firstn_firstn, Nat.min_id. f_equal. unfold n. by rewrite <- firstn_firstn, firstn_all.
Qed.

(** C23: IP packets through the macOS interface. A packet that is sent is framed with the
    four bytes of its protocol family, and what [recv] returns for a frame is the packet
    without them; but the buffer of 1500 bytes holds the frame, so of a packet of more than
    1496 bytes the end is lost: 1500-byte packets, the usual maximum, come in four bytes
    short. On Linux the buffer holds the packet. *)
Theorem mac_recv_truncates p f rest :
  mac_frame p = Ok f ->
  mac_recv (ReadOk f :: rest) = Some (Ok (take 1496 p)) /\
  linux_recv (ReadOk p :: rest) = Some (Ok (take 1500 p)) /\
  (mac_recv (ReadOk f :: rest) = Some (Ok p) <-> (length p <= 1496)%nat).
Proof.
  intros Hf. assert (mac_recv (ReadOk f :: rest) = Some (Ok (take 1496 p))) as Hm.
  { unfold mac_frame in Hf. destruct (index 0 p) as [b| |]; try done. cbn [mbind res_bind] in Hf.
    unfold mac_recv. destruct (_ =? 4); [|destruct (_ =? 6); [|done]]; injection Hf as <-;
      rewrite mac_recv_loop_packet by (rewrite ?length_replicate; cbn; lia); done. }
  split; [done|]. split; [by apply linux_recv_loop_packet|]. rewrite Hm. split.
  - intros [= Hp]. rewrite <- Hp, length_take. lia.
  - intros Hl. by rewrite firstn_all2.
Qed.
End Packets.

(** ** Interface names *)

Lemma pretty_digit n : (n < 10)%N -> is_digit (pretty_N_char n) = true /\
  Z.of_N (Ascii.N_of_ascii (pretty_N_char n)) - 48 = Z.of_N n.
Proof.
  intros Hn. assert (n ∈ N.of_nat <$> seq 0 10) as Hc.
  { apply list_elem_of_fmap. exists (N.to_nat n). rewrite elem_of_seq. lia. }
  clear Hn. revert n Hc. apply Forall_forall. by repeat constructor.
Qed.
Lemma go_val (x : N) : forall s, all_digits (pretty_N_go x s) = all_digits s /\ forall acc, (x = 0%N \/ acc = 0) -> digits_val acc (pretty_N_go x s) = digits_val (acc + Z.of_N x) s.
Proof.
  induction (N.lt_wf_0 x) as [x _ IH]. intros s. destruct (decide (x = 0%N)) as [->|Hx].
  - rewrite pretty_N_go_0. split; [done|]. intros. f_equal. lia.
  - rewrite pretty_N_go_step by lia. destruct (IH (x `div` 10)%N) with (s := String.String (pretty_N_char (x mod 10)) s) as [H1 H2].
    { apply N.div_lt; lia. }
    destruct (pretty_digit (x mod 10)) as [Hd Hv]; [apply N.mod_lt; lia|]. split.
    + rewrite H1. cbn. by rewrite Hd.
    + intros acc [?| ->]; [done|]. rewrite H2 by auto. cbn [digits_val]. rewrite Hv. f_equal.
      rewrite N2Z.inj_div, N2Z.inj_mod. pose proof (Z.div_mod (Z.of_N x) 10). lia.
Qed.

Lemma digit_pretty c : is_digit c = true -> exists d, (d < 10)%N /\ pretty_N_char d = c /\
  Z.of_N (Ascii.N_of_ascii c) - 48 = Z.of_N d.
Proof.
  unfold is_digit. intros [H1 H2]%andb_prop. apply Z.leb_le in H1, H2.
  exists (Z.to_N (Z.of_N (Ascii.N_of_ascii c) - 48)). split; [lia|]. split; [|lia].
  rewrite <- (Ascii.ascii_N_embedding c) at 2. revert H1 H2. generalize (Ascii.N_of_ascii c). intros n H1 H2.
  assert (n = 48 \/ n = 49 \/ n = 50 \/ n = 51 \/ n = 52 \/ n = 53 \/ n = 54 \/ n = 55 \/ n = 56 \/ n = 57)%N as Hc by lia.
  repeat destruct Hc as [->|Hc]; try done. by subst.
Qed.
Lemma go_digits t : forall x s, (0 < x)%N -> all_digits t = true ->
  pretty_N_go (Z.to_N (digits_val (Z.of_N x) t)) s = pretty_N_go x (t +:+ s).
Proof.
  induction t as [|c t IH]; intros x s Hx Ht; cbn [digits_val].
  - by rewrite N2Z.id.
  - cbn in Ht. apply andb_prop in Ht as [Hc Ht]. destruct (digit_pretty c Hc) as (d & Hd & Hp & ->).
    replace (10 * Z.of_N x + Z.of_N d) with (Z.of_N (10 * x + d)%N) by lia. rewrite IH by (done || lia).
    rewrite pretty_N_go_step by lia. replace ((10 * x + d) `div` 10)%N with x by (apply N.div_unique with d; lia).
    replace ((10 * x + d) `mod` 10)%N with d by (apply N.mod_unique with x; lia). by rewrite Hp.
Qed.
Lemma append_nil s : s +:+ "" = s.
Proof. induction s as [|c s IH]; [done|]. change (String.String c (s +:+ "") = String.String c s). by rewrite IH. Qed.

Lemma go_head (x : N) : forall s, (0 < x)%N -> exists c t, pretty_N_go x s = String.String c t /\ c <> Ascii.ascii_of_nat 48.
Proof.
  induction (N.lt_wf_0 x) as [x _ IH]. intros s Hx. rewrite pretty_N_go_step by lia.
  destruct (decide (x < 10)%N) as [Hl|Hl].
  - rewrite N.div_small, pretty_N_go_0, N.mod_small by lia. eexists _, _. split; [done|].
    intros Hc. assert (x = 0%N) by (by apply pretty_N_char_inj; [lia..|]). lia.
  - apply IH; [apply N.div_lt; lia|]. apply N.div_str_pos. lia.
Qed.
(** The index part of a name is canonical exactly for the texts of the numbers. *)
Lemma utun_index_pretty (n : N) : utun_index (pretty n) = true /\ all_digits (pretty n) = true /\ digits_val 0 (pretty n) = Z.of_N n /\ pretty n <> ""%string.
Proof.
  change (pretty n) with (pretty_N n). unfold pretty_N. destruct (decide (n = 0%N)) as [->|Hn]; [done|].
  destruct (go_val n "") as [Hd Hv]. destruct (go_head n "") as (c & t & Hg & Hc); [lia|].
  rewrite Hv by auto. rewrite Hd. rewrite Hg in *. split; [|done]. cbn in Hd |- *. by rewrite bool_decide_false.
Qed.
Lemma index_canonical s : s <> ""%string -> utun_index s = true -> s = pretty (Z.to_N (digits_val 0 s)).
Proof.
  destruct s as [|c t]; [done|]. intros _. cbn [utun_index]. case_bool_decide as Hc.
  - intros Ht%String.eqb_eq. by subst.
  - intros [Hd Ht]%andb_prop. destruct (digit_pretty c Hd) as (d & Hl & Hp & Hv). cbn [digits_val].
    rewrite Hv. assert (0 < d)%N as Hpos by (destruct (decide (d = 0%N)) as [->|]; [by destruct Hc|lia]).
    replace (10 * 0 + Z.of_N d) with (Z.of_N d) by lia.
    assert (pretty_N_go (Z.to_N (digits_val (Z.of_N d) t)) "" = String.String c t) as Hgo.
    { rewrite go_digits by done. rewrite append_nil, pretty_N_go_step, N.div_small, pretty_N_go_0, N.mod_small by lia. by rewrite Hp. }
    change (String.String c t = pretty_N (Z.to_N (digits_val (Z.of_N d) t))). unfold pretty_N. case_decide as H0; [|by rewrite Hgo].
    rewrite H0, pretty_N_go_0 in Hgo. done.
Qed.

Lemma strip_prefix_app p s : strip_prefix p (p +:+ s) = Some s.
Proof.
  induction p as [|c p IH]; [done|].
  change ((if Ascii.eqb c c then strip_prefix p (p +:+ s) else None) = Some s). by rewrite Ascii.eqb_refl.
Qed.
Lemma strip_prefix_Some p : forall s r, strip_prefix p s = Some r -> s = p +:+ r.
Proof.
  induction p as [|c p IH]; intros s r; [by intros [= ->]|]. destruct s as [|d s]; [done|]. cbn [strip_prefix].
  destruct (Ascii.eqb_spec c d) as [->|]; [|done]. intros ->%IH. done.
Qed.

(** The interface names macOS accepts. A name gives a unit exactly when it is [utun], or
    [utun] followed by the usual decimal text of a 32-bit number, without leading zeros or
    anything after it; the unit is one more than the number, so [utun4294967295] wraps to 0,
    the unit that lets the kernel choose. *)
Theorem parse_name_iff `{UdpHost} name n :
  parse_name name = Ok n <->
  (name = "utun"%string /\ n = 0) \/
  exists i : N, (i < 2 ^ 32)%N /\ name = "utun" +:+ pretty i /\ n = wrap 32 (Z.of_N i + 1).
Proof.
  unfold parse_name, u32_from_str. destruct (String.eqb_spec name "utun") as [->|Hne].
  - split; [intros [= <-]; auto|]. intros [[_ ->]|(i & _ & Hn & _)]; [done|].
    change "utun"%string with ("utun" +:+ "") in Hn at 1. destruct (utun_index_pretty i) as (_ & _ & _ & Hz).
    destruct (pretty i); [done|]. by injection Hn.
  - split.
    + destruct (strip_prefix "utun" name) as [r|] eqn:Hs; [|done]. apply strip_prefix_Some in Hs as ->.
      destruct (utun_index r) eqn:Hi; [|done]. destruct (String.eqb_spec r "") as [->|Hr]; [done|].
      destruct (all_digits r); [|done]. cbn [negb orb]. destruct (Z.ltb_spec (digits_val 0 r) (2 ^ 32)) as [Hl|]; [|done].
      intros [= <-]. right. exists (Z.to_N (digits_val 0 r)). rewrite <- index_canonical by done.
      pose proof (index_canonical r Hr Hi) as Hc. destruct (utun_index_pretty (Z.to_N (digits_val 0 r))) as (_ & _ & Hv & _).
      rewrite <- Hc in Hv. split; [lia|]. split; [done|]. by rewrite <- Hv.
    + intros [[? ?]|(i & Hi & -> & ->)]; [done|]. rewrite strip_prefix_app.
      destruct (utun_index_pretty i) as (-> & -> & -> & Hz). destruct (String.eqb_spec (pretty i) ""); [done|]. cbn [negb orb].
      by rewrite (proj2 (Z.ltb_lt _ _)) by lia.
Qed.

Section Witnesses.
#[local] Existing Instance ToyHost.lib.

Definition toy_packet (n : nat) : bytes := x45 :: replicate n x01.
Lemma mac_recv_truncates_witness :
  mac_frame (toy_packet 1499) = Ok ([x00; x00; x00; x02] ++ toy_packet 1499) /\
  mac_recv [ReadOk ([x00; x00; x00; x02] ++ toy_packet 1499)] = Some (Ok (take 1496 (toy_packet 1499))) /\
  mac_recv [ReadOk ([x00; x00; x00; x02] ++ toy_packet 1499)] <> Some (Ok (toy_packet 1499)).
Proof.
  assert (mac_frame (toy_packet 1499) = Ok ([x00; x00; x00; x02] ++ toy_packet 1499)) as Hf by (by vm_compute).
  destruct (mac_recv_truncates (H := ToyHost.lib) (toy_packet 1499) _ [] Hf) as (H1 & _ & H2).
  split; [exact Hf|]. split; [exact H1|]. intros H3. apply H2 in H3. vm_compute in H3. lia.
Defined.
End Witnesses.
End TunIf.
