(* ===== verification/TunOs.v ===== *)
(** * The interfaces of macOS and Windows (vlink-tun/src/tun/macos, tun/windows)

    macOS: an interface is opened through the kernel's utun control and configured with
    ioctls on a structure of 32 bytes whose socket addresses start with a length byte.
    Windows: the enum [NativeTun] over a TAP adapter and a wintun adapter. The functions of
    ffi.rs and of wintun.dll are the host's. Each is an instance of [Tun]; macOS and wintun
    keep the contract a device relies on. *)

From S2P Require Import Prelude Bytes Host NonceFilter Protocol Crypto Clock Noise Session PeerHandshake Monitor Peer Device Udp Abi TunIf.

Module TunOs.
Import TunIf.

(** ** macOS *)

(** [system_socket] is the socket of the utun control; [ctl_info] returns the id the kernel
    gives a control's name, [ctl_connect] connects to unit [unit] of it; [iface_name] is the
    buffer of 256 bytes [getsockopt] fills. *)
Class MacHost `{TunHost} := {
  system_socket : host -> host * (IoError + Fd);
  ctl_info : Fd -> bytes -> host -> host * (IoError + Z);
  ctl_connect : Fd -> Z -> Z -> host -> host * (IoError + unit);
  iface_name : Fd -> host -> host * (IoError + bytes);
}.

Section Mac.
Context `{MacHost}.
Abbreviation tio := (io host IfError).

(** sys.rs: the numbers [ioctl_write_ptr!] and [ioctl_readwrite!] make of a group, a number
    and a structure of 32 bytes. *)
Definition ioc (dir n : Z) : Z := Z.lor (Z.lor dir (Z.shiftl 32 16)) (Z.lor (Z.shiftl 0x69 8) n).
Definition ioctl_write_ptr (n : Z) : Z := ioc 0x80000000 n.
Definition ioctl_readwrite (n : Z) : Z := ioc 0xc0000000 n.
Definition SIOCSIFMTU : Z := 0x80206934.
Definition SIOCGIFMTU : Z := 0xc0206933.
Definition UTUN_CONTROL_NAME : bytes :=
  Eval vm_compute in String.list_byte_of_string "com.apple.net.utun_control".

(** [ifreq::new]: the name is copied unchecked. *)
Definition mac_ifreq_zero : bytes := replicate 32 x00.
Definition mac_ifreq_new (name : bytes) : bytes := name ++ drop (length name) mac_ifreq_zero.
(** A [sockaddr_in] of macOS: a length byte, which stays zero, a family byte, then as on
    Linux. *)
Definition mac_SockAddr_new (value : bytes) : res IfError bytes :=
  if negb (le_val (take 1 (drop 1 value)) =? AF_INET) then Err (IfOther "invalid address") else Ok (take 16 value).
Definition mac_SockAddr_from_ipv4 (ip : bytes) : bytes :=
  [x00] ++ le_bytes 1 AF_INET ++ le_bytes 2 0 ++ ip ++ replicate 8 x00.
Definition get_iface_name (fd : Fd) : tio bytes := buf ← call (iface_name fd); mret (c_str buf).

Record MacTun := mkMacTun { mt_fd : Fd; mt_name : bytes; mt_ctrl : Fd }.

(** A file descriptor that is not [-1] is taken as it is. *)
Definition MacTun_new (name : option string) : tio MacTun :=
  idx ← pure_res (mac_unit name);
  fd ← call system_socket;
  id ← call (ctl_info fd (UTUN_CONTROL_NAME ++ replicate (96 - length UTUN_CONTROL_NAME) x00));
  _ ← call (ctl_connect fd id idx);
  _ ← fd_set_nonblocking fd;
  name ← get_iface_name fd;
  ctrl ← call ctrl_socket;
  fd ← call (async_fd fd);
  ctrl ← call (async_fd ctrl);
  mret (mkMacTun fd name ctrl).

(** Flags and MTU go through the tunnel's own descriptor, addresses through the socket. *)
Definition mac_enabled (t : MacTun) (value : bool) : tio unit :=
  req ← call (ioctl (ioctl_readwrite 17) (mt_fd t) (mac_ifreq_new (mt_name t)));
  let flags := le_val (take 2 (ifr_ifru req)) in
  _ ← call (ioctl (ioctl_write_ptr 16) (mt_fd t) (set_ifru req (le_bytes 2 (set_flags flags value))));
  mret tt.
Definition mac_mtu (t : MacTun) : tio Z :=
  req ← call (ioctl (ioctl_readwrite 51) (mt_fd t) (mac_ifreq_new (mt_name t)));
  mret (ifru_mtu req).
Definition mac_set_mtu (t : MacTun) (mtu : Z) : tio unit :=
  _ ← call (ioctl (ioctl_write_ptr 52) (mt_fd t) (set_ifru (mac_ifreq_new (mt_name t)) (le_bytes 4 mtu)));
  mret tt.
Definition mac_get_addr (num : Z) (t : MacTun) : tio bytes :=
  req ← call (ioctl num (mt_ctrl t) (mac_ifreq_new (mt_name t)));
  pure_res (ipv4_from_SockAddr <$> mac_SockAddr_new (ifr_ifru req)).
Definition mac_put_addr (num : Z) (t : MacTun) (value : bytes) : tio MacTun :=
  _ ← call (ioctl num (mt_ctrl t) (set_ifru (mac_ifreq_new (mt_name t)) (mac_SockAddr_from_ipv4 value)));
  mret t.
Definition mac_address : MacTun -> tio bytes := mac_get_addr (ioctl_readwrite 33).
Definition mac_set_address : MacTun -> bytes -> tio MacTun := mac_put_addr (ioctl_write_ptr 12).
Definition mac_netmask : MacTun -> tio bytes := mac_get_addr (ioctl_readwrite 37).
Definition mac_set_netmask : MacTun -> bytes -> tio MacTun := mac_put_addr (ioctl_write_ptr 22).

#[global] Instance mac_tun : Tun MacTun := {|
  enabled := mac_enabled;
  if_name := mt_name;
  mtu := mac_mtu;
  set_mtu := mac_set_mtu;
  address := mac_address;
  set_address := mac_set_address;
  netmask := mac_netmask;
  set_netmask := mac_set_netmask;
  set_ip := default_set_ip mac_set_address mac_set_netmask;
  if_recv _ := mac_recv;
  if_send t := mac_send (mt_fd t);
|}.
End Mac.

(** ** Text on Windows

    A Rust string as its characters (Unicode scalar values); [str::encode_utf16],
    [String::from_utf16_lossy] and the bytes of a string. *)
Definition utf16_units (c : Z) : list Z :=
  if c <? 0x10000 then [c] else [0xd800 + (c - 0x10000) / 0x400; 0xdc00 + (c - 0x10000) mod 0x400].
Definition is_high (u : Z) : bool := (0xd800 <=? u) && (u <? 0xdc00).
Definition is_low (u : Z) : bool := (0xdc00 <=? u) && (u <? 0xe000).
Fixpoint from_utf16_lossy (units : list Z) : list Z :=
  match units with
  | [] => []
  | u :: rest =>
      if is_high u then
        match rest with
        | v :: rest' =>
            if is_low v then 0x10000 + (u - 0xd800) * 0x400 + (v - 0xdc00) :: from_utf16_lossy rest'
            else 0xfffd :: from_utf16_lossy rest
        | [] => [0xfffd]
        end
      else if is_low u then 0xfffd :: from_utf16_lossy rest
      else u :: from_utf16_lossy rest
  end.
Definition encode_utf16 (s : list Z) : list Z := encode_c (s ≫= utf16_units).
Definition decode_utf16 (units : list Z) : list Z := from_utf16_lossy (decode_c units).
Definition utf8 (c : Z) : bytes :=
  if c <? 0x80 then le_bytes 1 c
  else if c <? 0x800 then le_bytes 1 (0xc0 + c / 64) ++ le_bytes 1 (0x80 + c mod 64)
  else if c <? 0x10000 then
    le_bytes 1 (0xe0 + c / 4096) ++ le_bytes 1 (0x80 + c / 64 mod 64) ++ le_bytes 1 (0x80 + c mod 64)
  else le_bytes 1 (0xf0 + c / 262144) ++ le_bytes 1 (0x80 + c / 4096 mod 64) ++
       le_bytes 1 (0x80 + c / 64 mod 64) ++ le_bytes 1 (0x80 + c mod 64).

(** ** Windows *)

(** What tap.rs and tun/mod.rs use of ffi.rs (see [Ffi.ffi_host]) and of wintun.dll.
    [create_file] takes the access, the sharing, the disposition and the flags;
    [device_io_control] takes and returns the bytes of the output buffer. *)
Class WinHost `{TunHost} := {
  Luid : Type;
  Guid : Type;
  Handle : Type;
  Adapter : Type;
  WinSession : Type;
  alias_to_luid : list Z -> host -> host * (IoError + Luid);
  luid_to_guid : Luid -> host -> host * (IoError + Guid);
  string_from_guid : Guid -> host -> host * (IoError + list Z);
  luid_to_index : Luid -> host -> host * (IoError + Z);
  luid_to_alias : Luid -> host -> host * (IoError + list Z);
  create_file : list Z -> Z -> Z -> Z -> Z -> host -> host * (IoError + Handle);
  device_io_control : Handle -> Z -> bytes -> bytes -> host -> host * (IoError + bytes);
  load_wintun : host -> host * (IoError + unit);
  open_adapter : list Z -> host -> host * option Adapter;
  close_adapter : Adapter -> host -> host;
  delete_driver : host -> host;
  create_adapter : list Z -> bytes -> host -> host * option Adapter;
  start_session : Adapter -> Z -> host -> host * option WinSession;
  adapter_luid : Adapter -> host -> host * Luid;
  allocate_packet : WinSession -> Z -> host -> host * (IoError + unit);
  send_packet : WinSession -> bytes -> host -> host;
}.

Section Win.
Context `{WinHost}.
Abbreviation tio := (io host IfError).

(** *** tap.rs *)
Definition FILE_DEVICE_UNKNOWN : Z := 0x22.
Definition tap_ioctl (n : Z) : Z := ctl_code FILE_DEVICE_UNKNOWN n 0 0.
Definition TAP_WIN_IOCTL_GET_MAC : Z := tap_ioctl 1.
Definition TAP_WIN_IOCTL_GET_MTU : Z := tap_ioctl 3.
Definition TAP_WIN_IOCTL_SET_MEDIA_STATUS : Z := tap_ioctl 6.
(** The codes nothing sends. *)
Definition TAP_WIN_IOCTL_GET_VERSION : Z := tap_ioctl 2.
Definition TAP_WIN_IOCTL_GET_INFO : Z := tap_ioctl 4.
Definition TAP_WIN_IOCTL_CONFIG_POINT_TO_POINT : Z := tap_ioctl 5.
Definition TAP_WIN_IOCTL_CONFIG_DHCP_MASQ : Z := tap_ioctl 7.
Definition TAP_WIN_IOCTL_GET_LOG_LINE : Z := tap_ioctl 8.
Definition TAP_WIN_IOCTL_CONFIG_DHCP_SET_OPT : Z := tap_ioctl 9.
Definition TAP_WIN_IOCTL_CONFIG_TUN : Z := tap_ioctl 10.

(** GENERIC_READ | GENERIC_WRITE and the other arguments of [create_file]. *)
Definition GENERIC_READ_WRITE : Z := Z.lor 0x80000000 0x40000000.
Definition FILE_SHARE_READ_WRITE : Z := Z.lor 1 2.
Definition OPEN_EXISTING : Z := 3.
Definition FILE_SYSTEM_OVERLAPPED : Z := Z.lor 0x4 0x40000000.

Record TapDevice := mkTapDevice { tap_handle : Handle; tap_index : Z; tap_luid : Luid; tap_mac : bytes; tap_name : list Z }.

(** [Clone]: both devices have the one handle. *)
Definition tap_clone (t : TapDevice) : TapDevice := mkTapDevice (tap_handle t) (tap_index t) (tap_luid t) (tap_mac t) (tap_name t).

Definition tap_enabled (t : TapDevice) (value : bool) : tio unit :=
  _ ← call (device_io_control (tap_handle t) TAP_WIN_IOCTL_SET_MEDIA_STATUS (le_bytes 4 (if value then 1 else 0)) []);
  mret tt.

(** [\\.\Global\{guid}.tap]. *)
Definition tap_path (guid : list Z) : list Z :=
  [0x5c; 0x5c; 0x2e; 0x5c; 0x47; 0x6c; 0x6f; 0x62; 0x61; 0x6c; 0x5c] ++ guid ++ [0x2e; 0x74; 0x61; 0x70].
(** That the metric cannot be set is only logged. *)
Definition TapDevice_new (name : list Z) : tio TapDevice :=
  luid ← call (alias_to_luid (encode_utf16 name));
  guid ← call (luid_to_guid luid);
  guid ← call (string_from_guid guid);
  handle ← call (create_file (encode_utf16 (tap_path (decode_utf16 guid))) GENERIC_READ_WRITE FILE_SHARE_READ_WRITE
    OPEN_EXISTING FILE_SYSTEM_OVERLAPPED);
  mac ← call (device_io_control handle TAP_WIN_IOCTL_GET_MAC [] (replicate 6 x00));
  index ← call (luid_to_index luid);
  _ ← try (set_interface_metric index 0);
  name ← call (luid_to_alias luid);
  let device := mkTapDevice handle index luid mac (decode_utf16 name) in
  _ ← tap_enabled device true;
  mret device.

(** Reading and writing are [todo!()], the address cannot be read. *)
#[global] Instance tap_tun : Tun TapDevice := {|
  enabled := tap_enabled;
  if_name t := tap_name t ≫= utf8;
  mtu t := m ← call (device_io_control (tap_handle t) TAP_WIN_IOCTL_GET_MTU [] (replicate 2 x00)); mret (le_val m);
  set_mtu t m := set_interface_mtu (tap_index t) m;
  address _ := pure_res (Err (IfOther "Unsupported"));
  set_address t a := _ ← set_interface_ip (tap_index t) a (replicate 4 x00); mret t;
  netmask _ := pure_res (Err (IfOther "Unsupported"));
  set_netmask _ _ := pure_res (Err (IfOther "Unsupported"));
  set_ip t a m := _ ← set_interface_ip (tap_index t) a m; mret t;
  if_recv _ _ := Some Panic;
  if_send _ _ := pure_res Panic;
|}.

(** *** tun/mod.rs *)
Definition MAX_RING_CAPACITY : Z := 0x4000000.
Definition MAX_POOL : nat := 256.

Definition delete_if_exists (name_utf16 : list Z) : tio unit := fun w =>
  match open_adapter name_utf16 w with
  | (w, Some adapter) => (delete_driver (close_adapter adapter w), Ok tt)
  | (w, None) => (w, Ok tt)
  end.
(** Calls whose result is not looked at, and calls that cannot fail. *)
Definition effect (f : host -> host) : tio unit := fun w => (f w, Ok tt).
Definition always {A} (c : host -> host * A) : tio A := fun w => let '(w, a) := c w in (w, Ok a).
(** A pointer that is null is an error. *)
Definition non_null {A} (msg : string) (c : host -> host * option A) : tio A := fun w =>
  match c w with
  | (w, Some a) => (w, Ok a)
  | (w, None) => (w, Err (IfOther msg))
  end.
Definition delete_for_name (name_utf16 : list Z) : tio unit :=
  adapter ← non_null "Failed to open adapter" (open_adapter name_utf16);
  effect (fun w => delete_driver (close_adapter adapter w)).

(** [guid] are the random bytes of the adapter's identifier. *)
Definition WinTun_new (guid : bytes) (name : list Z) : tio (WinSession * WinTun) :=
  _ ← call load_wintun;
  let name_utf16 := encode_utf16 name in
  if (MAX_POOL <? length name_utf16)%nat then pure_res (Err (IfOther "too long"))
  else
    _ ← delete_if_exists name_utf16;
    adapter ← non_null "Failed to crate adapter" (create_adapter name_utf16 guid);
    session ← non_null "WintunStartSession failed" (start_session adapter MAX_RING_CAPACITY);
    luid ← always (adapter_luid adapter);
    index ← call (luid_to_index luid);
    _ ← try (set_interface_metric index 0);
    name ← call (luid_to_alias luid);
    mret (session, mkWinTun index (decode_utf16 name ≫= utf8) None).

(** *** device.rs *)
Inductive NativeTun := NativeTap (t : TapDevice) | NativeWintun (s : WinSession) (t : WinTun).

Definition DEFAULT_NAME : list Z := [0x76; 0x6c; 0x69; 0x6e; 0x6b; 0x2d; 0x74; 0x75; 0x6e].
Definition NativeTun_new (guid : bytes) (name : option (list Z)) (tap : bool) : tio NativeTun :=
  let name := default DEFAULT_NAME name in
  if tap then t ← TapDevice_new name; mret (NativeTap t)
  else st ← WinTun_new guid name; mret (NativeWintun st.1 st.2).

(** The wintun interface of a session. *)
Definition wintun (s : WinSession) : Tun WinTun := win_tun (allocate_packet s) (send_packet s).
Definition on_native {A} (t : NativeTun) (f : forall T, Tun T -> T -> A) : A :=
  match t with
  | NativeTap t => f TapDevice tap_tun t
  | NativeWintun s t => f WinTun (wintun s) t
  end.
(** A setter puts the interface back where it was. *)
Definition set_native (t : NativeTun) (f : forall T, Tun T -> T -> tio T) : tio NativeTun :=
  match t with
  | NativeTap t => t ← f TapDevice tap_tun t; mret (NativeTap t)
  | NativeWintun s t => t ← f WinTun (wintun s) t; mret (NativeWintun s t)
  end.
#[global] Instance native_tun : Tun NativeTun := {|
  enabled t v := on_native t (fun T I t => enabled t v);
  if_name t := on_native t (fun T I t => if_name t);
  mtu t := on_native t (fun T I t => mtu t);
  set_mtu t m := on_native t (fun T I t => set_mtu t m);
  address t := on_native t (fun T I t => address t);
  set_address t a := set_native t (fun T I t => set_address t a);
  netmask t := on_native t (fun T I t => netmask t);
  set_netmask t a := set_native t (fun T I t => set_netmask t a);
  set_ip t a m := set_native t (fun T I t => set_ip t a m);
  if_recv t r := on_native t (fun T I t => if_recv t r);
  if_send t b := on_native t (fun T I t => if_send t b);
|}.
End Win.

(** ** The contract on macOS *)

(** The kernel's side of the ioctls, as [LinuxKernel]. *)
Class MacKernel `{TunHost} := {
  mac_kernel_addr : bytes -> host -> option bytes;
  mac_sets_addr : forall fd ifr w w' r, ioctl (ioctl_write_ptr 12) fd ifr w = (w', inr r) ->
    le_val (take 1 (drop 1 (ifr_ifru ifr))) = AF_INET ->
    mac_kernel_addr (c_str (take IFNAMSIZ ifr)) w' = Some (take 4 (drop 4 (ifr_ifru ifr)));
  mac_sets_netmask : forall fd ifr w w' r n, ioctl (ioctl_write_ptr 22) fd ifr w = (w', inr r) ->
    mac_kernel_addr n w' = mac_kernel_addr n w;
  mac_gets_addr : forall fd ifr w w' r, ioctl (ioctl_readwrite 33) fd ifr w = (w', inr r) ->
    exists a, mac_kernel_addr (c_str (take IFNAMSIZ ifr)) w = Some a /\ length a = 4%nat /\
      take 4 (drop 4 (ifr_ifru r)) = a;
}.

Section MacContract.
Context `{MacHost} `{!MacKernel}.

Lemma mac_request n : name_ok n ->
  (IFNAMSIZ <= length (mac_ifreq_new n))%nat /\ c_str (take IFNAMSIZ (mac_ifreq_new n)) = n.
Proof. intros Hn. apply (zeroed_name 32 n Hn). unfold IFNAMSIZ. lia. Qed.

Lemma mac_sockaddr ip : length ip = 4%nat ->
  length (mac_SockAddr_from_ipv4 ip) = 16%nat /\
  le_val (take 1 (drop 1 (mac_SockAddr_from_ipv4 ip))) = AF_INET /\
  take 4 (drop 4 (mac_SockAddr_from_ipv4 ip)) = ip.
Proof. intros Hl. do 5 (destruct ip as [|? ip]; try done). Qed.

Lemma mac_put_addr_Ok num t v w w' t' : mac_put_addr num t v w = (w', Ok t') ->
  t' = t /\ exists r, ioctl num (mt_ctrl t)
    (set_ifru (mac_ifreq_new (mt_name t)) (mac_SockAddr_from_ipv4 v)) w = (w', inr r).
Proof.
  intros Hp. unfold mac_put_addr in Hp. io_inv Hp. injection Hp as -> <-.
  split; [done|]. eexists. by apply call_Ok_inv.
Qed.

Lemma mac_set_ip t a m w w' t' : name_ok (mt_name t) -> length a = 4%nat ->
  set_ip t a m w = (w', Ok t') -> t' = t /\ mac_kernel_addr (mt_name t) w' = Some a.
Proof.
  intros Hok Hl Hs. cbn in Hs. unfold default_set_ip in Hs. io_inv Hs.
  apply mac_put_addr_Ok in Hs0 as [-> [r Hr]]. apply mac_put_addr_Ok in Hs as [-> [r' Hr']]. split; [done|].
  destruct (mac_request _ Hok) as [Hlen Hname]. destruct (mac_sockaddr a Hl) as (Hsl & Hf & Ha).
  rewrite (mac_sets_netmask _ _ _ _ _ _ Hr'). apply mac_sets_addr in Hr.
  - rewrite set_ifru_name, Hname in Hr by done. rewrite Hr. f_equal.
    rewrite take_drop_commute, set_ifru_value by (done || lia). by rewrite <- take_drop_commute.
  - rewrite take_drop_commute, set_ifru_value by (done || lia). by rewrite <- take_drop_commute.
Qed.

Lemma mac_get_address t w w' a : name_ok (mt_name t) -> address t w = (w', Ok a) ->
  mac_kernel_addr (mt_name t) w = Some a.
Proof.
  intros Hok Ha. cbn in Ha. unfold mac_address, mac_get_addr in Ha. io_inv Ha. apply call_Ok_inv in Ha0.
  injection Ha as -> Ha. apply mac_gets_addr in Ha0 as (a' & Hk & Hl & Ht).
  rewrite (proj2 (mac_request _ Hok)) in Hk. rewrite Hk. f_equal. rewrite <- Ht.
  unfold mac_SockAddr_new in Ha. destruct (negb _); [done|]. injection Ha as <-.
  unfold ipv4_from_SockAddr. rewrite !take_drop_commute. f_equal. by rewrite firstn_firstn.
Qed.

#[global] Instance mac_laws : TunLaws MacTun.
Proof.
  refine {| if_ok t := name_ok (mt_name t); addr_of t w := mac_kernel_addr (mt_name t) w |}.
  - intros t a m w w' t' Hok Hl Hs. by destruct (mac_set_ip t a m w w' t' Hok Hl Hs) as [-> ?].
  - intros t w w' a. apply mac_get_address.
Defined.
End MacContract.

(** The numbers the macros make are the constants beside them. *)
Lemma mac_mtu_numbers : ioctl_readwrite 51 = SIOCGIFMTU /\ ioctl_write_ptr 52 = SIOCSIFMTU.
Proof. done. Qed.

(** ** The contract on Windows *)
Section WinContract.
Context `{WinHost}.

(** The control codes are different, and are the numbers of the TAP driver's header. *)
Lemma tap_codes : tap_ioctl <$> [1; 2; 3; 4; 5; 6; 7; 8; 9; 10] =
  [0x220004; 0x220008; 0x22000c; 0x220010; 0x220014; 0x220018; 0x22001c; 0x220020; 0x220024; 0x220028].
Proof. by vm_compute. Qed.

(** Through the enum the wintun adapter keeps it. *)
#[global] Instance native_laws : TunLaws NativeTun.
Proof.
  refine {| if_ok t := match t with NativeWintun _ _ => True | NativeTap _ => False end;
            addr_of t w := match t with
              | NativeWintun s t => addr_of (I := wintun s) t w
              | NativeTap _ => None end |}.
  - intros [t|s t] a m w w' t' Hok Hl Hs; [done|]. cbn [set_ip native_tun set_native] in Hs.
    io_inv Hs. injection Hs as -> <-. split; [done|].
    by apply (set_ip_addr (I := wintun s)) in Hs0 as [_ ?].
  - intros [t|s t] w w' a Hok Ha; [done|]. by apply (address_addr (I := wintun s)) in Ha.
Defined.

(** The TAP adapter does not: it can be made and given an address, but reading the address
    fails and reading or sending a packet panics. *)
Lemma tap_unusable t w reads buf :
  address (NativeTap t) w = (w, Err (IfOther "Unsupported")) /\
  if_recv (NativeTap t) reads = Some Panic /\ if_send (NativeTap t) buf w = (w, Panic).
Proof. done. Qed.
End WinContract.

(** ** Text survives UTF-16 *)

Definition is_char (c : Z) : Prop := 0 < c < 0xd800 \/ 0xe000 <= c < 0x110000.

Lemma decode_c_stops l rest : Forall (fun u => u <> 0) l -> decode_c (l ++ 0 :: rest) = l.
Proof.
  induction 1 as [|u l Hu _ IH]; [done|]. cbn. destruct (Z.eqb_spec u 0); [done|]. by rewrite IH.
Qed.
Lemma utf16_units_nonzero c : is_char c -> Forall (fun u => u <> 0) (utf16_units c).
Proof. unfold is_char, utf16_units. intros Hc. zcases; repeat constructor; dlia. Qed.
Lemma from_utf16_char c rest : is_char c ->
  from_utf16_lossy (utf16_units c ++ rest) = c :: from_utf16_lossy rest.
Proof.
  unfold is_char, utf16_units. intros Hc. destruct (Z.ltb_spec c 0x10000); cbn [app from_utf16_lossy].
  - unfold is_high, is_low. zcases; cbn; (done || lia).
  - assert (is_high (0xd800 + (c - 0x10000) / 0x400) = true) as ->
      by (unfold is_high; zcases; cbn; (done || dlia)).
    assert (is_low (0xdc00 + (c - 0x10000) mod 0x400) = true) as ->
      by (unfold is_low; zcases; cbn; (done || dlia)).
    f_equal. dlia.
Qed.

(** A string without zero characters is read back from the buffer it was written to, whatever
    follows its terminator there. *)
Lemma utf16_roundtrip s rest : Forall is_char s -> decode_utf16 (encode_utf16 s ++ rest) = s.
Proof.
  intros Hs. unfold decode_utf16, encode_utf16, encode_c. rewrite <- app_assoc. cbn [app].
  rewrite decode_c_stops.
  - induction Hs as [|c s Hc _ IH]; [done|]. rewrite bind_cons, from_utf16_char by done. by rewrite IH.
  - induction Hs as [|c s Hc _ IH]; [constructor|]. rewrite bind_cons. apply Forall_app.
    split; [by apply utf16_units_nonzero|done].
Qed.

(** ** A host that satisfies the laws

    The kernel keeps the address of each interface; both systems' requests act on it. *)
Module ToyKernel.
#[local] Instance udp : UdpHost := {|
  host := gmap bytes bytes; IoError := unit; RawSocket := unit; UdpSocket := SocketAddr;
  socket_new _ w := (w, inr tt);
  set_only_v6 _ _ w := (w, inr tt);
  set_nonblocking _ _ w := (w, inr tt);
  set_reuse_address _ _ w := (w, inr tt);
  sock_bind _ a w := (w, inr tt);
  from_std _ w := (w, inr (AddrV4 [] 0));
  Udp.local_addr u w := (w, inr u);
  send_to _ data _ w := (w, inr (length data));
  recv_into buf d := let n := Nat.min (length buf) (length d) in (take n d ++ drop n buf, n);
|}.
Definition toy_ioctl (num : Z) (ifr : bytes) (w : gmap bytes bytes) : gmap bytes bytes * (unit + bytes) :=
  let name := c_str (take IFNAMSIZ ifr) in
  let addr := take 4 (drop 4 (ifr_ifru ifr)) in
  if bool_decide (num ∈ [0x8916; 0x8020690c]) then
    if (length addr =? 4)%nat then (<[name := addr]> w, inr ifr) else (w, inl tt)
  else if bool_decide (num ∈ [0x8915; 0xc0206921]) then
    match w !! name with
    | Some a => if (length a =? 4)%nat then (w, inr (replicate 20 x00 ++ a)) else (w, inl tt)
    | None => (w, inl tt)
    end
  else (w, inr ifr).
#[local] Instance tun : TunHost := {|
  Fd := unit;
  open_file _ w := (w, inr tt);
  ctrl_socket w := (w, inr tt);
  get_fl _ w := (w, inr 0);
  set_fl _ _ w := (w, inr tt);
  async_fd fd w := (w, inr fd);
  ioctl num _ := toy_ioctl num;
  fd_write _ b w := (w, inr (Some (length b)));
  shell _ w := (w, inr true);
|}.

Lemma toy_sets num ifr w w' r : num ∈ [0x8916; 0x8020690c] -> toy_ioctl num ifr w = (w', inr r) ->
  w' !! c_str (take IFNAMSIZ ifr) = Some (take 4 (drop 4 (ifr_ifru ifr))).
Proof.
  intros Hn. unfold toy_ioctl. rewrite bool_decide_true by done. destruct (_ =? _)%nat; [|done].
  intros [= <- _]. apply lookup_insert_eq.
Qed.
Lemma toy_gets num ifr w w' r : num ∈ [0x8915; 0xc0206921] -> toy_ioctl num ifr w = (w', inr r) ->
  exists a, w !! c_str (take IFNAMSIZ ifr) = Some a /\ length a = 4%nat /\ take 4 (drop 4 (ifr_ifru r)) = a.
Proof.
  intros Hn. unfold toy_ioctl. rewrite bool_decide_false by set_solver. rewrite bool_decide_true by done.
  destruct (w !! _) as [a|]; [|done]. destruct (Nat.eqb_spec (length a) 4) as [Hl|]; [|done].
  intros [= _ <-]. exists a. split_and!; [done..|]. by do 5 (destruct a as [|? a]; try done).
Qed.
#[local] Instance linux_kernel : LinuxKernel.
Proof.
  refine {| kernel_addr n w := w !! n |}.
  - intros fd ifr w w' r Hi _. apply (toy_sets 0x8916) in Hi; [exact Hi|set_solver].
  - intros fd ifr w w' r n Hi. by injection Hi as <- _.
  - intros fd ifr w w' r Hi. apply (toy_gets 0x8915) in Hi; [exact Hi|set_solver].
Defined.
#[local] Instance mac_kernel : MacKernel.
Proof.
  refine {| mac_kernel_addr n w := w !! n |}.
  - intros fd ifr w w' r Hi _. apply (toy_sets 0x8020690c) in Hi; [exact Hi|set_solver].
  - intros fd ifr w w' r n Hi. by injection Hi as <- _.
  - intros fd ifr w w' r Hi. apply (toy_gets 0xc0206921) in Hi; [exact Hi|set_solver].
Defined.
End ToyKernel.
End TunOs.
