(* ===== verification/Ffi.v ===== *)
(** * The Windows API wrappers (vlink-tun/src/tun/windows/ffi.rs)

    Every function of ffi.rs over the system calls it makes, which are the class [WinApi]:
    how a result is told from an error, and where the error comes from. They are what
    [TunOs.WinHost] asks for: [ffi_host] builds that class from them.

    A HANDLE, an HDEVINFO or an HKEY is its value as a pointer, a BOOL and a DWORD are [Z];
    structures are their bytes. *)

From S2P Require Import Prelude Bytes Host Udp TunIf TunOs.
#[local] Open Scope Z_scope.

Module Ffi.
Import TunIf TunOs.

Definition INVALID_HANDLE_VALUE : Z := 2 ^ 64 - 1.
Definition ERROR_IO_PENDING : Z := 997.
Definition ERROR_NO_MORE_ITEMS : Z := 259.
(** [as i32] on a DWORD. *)
Definition as_i32 (z : Z) : Z := let u := wrap 32 z in if u <? 2 ^ 31 then u else u - 2 ^ 32.

(** The calls return a BOOL, a status or a handle, with what they write to their output
    parameters; the number of the last error is part of the host. Of std: errors from a
    number, from a kind and a text. *)
Class WinApi `{TunHost} := {
  from_raw_os_error : Z -> IoError;
  io_error : string -> string -> IoError;
  raw_os_error : IoError -> option Z;
  GetLastError : host -> Z;
  Luid : Type; zero_luid : Luid;
  Guid : Type; zero_guid : Guid;
  Overlapped : Type; overlapped_new : Overlapped;
  sizeof_devinfo : nat; sizeof_drvinfo : nat; sizeof_drvdetail : nat; sizeof_drvdetail2 : nat;
  StringFromGUID2 : Guid -> list Z -> host -> host * (Z * list Z);
  ConvertInterfaceAliasToLuid : list Z -> host -> host * (Z * Luid);
  ConvertInterfaceLuidToIndex : Luid -> host -> host * (Z * Z);
  ConvertInterfaceLuidToGuid : Luid -> host -> host * (Z * Guid);
  ConvertInterfaceLuidToAlias : Luid -> list Z -> host -> host * (Z * list Z);
  CloseHandle : Z -> host -> host * Z;
  CreateFileW : list Z -> Z -> Z -> Z -> Z -> host -> host * Z;
  ReadFile : Z -> bytes -> Z -> Overlapped -> host -> host * (Z * (bytes * Z * Overlapped));
  WriteFile : Z -> bytes -> Z -> Overlapped -> host -> host * (Z * (Z * Overlapped));
  GetOverlappedResult : Z -> Overlapped -> Z -> host -> host * (Z * (bytes * Z));
  SetupDiCreateDeviceInfoList : Guid -> host -> host * Z;
  SetupDiGetClassDevsW : Guid -> Z -> host -> host * Z;
  SetupDiDestroyDeviceInfoList : Z -> host -> host * Z;
  SetupDiClassNameFromGuidW : Guid -> list Z -> host -> host * (Z * list Z);
  SetupDiCreateDeviceInfoW : Z -> list Z -> Guid -> list Z -> Z -> bytes -> host -> host * (Z * bytes);
  SetupDiSetSelectedDevice : Z -> bytes -> host -> host * Z;
  SetupDiSetDeviceRegistryPropertyW : Z -> bytes -> Z -> list Z -> Z -> host -> host * Z;
  SetupDiGetDeviceRegistryPropertyW : Z -> bytes -> Z -> list Z -> Z -> host -> host * (Z * list Z);
  SetupDiBuildDriverInfoList : Z -> bytes -> Z -> host -> host * Z;
  SetupDiDestroyDriverInfoList : Z -> bytes -> Z -> host -> host * Z;
  SetupDiGetDriverInfoDetailW : Z -> bytes -> bytes -> bytes -> Z -> host -> host * (Z * bytes);
  SetupDiSetSelectedDriverW : Z -> bytes -> bytes -> host -> host * Z;
  SetupDiSetClassInstallParamsW : Z -> bytes -> bytes -> Z -> host -> host * Z;
  SetupDiCallClassInstaller : Z -> Z -> bytes -> host -> host * Z;
  SetupDiOpenDevRegKey : Z -> bytes -> Z -> Z -> Z -> Z -> host -> host * Z;
  CreateEventW : Z -> Z -> host -> host * Z;
  RegNotifyChangeKeyValue : Z -> Z -> Z -> Z -> Z -> host -> host * Z;
  WaitForSingleObject : Z -> Z -> host -> host * Z;
  SetupDiEnumDriverInfoW : Z -> bytes -> Z -> Z -> bytes -> host -> host * (Z * bytes);
  SetupDiEnumDeviceInfo : Z -> Z -> bytes -> host -> host * (Z * bytes);
  DeviceIoControl : Z -> Z -> bytes -> Z -> bytes -> Z -> host -> host * (Z * bytes);
}.

Section Wrappers.
Context `{WinApi}.
Definition wcall (A : Type) : Type := host -> host * (IoError + A).

Definition last_os_error (w : host) : IoError := from_raw_os_error (as_i32 (GetLastError w)).

(** [match unsafe { .. } { 0 => Err(last_os_error()), _ => Ok(out) }]. *)
Definition nonzero {A} (c : host -> host * (Z * A)) : wcall A := fun w =>
  let '(w, (r, a)) := c w in (w, if r =? 0 then inl (last_os_error w) else inr a).
Definition nonzero_unit (c : host -> host * Z) : wcall unit := fun w =>
  let '(w, r) := c w in (w, if r =? 0 then inl (last_os_error w) else inr tt).
(** [0 => Ok(out), err => Err(from_raw_os_error(err as _))]. *)
Definition status {A} (c : host -> host * (Z * A)) : wcall A := fun w =>
  let '(w, (r, a)) := c w in (w, if r =? 0 then inr a else inl (from_raw_os_error (as_i32 r))).
(** [INVALID_HANDLE_VALUE => Err(last_os_error()), handle => Ok(handle)]. *)
Definition valid_handle (c : host -> host * Z) : wcall Z := fun w =>
  let '(w, h) := c w in (w, if h =? INVALID_HANDLE_VALUE then inl (last_os_error w) else inr h).

Definition zeros (n : nat) : list Z := replicate n 0.
(** A zeroed structure of [n] bytes with its size, [cb], in front. *)
Definition sized (n cb : nat) : bytes := le_bytes 4 (Z.of_nat cb) ++ replicate (n - 4) x00.

Definition string_from_guid (guid : Guid) : wcall (list Z) := fun w =>
  let '(w, (r, s)) := StringFromGUID2 guid (zeros 39) w in
  (w, if r =? 0 then inl (io_error "Other" "Insufficent buffer") else inr s).
Definition alias_to_luid (alias : list Z) : wcall Luid := status (ConvertInterfaceAliasToLuid alias).
Definition luid_to_index (luid : Luid) : wcall Z := status (ConvertInterfaceLuidToIndex luid).
Definition luid_to_guid (luid : Luid) : wcall Guid := status (ConvertInterfaceLuidToGuid luid).
Definition luid_to_alias (luid : Luid) : wcall (list Z) := status (ConvertInterfaceLuidToAlias luid (zeros 257)).
Definition close_handle (handle : Z) : wcall unit := nonzero_unit (CloseHandle handle).
Definition create_file (file_name : list Z) (desired_access share_mode creation_disposition flags_and_attributes : Z) : wcall Z :=
  valid_handle (CreateFileW file_name desired_access share_mode creation_disposition flags_and_attributes).

(** A transfer that is pending is waited for; [fin] is what it leaves when it is done. When
    the wait fails, the error that is returned is the one from before it. *)
Definition pending {A} (handle : Z) (o : Overlapped) (fin : bytes -> Z -> A) : wcall A := fun w =>
  let e := last_os_error w in
  if default 0 (raw_os_error e) =? ERROR_IO_PENDING then
    let '(w, (r, (buffer, ret))) := GetOverlappedResult handle o 1 w in
    (w, if r =? 0 then inl e else inr (fin buffer ret))
  else (w, inl e).
Definition read_file (handle : Z) (buffer : bytes) : wcall (bytes * Z) := fun w =>
  let '(w, (r, (buffer, ret, o))) := ReadFile handle buffer (wrap 32 (Z.of_nat (length buffer))) overlapped_new w in
  if r =? 0 then pending handle o pair w else (w, inr (buffer, ret)).
Definition write_file (handle : Z) (buffer : bytes) : wcall Z := fun w =>
  let '(w, (r, (ret, o))) := WriteFile handle buffer (wrap 32 (Z.of_nat (length buffer))) overlapped_new w in
  if r =? 0 then pending handle o (fun _ ret => ret) w else (w, inr ret).

Definition create_device_info_list (guid : Guid) : wcall Z := valid_handle (SetupDiCreateDeviceInfoList guid).
Definition get_class_devs (guid : Guid) (flags : Z) : wcall Z := valid_handle (SetupDiGetClassDevsW guid flags).
Definition destroy_device_info_list (devinfo : Z) : wcall unit := nonzero_unit (SetupDiDestroyDeviceInfoList devinfo).
Definition class_name_from_guid (guid : Guid) : wcall (list Z) := nonzero (SetupDiClassNameFromGuidW guid (zeros 32)).
Definition create_device_info (devinfo : Z) (device_name : list Z) (guid : Guid) (device_description : list Z)
    (creation_flags : Z) : wcall bytes :=
  nonzero (SetupDiCreateDeviceInfoW devinfo device_name guid device_description creation_flags
    (sized sizeof_devinfo sizeof_devinfo)).
Definition set_selected_device (devinfo : Z) (data : bytes) : wcall unit := nonzero_unit (SetupDiSetSelectedDevice devinfo data).
Definition set_device_registry_property (devinfo : Z) (data : bytes) (property : Z) (value : list Z) : wcall unit :=
  nonzero_unit (SetupDiSetDeviceRegistryPropertyW devinfo data property value (wrap 32 (Z.of_nat (length value) * 2))).
Definition get_device_registry_property (devinfo : Z) (data : bytes) (property : Z) : wcall (list Z) :=
  nonzero (SetupDiGetDeviceRegistryPropertyW devinfo data property (zeros 32) 64).
Definition build_driver_info_list (devinfo : Z) (data : bytes) (driver_type : Z) : wcall unit :=
  nonzero_unit (SetupDiBuildDriverInfoList devinfo data driver_type).
Definition destroy_driver_info_list (devinfo : Z) (data : bytes) (driver_type : Z) : wcall unit :=
  nonzero_unit (SetupDiDestroyDriverInfoList devinfo data driver_type).
(** The structure is [SP_DRVINFO_DETAIL_DATA_W2], the size in it that of the system's. *)
Definition get_driver_info_detail (devinfo : Z) (data drvinfo : bytes) : wcall bytes :=
  nonzero (SetupDiGetDriverInfoDetailW devinfo data drvinfo (sized sizeof_drvdetail2 sizeof_drvdetail)
    (Z.of_nat sizeof_drvdetail2)).
Definition set_selected_driver (devinfo : Z) (data drvinfo : bytes) : wcall unit :=
  nonzero_unit (SetupDiSetSelectedDriverW devinfo data drvinfo).
Definition set_class_install_params (devinfo : Z) (data params : bytes) : wcall unit :=
  nonzero_unit (SetupDiSetClassInstallParamsW devinfo data params (Z.of_nat (length params))).
Definition call_class_installer (devinfo : Z) (data : bytes) (install_function : Z) : wcall unit :=
  nonzero_unit (SetupDiCallClassInstaller install_function devinfo data).
Definition open_dev_reg_key (devinfo : Z) (data : bytes) (scope hw_profile key_type sam_desired : Z) : wcall Z :=
  valid_handle (SetupDiOpenDevRegKey devinfo data scope hw_profile key_type sam_desired).

(** The event is made for this call, and not closed. *)
Definition notify_change_key_value (key watch_subtree notify_filter milliseconds : Z) : wcall unit := fun w =>
  match valid_handle (CreateEventW 0 0) w with
  | (w, inl e) => (w, inl e)
  | (w, inr event) =>
      let '(w, err) := RegNotifyChangeKeyValue key watch_subtree notify_filter event 1 w in
      if err =? 0 then
        let '(w, r) := WaitForSingleObject event milliseconds w in
        (w, if r =? 0 then inr tt
            else if r =? 0x102 then inl (io_error "TimedOut" "Registry timed out")
            else inl (last_os_error w))
      else (w, inl (from_raw_os_error (as_i32 err)))
  end.

(** [None] when there are no more items. *)
Definition enumerated (c : host -> host * (Z * bytes)) (w : host) : host * option (IoError + bytes) :=
  let '(w, (r, data)) := c w in
  (w, if r =? 0 then if GetLastError w =? ERROR_NO_MORE_ITEMS then None else Some (inl (last_os_error w))
      else Some (inr data)).
Definition enum_driver_info (devinfo : Z) (data : bytes) (driver_type member_index : Z) : host -> host * option (IoError + bytes) :=
  enumerated (SetupDiEnumDriverInfoW devinfo data driver_type member_index (sized sizeof_drvinfo sizeof_drvinfo)).
Definition enum_device_info (devinfo member_index : Z) : host -> host * option (IoError + bytes) :=
  enumerated (SetupDiEnumDeviceInfo devinfo member_index (sized sizeof_devinfo sizeof_devinfo)).
(** [out_buffer] is the buffer as it is passed; what is in it afterwards is returned. *)
Definition device_io_control (handle io_control_code : Z) (in_buffer out_buffer : bytes) : wcall bytes :=
  nonzero (DeviceIoControl handle io_control_code in_buffer (Z.of_nat (length in_buffer)) out_buffer
    (Z.of_nat (length out_buffer))).

(** ** What tap.rs and tun/mod.rs are given *)
Definition ffi_host (Adapter WinSession : Type) (load_wintun : wcall unit)
    (open_adapter : list Z -> host -> host * option Adapter) (close_adapter : Adapter -> host -> host)
    (delete_driver : host -> host) (create_adapter : list Z -> bytes -> host -> host * option Adapter)
    (start_session : Adapter -> Z -> host -> host * option WinSession) (adapter_luid : Adapter -> host -> host * Luid)
    (allocate_packet : WinSession -> Z -> wcall unit) (send_packet : WinSession -> bytes -> host -> host) : WinHost := {|
  TunOs.Luid := Luid; TunOs.Guid := Guid; TunOs.Handle := Z; TunOs.Adapter := Adapter; TunOs.WinSession := WinSession;
  TunOs.alias_to_luid := alias_to_luid;
  TunOs.luid_to_guid := luid_to_guid;
  TunOs.string_from_guid := string_from_guid;
  TunOs.luid_to_index := luid_to_index;
  TunOs.luid_to_alias := luid_to_alias;
  TunOs.create_file := create_file;
  TunOs.device_io_control := device_io_control;
  TunOs.load_wintun := load_wintun;
  TunOs.open_adapter := open_adapter;
  TunOs.close_adapter := close_adapter;
  TunOs.delete_driver := delete_driver;
  TunOs.create_adapter := create_adapter;
  TunOs.start_session := start_session;
  TunOs.adapter_luid := adapter_luid;
  TunOs.allocate_packet := allocate_packet;
  TunOs.send_packet := send_packet;
|}.

(** tap.rs: [write_tap], and what is left when a device is dropped; a handle that cannot be
    closed is only logged. *)
Definition write_tap (handle : Z) (buf : bytes) : wcall Z := write_file handle buf.
Definition TapDevice_drop (handle : Z) (w : host) : host := (close_handle handle w).1.

(** tun/mod.rs: what is left when a wintun device is dropped. The driver is asked to be deleted
    with every device. *)
Definition WinTun_drop {WinSession Adapter : Type} (end_session : WinSession -> host -> host)
    (close_adapter : Adapter -> host -> host) (delete_driver : host -> host * Z)
    (shutdown_event : Z) (session : WinSession) (adapter : Adapter) (w : host) : host :=
  let '(w, _) := close_handle shutdown_event w in
  let w := end_session session w in
  let w := close_adapter adapter w in
  (delete_driver w).1.

(** ** How transfers and notifications end *)

(** A transfer returns what the system reports, waits when it is pending, and fails with the
    last error; but when the wait fails, it fails with the error from before it, which is
    ERROR_IO_PENDING, and not with the reason. *)
Lemma read_file_spec handle buffer w w1 r b n o :
  (forall z, raw_os_error (from_raw_os_error z) = Some z) ->
  ReadFile handle buffer (wrap 32 (Z.of_nat (length buffer))) overlapped_new w = (w1, (r, (b, n, o))) ->
  read_file handle buffer w =
  if negb (r =? 0) then (w1, inr (b, n))
  else if as_i32 (GetLastError w1) =? ERROR_IO_PENDING then
    let '(w2, (r2, (b2, n2))) := GetOverlappedResult handle o 1 w1 in
    (w2, if r2 =? 0 then inl (from_raw_os_error ERROR_IO_PENDING) else inr (b2, n2))
  else (w1, inl (last_os_error w1)).
Proof.
  intros Hraw Hr. unfold read_file. rewrite Hr. destruct (Z.eqb_spec r 0) as [->|]; cbn [negb]; [|done].
  unfold pending, last_os_error. rewrite Hraw. cbn [default from_option]. unfold id.
  destruct (Z.eqb_spec (as_i32 (GetLastError w1)) ERROR_IO_PENDING) as [->|]; [|done].
  by destruct (GetOverlappedResult handle o 1 w1) as [w2 [r2 [b2 n2]]].
Qed.

(** Waiting for a registry key leaves a handle open every time, whatever comes of it; and an
    event that could not be made is a null handle, which is waited on as if it were one. *)
Lemma notify_leaks_event (handles : host -> nat) key sub filter ms w :
  (forall m i w, handles (CreateEventW m i w).1 = if (CreateEventW m i w).2 =? 0 then handles w else S (handles w)) ->
  (forall k s f e a w, handles (RegNotifyChangeKeyValue k s f e a w).1 = handles w) ->
  (forall e m w, handles (WaitForSingleObject e m w).1 = handles w) ->
  (CreateEventW 0 0 w).2 <> INVALID_HANDLE_VALUE ->
  handles (notify_change_key_value key sub filter ms w).1 =
    (if (CreateEventW 0 0 w).2 =? 0 then handles w else S (handles w)) /\
  ((CreateEventW 0 0 w).2 = 0 -> (RegNotifyChangeKeyValue key sub filter 0 1 (CreateEventW 0 0 w).1).2 = 0 ->
   notify_change_key_value key sub filter ms w =
     let '(w1, r) := WaitForSingleObject 0 ms (RegNotifyChangeKeyValue key sub filter 0 1 (CreateEventW 0 0 w).1).1 in
     (w1, if r =? 0 then inr tt else if r =? 0x102 then inl (io_error "TimedOut" "Registry timed out") else inl (last_os_error w1))).
Proof.
  intros Hc Hr Hwait Hv. unfold notify_change_key_value, valid_handle. specialize (Hc 0 0 w).
  destruct (CreateEventW 0 0 w) as [w1 event]. cbn [fst snd] in *. destruct (Z.eqb_spec event INVALID_HANDLE_VALUE) as [|_]; [done|].
  rewrite <- Hc. split.
  - specialize (Hr key sub filter event 1 w1). destruct (RegNotifyChangeKeyValue _ _ _ _ _ _) as [w2 err]. cbn [fst] in Hr.
    destruct (err =? 0); [|done]. specialize (Hwait event ms w2). destruct (WaitForSingleObject _ _ _) as [w3 r]. cbn in *. congruence.
  - intros -> He. destruct (RegNotifyChangeKeyValue _ _ _ _ _ _) as [w2 err]. cbn [fst snd] in *. by rewrite He.
Qed.
End Wrappers.
End Ffi.
