(* ===== verification/Nat.v ===== *)
(** * NAT traversal (vlinkd/src/transport: nat2pub, proto/nat_udp.rs, proto/nat_tcp.rs,
    forward, sender)

    A node behind a NAT asks a STUN server for its public address, has the gateway map the
    port with UPnP, listens there with a forwarder that feeds the device, and publishes the
    address. A peer connects to it with a NAT client. The host's sockets extend [UdpHost];
    the gateway and the STUN message parser are crates and arguments too. *)

From stdpp Require Import pretty.
From S2P Require Import Prelude Bytes Host NonceFilter Protocol Crypto Clock Noise Session PeerHandshake Monitor Peer Device Udp Abi.

Module Nat.

Inductive PortMappingProtocol := TCP | UDP.
#[global] Instance PortMappingProtocol_eq_dec : EqDecision PortMappingProtocol.
Proof. solve_decision. Defined.

(** [SocketAddrV4]. *)
Record SocketAddrV4 := mkV4 { v4_ip : bytes; v4_port : Z }.
Definition v4_to_string (a : SocketAddrV4) : string :=
  ipv4_to_string (be_val (v4_ip a)) +:+ ":" +:+ pretty (Z.to_N (v4_port a)).

(** igd's [AddPortError]. *)
Inductive AddPortError (E : Type) := PortInUse | AddPortOther (e : E).
Arguments PortInUse {E}.
Arguments AddPortOther {E} e.

(** What the crates of this component do: igd, tokio's TCP sockets, stun_format. *)
Class NatHost `{UdpHost} := {
  Gateway : Type;
  GwError : Type;
  TcpStream : Type;
  TcpSocket : Type;
  TcpListener : Type;
  search_gateway : option SocketAddr -> host -> host * (GwError + Gateway);
  gw_addr : Gateway -> SocketAddrV4;
  std_connect : SocketAddrV4 -> host -> host * (IoError + TcpStream);
  std_local_addr : TcpStream -> host -> host * (IoError + SocketAddr);
  gw_add_port : Gateway -> PortMappingProtocol -> Z -> SocketAddrV4 -> Z -> string ->
    host -> host * (AddPortError GwError + unit);
  gw_remove_port : Gateway -> PortMappingProtocol -> Z -> host -> host * (GwError + unit);
  tcp_new_v4 : host -> host * (IoError + TcpSocket);
  tcp_set_reuseport : TcpSocket -> bool -> host -> host * (IoError + unit);
  tcp_set_reuseaddr : TcpSocket -> bool -> host -> host * (IoError + unit);
  tcp_bind : TcpSocket -> SocketAddr -> host -> host * (IoError + unit);
  tcp_listen : TcpSocket -> Z -> host -> host * (IoError + TcpListener);
  tcp_connect : TcpSocket -> SocketAddr -> host -> host * (IoError + TcpStream);
  tcp_socket_addr : TcpSocket -> host -> host * (IoError + SocketAddr);
  tcp_peer_addr : TcpStream -> host -> host * (IoError + SocketAddr);
  tcp_local_addr : TcpStream -> host -> host * (IoError + SocketAddr);
  tcp_write : TcpStream -> bytes -> host -> host * (IoError + nat);
  udp_connect : UdpSocket -> SocketAddr -> host -> host * (IoError + unit);
  udp_send_connected : UdpSocket -> bytes -> host -> host * (IoError + nat);
  tokio_bind : SocketAddr -> host -> host * (IoError + UdpSocket);
  set_reuse_port : RawSocket -> bool -> host -> host * (IoError + unit);
}.

Inductive StunAddr := StunV4 (ip : bytes) (port : Z) | StunV6 (ip : bytes) (port : Z).
Inductive Attr :=
| MappedAddress (a : StunAddr)
| ChangedAddress (a : StunAddr)
| XorMappedAddress (a : StunAddr)
| OtherAttr.

(** proto/nat_udp.rs and proto/nat_tcp.rs, a transport: its forwarder, and the events it has published. *)
Record NatTransport (F : Type) := mkNatTransport { nt_forwarder : option F; nt_published : list DeviceEvent }.
Arguments mkNatTransport {F}.
Arguments nt_forwarder {F}.
Arguments nt_published {F}.

Section Nat.
Context `{NatHost}.
(** stun_format's [Msg::from(..).attrs_iter()]. *)
Context (attrs_iter : bytes -> list Attr).

(** [anyhow::Error] and what it is made from. *)
Inductive NatError :=
| EIo (e : IoError)
| EGateway (e : GwError)
| EAddPort (e : AddPortError GwError)
| UpnpIpv6
| UpnpPortError (port : Z)
| UpnpDuration
| ESend
| EParse.

Abbreviation nio := (io host NatError).
Definition call_io {A} (c : host -> host * (IoError + A)) : nio A := io_map_err EIo (sys c).
Definition call_gw {A} (c : host -> host * (GwError + A)) : nio A := io_map_err EGateway (sys c).

(** ** nat2pub/upnp_service.rs *)

Record UpnpOptions := mkUpnpOptions {
  uo_name : string;
  uo_inner_port : Z;
  uo_duration : Z;
  uo_protocol : PortMappingProtocol;
  uo_broadcast_address : option SocketAddr;
}.
Record UpnpService := mkUpnpService {
  options : UpnpOptions;
  external_port : option Z;
  inner_port : Z;
}.
Definition UpnpService_new (o : UpnpOptions) : UpnpService := mkUpnpService o None (uo_inner_port o).
Definition set_inner_port (s : UpnpService) (port : Z) : UpnpService := mkUpnpService (options s) (external_port s) port.

(** One turn of the loop of [add_port]; [None] is [continue]. *)
Definition add_port_turn (s : UpnpService) (gateway : Gateway) (ip : bytes) (port : Z) (retry : bool)
    : nio (option (SocketAddrV4 * SocketAddrV4)) :=
  let ip_port := mkV4 ip (inner_port s) in
  if inner_port s <=? 0 then pure_res (Err (UpnpPortError (inner_port s)))
  else
    r ← try (sys (gw_add_port gateway (uo_protocol (options s)) port ip_port (uo_duration (options s)) (uo_name (options s))));
    match r with
    | inl PortInUse =>
        if retry then
          r ← try (sys (gw_remove_port gateway TCP port));
          match r with
          | inl _ => pure_res (Err (EAddPort PortInUse))
          | inr _ => mret None
          end
        else pure_res (Err (EAddPort PortInUse))
    | inl err => pure_res (Err (EAddPort err))
    | inr _ => mret (Some (gw_addr gateway, ip_port))
    end.

(** The loop, in [fuel] turns; [None] when they are not enough. *)
Fixpoint add_port_loop (fuel : nat) (s : UpnpService) (gateway : Gateway) (ip : bytes) (port : Z) (retry : bool)
    : nio (option (SocketAddrV4 * SocketAddrV4)) :=
  match fuel with
  | O => mret None
  | S fuel =>
      r ← add_port_turn s gateway ip port retry;
      match r with
      | Some addrs => mret (Some addrs)
      | None => add_port_loop fuel s gateway ip port false
      end
  end.

(** Two turns are enough: [add_port_loop_turns]. *)
Definition add_port (s : UpnpService) (port : Z) : nio (option (SocketAddrV4 * SocketAddrV4)) :=
  gateway ← call_gw (search_gateway (uo_broadcast_address (options s)));
  stream ← call_io (std_connect (gw_addr gateway));
  addr ← call_io (std_local_addr stream);
  match addr with
  | AddrV4 ip _ => add_port_loop 2 s gateway ip port true
  | AddrV6 _ _ => pure_res (Err UpnpIpv6)
  end.

(** The result of [add_port] is only logged. *)
Definition set_external_port (s : UpnpService) (port : Z) : nio UpnpService :=
  _ ← (if decide (external_port s = Some port) then mret tt
       else r ← try (add_port s port); mret tt);
  mret (mkUpnpService (options s) (Some port) (inner_port s)).

(** [start]: the lease must be at least a minute and is renewed ten seconds before its end. *)
Definition upnp_interval (s : UpnpService) : res NatError Z :=
  if uo_duration (options s) <? 60 then Err UpnpDuration else Ok (uo_duration (options s) - 10).
(** One tick of [start] that is not timed out; what it remembers is only for the log. *)
Definition upnp_tick (s : UpnpService) (cancelled : bool) : nio bool :=
  if cancelled then mret false
  else
    match external_port s with
    | Some port => r ← try (add_port s port); mret true
    | None => mret true
    end.

(** ** nat2pub/reuse_socket.rs *)

Definition make_tcp_socket (local_addr : SocketAddr) : nio TcpSocket :=
  socket ← call_io tcp_new_v4;
  _ ← call_io (tcp_set_reuseport socket true);
  _ ← call_io (tcp_set_reuseaddr socket true);
  _ ← io_unwrap (call_io (tcp_bind socket local_addr));
  mret socket.

Definition make_udp_socket (local_addr : SocketAddr) : nio UdpSocket :=
  socket ← call_io (socket_new false);
  _ ← call_io (set_reuse_address socket true);
  _ ← call_io (set_nonblocking socket true);
  _ ← call_io (set_reuse_port socket true);
  _ ← call_io (sock_bind socket local_addr);
  call_io (from_std socket).

(** ** nat2pub/nat_service.rs *)

Record NatServiceParam := mkNatServiceParam {
  np_stun_servers : list string;
  np_port : Z;
  np_protocol : PortMappingProtocol;
  np_broadcast_address : option SocketAddr;
}.
Record NatService := mkNatService {
  sv_local_addr : SocketAddr;
  sv_upnp : UpnpService;
  sv_stun_servers : list string;
  sv_protocol : PortMappingProtocol;
}.
Definition NatService_new (p : NatServiceParam) : NatService :=
  let o := mkUpnpOptions "vlink" (np_port p) 140 (np_protocol p) (np_broadcast_address p) in
  mkNatService (AddrV4 (replicate 4 x00) (np_port p)) (UpnpService_new o) (np_stun_servers p) (np_protocol p).

(** The task that talks to the STUN server works on the shared UPnP service and sends the
    addresses it learns to the transport; [ns_sent] are those that were sent. *)
Record NatState := mkNatState { ns_host : host; ns_upnp : UpnpService; ns_sent : list SocketAddrV4 }.
Abbreviation sio := (io NatState NatError).

Definition on_host {A} (m : nio A) : sio A := fun st =>
  let '(w, r) := m (ns_host st) in (mkNatState w (ns_upnp st) (ns_sent st), r).
Definition on_upnp (f : UpnpService -> nio UpnpService) : sio unit := fun st =>
  let '(w, r) := f (ns_upnp st) (ns_host st) in
  match r with
  | Ok s => (mkNatState w s (ns_sent st), Ok tt)
  | Err e => (mkNatState w (ns_upnp st) (ns_sent st), Err e)
  | Panic => (mkNatState w (ns_upnp st) (ns_sent st), Panic)
  end.
Definition get_upnp : sio UpnpService := fun st => (st, Ok (ns_upnp st)).
(** [tx.send]: an error once the receiver is gone. *)
Definition tx_send (alive : bool) (a : SocketAddrV4) : sio unit := fun st =>
  if alive then (mkNatState (ns_host st) (ns_upnp st) (ns_sent st ++ [a]), Ok tt) else (st, Err ESend).

(** [recv_from_udp], an attribute of an answer. *)
Definition stun_attr_udp (alive : bool) (attr : Attr) : sio unit :=
  match attr with
  | XorMappedAddress (StunV4 ip port) =>
      _ ← tx_send alive (mkV4 ip port);
      _ ← on_upnp (fun s => set_external_port s port);
      _ ← try (F := NatError) (tx_send alive (mkV4 ip port));
      mret tt
  | XorMappedAddress (StunV6 _ _) => pure_res Panic
  | _ => mret tt
  end.
Definition stun_attr_tcp (alive : bool) (attr : Attr) : sio unit :=
  match attr with
  | XorMappedAddress (StunV4 ip port) =>
      _ ← tx_send alive (mkV4 ip port);
      s ← get_upnp;
      _ ← on_host (add_port s port);
      mret tt
  | XorMappedAddress (StunV6 _ _) => pure_res Panic
  | _ => mret tt
  end.
Fixpoint stun_attrs (f : Attr -> sio unit) (l : list Attr) : sio unit :=
  match l with
  | [] => mret tt
  | a :: l => _ ← f a; stun_attrs f l
  end.

(** [recv_from_udp]: the datagrams the socket receives into its 1024 bytes, until an error. *)
Fixpoint recv_from_udp (alive : bool) (reads : list (IoError + bytes)) : sio unit :=
  match reads with
  | [] | inl _ :: _ => mret tt
  | inr d :: reads => _ ← stun_attrs (stun_attr_udp alive) (attrs_iter (take 1024 d)); recv_from_udp alive reads
  end.
(** The loop of [stun_connect_tcp] on the results of its reads, for [fuel] turns; [false]
    while it is running. *)
Fixpoint stun_tcp_loop (fuel : nat) (alive : bool) (reads : nat -> IoError + bytes) (i : nat) : sio bool :=
  match fuel with
  | O => mret false
  | S fuel =>
      match reads i with
      | inl _ => mret true
      | inr d => _ ← stun_attrs (stun_attr_tcp alive) (attrs_iter d); stun_tcp_loop fuel alive reads (S i)
      end
  end.

(** The servers are constants, the parameter is not used. *)
Definition STUN_TCP : SocketAddr := AddrV4 [x65; x2b; xa9; xb7] 3478.
Definition STUN_UDP : SocketAddr := AddrV4 [x65; x2b; xa9; xb7] 3479.

(** [bind_request] is a message of stun_format. *)
Context (bind_request : bytes).
Definition stun_open_tcp (local_addr : SocketAddr) : sio TcpStream :=
  socket ← on_host (make_tcp_socket local_addr);
  a ← on_host (call_io (tcp_socket_addr socket));
  _ ← on_upnp (fun s => mret (set_inner_port s (sa_port a)));
  stream ← on_host (call_io (tcp_connect socket STUN_TCP));
  _ ← on_host (io_unwrap (call_io (tcp_peer_addr stream)));
  _ ← on_host (io_unwrap (call_io (tcp_local_addr stream)));
  _ ← on_host (call_io (tcp_write stream bind_request));
  mret stream.
Definition stun_open_udp (local_addr : SocketAddr) : sio UdpSocket :=
  socket ← on_host (make_udp_socket local_addr);
  _ ← on_host (io_unwrap (call_io (Udp.local_addr socket)));
  a ← on_host (call_io (Udp.local_addr socket));
  _ ← on_upnp (fun s => mret (set_inner_port s (sa_port a)));
  _ ← on_host (call_io (udp_connect socket STUN_UDP));
  _ ← on_host (call_io (udp_send_connected socket bind_request));
  mret socket.

(** A spawned task: what it does, however it ends. *)
Definition spawned {A} (m : sio A) : sio unit := fun st => ((m st).1, Ok tt).
(** What the sockets receive is given: [datagrams] for UDP; [reads] for TCP, of which the loop
    makes [fuel]. *)
Definition stun_connect_udp (alive : bool) (local_addr : SocketAddr) (datagrams : list (IoError + bytes)) : sio unit :=
  _ ← stun_open_udp local_addr;
  spawned (recv_from_udp alive datagrams).
Definition stun_connect_tcp (fuel : nat) (alive : bool) (local_addr : SocketAddr) (reads : nat -> IoError + bytes) : sio bool :=
  _ ← stun_open_tcp local_addr;
  stun_tcp_loop fuel alive reads 0.
Definition stun_connect (protocol : PortMappingProtocol) (fuel : nat) (alive : bool) (addr : SocketAddr)
    (datagrams : list (IoError + bytes)) (reads : nat -> IoError + bytes) : sio unit :=
  match protocol with
  | UDP => stun_connect_udp alive addr datagrams
  | TCP => _ ← stun_connect_tcp fuel alive addr reads; mret tt
  end.
(** The addresses the transport has received once the task has run; the renewals of the port
    mapping are [upnp_tick]. *)
Definition NatService_start (sv : NatService) (fuel : nat) (alive : bool) (datagrams : list (IoError + bytes))
    (reads : nat -> IoError + bytes) (w : host) : NatState :=
  (spawned (stun_connect (sv_protocol sv) fuel alive (sv_local_addr sv) datagrams reads) (mkNatState w (sv_upnp sv) [])).1.

(** ** forward/udp.rs, forward/tcp2udp.rs and the clients *)

Definition NAT_UDP : string := "NatUdp".
Definition NAT_TCP : string := "NatTcp".

(** A task that passes the datagrams of a socket to the device, with a buffer of 2048 bytes:
    the forward handler of [UdpForwarder::spawn] and the receive task of
    [NatUdpTransportClient::new]. [None] is a panic. *)
Fixpoint forward_datagrams (buf : bytes) (reads : list (IoError + (bytes * SocketAddr))) : option (list (bytes * Endpoint)) :=
  match reads with
  | [] | inl _ :: _ => Some []
  | inr (d, addr) :: reads =>
      let '(buf, n) := recv_into buf d in
      match slice (E := unit) 0 n buf with
      | Ok data => rest ← forward_datagrams buf reads; Some ((data, mkEndpoint addr NAT_UDP) :: rest)
      | _ => None
      end
  end.
Definition UdpForwarder_handler (reads : list (IoError + (bytes * SocketAddr))) : option (list (bytes * Endpoint)) :=
  forward_datagrams (replicate 2048 x00) reads.
Definition UdpForwarder_spawn (local_port : Z) : nio UdpSocket :=
  make_udp_socket (AddrV4 (replicate 4 x00) local_port).

(** How the read loop of a TCP connection stands after some reads. *)
Inductive ReadEnd := Reading | Disconnected | ReadPanicked.
(** [handler0] and [NatTcpTransportClient::spawn]: every read is a packet; an empty one is the
    end. [alive] is whether the device still takes packets. *)
Fixpoint tcp_read_loop (e : Endpoint) (alive : bool) (reads : list (IoError + bytes)) : list (bytes * Endpoint) * ReadEnd :=
  match reads with
  | [] => ([], Reading)
  | inl _ :: _ | inr [] :: _ => ([], Disconnected)
  | inr d :: reads =>
      if alive then let '(items, st) := tcp_read_loop e alive reads in ((d, e) :: items, st)
      else ([], ReadPanicked)
  end.
(** A connection accepted by [TcpForwarder] and what it publishes when it ends. *)
Definition tcp_forward (addr_text : string) (addr : SocketAddr) (alive : bool) (reads : list (IoError + bytes))
    : list (bytes * Endpoint) * list DeviceEvent :=
  let '(items, st) := tcp_read_loop (mkEndpoint addr NAT_TCP) alive reads in
  (items, match st with Disconnected => [TransportFailed NAT_TCP addr_text] | _ => [] end).
Definition TcpForwarder_spawn (local_port : Z) : nio TcpListener :=
  socket ← make_tcp_socket (AddrV4 (replicate 4 x00) local_port);
  call_io (tcp_listen socket 1024).

(** What [TcpOutboundSender] and [Ipv4UdpOutboundSender] put on the wire for some packets: a
    stream, and datagrams. *)
Definition tcp_sent (packets : list bytes) : bytes := concat packets.

(** ** proto/nat_udp.rs and proto/nat_tcp.rs *)

Definition start_turn {F} (proto : string) (spawn : Z -> nio F) (t : NatTransport F) (addr : SocketAddrV4) : nio (NatTransport F) :=
  f ← spawn (v4_port addr);
  mret (mkNatTransport (Some f) (nt_published t ++ [ExtraEndpointSuccess proto (v4_to_string addr)])).
Fixpoint start_loop {F} (proto : string) (spawn : Z -> nio F) (t : NatTransport F) (addrs : list SocketAddrV4) : nio (NatTransport F) :=
  match addrs with
  | [] => mret t
  | a :: addrs => t ← start_turn proto spawn t a; start_loop proto spawn t addrs
  end.
(** [NatUdpTransport::new] and [NatTcpTransport::new] with their parameters: the service each
    owns, with no gateway address of its own, and nothing forwarded or published. *)
Record NatTransportParam := mkNatTransportParam { ntp_stun_servers : list string; ntp_nat_port : Z }.
Definition transport_service (proto : PortMappingProtocol) (p : NatTransportParam) : NatService :=
  NatService_new (mkNatServiceParam (ntp_stun_servers p) (ntp_nat_port p) proto None).
Definition NatUdpTransport_new (p : NatTransportParam) : NatService * NatTransport UdpSocket :=
  (transport_service UDP p, mkNatTransport None []).
Definition NatTcpTransport_new (p : NatTransportParam) : NatService * NatTransport TcpListener :=
  (transport_service TCP p, mkNatTransport None []).
(** [NatUdpTransport::start] and [NatTcpTransport::start] on the addresses received so far. *)
Definition NatUdp_start : NatTransport UdpSocket -> list SocketAddrV4 -> nio (NatTransport UdpSocket) :=
  start_loop NAT_UDP UdpForwarder_spawn.
Definition NatTcp_start : NatTransport TcpListener -> list SocketAddrV4 -> nio (NatTransport TcpListener) :=
  start_loop NAT_TCP TcpForwarder_spawn.

(** The clients; [from_str] is [SocketAddr::from_str]. *)
Definition NatUdpTransportClient_new (from_str : string -> option SocketAddr) (endpoint : string) : nio (UdpSocket * Endpoint) :=
  socket ← call_io (tokio_bind (AddrV4 (replicate 4 x00) 0));
  _ ← call_io (Udp.local_addr socket);
  dst ← pure_res (ok_or EParse (from_str endpoint));
  mret (socket, mkEndpoint dst NAT_UDP).
Definition NatTcpTransportClient_spawn (from_str : string -> option SocketAddr) (endpoint : string) : nio (TcpStream * Endpoint) :=
  addr ← pure_res (ok_or EParse (from_str endpoint));
  socket ← call_io tcp_new_v4;
  stream ← call_io (tcp_connect socket addr);
  mret (stream, mkEndpoint addr NAT_TCP).
(** The read task of the TCP client: at the end of the stream the peer loses its endpoint. *)
Definition tcp_client_task (addr : SocketAddr) (alive : bool) (reads : list (IoError + bytes)) (p : Peer)
    : list (bytes * Endpoint) * Peer :=
  let '(items, st) := tcp_read_loop (mkEndpoint addr NAT_TCP) alive reads in
  (items, match st with Disconnected => clear_endpoint p | _ => p end).
End Nat.

(** ** The port mapping *)

Section Mapping.
Context `{NatHost}.

(** A turn without a retry left does not continue, and a turn never panics. *)
Lemma add_port_turn_last s gw ip port w w' : add_port_turn s gw ip port false w <> (w', Ok None).
Proof.
  unfold add_port_turn. destruct (_ <=? 0); [unfold pure_res; congruence|]. unfold mbind, io_bind, try, sys.
  destruct (gw_add_port _ _ _ _ _ _ w) as [w1 [[|e]|[]]]; unfold pure_res, mret, io_ret; congruence.
Qed.
Lemma add_port_turn_pf s gw ip port retry : panic_free (add_port_turn s gw ip port retry).
Proof.
  intros w w'. unfold add_port_turn. destruct (_ <=? 0); [unfold pure_res; congruence|]. unfold mbind, io_bind, try, sys.
  destruct (gw_add_port _ _ _ _ _ _ w) as [w1 [[|e]|[]]]; unfold pure_res, mret, io_ret; try congruence.
  destruct retry; [|congruence]. destruct (gw_remove_port _ _ _ w1) as [w2 []]; congruence.
Qed.

(** The loop in terms of its turns. *)
Lemma add_port_loop_turns fuel s gw ip port w : (2 <= fuel)%nat ->
  add_port_loop fuel s gw ip port true w =
    match add_port_turn s gw ip port true w with
    | (w1, Ok None) => add_port_turn s gw ip port false w1
    | (w1, r) => (w1, r)
    end.
Proof.
  destruct fuel as [|[|fuel]]; [lia..|]. intros _. cbn [add_port_loop]. unfold mbind, io_bind.
  destruct (add_port_turn s gw ip port true w) as [w1 [[a|]|e|]]; try done.
  destruct (add_port_turn s gw ip port false w1) as [w2 [[a|]|e|]] eqn:Ht; try done.
  by apply add_port_turn_last in Ht.
Qed.

(** Asking the gateway for a port ends after at most two attempts. Whatever the gateway
    answers, the loop of [add_port] returns within two turns an address or an error, never
    panics, and more turns would change nothing; it returns the mapping only when the gateway
    has just accepted it, for the service's protocol, port and inner port: at once, or after
    it removed a mapping of that port. *)
Theorem add_port_terminates fuel s gw ip port w :
  (2 <= fuel)%nat ->
  let '(w', r) := add_port_loop fuel s gw ip port true w in
  add_port_loop 2 s gw ip port true w = (w', r) /\ r <> Ok None /\ r <> Panic /\
  (is_ok r = true ->
   r = Ok (Some (gw_addr gw, mkV4 ip (inner_port s))) /\
   let add := gw_add_port gw (uo_protocol (options s)) port (mkV4 ip (inner_port s)) (uo_duration (options s)) (uo_name (options s)) in
   add w = (w', inr tt) \/
   exists w1 w2, add w = (w1, inl PortInUse) /\ gw_remove_port gw TCP port w1 = (w2, inr tt) /\ add w2 = (w', inr tt)).
Proof.
  intros Hf. rewrite (add_port_loop_turns fuel) by done. rewrite (add_port_loop_turns 2) by lia.
  pose proof (add_port_turn_pf s gw ip port) as Hpf. pose proof (add_port_turn_last s gw ip port) as Hlast.
  assert (forall retry w w' a, add_port_turn s gw ip port retry w = (w', Ok (Some a)) -> a = (gw_addr gw, mkV4 ip (inner_port s)) /\
    gw_add_port gw (uo_protocol (options s)) port (mkV4 ip (inner_port s)) (uo_duration (options s)) (uo_name (options s)) w = (w', inr tt)) as Hsome.
  { intros retry w0 w' a. unfold add_port_turn. destruct (_ <=? 0); [done|]. unfold mbind, io_bind, try, sys.
    destruct (gw_add_port _ _ _ _ _ _ w0) as [w1 [[|e]|[]]]; unfold pure_res, mret, io_ret; try done; [|by intros [= <- <-]].
    destruct retry; [|done]. by destruct (gw_remove_port _ _ _ w1) as [w2 []]. }
  destruct (add_port_turn s gw ip port true w) as [w1 r] eqn:Ht. destruct r as [[a|]|e|].
  - destruct (Hsome _ _ _ _ Ht) as [-> Ha]. repeat split; try done. by left.
  - destruct (add_port_turn s gw ip port false w1) as [w2 r2] eqn:Ht2. split; [done|].
    split; [intros ->; by apply (Hlast _ _ Ht2)|]. split; [intros ->; by apply (Hpf _ _ _ Ht2)|].
    destruct r2 as [[a|]| |]; try done; [|by apply Hlast in Ht2]. intros _.
    destruct (Hsome _ _ _ _ Ht2) as [-> Ha]. split; [done|]. right.
    revert Ht. unfold add_port_turn. destruct (_ <=? 0); [done|]. unfold mbind, io_bind, try, sys.
    destruct (gw_add_port _ _ _ _ _ _ w) as [w3 [[|e]|[]]]; unfold pure_res, mret, io_ret; try done.
    destruct (gw_remove_port _ _ _ w3) as [w4 [|[]]] eqn:Hr; [done|]. intros [= ->]. by exists w3, w1.
  - done.
  - by destruct (Hpf true w w1).
Qed.

(** A UDP port that is in use is never freed. The loop removes the old mapping before it
    tries again, but always the TCP one; on a gateway that keeps the mappings of the two
    protocols apart the second attempt of a UDP service is refused like the first, so
    [add_port] fails although it could have replaced the mapping. *)
Theorem udp_port_in_use_stays s gw ip port w w1 :
  uo_protocol (options s) = UDP -> 0 < inner_port s ->
  let add := gw_add_port gw UDP port (mkV4 ip (inner_port s)) (uo_duration (options s)) (uo_name (options s)) in
  (forall w w' w2 r, add w = (w', inl PortInUse) -> gw_remove_port gw TCP port w' = (w2, r) -> exists w3, add w2 = (w3, inl PortInUse)) ->
  add w = (w1, inl PortInUse) ->
  exists w', add_port_loop 2 s gw ip port true w = (w', Err (EAddPort PortInUse)).
Proof.
  intros Hp Hi add Hkeep Ha. rewrite add_port_loop_turns by lia. unfold add_port_turn.
  rewrite (proj2 (Z.leb_gt _ _)) by lia. rewrite Hp. unfold mbind, io_bind, try, sys. fold add. rewrite Ha.
  destruct (gw_remove_port gw TCP port w1) as [w2 r] eqn:Hr. destruct (Hkeep _ _ _ _ Ha Hr) as [w3 Hw3].
  destruct r; [by eexists|]. unfold mret, io_ret. rewrite Hw3. by eexists.
Qed.
End Mapping.

(** ** From the STUN server to the published endpoint *)

Section Stun.
Context `{NatHost}.
Context (attrs_iter : bytes -> list Attr).

Lemma call_io_pf {A} (c : host -> host * (IoError + A)) : panic_free (call_io c).
Proof. intros w w'. unfold call_io, io_map_err, sys. destruct (c w) as [? []]; cbn; congruence. Qed.
Lemma call_gw_pf {A} (c : host -> host * (GwError + A)) : panic_free (call_gw c).
Proof. intros w w'. unfold call_gw, io_map_err, sys. destruct (c w) as [? []]; cbn; congruence. Qed.
Lemma add_port_loop_pf n s gw ip port retry : panic_free (add_port_loop n s gw ip port retry).
Proof.
  revert retry. induction n as [|n IH]; intros retry; cbn [add_port_loop]; [auto with vlink|].
  apply panic_free_bind; [apply add_port_turn_pf|]. intros []; auto with vlink.
Qed.
Lemma add_port_pf s port : panic_free (add_port s port).
Proof.
  unfold add_port. apply panic_free_bind; [apply call_gw_pf|]. intros gw.
  apply panic_free_bind; [apply call_io_pf|]. intros st.
  apply panic_free_bind; [apply call_io_pf|]. intros [ip p|ip p]; [apply add_port_loop_pf|].
  intros w w'. unfold pure_res. congruence.
Qed.

(** Setting the external port always succeeds, and only it changes. *)
Lemma set_external_port_Ok s port w : exists w',
  set_external_port s port w = (w', Ok (mkUpnpService (options s) (Some port) (inner_port s))).
Proof.
  unfold set_external_port. unfold mbind, io_bind, mret, io_ret. case_decide; [by eexists|].
  unfold try. pose proof (add_port_pf s port w). destruct (add_port s port w) as [w1 [| |]]; try by eexists. naive_solver.
Qed.

(** The attributes of all answers, those before the first IPv6 address, and the IPv4
    addresses among these. *)
Definition attr_v4 (a : Attr) : option SocketAddrV4 :=
  match a with XorMappedAddress (StunV4 ip port) => Some (mkV4 ip port) | _ => None end.
Definition attr_not_v6 (a : Attr) : bool :=
  match a with XorMappedAddress (StunV6 _ _) => false | _ => true end.
Definition answered (ds : list bytes) : list Attr := ds ≫= fun d => attrs_iter (take 1024 d).
Fixpoint until_v6 (l : list Attr) : list Attr :=
  match l with
  | [] => []
  | a :: l => if attr_not_v6 a then a :: until_v6 l else []
  end.
Definition reported (ds : list bytes) : list SocketAddrV4 := omap attr_v4 (until_v6 (answered ds)).
Definition twice {A} (l : list A) : list A := l ≫= fun a => [a; a].

Lemma twice_app {A} (l k : list A) : twice (l ++ k) = twice l ++ twice k.
Proof. apply bind_app. Qed.
Lemma twice_fmap {A B} (f : A -> B) (l : list A) : f <$> twice l = twice (f <$> l).
Proof. induction l as [|a l IH]; [done|]. change (f a :: f a :: (f <$> twice l) = f a :: f a :: twice (f <$> l)). by rewrite IH. Qed.

(** What a run of the task leaves: more addresses sent, the inner port as it was. *)
Definition sent_more (st st' : NatState) (l : list SocketAddrV4) : Prop :=
  ns_sent st' = ns_sent st ++ l /\ inner_port (ns_upnp st') = inner_port (ns_upnp st).

Lemma stun_attrs_udp l : forall st, exists st',
  stun_attrs (stun_attr_udp true) l st = (st', if forallb attr_not_v6 l then Ok tt else Panic) /\
  sent_more st st' (twice (omap attr_v4 (until_v6 l))).
Proof.
  unfold sent_more. induction l as [|a l IH]; intros st.
  - exists st. cbn. by rewrite app_nil_r.
  - cbn [forallb until_v6 stun_attrs]. destruct (attr_not_v6 a) eqn:Ha; cbn [andb].
    2:{ exists st. cbn. rewrite app_nil_r. destruct a as [x|x|[]|]; try done. }
    assert (exists st1, stun_attr_udp true a st = (st1, Ok tt) /\ ns_sent st1 = ns_sent st ++ twice (omap attr_v4 [a]) /\
      inner_port (ns_upnp st1) = inner_port (ns_upnp st)) as (st1 & H1 & Hs1 & Hi1).
    { destruct a as [x|x|[ip port|ip port]|]; try done; try by (exists st; cbn; rewrite app_nil_r).
      unfold stun_attr_udp, mbind, io_bind, tx_send, on_upnp, try, mret, io_ret. cbn [ns_upnp ns_host ns_sent].
      destruct (set_external_port_Ok (ns_upnp st) port (ns_host st)) as [w' ->]. eexists. split; [done|].
      cbn. by rewrite <- app_assoc. }
    destruct (IH st1) as (st2 & H2 & Hs2 & Hi2). exists st2. unfold mbind at 1, io_bind at 1. rewrite H1.
    split; [done|]. rewrite Hs2, Hs1, <- app_assoc, <- twice_app. split; [|congruence]. f_equal. f_equal.
    cbn. by destruct (attr_v4 a).
Qed.

Lemma stun_attrs_app f l k st :
  stun_attrs f (l ++ k) st = (_ ← stun_attrs f l; stun_attrs f k) st.
Proof.
  revert st. induction l as [|a l IH]; intros st; [done|]. cbn [app stun_attrs]. unfold mbind, io_bind.
  destruct (f a st) as [st1 [[]|e|]]; [|done..]. by rewrite IH.
Qed.
(** The datagrams are one list of attributes to the task. *)
Lemma recv_from_udp_attrs ds : forall st,
  recv_from_udp attrs_iter true (inr <$> ds) st = stun_attrs (stun_attr_udp true) (answered ds) st.
Proof.
  induction ds as [|d ds IH]; intros st; [done|]. cbn [recv_from_udp fmap list_fmap].
  change (answered (d :: ds)) with (attrs_iter (take 1024 d) ++ answered ds). rewrite stun_attrs_app.
  unfold mbind, io_bind. destruct (stun_attrs _ _ st) as [st1 [[]|e|]]; [apply IH|done..].
Qed.

(** A forwarder started for each port, in order. *)
Fixpoint spawn_all {F} (spawn : Z -> io host NatError F) (ports : list Z) : io host NatError (list F) :=
  match ports with
  | [] => mret []
  | p :: ports => f ← spawn p; fs ← spawn_all spawn ports; mret (f :: fs)
  end.

(** When forwarders can be started, every address gets one of its own and is published. *)
Lemma start_loop_published {F} proto (spawn : Z -> io host NatError F) addrs : forall t w,
  (forall p w, exists w' f, spawn p w = (w', Ok f)) -> exists w' t' fs,
  start_loop proto spawn t addrs w = (w', Ok t') /\
  spawn_all spawn (v4_port <$> addrs) w = (w', Ok fs) /\ length fs = length addrs /\
  nt_forwarder t' = match list.last fs with Some f => Some f | None => nt_forwarder t end /\
  nt_published t' = nt_published t ++ ((fun a => ExtraEndpointSuccess proto (v4_to_string a)) <$> addrs).
Proof.
  induction addrs as [|a addrs IH]; intros t w Hs.
  - exists w, t, []. cbn. by rewrite app_nil_r.
  - cbn [start_loop spawn_all fmap list_fmap]. unfold mbind, io_bind, start_turn.
    destruct (Hs (v4_port a) w) as (w1 & f & Hf).
    unfold mbind, io_bind. rewrite Hf. unfold mret, io_ret.
    destruct (IH (mkNatTransport (Some f) (nt_published t ++ [ExtraEndpointSuccess proto (v4_to_string a)])) w1 Hs)
      as (w2 & t2 & fs & Hr & Hall & Hlen & Hfw & Hp).
    exists w2, t2, (f :: fs). unfold mbind, io_bind, mret, io_ret in Hall. rewrite Hall. split; [done|].
    split; [done|]. split; [cbn; by rewrite Hlen|]. split; [|rewrite Hp; cbn; by rewrite <- app_assoc].
    rewrite Hfw, last_cons. by destruct (list.last fs).
Qed.

(** C29: from the STUN server's answers to the published endpoints of the UDP transport.
    Whatever the gateway does, every IPv4 address reported before the first IPv6 address is
    sent to the transport twice; at an IPv6 address the task panics and reports nothing more,
    and only then does it fail. The transport, as long as sockets can be opened, publishes
    every address it was sent and for each - so twice for the same port - opens a new forward
    socket, the last of which it keeps; each listens on the port of the public address, while
    the mapping asked of the gateway is to the STUN socket's own port, which stays as it
    was. *)
Theorem nat_udp_publishes ds st t w :
  ns_sent st = [] ->
  (forall p w, exists w' f, UdpForwarder_spawn p w = (w', Ok f)) ->
  exists st' w' t' fs,
    recv_from_udp attrs_iter true (inr <$> ds) st =
      (st', if forallb attr_not_v6 (answered ds) then Ok tt else Panic) /\
    ns_sent st' = twice (reported ds) /\ inner_port (ns_upnp st') = inner_port (ns_upnp st) /\
    NatUdp_start t (ns_sent st') w = (w', Ok t') /\
    nt_published t' = nt_published t ++ twice ((fun a => ExtraEndpointSuccess "NatUdp" (v4_to_string a)) <$> reported ds) /\
    spawn_all (fun p => make_udp_socket (AddrV4 (replicate 4 x00) p)) (twice (v4_port <$> reported ds)) w = (w', Ok fs) /\
    length fs = (2 * length (reported ds))%nat /\
    nt_forwarder t' = match list.last fs with Some f => Some f | None => nt_forwarder t end.
Proof.
  intros Hst Hs. destruct (stun_attrs_udp (answered ds) st) as (st' & Hr & Hsent & Hi).
  rewrite <- recv_from_udp_attrs in Hr. rewrite Hst in Hsent. cbn [app] in Hsent. fold (reported ds) in Hsent.
  destruct (start_loop_published NAT_UDP UdpForwarder_spawn (ns_sent st') t w Hs) as (w' & t' & fs & Hst' & Hall & Hlen & Hf & Hp).
  exists st', w', t', fs. do 4 (split; [done|]). split; [by rewrite Hp, Hsent, twice_fmap|].
  split; [by rewrite <- twice_fmap, <- Hsent|]. split; [|done]. rewrite Hlen, Hsent.
  generalize (reported ds) as l. induction l as [|x l IH]; [done|]. change (S (S (length (twice l))) = 2 * S (length l))%nat. lia.
Qed.

(** At the end of its stream the STUN connection is read for ever: the loop ends on a read
    error only, and a read at the end returns no bytes and no error. *)
Lemma stun_tcp_eof_spins reads k alive st : attrs_iter [] = [] -> (forall i, (k <= i)%nat -> reads i = inr []) ->
  forall fuel, stun_tcp_loop attrs_iter fuel alive reads k st = (st, Ok false).
Proof.
  intros Ha Hr fuel. assert (forall j, (k <= j)%nat -> stun_tcp_loop attrs_iter fuel alive reads j st = (st, Ok false)) as Hj; [|by apply Hj].
  induction fuel as [|fuel IH]; intros j Hj; [done|]. cbn [stun_tcp_loop]. rewrite Hr by done. rewrite Ha.
  cbn [stun_attrs]. unfold mbind, io_bind, mret, io_ret. apply IH. lia.
Qed.
End Stun.

(** ** Packets over the NAT transports *)

Section Packets.
Context `{UdpHostLaws}.

Lemma forward_datagrams_all (reads : list (bytes * SocketAddr)) : forall buf, length buf = 2048%nat ->
  forward_datagrams buf (inr <$> reads) = Some ((fun '(d, a) => (take 2048 d, mkEndpoint a NAT_UDP)) <$> reads).
Proof.
  induction reads as [|[d a] reads IH]; intros buf Hb; [done|]. cbn [fmap list_fmap forward_datagrams].
  rewrite recv_truncates. set (n := Nat.min (length buf) (length d)). assert (n = Nat.min 2048 (length d)) as Hn by lia.
  rewrite (slice_here n) by (rewrite length_take; lia). rewrite IH.
  - cbn. do 3 f_equal. by rewrite Hn, <- firstn_firstn, firstn_all.
  - rewrite length_app, length_take, length_drop. lia.
Qed.

Lemma tcp_read_loop_items e chunks : Forall (fun c => c <> []) chunks ->
  tcp_read_loop e true (inr <$> chunks) = ((fun c => (c, e)) <$> chunks, Reading).
Proof.
  induction 1 as [|c chunks Hc _ IH]; [done|]. cbn [fmap list_fmap tcp_read_loop]. destruct c; [done|]. by rewrite IH.
Qed.

Lemma parse_chunks chunks : forall ms, Forall wf_message ms ->
  (parse <$> chunks = Ok <$> ms) <-> chunks = encode <$> ms.
Proof.
  induction chunks as [|c chunks IH]; intros [|m ms] Hms; try done. apply Forall_cons in Hms as [Hm Hms].
  cbn [fmap list_fmap]. split.
  - intros Heq. injection Heq as Hc Hcs. apply parse_Ok_encode in Hc as [<- _]. f_equal. by apply IH.
  - intros Heq. injection Heq as -> Hcs. f_equal; [by apply parse_encode|by apply IH].
Qed.

(** C30: the NAT transports and packet boundaries. The UDP forwarder hands the device every
    message of at most 2048 bytes as it was sent. The TCP transport writes packets into a
    stream with nothing between them and takes every read for a packet: however the stream is
    cut into reads, no byte is lost or reordered, but the device gets the messages that were
    sent exactly when every read ends where a message ended. *)
Theorem nat_transport_boundaries (ms : list Message) (addrs : list SocketAddr) e chunks :
  Forall wf_message ms -> Forall (fun m => (length (encode m) <= 2048)%nat) ms -> length addrs = length ms ->
  Forall (fun c => c <> []) chunks -> concat chunks = tcp_sent (encode <$> ms) ->
  UdpForwarder_handler (inr <$> zip (encode <$> ms) addrs) = Some (zip (encode <$> ms) ((fun a => mkEndpoint a "NatUdp") <$> addrs)) /\
  let items := (tcp_read_loop e true (inr <$> chunks)).1 in
  concat (fst <$> items) = tcp_sent (encode <$> ms) /\
  ((parse <$> (fst <$> items)) = Ok <$> ms <-> chunks = encode <$> ms).
Proof.
  intros Hwf Hlen Hadd Hne Hcat. split.
  - unfold UdpForwarder_handler. rewrite forward_datagrams_all by done. f_equal.
    clear Hwf Hcat. revert addrs Hadd. induction Hlen as [|m ms Hm _ IH]; intros [|a addrs] Ha; try done.
    cbn [fmap list_fmap zip zip_with]. rewrite IH by (cbn in Ha; lia). by rewrite firstn_all2.
  - rewrite tcp_read_loop_items by done. cbn [fst]. rewrite <- list_fmap_compose. cbn.
    assert (fst ∘ (fun c => (c, e)) <$> chunks = chunks) as -> by (apply list_fmap_id). split; [done|].
    by apply parse_chunks.
Qed.
End Packets.

(** ** A host with a gateway

    The gateway keeps the mapped ports of each protocol; every call on a socket succeeds. *)
Module ToyGateway.

Definition state : Type := list (PortMappingProtocol * Z) * SocketAddr.

#[local] Instance udp : UdpHost := {|
  host := state; IoError := unit; RawSocket := unit; UdpSocket := SocketAddr;
  socket_new _ w := (w, inr tt);
  set_only_v6 _ _ w := (w, inr tt);
  set_nonblocking _ _ w := (w, inr tt);
  set_reuse_address _ _ w := (w, inr tt);
  sock_bind _ a w := ((w.1, a), inr tt);
  from_std _ w := (w, inr w.2);
  Udp.local_addr u w := (w, inr u);
  send_to _ data _ w := (w, inr (length data));
  recv_into buf d := let n := Nat.min (length buf) (length d) in (take n d ++ drop n buf, n);
|}.
#[local] Instance udp_laws : UdpHostLaws.
Proof. split; [|done]. intros s a w w1 w2 u w3 w4 a' Hb Hf _ Hl. cbn in *. by simplify_eq. Qed.

#[local] Instance nat : NatHost := {|
  Gateway := unit; GwError := unit; TcpStream := unit; TcpSocket := SocketAddr; TcpListener := SocketAddr;
  search_gateway _ w := (w, inr tt);
  gw_addr _ := mkV4 [x0a; x00; x00; x01] 1900;
  std_connect _ w := (w, inr tt);
  std_local_addr _ w := (w, inr (AddrV4 [x0a; x00; x00; x09] 4000));
  gw_add_port _ p port _ _ _ w :=
    if bool_decide ((p, port) ∈ w.1) then (w, inl PortInUse) else (((p, port) :: w.1, w.2), inr tt);
  gw_remove_port _ p port w := ((filter (fun m => m <> (p, port)) w.1, w.2), inr tt);
  tcp_new_v4 w := (w, inr (AddrV4 [] 0));
  tcp_set_reuseport _ _ w := (w, inr tt);
  tcp_set_reuseaddr _ _ w := (w, inr tt);
  tcp_bind _ _ w := (w, inr tt);
  tcp_listen s _ w := (w, inr s);
  tcp_connect _ _ w := (w, inr tt);
  tcp_socket_addr s w := (w, inr s);
  tcp_peer_addr _ w := (w, inr (AddrV4 [] 0));
  tcp_local_addr _ w := (w, inr (AddrV4 [] 0));
  tcp_write _ d w := (w, inr (length d));
  udp_connect _ _ w := (w, inr tt);
  udp_send_connected _ d w := (w, inr (length d));
  tokio_bind a w := (w, inr a);
  set_reuse_port _ _ w := (w, inr tt);
|}.
End ToyGateway.

Section Witnesses.
#[local] Existing Instance ToyGateway.udp.
#[local] Existing Instance ToyGateway.udp_laws.
#[local] Existing Instance ToyGateway.nat.

Definition toy_upnp (p : PortMappingProtocol) : UpnpService := UpnpService_new (mkUpnpOptions "vlink" 5524 140 p None).
Definition toy_world : ToyGateway.state := ([(UDP, 7000); (TCP, 7000)], AddrV4 [] 0).

(** A TCP mapping in use is replaced. *)
Lemma add_port_terminates_witness :
  add_port_loop 5 (toy_upnp TCP) tt [x0a; x00; x00; x09] 7000 true toy_world =
    (([(TCP, 7000); (UDP, 7000)], AddrV4 [] 0), Ok (Some (mkV4 [x0a; x00; x00; x01] 1900, mkV4 [x0a; x00; x00; x09] 5524))) /\
  add_port_loop 2 (toy_upnp TCP) tt [x0a; x00; x00; x09] 7000 true toy_world =
    (([(TCP, 7000); (UDP, 7000)], AddrV4 [] 0), Ok (Some (mkV4 [x0a; x00; x00; x01] 1900, mkV4 [x0a; x00; x00; x09] 5524))).
Proof.
  split; [by vm_compute|].
  exact (proj1 (add_port_terminates (H := ToyGateway.udp) (H0 := ToyGateway.nat) 5 (toy_upnp TCP) tt [x0a; x00; x00; x09] 7000 toy_world ltac:(lia))).
Defined.

(** A UDP mapping in use is not. *)
Lemma udp_port_in_use_stays_witness : exists w',
  add_port_loop 2 (toy_upnp UDP) tt [x0a; x00; x00; x09] 7000 true toy_world = (w', Err (EAddPort PortInUse)).
Proof.
  apply (udp_port_in_use_stays (H := ToyGateway.udp) (H0 := ToyGateway.nat) (toy_upnp UDP) tt [x0a; x00; x00; x09] 7000 toy_world toy_world).
  - done.
  - done.
  - intros w w' w2 r Ha Hr. cbn in *. case_bool_decide as Hin; [|done]. injection Ha as <-. injection Hr as <- <-. cbn.
    exists (filter (fun m => m <> (TCP, 7000)) w.1, w.2). rewrite bool_decide_true; [done|].
    by apply list_elem_of_filter.
  - by vm_compute.
Defined.

Definition toy_attrs (d : bytes) : list Attr :=
  match d with
  | a :: b :: c :: e :: _ => [OtherAttr; XorMappedAddress (StunV4 [a; b; c; e] 7000)]
  | [a] => [XorMappedAddress (StunV6 (replicate 16 a) 7000)]
  | _ => []
  end.
Definition toy_state : NatState := mkNatState toy_world (toy_upnp UDP) [].
(** An answer with an IPv4 address, then one with an IPv6 address. *)
Lemma nat_udp_publishes_witness : exists st' w' t' f1 f2,
  recv_from_udp toy_attrs true [inr [x01; x02; x03; x04]; inr [x06]; inr [x01; x02; x03; x05]] toy_state = (st', Panic) /\
  NatUdp_start (mkNatTransport None []) (ns_sent st') toy_world = (w', Ok t') /\
  spawn_all (fun p => make_udp_socket (AddrV4 (replicate 4 x00) p)) [7000; 7000] toy_world = (w', Ok [f1; f2]) /\
  nt_forwarder t' = Some f2 /\
  nt_published t' = [ExtraEndpointSuccess "NatUdp" "1.2.3.4:7000"; ExtraEndpointSuccess "NatUdp" "1.2.3.4:7000"].
Proof.
  destruct (nat_udp_publishes (H := ToyGateway.udp) (H0 := ToyGateway.nat) toy_attrs
    [[x01; x02; x03; x04]; [x06]; [x01; x02; x03; x05]] toy_state (mkNatTransport None []) toy_world)
    as (st' & w' & t' & fs & Hr & _ & _ & Hs & Hp & Hall & Hlen & Hf).
  - done.
  - intros p w. by eexists _, _.
  - vm_compute in Hlen. destruct fs as [|f1 [|f2 [|]]]; try discriminate Hlen.
    exists st', w', t', f1, f2. split; [exact Hr|]. split; [exact Hs|]. split; [exact Hall|].
    split; [exact Hf|]. rewrite Hp. by vm_compute.
Defined.

Definition toy_data (b : byte) : Message := MsgTransportData (mkTransportData 7 1 [b]).
Lemma nat_transport_boundaries_witness :
  let sent := encode <$> [toy_data x01; toy_data x02] in
  concat [concat sent] = tcp_sent sent /\
  ~ (parse <$> (fst <$> (tcp_read_loop (mkEndpoint (AddrV4 [] 0) "NatTcp") true (inr <$> [concat sent])).1) = Ok <$> [toy_data x01; toy_data x02]).
Proof.
  intros sent. split; [done|]. intros Hp.
  destruct (nat_transport_boundaries (H := ToyGateway.udp) [toy_data x01; toy_data x02] [AddrV4 [] 1; AddrV4 [] 2]
    (mkEndpoint (AddrV4 [] 0) "NatTcp") [concat sent]) as (_ & _ & Hiff).
  - repeat constructor; vm_compute; split_and?; congruence.
  - repeat constructor; vm_compute; lia.
  - done.
  - by repeat constructor.
  - by vm_compute.
  - apply Hiff in Hp. by vm_compute in Hp.
Defined.
End Witnesses.
End Nat.
