(* ===== verification/Snowflake.v ===== *)
(** * Row identifiers (headlink/src/db/snowflake.rs)

    The two layouts of 64-bit identifiers handed to the crate snowdon: a timestamp, a machine
    number (always 0) and a sequence number. *)

From S2P Require Import Prelude.

Module Snowflake.

Definition machine_id : Z := 0.

(** The layout with [shift] bits below the timestamp, the machine number at bit [mshift] and
    [sbits] bits of sequence number; the source writes it out twice. *)
Section Layout.
Context (shift mshift sbits : Z).
Definition exceeds_timestamp (input : Z) : bool := Z.shiftl 1 42 <=? input.
Definition exceeds_sequence_number (input : Z) : bool := Z.shiftl 1 sbits <=? input.
(** The [assert!] panics. *)
Definition construct_snowflake {E} (timestamp sequence_number : Z) : res E Z :=
  if negb (exceeds_timestamp timestamp) && negb (exceeds_sequence_number sequence_number) then
    Ok (Z.lor (Z.lor (wrap 64 (Z.shiftl timestamp shift)) (wrap 64 (Z.shiftl machine_id mshift))) sequence_number)
  else Panic.
Definition timestamp (input : Z) : Z := Z.shiftr input shift.
Definition sequence_number (input : Z) : Z := Z.land input (Z.shiftl 1 sbits - 1).
End Layout.

(** [MySnowflakeParams] and [NormalSnowflakeParams]. *)
Definition my_construct {E} := @construct_snowflake 14 13 9 E.
Definition my_timestamp := timestamp 14.
Definition my_sequence_number := sequence_number 9.
Definition normal_construct {E} := @construct_snowflake 22 12 12 E.
Definition normal_timestamp := timestamp 22.
Definition normal_sequence_number := sequence_number 12.
(** The first millisecond of 2020. *)
Definition millis_since_unix : Z := 1577836800000.

Section Facts.
Context (shift mshift sbits : Z) (Hs : 0 <= sbits <= shift) (Hm : 0 <= mshift) (Hw : shift + 42 <= 64).

Lemma construct_value {E} ts sq id : 0 <= ts -> 0 <= sq ->
  construct_snowflake shift mshift sbits (E := E) ts sq = Ok id ->
  id = ts * 2 ^ shift + sq /\ ts < 2 ^ 42 /\ sq < 2 ^ sbits.
Proof.
  intros Ht Hq. unfold construct_snowflake, exceeds_timestamp, exceeds_sequence_number.
  rewrite !Z.shiftl_1_l. destruct (Z.leb_spec (2 ^ 42) ts), (Z.leb_spec (2 ^ sbits) sq); try done. intros [= <-].
  split; [|done]. unfold machine_id. rewrite Z.shiftl_0_l. unfold wrap at 2. rewrite Z.mod_0_l by lia. rewrite Z.lor_0_r.
  assert (2 ^ sbits <= 2 ^ shift) by (apply Z.pow_le_mono_r; lia).
  assert (ts * 2 ^ shift < 2 ^ 64).
  { apply Z.lt_le_trans with (2 ^ 42 * 2 ^ shift); [apply Z.mul_lt_mono_pos_r; lia|].
    rewrite <- Z.pow_add_r by lia. apply Z.pow_le_mono_r; lia. }
  rewrite Z.shiftl_mul_pow2 by lia. rewrite wrap_small by (unfold in_u; nia).
  rewrite <- Z.add_nocarry_lor; [done|]. apply Z.bits_inj'. intros i Hi. rewrite Z.land_spec, Z.bits_0.
  destruct (Z.ltb_spec i shift); [by rewrite Z.mul_pow2_bits_low|].
  rewrite <- (Z.mod_small sq (2 ^ shift)) by lia. rewrite (Z.mod_pow2_bits_high sq) by lia. apply andb_false_r.
Qed.
Lemma layout_roundtrip {E} ts sq id : 0 <= ts -> 0 <= sq ->
  construct_snowflake shift mshift sbits (E := E) ts sq = Ok id ->
  timestamp shift id = ts /\ sequence_number sbits id = sq /\ 0 <= id < 2 ^ (shift + 42).
Proof.
  intros Ht Hq Hc. apply construct_value in Hc as (-> & Hts & Hsq); [|done..].
  assert (2 ^ sbits <= 2 ^ shift) by (apply Z.pow_le_mono_r; lia).
  assert (0 < 2 ^ shift) by (apply Z.pow_pos_nonneg; lia).
  unfold timestamp, sequence_number. rewrite Z.shiftr_div_pow2, Z.div_add_l, Z.div_small by lia. split; [lia|]. split.
  - rewrite Z.shiftl_1_l. replace (2 ^ sbits - 1) with (Z.ones sbits) by (rewrite Z.ones_equiv; lia).
    rewrite Z.land_ones by lia. replace shift with (sbits + (shift - sbits)) by lia. rewrite Z.pow_add_r by lia.
    rewrite Z.add_comm. replace (ts * (2 ^ sbits * 2 ^ (shift - sbits))) with (ts * 2 ^ (shift - sbits) * 2 ^ sbits) by ring.
    rewrite Z.mod_add by lia. by apply Z.mod_small.
  - rewrite Z.pow_add_r by lia. nia.
Qed.
End Facts.

(** The identifiers of the server: both fields come back, they are ordered by timestamp and
    then by sequence number, and they take 56 bits (the comment of the layout speaks of 53,
    what a JavaScript number holds). *)
Theorem my_snowflake_roundtrip {E} ts sq id : 0 <= ts -> 0 <= sq -> my_construct (E := E) ts sq = Ok id ->
  my_timestamp id = ts /\ my_sequence_number id = sq /\ 0 <= id < 2 ^ 56.
Proof. apply layout_roundtrip; lia. Qed.
Theorem my_snowflake_ordered {E} t1 s1 i1 t2 s2 i2 : 0 <= t1 -> 0 <= s1 -> 0 <= t2 -> 0 <= s2 ->
  my_construct (E := E) t1 s1 = Ok i1 -> my_construct (E := E) t2 s2 = Ok i2 ->
  t1 < t2 \/ (t1 = t2 /\ s1 < s2) -> i1 < i2.
Proof.
  intros ? ? ? ? H1 H2. apply construct_value in H1 as (-> & ? & ?), H2 as (-> & ? & ?); try lia.
Qed.
Theorem normal_snowflake_roundtrip {E} ts sq id : 0 <= ts -> 0 <= sq -> normal_construct (E := E) ts sq = Ok id ->
  normal_timestamp id = ts /\ normal_sequence_number id = sq /\ 0 <= id < 2 ^ 64.
Proof. apply layout_roundtrip; lia. Qed.
End Snowflake.
