(* ===== verification/Secret.v ===== *)
(** * Keys of nodes and servers, and where they are kept

    vlink-core/src: secret.rs, base64.rs, rw_map.rs; vlinkd/src/storage.rs;
    headlink/src/server.rs, [VlinkServer::new]. A node keeps its key in a JSON file, a server
    in a row of its database; both make one when there is none. The crates base64, hex,
    serde_json, crypto_box and x25519-dalek are the class [SecretLibs], files [FsHost]. *)

From S2P Require Import Prelude Bytes Host.

Module Secret.

Class SecretLibs := {
  x25519_public : bytes -> bytes;
  base64_encode : bytes -> string;
  base64_decode : string -> option bytes;
  hex_encode : bytes -> string;
  hex_decode : string -> option bytes;
  salsa_box_encrypt : bytes -> bytes -> bytes -> bytes -> option bytes;
  json_of_str : string -> option string;
  str_of_json : string -> option string;
  json_of_config : string -> option string;
  config_of_json : string -> option string;
}.
(** Decoding undoes encoding; a string, and a struct with one string field, come back from
    their JSON text. *)
Class SecretLaws `{SecretLibs} : Prop := {
  hex_inverse : forall b, hex_decode (hex_encode b) = Some b;
  json_inverse : forall s t, json_of_str s = Some t -> str_of_json t = Some s;
  config_inverse : forall s t, json_of_config s = Some t -> config_of_json t = Some s;
}.

(** ** rw_map.rs

    A map behind a lock; the guards of [read_lock] and [write_lock] give the map itself. *)
Section RwMap.
Context {K V : Type} `{Countable K}.
Abbreviation RwMap := (gmap K V).
Definition RwMap_new : RwMap := ∅.
Definition RwMap_insert (m : RwMap) (key : K) (value : V) : RwMap * option V := (<[key := value]> m, m !! key).
Definition RwMap_remove (m : RwMap) (key : K) : RwMap * option V := (delete key m, m !! key).
(** [From<Vec<(K, V)>>]: a later entry replaces an earlier one. *)
Definition RwMap_from_vec (l : list (K * V)) : RwMap := foldl (fun m '(k, v) => <[k := v]> m) RwMap_new l.
End RwMap.

(** Entries of [From<Vec<(K, V)>>]: the last one for each key. *)
Lemma RwMap_from_vec_lookup {K V} `{Countable K} (l : list (K * V)) k :
  RwMap_from_vec l !! k = snd <$> list.last (filter (fun e => e.1 = k) l).
Proof.
  unfold RwMap_from_vec. induction l as [|[k' v] l IH] using rev_ind; [done|].
  rewrite foldl_app, filter_app. cbn [foldl]. destruct (decide (k' = k)) as [->|Hne].
  - rewrite lookup_insert_eq, filter_cons_True by done. rewrite filter_nil. by rewrite last_snoc.
  - rewrite lookup_insert_ne, IH by done. rewrite filter_cons_False, filter_nil by done. by rewrite app_nil_r.
Qed.

Section Secret.
Context `{SecretLibs}.

(** ** base64.rs *)
Definition decode_base64_key {E} (s : string) : res E bytes :=
  b ← unwrap_opt (base64_decode s);
  if (length b =? 32)%nat then Ok b else Panic.

(** ** secret.rs *)

Record VlinkStaticSecret := mkVlinkStaticSecret { private_key : bytes; public_key : bytes }.

(** [random] are the 32 bytes drawn. *)
Definition generate (random : bytes) : VlinkStaticSecret := mkVlinkStaticSecret random (x25519_public random).
Definition base64_pub (s : VlinkStaticSecret) : string := base64_encode (public_key s).
Definition hex_private (s : VlinkStaticSecret) : string := hex_encode (private_key s).

Inductive SecretError := EncryptError | HexError | JsonError | DirError | IoErr | DbErr.

Definition HELLO : bytes := [x68; x65; x6c; x6c; x6f].
Definition hello_sign (s : VlinkStaticSecret) (target_pub : bytes) : res SecretError string :=
  nonce ← slice 0 24 target_pub;
  ciphertext ← ok_or EncryptError (salsa_box_encrypt target_pub (private_key s) nonce HELLO);
  Ok (base64_encode ciphertext).

Definition serialize (s : VlinkStaticSecret) : string := hex_private s.
(** [&bytes[..32]] panics on a shorter key; more bytes are ignored. *)
Definition deserialize (key : string) : res SecretError VlinkStaticSecret :=
  b ← ok_or HexError (hex_decode key);
  array ← slice 0 32 b;
  Ok (mkVlinkStaticSecret array (x25519_public array)).

(** ** vlinkd/src/storage.rs

    [fs] is the file system together with the operations of tokio's files that are still to
    run: [write_all] may return before its write is done, which goes on after the file is
    dropped unless the file is flushed, and [load_config] does not flush. [fs_idle] says that
    nothing is still to run; [fs_settle] waits until that is so and tells whether everything
    went well. *)

Class FsHost := {
  fs : Type;
  FsError : Type;
  File : Type;
  fs_open : string -> fs -> fs * (FsError + File);
  fs_read : File -> fs -> fs * (FsError + string);
  fs_create_dir_all : string -> fs -> fs * (FsError + unit);
  fs_create : string -> fs -> fs * (FsError + File);
  fs_write_all : File -> string -> fs -> fs * (FsError + unit);
  fs_idle : fs -> Prop;
  fs_settle : fs -> fs * (FsError + unit);
}.
Context `{FsHost}.
Abbreviation fio := (io fs SecretError).
Definition fcall {A} (c : fs -> fs * (FsError + A)) : fio A := io_map_err (fun _ => IoErr) (sys c).

(** [Path::join] with a relative name. *)
Fixpoint ends_with_slash (s : string) : bool :=
  match s with
  | "" => false
  | String.String c "" => Ascii.eqb c (Ascii.ascii_of_nat 47)
  | String.String _ s => ends_with_slash s
  end%string.
Definition path_join (dir name : string) : string :=
  if String.eqb dir "" || ends_with_slash dir then dir +:+ name else dir +:+ "/" +:+ name.

(** [project_dir] is [ProjectDirs::from(..)] with its configuration directory. *)
Definition config_dir (project_dir : option string) (path : option string) : res SecretError string :=
  match path with
  | None => ok_or DirError project_dir
  | Some s => Ok s
  end.

Definition load_config (project_dir path : option string) (random : bytes) : fio VlinkStaticSecret :=
  cp ← pure_res (config_dir project_dir path);
  let key := path_join cp "config.json" in
  file ← try (fcall (fs_open key));
  match file with
  | inr f =>
      pvk ← fcall (fs_read f);
      field ← pure_res (ok_or JsonError (config_of_json pvk));
      pure_res (deserialize field)
  | inl _ =>
      _ ← fcall (fs_create_dir_all cp);
      file ← fcall (fs_create key);
      let secret := generate random in
      txt ← pure_res (ok_or JsonError (json_of_config (serialize secret)));
      _ ← fcall (fs_write_all file txt);
      mret secret
  end.

(** ** headlink/src/server.rs, [VlinkServer::new]

    [db] is the table [config]; [find_ok] and [insert_ok] whether its queries succeed. *)
Definition SECRET_KEY : string := "secret".
Definition server_secret (find_ok insert_ok : bool) (random : bytes) (db : gmap string string)
    : gmap string string * res SecretError VlinkStaticSecret :=
  if negb find_ok then (db, Err DbErr)
  else
    match db !! SECRET_KEY with
    | None =>
        let secret := generate random in
        match json_of_str (serialize secret) with
        | None => (db, Err JsonError)
        | Some secret_str =>
            if insert_ok then (<[SECRET_KEY := secret_str]> db, Ok secret) else (db, Err DbErr)
        end
    | Some value => (db, s ← ok_or JsonError (str_of_json value); deserialize s)
    end.
End Secret.

(** Opening and reading a file change nothing; neither opening one nor making a directory
    leaves anything to run. A file that is made and written while nothing else was to run has
    what was written once the write is done without an error. *)
Class FsLaws `{FsHost} : Prop := {
  fs_open_pure : forall p w w' f, fs_open p w = (w', inr f) -> w' = w;
  fs_read_pure : forall f w w' t, fs_read f w = (w', inr t) -> w' = w;
  fs_open_idle : forall p w w' r, fs_idle w -> fs_open p w = (w', r) -> fs_idle w';
  fs_dir_idle : forall p w w' r, fs_idle w -> fs_create_dir_all p w = (w', r) -> fs_idle w';
  fs_written : forall p w w1 f w2 txt w3, fs_idle w -> fs_create p w = (w1, inr f) ->
    fs_write_all f txt w1 = (w2, inr tt) -> fs_settle w2 = (w3, inr tt) ->
    exists f', fs_open p w3 = (w3, inr f') /\ fs_read f' w3 = (w3, inr txt);
}.

Section Persist.
Context `{SecretLaws, FsLaws}.

Lemma deserialize_serialize r : length r = 32%nat -> deserialize (serialize (generate r)) = Ok (generate r).
Proof.
  intros Hl. unfold deserialize, serialize, hex_private. rewrite hex_inverse. cbn [ok_or mbind res_bind private_key generate].
  by rewrite slice_all by done.
Qed.

(** A key file that decodes to fewer than 32 bytes panics, a longer one is cut. *)
Lemma deserialize_length key b : hex_decode key = Some b ->
  deserialize key = if (32 <=? length b)%nat then Ok (mkVlinkStaticSecret (take 32 b) (x25519_public (take 32 b))) else Panic.
Proof.
  intros Hk. unfold deserialize. rewrite Hk. cbn [ok_or mbind res_bind]. unfold slice.
  destruct (Nat.leb_spec 32 (length b)) as [Hl|Hl]; [rewrite decide_True by lia|by rewrite decide_False by lia].
  done.
Qed.

Lemma fcall_Ok_inv {A} (c : fs -> fs * (FsError + A)) w w' a : fcall c w = (w', Ok a) -> c w = (w', inr a).
Proof. unfold fcall, io_map_err, sys. destruct (c w) as [? []]; cbn; intros; by simplify_eq. Qed.
Lemma fcall_of {A} (c : fs -> fs * (FsError + A)) w w' a : c w = (w', inr a) -> fcall c w = (w', Ok a).
Proof. unfold fcall, io_map_err, sys. by intros ->. Qed.

(** Loading from a file that is there. *)
Lemma load_config_file pd path cp r w f txt field s :
  config_dir pd path = Ok cp -> fs_open (path_join cp "config.json") w = (w, inr f) -> fs_read f w = (w, inr txt) ->
  config_of_json txt = Some field -> deserialize field = Ok s ->
  load_config pd path r w = (w, Ok s).
Proof.
  intros Hc Ho Hr Hj Hd. unfold load_config, mbind, io_bind, try. rewrite Hc.
  cbn [pure_res]. rewrite (fcall_of _ _ _ _ Ho), (fcall_of _ _ _ _ Hr). unfold pure_res. rewrite Hj. cbn [ok_or]. by rewrite Hd.
Qed.

Lemma server_secret_again r r' db db' s insert_ok : length r = 32%nat ->
  server_secret true true r db = (db', Ok s) -> server_secret true insert_ok r' db' = (db', Ok s).
Proof.
  intros Hlen. unfold server_secret. cbn [negb]. destruct (db !! SECRET_KEY) as [v|] eqn:Hv.
  - intros [= <- Hs]. by rewrite Hv, Hs.
  - destruct (json_of_str _) as [t|] eqn:Hj; [|done]. intros [= <- <-]. rewrite lookup_insert_eq.
    rewrite (json_inverse _ _ Hj). cbn [ok_or mbind res_bind]. by rewrite deserialize_serialize.
Qed.
(** The state [w2] a later start finds: a start on [w] left [w']; if it made the key file
    [key], the write has been done since, without an error. *)
Definition next_start (key : string) (w w' w2 : fs) : Prop :=
  match (fs_open key w).2 with
  | inr _ => w2 = w'
  | inl _ => fs_settle w' = (w2, inr tt)
  end.
Lemma next_start_refl key w f : fs_open key w = (w, inr f) -> next_start key w w w.
Proof. unfold next_start. by intros ->. Qed.

Lemma load_config_again pd path cp r r' w w' w2 s :
  length r = 32%nat -> fs_idle w -> config_dir pd path = Ok cp ->
  load_config pd path r w = (w', Ok s) -> next_start (path_join cp "config.json") w w' w2 ->
  load_config pd path r' w2 = (w2, Ok s) /\ next_start (path_join cp "config.json") w2 w2 w2.
Proof.
  intros Hlen Hidle Hcp Hl Hnext. unfold load_config in Hl. io_inv Hl. unfold pure_res in Hl0. rewrite Hcp in Hl0.
  injection Hl0 as -> ->. io_inv Hl. unfold try in Hl0. unfold next_start in Hnext. destruct a0 as [e|f].
  + io_inv Hl. io_inv Hl. io_inv Hl. unfold pure_res in Hl3. injection Hl3 as -> Htxt. io_inv Hl. injection Hl as -> <-.
    apply fcall_Ok_inv in Hl1, Hl2, Hl3. repeat match goal with u : () |- _ => destruct u end.
    unfold fcall, io_map_err, sys in Hl0.
    destruct (fs_open (path_join a "config.json") w0) as [wo [e'|f']] eqn:Ho; [|done].
    injection Hl0 as -> _. cbn [snd] in Hnext.
    assert (fs_idle w1) as Hidle1 by (eapply fs_dir_idle, Hl1; by eapply fs_open_idle).
    destruct (fs_written _ _ _ _ _ _ _ Hidle1 Hl2 Hl3 Hnext) as (f' & Ho' & Hr').
    destruct (json_of_config _) as [t|] eqn:Hj in Htxt; [|done]. injection Htxt as <-. apply config_inverse in Hj.
    split; [|by eapply next_start_refl]. eapply load_config_file; [done..|]. by apply deserialize_serialize.
  + destruct (fcall _ _) as [? [| |]] eqn:Ho in Hl0; simplify_eq. apply fcall_Ok_inv in Ho.
    io_inv Hl. apply fcall_Ok_inv in Hl0. io_inv Hl. unfold pure_res in Hl, Hl1. injection Hl1 as -> Hj. injection Hl as -> Hd.
    pose proof (fs_open_pure _ _ _ _ Ho) as ->. pose proof (fs_read_pure _ _ _ _ Hl0) as ->.
    rewrite Ho in Hnext. cbn [snd] in Hnext. subst w2.
    destruct (config_of_json _) as [field|] eqn:Hfield in Hj; [|done]. injection Hj as ->.
    split; [by eapply load_config_file|by eapply next_start_refl].
Qed.

(** A file that does not hold a configuration is not replaced. *)
Lemma load_config_bad_file pd path cp r w f txt :
  config_dir pd path = Ok cp -> fs_open (path_join cp "config.json") w = (w, inr f) -> fs_read f w = (w, inr txt) ->
  config_of_json txt = None -> load_config pd path r w = (w, Err JsonError).
Proof.
  intros Hc Ho Hr Hj. unfold load_config, mbind, io_bind, try. rewrite Hc.
  cbn [pure_res]. rewrite (fcall_of _ _ _ _ Ho), (fcall_of _ _ _ _ Hr). unfold pure_res. by rewrite Hj.
Qed.

(** C35: a node and a server keep their key. When [load_config] returns a key that was in the
    file, or one it made whose write - which it does not wait for - was done without an error
    before the next start, it returns the same key at that start and at all that follow,
    whatever random bytes they would draw, and writes nothing more. If instead a start finds
    the file without a configuration in it, as it is from its creation until the write is
    done, it fails and leaves the file as it is, so every later start fails too. A server
    whose database answers has the same key at every start. *)
Theorem keys_persist pd path cp r r' w w' w2 s db db' sv :
  length r = 32%nat -> fs_idle w -> config_dir pd path = Ok cp ->
  let key := path_join cp "config.json" in
  (load_config pd path r w = (w', Ok s) -> next_start key w w' w2 ->
     load_config pd path r' w2 = (w2, Ok s) /\ next_start key w2 w2 w2) /\
  (forall f txt, fs_open key w2 = (w2, inr f) -> fs_read f w2 = (w2, inr txt) -> config_of_json txt = None ->
     load_config pd path r' w2 = (w2, Err JsonError)) /\
  (server_secret true true r db = (db', Ok sv) -> forall insert_ok, server_secret true insert_ok r' db' = (db', Ok sv)).
Proof.
  intros Hlen Hidle Hcp. split; [|split].
  - by eapply load_config_again.
  - intros f txt. by apply load_config_bad_file.
  - intros Hs i. by eapply server_secret_again.
Qed.
End Persist.

(** ** Concrete libraries

    Texts that are their own encoding; a file system with its files by path, the writes still
    to run, and whether its disk has room for them. *)
Module ToySecret.
Fixpoint enc (b : bytes) : string :=
  match b with [] => ""%string | x :: b => String.String (Ascii.ascii_of_byte x) (enc b) end.
Fixpoint dec (s : string) : bytes :=
  match s with ""%string => [] | String.String c s => Ascii.byte_of_ascii c :: dec s end.

#[local] Instance lib : SecretLibs := {|
  x25519_public b := reverse b;
  base64_encode := enc;
  base64_decode s := Some (dec s);
  hex_encode := enc;
  hex_decode s := Some (dec s);
  salsa_box_encrypt _ _ _ m := Some m;
  json_of_str s := Some s;
  str_of_json s := Some s;
  json_of_config s := Some ("c" +:+ s);
  config_of_json s := match s with String.String _ s => Some s | _ => None end;
|}.
#[local] Instance laws : SecretLaws.
Proof.
  split; cbn.
  - intros b. f_equal. induction b as [|x b IH]; [done|]. cbn. by rewrite Ascii.byte_of_ascii_of_byte, IH.
  - by intros s t [= ->].
  - by intros s t [= <-].
Qed.
#[local] Instance files : FsHost := {|
  fs := gmap string string * list (string * string) * bool; FsError := unit; File := string;
  fs_open p w := (w, match w.1.1 !! p with Some _ => inr p | None => inl tt end);
  fs_read f w := (w, match w.1.1 !! f with Some t => inr t | None => inl tt end);
  fs_create_dir_all _ w := (w, inr tt);
  fs_create p w := (<[p := ""%string]> w.1.1, w.1.2, w.2, inr p);
  fs_write_all f t w := (w.1.1, w.1.2 ++ [(f, t)], w.2, inr tt);
  fs_idle w := w.1.2 = [];
  fs_settle w :=
    if w.2 then (foldl (fun m '(f, t) => <[f := t]> m) w.1.1 w.1.2, [], w.2, inr tt)
    else (w.1.1, [], w.2, if w.1.2 is [] then inr tt else inl tt);
|}.
#[local] Instance files_laws : FsLaws.
Proof.
  split; cbn.
  - intros p w w' f. by intros [= <- _].
  - intros p w w' f. by intros [= <- _].
  - intros p w w' r Hw. by intros [= <- _].
  - intros p w w' r Hw. by intros [= <- _].
  - intros p [[m l] room] w1 f w2 txt w3 Hw. cbn in Hw. subst l. intros [= <- <-] [= <-]. cbn.
    destruct room; [|done]. intros [= <-]. exists p. cbn. by rewrite lookup_insert_eq.
Qed.
End ToySecret.

Section Witnesses.
#[local] Existing Instance ToySecret.lib.
#[local] Existing Instance ToySecret.laws.
#[local] Existing Instance ToySecret.files.
#[local] Existing Instance ToySecret.files_laws.

Definition toy_random (b : byte) : bytes := replicate 32 b.
Definition toy_disk (room : bool) : fs := (∅, [], room).
Definition toy_path : option string := Some "/etc/vlink"%string.
(** What the first start leaves, and what a later one finds. *)
Definition toy_files (room : bool) : fs := (load_config None toy_path (toy_random x41) (toy_disk room)).1.
Definition toy_later (room : bool) : fs := (fs_settle (toy_files room)).1.
Definition toy_db : gmap string string := (server_secret true true (toy_random x41) ∅).1.

(** A node whose first start had room on its disk keeps its key; one whose disk was full was
    told a key too, and never starts again. *)
Lemma keys_persist_witness :
  load_config None toy_path (toy_random x41) (toy_disk true) = (toy_files true, Ok (generate (toy_random x41))) /\
  load_config None toy_path (toy_random x42) (toy_later true) = (toy_later true, Ok (generate (toy_random x41))) /\
  load_config None toy_path (toy_random x41) (toy_disk false) = (toy_files false, Ok (generate (toy_random x41))) /\
  load_config None toy_path (toy_random x42) (toy_later false) = (toy_later false, Err JsonError) /\
  server_secret true true (toy_random x42) toy_db = (toy_db, Ok (generate (toy_random x41))).
Proof.
  assert (load_config None toy_path (toy_random x41) (toy_disk true) = (toy_files true, Ok (generate (toy_random x41)))) as Hw
    by (vm_compute; reflexivity).
  pose proof (fun room => keys_persist (H := ToySecret.lib) (H1 := ToySecret.files) None toy_path "/etc/vlink" (toy_random x41) (toy_random x42)
    (toy_disk room) (toy_files room) (toy_later room) (generate (toy_random x41)) ∅ toy_db (generate (toy_random x41))
    eq_refl eq_refl eq_refl) as Hk.
  destruct (Hk true) as (H1 & _ & H3). destruct (Hk false) as (_ & H2 & _).
  split; [exact Hw|]. split; [apply H1; [exact Hw|vm_compute; reflexivity]|]. split; [vm_compute; reflexivity|].
  split; [|apply H3; vm_compute; reflexivity].
  apply (H2 (path_join "/etc/vlink" "config.json") ""%string); vm_compute; reflexivity.
Defined.
End Witnesses.
End Secret.
