(* ===== verification/Headlink.v ===== *)
(** * The registration server (headlink/src)

    server.rs, network.rs, peer.rs, client.rs, client/dispatcher.rs, client/handler/*.rs and
    the connection loop of main.rs: clients connect, identify themselves by public key, ask
    for their configuration (an address is allocated on first use), announce themselves, and
    the server forwards messages between the peers of a network.

    The state is the one all tasks share behind [Arc]s: the connections, the cached networks
    and the rows of the database. A connection is named by a number; clones of a
    [ClientConnect] share its cell and its queue. Each handler is a function of the state, run
    to its end; [ReqConfig] is also split where it awaits the database. A HashMap is iterated
    in the order of [map_to_list], which stands for an arbitrary one. *)

From S2P Require Import Prelude Abi.

Module Headlink.

(** ** The database (db/entity/*.rs): the columns the server reads, rows in the order of the
    tables. *)

Record PeerModel := mkPeerModel {
  pm_id : Z;
  pm_pub_key : string;
  pm_ip : option string;
  pm_default_proto : option string;
  pm_endpoint_addr : option string;
  pm_port : option Z;
  pm_network_id : Z;
  pm_disabled : bool;
}.
Record NetworkModel := mkNetworkModel { nm_network_id : Z; nm_cidr : string }.
Record NetworkTokenModel := mkNetworkTokenModel { nt_token : string; nt_network_id : Z; nt_disabled : bool }.
Record PeerExtraTransportModel := mkPeerExtraTransportModel {
  xt_disabled : bool; xt_peer_id : Z; xt_proto : string; xt_params : string;
}.
(** [db_up]: whether queries succeed. *)
Record Db := mkDb {
  db_up : bool;
  t_networks : list NetworkModel;
  t_tokens : list NetworkTokenModel;
  t_peers : list PeerModel;
  t_transports : list PeerExtraTransportModel;
}.

(** ** Errors *)

(** The messages of [anyhow!], one constructor per text. *)
Inductive Reason :=
| TokenMissing
| TokenDisabled
| PeerUnregistered
| SetError
| PeerConnected (pub_key : string)
| BadHandshake
| NetworkMissing
| BadCidr
| DbErr
| NoAddress
| SendFailed.
Inductive ExecuteError :=
| Message
| StrMessage
| DbError
| AnyhowError (r : Reason)
| ParseError
| PeerNotFound
| IpNotMatch
| IpNotFound.
Definition code (e : ExecuteError) : Z := -1.

(** The crate ip_network: parsing of a prefix, its first address, its length, and its
    addresses in order. *)
Class Ipv4NetworkLib := {
  Ipv4Network : Type;
  cidr_from_str : string -> option Ipv4Network;
  network_address : Ipv4Network -> Z;
  prefix_len : Ipv4Network -> Z;
  addresses : Ipv4Network -> list Z;
}.

(** ** State (peer.rs, network.rs, server.rs, client.rs) *)

Record OnlineInfo := mkOnlineInfo {
  connect : nat;
  oi_port : Z;
  oi_endpoint_addr : option string;
  extra_endpoints : gmap string string;
}.
Record VlinkPeer := mkVlinkPeer { vp_pub_key : string; model : PeerModel; online_info : option OnlineInfo }.
Definition is_online (p : VlinkPeer) : bool := match online_info p with Some _ => true | None => false end.
Definition VlinkPeer_from (m : PeerModel) : VlinkPeer := mkVlinkPeer (pm_pub_key m) m None.

Record PeerConnect := mkPeerConnect { direction : bool; pc_proto : string }.

Record ClientId := mkClientId { ci_pub_key : string; ci_network_id : Z }.
(** How far [process_client] is: before the handshake, after it, ended, cleaned up. *)
Inductive Phase := AwaitHandshake | Running (id : ClientId) | Closing | Closed.
(** [last_id] is the counter of [to_client_handler], [client_id] the [OnceLock]. *)
Record Conn := mkConn { addr : string; client_id : option ClientId; last_id : Z; phase : Phase }.

(** [Peers::new]: a later row with the same key replaces an earlier one. *)
Definition Peers_new (ps : list VlinkPeer) : gmap string VlinkPeer :=
  foldl (fun m p => <[pm_pub_key (model p) := p]> m) ∅ ps.
Definition Peers_offline (ps : gmap string VlinkPeer) (pub_key : string) : gmap string VlinkPeer :=
  alter (fun p => mkVlinkPeer (vp_pub_key p) (model p) None) pub_key ps.
Definition refresh_model (ps : gmap string VlinkPeer) (m : PeerModel) : gmap string VlinkPeer :=
  alter (fun p => mkVlinkPeer (vp_pub_key p) m (online_info p)) (pm_pub_key m) ps.

Section Server.
Context `{Ipv4NetworkLib}.

Record VlinkNetwork := mkVlinkNetwork {
  network_id : Z;
  cidr : Ipv4Network;
  peers : gmap string VlinkPeer;
  connects : gmap string PeerConnect;
}.
Definition with_peers (n : VlinkNetwork) (ps : gmap string VlinkPeer) : VlinkNetwork :=
  mkVlinkNetwork (network_id n) (cidr n) ps (connects n).

Record Server := mkServer {
  clients : gmap string nat;
  networks : gmap Z VlinkNetwork;
  db : Db;
  conns : gmap nat Conn;
}.
Definition with_networks (s : Server) (ns : gmap Z VlinkNetwork) : Server := mkServer (clients s) ns (db s) (conns s).
Definition with_conns (s : Server) (cs : gmap nat Conn) : Server := mkServer (clients s) (networks s) (db s) cs.
Definition with_db (s : Server) (d : Db) : Server := mkServer (clients s) (networks s) d (conns s).
Definition Server_new (d : Db) : Server := mkServer ∅ ∅ d ∅.

(** What goes out on a connection. *)
Definition Out : Type := nat * ToClient ExecuteError.

(** The ids of [to_client_handler]: the counter after the message, and the id it takes. *)
Definition to_client_id (last : Z) (id : option Z) : Z * Z :=
  match id with
  | Some i => (last, i)
  | None => let n := wrap 64 (last + 1) in (n, n)
  end.
(** [ClientConnect::send] with the turn of [to_client_handler] that serves it; what is returned
    is the counter. A connection that has ended takes no
    message. *)
Definition send (s : Server) (c : nat) (id : option Z) (data : ToClientData ExecuteError)
    : Server * list Out * option Z :=
  match conns s !! c with
  | None => (s, [], None)
  | Some k =>
      match phase k with
      | Closing | Closed => (s, [], None)
      | _ =>
          let '(n, use_id) := to_client_id (last_id k) id in
          (with_conns s (<[c := mkConn (addr k) (client_id k) n (phase k)]> (conns s)),
           [(c, mkToClient use_id (Some data))], Some n)
      end
  end.

(** [broadcast_by]: to every online peer that satisfies the predicate; failures are ignored. *)
Definition send_one (data : ToClientData ExecuteError) (acc : Server * list Out) (c : nat) : Server * list Out :=
  let '(s, o, _) := send acc.1 c None data in (s, acc.2 ++ o).
Definition send_each (data : ToClientData ExecuteError) (s : Server) (cs : list nat) : Server * list Out :=
  foldl (send_one data) (s, []) cs.
Definition online_conns (predict : string -> VlinkPeer -> bool) (n : VlinkNetwork) : list nat :=
  omap (fun '(k, p) => if predict k p then connect <$> online_info p else None) (map_to_list (peers n)).
Definition broadcast_by (s : Server) (n : VlinkNetwork) (data : ToClientData ExecuteError)
    (predict : string -> VlinkPeer -> bool) : Server * list Out :=
  send_each data s (online_conns predict n).
Definition broadcast_to (s : Server) (n : VlinkNetwork) (data : ToClientData ExecuteError) (include : list string)
    : Server * list Out :=
  match include with
  | [] => (s, [])
  | _ => broadcast_by s n data (fun k _ => bool_decide (k ∈ include))
  end.
Definition broadcast (s : Server) (n : VlinkNetwork) (data : ToClientData ExecuteError) (exclude : string)
    : Server * list Out :=
  broadcast_by s n data (fun k _ => bool_decide (exclude <> k)).
Definition broadcast_excludes (s : Server) (n : VlinkNetwork) (data : ToClientData ExecuteError) (exclude : list string)
    : Server * list Out :=
  broadcast_by s n data (fun k _ => bool_decide (k ∉ exclude)).

(** [VlinkNetworkInner::offline] on the network cached under its id. *)
Definition offline (s : Server) (nid : Z) (n : VlinkNetwork) (pub_key : string) : Server * list Out :=
  let n := with_peers n (Peers_offline (peers n) pub_key) in
  broadcast (with_networks s (<[nid := n]> (networks s))) n (TcPeerLeave (mkBcPeerLevel pub_key)) pub_key.

(** ** server.rs *)

Definition insert_client (s : Server) (a : string) (c : nat) : Server :=
  mkServer (<[a := c]> (clients s)) (networks s) (db s) (conns s).
Definition remove_client (s : Server) (a : string) : Server * option nat :=
  (mkServer (delete a (clients s)) (networks s) (db s) (conns s), clients s !! a).

Definition network_rows (d : Db) (nid : Z) : list PeerModel :=
  filter (fun r => pm_network_id r = nid) (t_peers d).
Definition get_network (s : Server) (nid : Z) : Server * res Reason VlinkNetwork :=
  match networks s !! nid with
  | Some n => (s, Ok n)
  | None =>
      if negb (db_up (db s)) then (s, Err DbErr)
      else
        match list_find (fun r => nm_network_id r = nid) (t_networks (db s)) with
        | None => (s, Err NetworkMissing)
        | Some (_, row) =>
            match cidr_from_str (nm_cidr row) with
            | None => (s, Err BadCidr)
            | Some c =>
                let n := mkVlinkNetwork (nm_network_id row) c
                  (Peers_new (VlinkPeer_from <$> network_rows (db s) (nm_network_id row))) ∅ in
                (with_networks s (<[nid := n]> (networks s)), Ok n)
            end
        end
  end.

(** ** The handshake (client.rs) *)

(** The network of a client: that of its token, or that of the first row with its key. *)
Definition handshake_network (s : Server) (r : ReqHandshake) : Server * res Reason Z :=
  match rh_token r with
  | Some tok =>
      if negb (db_up (db s)) then (s, Err DbErr)
      else
        match list_find (fun t => nt_token t = tok) (t_tokens (db s)) with
        | None => (s, Err TokenMissing)
        | Some (_, t) =>
            if nt_disabled t then (s, Err TokenDisabled)
            else let '(s, n) := get_network s (nt_network_id t) in (s, n ← n; Ok (network_id n))
        end
  | None =>
      if negb (db_up (db s)) then (s, Err DbErr)
      else
        match list_find (fun p => pm_pub_key p = rh_pub_key r) (t_peers (db s)) with
        | None => (s, Err PeerUnregistered)
        | Some (_, p) => (s, Ok (pm_network_id p))
        end
  end.

Definition set_client_id (s : Server) (c : nat) (id : ClientId) : Server * res Reason unit :=
  match conns s !! c with
  | Some k =>
      match client_id k with
      | Some _ => (s, Err SetError)
      | None => (with_conns s (<[c := mkConn (addr k) (Some id) (last_id k) (phase k)]> (conns s)), Ok tt)
      end
  | None => (s, Err SetError)
  end.

Definition handshake0 (s : Server) (c : nat) (data : option ToServerData) : Server * res Reason ClientId :=
  match data with
  | Some (TsHandshake r) =>
      match handshake_network s r with
      | (s, Ok nid) =>
          let id := mkClientId (rh_pub_key r) nid in
          match set_client_id s c id with
          | (s, Ok _) =>
              match get_network s nid with
              | (s, Ok n) =>
                  match peers n !! rh_pub_key r with
                  | Some p => if is_online p then (s, Err (PeerConnected (rh_pub_key r))) else (s, Ok id)
                  | None => (s, Ok id)
                  end
              | (s, Err e) => (s, Err e)
              | (s, Panic) => (s, Panic)
              end
          | (s, Err e) => (s, Err e)
          | (s, Panic) => (s, Panic)
          end
      | (s, Err e) => (s, Err e)
      | (s, Panic) => (s, Panic)
      end
  | _ => (s, Err BadHandshake)
  end.

(** ** Handlers (client/handler/*.rs) *)

Definition Handler : Type := Server * list Out * res ExecuteError unit.

Definition list_to_hashmap {V} : list (string * V) -> gmap string V :=
  foldl (fun m '(k, v) => <[k := v]> m) ∅.

Definition PeerEnter_execute (s : Server) (c : nat) (cid : ClientId) (r : PeerEnter) : Handler :=
  match get_network s (ci_network_id cid) with
  | (s, Ok n) =>
      match peers n !! ci_pub_key cid with
      | None => (s, [], Err PeerNotFound)
      | Some p =>
          if negb (String.eqb (pe_ip r) (default ""%string (pm_ip (model p)))) then (s, [], Err IpNotMatch)
          else
            let info := mkOnlineInfo c (pe_port r) (pe_endpoint_addr r)
              (list_to_hashmap ((fun x => (ee_proto x, ee_endpoint x)) <$> pe_extra_endpoints r)) in
            let n := with_peers n (<[ci_pub_key cid := mkVlinkPeer (vp_pub_key p) (model p) (Some info)]> (peers n)) in
            let s := with_networks s (<[ci_network_id cid := n]> (networks s)) in
            let '(s, out) := broadcast s n (TcPeerEnter (mkBcPeerEnter (ci_pub_key cid) (pe_ip r) (pe_endpoint_addr r)
              (pe_port r) None (ConnectionMode_i32 ModeBidirectional) true)) (ci_pub_key cid) in
            (s, out, Ok tt)
      end
  | (s, Err e) => (s, [], Err (AnyhowError e))
  | (s, Panic) => (s, [], Panic)
  end.

(** [ctx.network]: the network the connection was given after its handshake; it stays cached. *)
Definition ctx_network (s : Server) (cid : ClientId) : option VlinkNetwork := networks s !! ci_network_id cid.

Definition PeerLeave_execute (s : Server) (cid : ClientId) : Handler :=
  match ctx_network s cid with
  | Some n => let '(s, out) := offline s (ci_network_id cid) n (ci_pub_key cid) in (s, out, Ok tt)
  | None => (s, [], Ok tt)
  end.

Definition PeerForward_execute (s : Server) (cid : ClientId) (r : PeerForward) : Handler :=
  match ctx_network s cid, pf_data r with
  | Some n, Some (FdRequireReply q) =>
      let '(s, out) := broadcast_to s n (TcRequireReply q) [pf_target_pub_key r] in (s, out, Ok tt)
  | _, _ => (s, [], Ok tt)
  end.

(** handler/helpers.rs *)
Definition union_pub_key (a b : string) : string * bool :=
  if String.ltb a b then (a +:+ b, true) else (b +:+ a, false).

Definition DevHandshakeComplete_execute (s : Server) (cid : ClientId) (r : DevHandshakeComplete) : Handler :=
  match ctx_network s cid with
  | Some n =>
      let '(key, dir) := union_pub_key (ci_pub_key cid) (dh_target_pub_key r) in
      let n := mkVlinkNetwork (network_id n) (cidr n) (peers n) (<[key := mkPeerConnect dir (dh_proto r)]> (connects n)) in
      (with_networks s (<[ci_network_id cid := n]> (networks s)), [], Ok tt)
  | None => (s, [], Ok tt)
  end.

(** The map of endpoints is shared with the copy of the peer: the insert is seen in the
    network. *)
Definition ExtraEndpoint_execute (s : Server) (cid : ClientId) (r : ExtraEndpoint) : Handler :=
  match ctx_network s cid with
  | None => (s, [], Ok tt)
  | Some n =>
      match peers n !! ci_pub_key cid with
      | None => (s, [], Err PeerNotFound)
      | Some self =>
          let online := (fun i => mkOnlineInfo (connect i) (oi_port i) (oi_endpoint_addr i)
            (<[ee_proto r := ee_endpoint r]> (extra_endpoints i))) <$> online_info self in
          let n := with_peers n (<[ci_pub_key cid := mkVlinkPeer (vp_pub_key self) (model self) online]> (peers n)) in
          let s := with_networks s (<[ci_network_id cid := n]> (networks s)) in
          let data := TcUpdateExtraEndpoint (mkBcUpdateExtraEndpoint (vp_pub_key self) (ee_proto r) (ee_endpoint r)) in
          let is_default := match pm_default_proto (model self) with Some e => String.eqb e (ee_proto r) | None => false end in
          let broad_to := omap (fun '(k, p) =>
            if String.eqb k (ci_pub_key cid) then None
            else if negb (is_online p) then None
            else match connects n !! (union_pub_key (ci_pub_key cid) k).1 with
                 | None => if is_default then Some k else None
                 | Some _ => None
                 end) (map_to_list (peers n)) in
          let '(s, out) := broadcast_to s n data broad_to in
          (s, out, Ok tt)
      end
  end.

(** *** req_config.rs *)

(** The first address from the third on that is the text of no peer's address. *)
Definition generate_ip (c : Ipv4Network) (ps : gmap string VlinkPeer) : res Reason Z :=
  let peer_ips := omap (fun '(_, p) => pm_ip (model p)) (map_to_list ps) in
  match list_find (fun i => Forall (fun p => p <> ipv4_to_string i) peer_ips) (drop 2 (addresses c)) with
  | Some (_, i) => Ok i
  | None => Err NoAddress
  end.

(** What a request has read when it starts to write: its peer, the peers to report, its
    address and whether that was just generated. *)
Record ConfigPlan := mkConfigPlan {
  self_peer : VlinkPeer;
  plan_peers : list BcPeerEnter;
  plan_addr : Z;
  generated : bool;
}.
Definition peer_entry (k : string) (p : VlinkPeer) : option BcPeerEnter :=
  (fun ip => mkBcPeerEnter k ip (online_info p ≫= oi_endpoint_addr)
     (match online_info p with Some i => oi_port i | None => 0 end) None 3 (is_online p)) <$> pm_ip (model p).
Definition config_plan (s : Server) (cid : ClientId) : Server * res ExecuteError ConfigPlan :=
  match get_network s (ci_network_id cid) with
  | (s, Ok n) =>
      (s, self ← ok_or PeerNotFound (peers n !! ci_pub_key cid);
          let ps := omap (fun '(k, p) => peer_entry k p) (map_to_list (peers n)) in
          match pm_ip (model self) with
          | None => a ← map_err AnyhowError (generate_ip (cidr n) (peers n)); Ok (mkConfigPlan self ps a true)
          | Some e => a ← ok_or ParseError (ipv4_from_str e); Ok (mkConfigPlan self ps a false)
          end)
  | (s, Err e) => (s, Err (AnyhowError e))
  | (s, Panic) => (s, Panic)
  end.

Definition set_ip (m : PeerModel) (ip : string) : PeerModel :=
  mkPeerModel (pm_id m) (pm_pub_key m) (Some ip) (pm_default_proto m) (pm_endpoint_addr m) (pm_port m)
    (pm_network_id m) (pm_disabled m).
(** [PeerEntity::update] by primary key; no such row is an error. *)
Definition updated (id : Z) (ip : string) (r : PeerModel) : PeerModel := if pm_id r =? id then set_ip r ip else r.
Definition update_ip (d : Db) (id : Z) (ip : string) : option Db :=
  if db_up d && existsb (fun r => pm_id r =? id) (t_peers d) then
    Some (mkDb (db_up d) (t_networks d) (t_tokens d)
      (updated id ip <$> t_peers d) (t_transports d))
  else None.

(** One endpoint per peer: of several protocols the last one visited stays. *)
Definition extra_endpoints_map (ps : gmap string VlinkPeer) : gmap string (string * string) :=
  foldl (fun m '(k, p) =>
    match online_info p with
    | Some e => foldl (fun m '(proto, e) => <[k := (proto, e)]> m) m (map_to_list (extra_endpoints e))
    | None => m
    end) ∅ (map_to_list ps).

(** The writes: the row and the cached model, if the address is new. *)
Definition config_store (s : Server) (cid : ClientId) (p : ConfigPlan) : Server * res ExecuteError unit :=
  if generated p then
    let ip := ipv4_to_string (plan_addr p) in
    match update_ip (db s) (pm_id (model (self_peer p))) ip with
    | None => (s, Err DbError)
    | Some d =>
        (with_networks (with_db s d)
           (alter (fun n => with_peers n (refresh_model (peers n) (set_ip (model (self_peer p)) ip))) (ci_network_id cid) (networks s)), Ok tt)
    end
  else (s, Ok tt).

Definition config_reply (s : Server) (c : nat) (id : Z) (n : VlinkNetwork) (p : ConfigPlan) : Handler :=
  if negb (db_up (db s)) then (s, [], Err DbError)
  else
    let rows := filter (fun r => xt_peer_id r = pm_id (model (self_peer p)) /\ xt_disabled r = false) (t_transports (db s)) in
    let resp := mkRespConfig (network_id n) (plan_addr p) (prefix_len (cidr n)) (network_address (cidr n))
      (wrap 32 (default 0 (pm_port (model (self_peer p))))) None (plan_peers p)
      ((fun r => mkExtraTransport (xt_proto r) (xt_params r)) <$> rows)
      ((fun '(k, (proto, e)) => mkPeerExtraTransport k proto e 0) <$> map_to_list (extra_endpoints_map (peers n))) in
    let '(s, out, r) := send s c (Some id) (TcRespConfig resp) in
    (s, out, match r with Some _ => Ok tt | None => Err (AnyhowError SendFailed) end).

Definition config_commit (s : Server) (c : nat) (id : Z) (cid : ClientId) (p : ConfigPlan) : Handler :=
  match config_store s cid p with
  | (s, Ok _) =>
      match ctx_network s cid with
      | Some n => config_reply s c id n p
      | None => (s, [], Ok tt)
      end
  | (s, Err e) => (s, [], Err e)
  | (s, Panic) => (s, [], Panic)
  end.
Definition ReqConfig_execute (s : Server) (c : nat) (id : Z) (cid : ClientId) : Handler :=
  match config_plan s cid with
  | (s, Ok p) => config_commit s c id cid p
  | (s, Err e) => (s, [], Err e)
  | (s, Panic) => (s, [], Panic)
  end.

(** ** The dispatcher and the connection loop (dispatcher.rs, client.rs, main.rs) *)

Definition dispatch (s : Server) (c : nat) (id : Z) (cid : ClientId) (data : ToServerData) : Handler :=
  match data with
  | TsPeerEnter r => PeerEnter_execute s c cid r
  | TsPeerLeave => PeerLeave_execute s cid
  | TsPeerForward r => PeerForward_execute s cid r
  | TsReqConfig => ReqConfig_execute s c id cid
  | TsUpdateExtraEndpoint r => ExtraEndpoint_execute s cid r
  | TsDevHandshakeComplete r => DevHandshakeComplete_execute s cid r
  | _ => (s, [], Err StrMessage)
  end.

Definition set_phase (s : Server) (c : nat) (p : Phase) : Server :=
  with_conns s (alter (fun k => mkConn (addr k) (client_id k) (last_id k) p) c (conns s)).

(** A new connection: registered under its address, and sent the server's key. *)
Definition accept (info : RespServerInfo) (s : Server) (c : nat) (a : string) : Server * list Out :=
  let s := insert_client (with_conns s (<[c := mkConn a None 0 AwaitHandshake]> (conns s))) a c in
  let '(s, out, _) := send s c None (TcRespServerInfo info) in (s, out).

(** [await_handshake] on the first message: the outcome is reported, and a failure ends the
    connection. *)
Definition await_handshake (s : Server) (c : nat) (m : ToServer) : Server * list Out :=
  match handshake0 s c (to_server_data m) with
  | (s, Ok cid) =>
      let '(s, out, _) := send s c (Some (ts_id m)) (TcRespHandshake true None) in (set_phase s c (Running cid), out)
  | (s, Err e) =>
      let '(s, out, _) := send s c (Some (ts_id m)) (TcRespHandshake false (Some (AnyhowError e))) in (set_phase s c Closing, out)
  | (s, Panic) => (set_phase s c Closing, [])
  end.

(** One message of the loop of [process_client]; a failed report ends the connection. *)
Definition process_message (s : Server) (c : nat) (cid : ClientId) (m : ToServer) : Server * list Out :=
  match to_server_data m with
  | None => (s, [])
  | Some data =>
      match dispatch s c (ts_id m) cid data with
      | (s, out, Ok _) => (s, out)
      | (s, out, Err e) =>
          let '(s, out', r) := send s c (Some (ts_id m)) (TcError (code e) e) in
          (match r with Some _ => s | None => set_phase s c Closing end, out ++ out')
      | (s, out, Panic) => (set_phase s c Closing, out)
      end
  end.

(** After the event loop: the client is removed and its peer taken offline. *)
Definition disconnect (s : Server) (c : nat) (a : string) : Server * list Out :=
  let s := set_phase s c Closed in
  let '(s, cli) := remove_client s a in
  match (c ← cli; k ← conns s !! c; client_id k) with
  | Some id =>
      match get_network s (ci_network_id id) with
      | (s, Ok n) => offline s (ci_network_id id) n (ci_pub_key id)
      | (s, _) => (s, [])
      end
  | None => (s, [])
  end.

Inductive Event :=
| EvAccept (c : nat) (a : string)
| EvRecv (c : nat) (m : ToServer)
| EvDisconnect (c : nat).

Definition step (info : RespServerInfo) (s : Server) (e : Event) : Server * list Out :=
  match e with
  | EvAccept c a => match conns s !! c with None => accept info s c a | Some _ => (s, []) end
  | EvRecv c m =>
      match phase <$> conns s !! c with
      | Some AwaitHandshake => await_handshake s c m
      | Some (Running cid) => process_message s c cid m
      | _ => (s, [])
      end
  | EvDisconnect c =>
      match conns s !! c with
      | Some k => match phase k with Closed => (s, []) | _ => disconnect s c (addr k) end
      | None => (s, [])
      end
  end.
Definition run (info : RespServerInfo) (s : Server) (es : list Event) : Server * list Out :=
  foldl (fun '(s, out) e => let '(s, o) := step info s e in (s, out ++ o)) (s, []) es.


(** ** Lemmas: what the operations leave alone *)

(** The models the server works with, by network and key. *)
Definition models (s : Server) : gmap Z (gmap string PeerModel) := (fun n => model <$> peers n) <$> networks s.
(** Neither the models nor the rows of peers change. *)
Definition keeps (s s' : Server) : Prop := models s' = models s /\ t_peers (db s') = t_peers (db s).
#[global] Instance keeps_preorder : PreOrder keeps.
Proof. split; [done|]. intros x y z [? ?] [? ?]. split; congruence. Qed.

Lemma models_lookup s nid n : networks s !! nid = Some n -> models s !! nid = Some (model <$> peers n).
Proof. intros Hn. unfold models. by rewrite lookup_fmap, Hn. Qed.

Lemma send_keeps s c id data : keeps s (send s c id data).1.1.
Proof.
  unfold send. destruct (conns s !! c) as [k|]; [|done].
  destruct (phase k); try done; by destruct (to_client_id _ _).
Qed.
Lemma send_each_keeps data cs : forall acc, keeps acc.1 (foldl (send_one data) acc cs).1.
Proof.
  induction cs as [|c cs IH]; intros acc; cbn [foldl]; [done|]. etrans; [|apply IH].
  unfold send_one. pose proof (send_keeps acc.1 c None data) as Hk. by destruct (send _ _ _ _) as [[? ?] ?].
Qed.
Lemma broadcast_by_keeps s n data pr : keeps s (broadcast_by s n data pr).1.
Proof. apply (send_each_keeps data _ (s, [])). Qed.
Lemma broadcast_to_keeps s n data inc : keeps s (broadcast_to s n data inc).1.
Proof. unfold broadcast_to. destruct inc; [done|]. apply broadcast_by_keeps. Qed.

(** Rewriting a cached network with the same models. *)
Lemma insert_network_keeps s nid n n' : networks s !! nid = Some n -> model <$> peers n' = model <$> peers n ->
  keeps s (with_networks s (<[nid := n']> (networks s))).
Proof.
  intros Hn Hm. split; [|done]. unfold models. cbn [networks with_networks]. rewrite fmap_insert, Hm.
  apply insert_id. by rewrite lookup_fmap, Hn.
Qed.
Lemma insert_peer_models (ps : gmap string VlinkPeer) k p p' : ps !! k = Some p -> model p' = model p ->
  model <$> <[k := p']> ps = model <$> ps.
Proof. intros Hp Hm. rewrite fmap_insert, Hm. apply insert_id. by rewrite lookup_fmap, Hp. Qed.
Lemma offline_models (ps : gmap string VlinkPeer) k : model <$> Peers_offline ps k = model <$> ps.
Proof.
  apply map_eq. intros j. unfold Peers_offline. rewrite !lookup_fmap.
  destruct (decide (j = k)) as [->|]; [rewrite lookup_alter_eq|by rewrite lookup_alter_ne].
  by destruct (ps !! k).
Qed.
Lemma offline_keeps s nid n k : networks s !! nid = Some n -> keeps s (offline s nid n k).1.
Proof.
  intros Hn. unfold offline, broadcast. etrans; [|apply broadcast_by_keeps].
  eapply insert_network_keeps; [done|]. cbn. apply offline_models.
Qed.

(** ** Addresses *)

Lemma generate_ip_fresh c ps a : generate_ip c ps = Ok a ->
  a ∈ drop 2 (addresses c) /\ forall k p, ps !! k = Some p -> pm_ip (model p) <> Some (ipv4_to_string a).
Proof.
  unfold generate_ip. destruct (list_find _ _) as [[i b]|] eqn:Hf; [|done]. intros [= ->].
  apply list_find_Some in Hf as (Hi & Hall & _). split; [by eapply list_elem_of_lookup_2|].
  intros k p Hp Hip. rewrite Forall_forall in Hall. apply (Hall (ipv4_to_string a)); [|done].
  apply list_elem_of_omap. exists (k, p). split; [|done]. by apply elem_of_map_to_list.
Qed.

(** What holds of the server whatever the clients do, for a database whose rows have distinct
    ids and, within a network, distinct addresses. *)
Record Inv (s : Server) : Prop := mkInv {
  inv_ids : NoDup (pm_id <$> t_peers (db s));
  inv_rows n r1 r2 a : models s !! n = None -> r1 ∈ t_peers (db s) -> r2 ∈ t_peers (db s) ->
    pm_network_id r1 = n -> pm_network_id r2 = n -> pm_ip r1 = Some a -> pm_ip r2 = Some a ->
    pm_pub_key r1 = pm_pub_key r2;
  inv_model n ms k m : models s !! n = Some ms -> ms !! k = Some m ->
    pm_pub_key m = k /\ exists r, r ∈ t_peers (db s) /\ pm_id r = pm_id m /\ pm_network_id r = n;
  inv_uniq n ms k1 k2 m1 m2 a : models s !! n = Some ms -> ms !! k1 = Some m1 -> ms !! k2 = Some m2 ->
    pm_ip m1 = Some a -> pm_ip m2 = Some a -> k1 = k2;
}.
Lemma keeps_Inv s s' : keeps s s' -> Inv s -> Inv s'.
Proof. intros [Hm Hd] [H1 H2 H3 H4]. split; rewrite ?Hm, ?Hd; done. Qed.
Lemma ids_unique s r1 r2 : Inv s -> r1 ∈ t_peers (db s) -> r2 ∈ t_peers (db s) -> pm_id r1 = pm_id r2 -> r1 = r2.
Proof.
  intros [Hn _ _ _] [i Hi]%list_elem_of_lookup [j Hj]%list_elem_of_lookup Heq.
  assert (i = j) as ->; [|congruence].
  apply (NoDup_lookup _ i j (pm_id r1) Hn); rewrite list_lookup_fmap, ?Hi, ?Hj; cbn; congruence.
Qed.

(** The cache is filled from the rows. *)
Lemma Peers_new_lookup rows k p : Peers_new (VlinkPeer_from <$> rows) !! k = Some p ->
  exists r, r ∈ rows /\ p = VlinkPeer_from r /\ pm_pub_key r = k.
Proof.
  unfold Peers_new. assert (forall m : gmap string VlinkPeer, (forall k p, m !! k = Some p -> exists r, r ∈ rows /\ p = VlinkPeer_from r /\ pm_pub_key r = k) ->
    forall l, (forall r, r ∈ l -> r ∈ rows) ->
    foldl (fun m p => <[pm_pub_key (model p) := p]> m) m (VlinkPeer_from <$> l) !! k = Some p ->
    exists r, r ∈ rows /\ p = VlinkPeer_from r /\ pm_pub_key r = k) as Hfold.
  { intros m Hm l. revert m Hm. induction l as [|r l IH]; intros m Hm Hl; cbn [foldl fmap list_fmap]; [apply Hm|].
    apply IH; [|set_solver]. intros k' p'. cbn [model VlinkPeer_from].
    intros [[<- <-]|[_ ?]]%lookup_insert_Some; [|by apply Hm]. exists r. split; [set_solver|done]. }
  apply (Hfold ∅); [|done]. intros ? ?. by rewrite lookup_empty.
Qed.
Lemma get_network_spec s nid s' r : Inv s -> get_network s nid = (s', r) ->
  Inv s' /\ (forall n, r = Ok n -> networks s' !! nid = Some n) /\ db s' = db s.
Proof.
  intros HI. unfold get_network. destruct (networks s !! nid) as [n|] eqn:Hn.
  { intros [= <- <-]. split; [done|]. split; [by intros ? [= <-]|done]. }
  destruct (negb _); [intros [= <- <-]; done|].
  destruct (list_find _ _) as [[i row]|] eqn:Hf; [|intros [= <- <-]; done].
  destruct (cidr_from_str _) as [c|]; [|intros [= <- <-]; done]. intros [= <- <-].
  apply list_find_Some in Hf as (_ & Hrow & _). cbn in Hrow. subst nid.
  split; [|split; [intros ? [= <-]; cbn; by rewrite lookup_insert_eq|done]].
  assert (models s !! nm_network_id row = None) as Hnone by (unfold models; by rewrite lookup_fmap, Hn).
  destruct HI as [H1 H2 H3 H4]. split; cbn [db with_networks]; [done|..]; unfold models; cbn [networks with_networks];
    rewrite fmap_insert; fold (models s).
  - intros n r1 r2 a Hl. apply lookup_insert_None in Hl as [Hl _]. by apply H2.
  - intros n ms k m [[<- <-]|[_ Hms]]%lookup_insert_Some; [|by eapply H3].
    rewrite lookup_fmap, fmap_Some. cbn [peers]. intros (p & (r & Hr & -> & Hk)%Peers_new_lookup & ->).
    apply list_elem_of_filter in Hr as [Hnid Hr]. split; [done|]. by exists r.
  - intros n ms k1 k2 m1 m2 a [[<- <-]|[_ Hms]]%lookup_insert_Some; [|by eapply H4].
    rewrite !lookup_fmap, !fmap_Some. cbn [peers].
    intros (p1 & (r1 & Hr1 & -> & <-)%Peers_new_lookup & ->) (p2 & (r2 & Hr2 & -> & <-)%Peers_new_lookup & ->). cbn.
    apply list_elem_of_filter in Hr1 as [Hn1 Hr1], Hr2 as [Hn2 Hr2]. by apply (H2 (nm_network_id row)).
Qed.

(** Storing a fresh address in a peer of a cached network. *)
Lemma refresh_models (ps : gmap string VlinkPeer) m k : pm_pub_key m = k ->
  is_Some (ps !! k) -> model <$> refresh_model ps m = <[k := m]> (model <$> ps).
Proof.
  intros <- [p Hp]. apply map_eq. intros j. unfold refresh_model. rewrite lookup_fmap.
  destruct (decide (j = pm_pub_key m)) as [->|].
  - by rewrite lookup_alter_eq, lookup_insert_eq, Hp.
  - by rewrite lookup_alter_ne, lookup_insert_ne, lookup_fmap.
Qed.
Lemma update_ip_rows d id ip d' : update_ip d id ip = Some d' ->
  t_peers d' = updated id ip <$> t_peers d.
Proof. unfold update_ip. destruct (_ && _); [|done]. by intros [= <-]. Qed.
Lemma updated_fields id ip r : pm_id (updated id ip r) = pm_id r /\ pm_network_id (updated id ip r) = pm_network_id r.
Proof. unfold updated. by destruct (_ =? _). Qed.
Lemma updated_other s id ip q nid r0 j : Inv s -> r0 ∈ t_peers (db s) -> pm_id r0 = id -> pm_network_id r0 = nid ->
  nid <> j -> q ∈ t_peers (db s) -> pm_network_id (updated id ip q) = j -> updated id ip q = q.
Proof.
  intros HI Hr0 Hid0 Hnet0 Hne Hq. unfold updated. destruct (Z.eqb_spec (pm_id q) id) as [Heq|]; [|done]. cbn. intros <-.
  assert (q = r0) as -> by (eapply ids_unique; [done..|congruence]). congruence.
Qed.
Lemma store_models s d nid n k m : networks s !! nid = Some n -> is_Some (peers n !! k) -> pm_pub_key m = k ->
  models (with_networks (with_db s d) (alter (fun n => with_peers n (refresh_model (peers n) m)) nid (networks s)))
  = <[nid := <[k := m]> (model <$> peers n)]> (models s).
Proof.
  intros Hn Hk Hpk. apply map_eq. intros j. unfold models. cbn [networks with_networks]. rewrite lookup_fmap.
  destruct (decide (j = nid)) as [->|].
  - rewrite lookup_alter_eq, lookup_insert_eq, Hn. cbn. by apply f_equal, (refresh_models (peers n) m k).
  - by rewrite lookup_alter_ne, lookup_insert_ne, lookup_fmap.
Qed.

Lemma config_store_Inv s cid p s' r n :
  Inv s -> networks s !! ci_network_id cid = Some n -> peers n !! ci_pub_key cid = Some (self_peer p) ->
  (generated p = true -> forall k q, peers n !! k = Some q -> pm_ip (model q) <> Some (ipv4_to_string (plan_addr p))) ->
  config_store s cid p = (s', r) -> Inv s'.
Proof.
  intros HI Hn Hself Hfresh. unfold config_store. destruct (generated p); [|by intros [= <- <-]].
  destruct (update_ip _ _ _) as [d|] eqn:Hup; [|by intros [= <- <-]]. intros [= <- <-].
  apply update_ip_rows in Hup. pose proof (models_lookup _ _ _ Hn) as Hms.
  set (nid := ci_network_id cid) in *. set (k := ci_pub_key cid) in *. set (ip := ipv4_to_string (plan_addr p)) in *.
  set (m := model (self_peer p)) in *.
  assert ((model <$> peers n) !! k = Some m) as Hmk by by rewrite lookup_fmap, Hself.
  destruct (inv_model s HI nid _ k m Hms Hmk) as [Hpk (r0 & Hr0 & Hid0 & Hnet0)].
  pose proof (store_models s d nid n k (set_ip m ip) Hn (mk_is_Some _ _ Hself) Hpk) as Hmodels.
  split; rewrite ?Hmodels; cbn [db with_networks with_db]; rewrite ?Hup.
  - replace (pm_id <$> _) with (pm_id <$> t_peers (db s)); [apply HI|]. rewrite <- list_fmap_compose.
    apply list_fmap_ext. intros _ x _. symmetry. apply updated_fields.
  - intros j r1 r2 a [Hj Hne]%lookup_insert_None (q1 & -> & Hq1)%list_elem_of_fmap (q2 & -> & Hq2)%list_elem_of_fmap Hn1 Hn2.
    assert (updated (pm_id m) ip q1 = q1) as Hs1 by by eapply (updated_other s _ _ _ nid r0 j).
    assert (updated (pm_id m) ip q2 = q2) as Hs2 by by eapply (updated_other s _ _ _ nid r0 j).
    rewrite Hs1 in Hn1 |- *. rewrite Hs2 in Hn2 |- *. by apply (inv_rows s HI j).
  - intros j ms k' m' Hl Hm'.
    assert (forall x, (exists r, r ∈ t_peers (db s) /\ pm_id r = x /\ pm_network_id r = j) ->
      exists r, r ∈ updated (pm_id m) ip <$> t_peers (db s) /\ pm_id r = x /\ pm_network_id r = j) as Hex.
    { intros x (r & Hr & Hx & Hj). exists (updated (pm_id m) ip r). destruct (updated_fields (pm_id m) ip r) as [-> ->].
      split; [by apply list_elem_of_fmap_2|done]. }
    apply lookup_insert_Some in Hl as [[<- <-]|[_ Hl]].
    + apply lookup_insert_Some in Hm' as [[<- <-]|[_ Hm']].
      * split; [done|]. apply Hex. by exists r0.
      * destruct (inv_model s HI nid _ k' m' Hms Hm') as [? ?]. eauto.
    + destruct (inv_model s HI j _ k' m' Hl Hm') as [? ?]. eauto.
  - assert (forall k' m', (model <$> peers n) !! k' = Some m' -> pm_ip m' <> Some ip) as Hfr.
    { intros k' m'. rewrite lookup_fmap, fmap_Some. intros (q & Hq & ->). by apply (Hfresh eq_refl k'). }
    intros j ms k1 k2 m1 m2 a [[<- <-]|[_ Hl]]%lookup_insert_Some; [|by eapply (inv_uniq s HI j)].
    intros [[<- <-]|[? Hm1]]%lookup_insert_Some [[<- <-]|[? Hm2]]%lookup_insert_Some; cbn; [done|..].
    + intros [= <-] Hip. by destruct (Hfr _ _ Hm2).
    + intros Hip [= <-]. by destruct (Hfr _ _ Hm1).
    + by eapply (inv_uniq s HI nid _ k1 k2 m1 m2).
Qed.

(** ** Every operation preserves the invariant *)

Lemma handshake0_Inv s c data : Inv s -> Inv (handshake0 s c data).1.
Proof.
  intros HI. unfold handshake0. destruct data as [[r| | | | | | | | |]|]; try done.
  assert (Inv (handshake_network s r).1) as HI1.
  { unfold handshake_network. destruct (rh_token r).
    - destruct (negb _); [done|]. destruct (list_find _ _) as [[i t]|]; [|done]. destruct (nt_disabled t); [done|].
      destruct (get_network s (nt_network_id t)) as [s1 n] eqn:Hg. by apply get_network_spec in Hg as [? _].
    - destruct (negb _); [done|]. by destruct (list_find _ _) as [[? ?]|]. }
  destruct (handshake_network s r) as [s1 [nid| |]]; cbn [fst] in *; try done.
  assert (Inv (set_client_id s1 c (mkClientId (rh_pub_key r) nid)).1) as HI2.
  { unfold set_client_id. destruct (conns s1 !! c) as [k|]; [|done]. destruct (client_id k); [done|].
    by apply (keeps_Inv s1). }
  destruct (set_client_id _ _ _) as [s2 [?| |]]; cbn [fst] in *; try done.
  destruct (get_network s2 nid) as [s3 [n| |]] eqn:Hg; apply get_network_spec in Hg as [? _]; try done.
  destruct (peers n !! _) as [p|]; [|done]. by destruct (is_online p).
Qed.

Lemma PeerEnter_Inv s c cid r : Inv s -> Inv (PeerEnter_execute s c cid r).1.1.
Proof.
  intros HI. unfold PeerEnter_execute. destruct (get_network s _) as [s1 [n| |]] eqn:Hg;
    apply get_network_spec in Hg as (HI1 & Hn & _); try done.
  destruct (peers n !! ci_pub_key cid) as [p|] eqn:Hp; [|done]. destruct (negb _); [done|].
  match goal with |- context [broadcast ?a ?b ?d ?e] => pose proof (broadcast_by_keeps a b d (fun k _ => bool_decide (e <> k))) as Hb;
    fold (broadcast a b d e) in Hb; destruct (broadcast a b d e) as [s2 out] end.
  cbn [fst] in *. eapply keeps_Inv; [exact Hb|]. eapply keeps_Inv; [|exact HI1].
  eapply insert_network_keeps; [by apply Hn|]. cbn. by eapply insert_peer_models.
Qed.
Lemma ExtraEndpoint_Inv s cid r : Inv s -> Inv (ExtraEndpoint_execute s cid r).1.1.
Proof.
  intros HI. unfold ExtraEndpoint_execute, ctx_network. destruct (networks s !! _) as [n|] eqn:Hn; [|done].
  destruct (peers n !! ci_pub_key cid) as [p|] eqn:Hp; [|done].
  match goal with |- context [broadcast_to ?a ?b ?d ?e] => pose proof (broadcast_to_keeps a b d e) as Hb;
    destruct (broadcast_to a b d e) as [s2 out] end.
  cbn [fst] in *. eapply keeps_Inv; [exact Hb|]. eapply keeps_Inv; [|exact HI].
  eapply insert_network_keeps; [done|]. cbn. by eapply insert_peer_models.
Qed.
Lemma ReqConfig_Inv s c id cid : Inv s -> Inv (ReqConfig_execute s c id cid).1.1.
Proof.
  intros HI. unfold ReqConfig_execute, config_plan. destruct (get_network s _) as [s1 [n| |]] eqn:Hg;
    apply get_network_spec in Hg as (HI1 & Hn & _); try done. specialize (Hn n eq_refl).
  destruct (_ ≫= _) as [p| |] eqn:Hp; try done.
  apply bind_Ok_inv in Hp as (self & Hself & Hp). destruct (peers n !! _) as [q|] eqn:Hq; [|done].
  injection Hself as ->.
  assert (self_peer p = self /\ (generated p = true -> forall k q, peers n !! k = Some q ->
    pm_ip (model q) <> Some (ipv4_to_string (plan_addr p)))) as [Hs Hfresh].
  { destruct (pm_ip (model self)); apply bind_Ok_inv in Hp as (a & Ha & [= <-]); [done|]. split; [done|].
    intros _. cbn. apply map_err_Ok_inv in Ha. by apply generate_ip_fresh in Ha as [_ ?]. }
  unfold config_commit. destruct (config_store s1 cid p) as [s2 r] eqn:Hst.
  assert (Inv s2) as HI2 by (eapply (config_store_Inv s1 cid p s2 r n); [done|done|by rewrite Hs|done|done]).
  destruct r; try done. destruct (ctx_network s2 cid) as [n2|]; [|done]. unfold config_reply.
  destruct (negb _); [done|]. match goal with |- context [send ?a ?b ?d ?e] =>
    pose proof (send_keeps a b d e) as Hk; destruct (send a b d e) as [[s3 o] r] end.
  by eapply keeps_Inv.
Qed.

Lemma dispatch_Inv s c id cid data : Inv s -> Inv (dispatch s c id cid data).1.1.
Proof.
  intros HI. destruct data as [|  |r|r| | | | |r|r]; cbn [dispatch]; try done.
  - by apply ReqConfig_Inv.
  - unfold PeerForward_execute. destruct (ctx_network s cid) as [n|]; [|done].
    destruct (pf_data r) as [[q]|]; [|done]. pose proof (broadcast_to_keeps s n (TcRequireReply q) [pf_target_pub_key r]) as Hk.
    destruct (broadcast_to _ _ _ _). by eapply keeps_Inv.
  - by apply PeerEnter_Inv.
  - unfold PeerLeave_execute, ctx_network. destruct (networks s !! _) as [n|] eqn:Hn; [|done].
    pose proof (offline_keeps s _ n (ci_pub_key cid) Hn) as Hk. destruct (offline _ _ _ _). by eapply keeps_Inv.
  - by apply ExtraEndpoint_Inv.
  - unfold DevHandshakeComplete_execute, ctx_network. destruct (networks s !! _) as [n|] eqn:Hn; [|done].
    destruct (union_pub_key _ _). cbn [fst]. eapply keeps_Inv; [|done]. by eapply insert_network_keeps.
Qed.

Lemma set_phase_keeps s c p : keeps s (set_phase s c p).
Proof. done. Qed.
Lemma step_Inv info s e : Inv s -> Inv (step info s e).1.
Proof.
  intros HI. destruct e as [c a|c m|c]; cbn [step].
  - destruct (conns s !! c); [done|]. unfold accept.
    match goal with |- context [send ?a ?b ?d ?e] => pose proof (send_keeps a b d e) as Hk; destruct (send a b d e) as [[s3 o] r] end.
    eapply keeps_Inv; [exact Hk|]. by apply (keeps_Inv s).
  - destruct (conns s !! c) as [k|]; [cbn [fmap option_fmap option_map]|done]. destruct (phase k) as [|cid| |]; try done.
    + unfold await_handshake. pose proof (handshake0_Inv s c (to_server_data m) HI) as HI1.
      destruct (handshake0 s c _) as [s1 r]. cbn [fst] in HI1.
      destruct r as [cid|e|]; [..|exact (keeps_Inv _ _ (set_phase_keeps s1 c _) HI1)];
        match goal with |- context [send ?a ?b ?d ?e] => pose proof (send_keeps a b d e) as Hk; destruct (send a b d e) as [[s3 o] r] end;
        exact (keeps_Inv _ _ (set_phase_keeps s3 c _) (keeps_Inv _ _ Hk HI1)).
    + unfold process_message. destruct (to_server_data m) as [data|]; [|done].
      pose proof (dispatch_Inv s c (ts_id m) cid data HI) as HI1.
      destruct (dispatch s c _ cid data) as [[s1 out] [?|e|]]; cbn [fst] in *; [done| |exact (keeps_Inv _ _ (set_phase_keeps s1 c _) HI1)].
      pose proof (send_keeps s1 c (Some (ts_id m)) (TcError (code e) e)) as Hk.
      destruct (send s1 c _ _) as [[s2 o] [?|]]; cbn [fst] in *; [by apply (keeps_Inv s1)|].
      exact (keeps_Inv _ _ (set_phase_keeps s2 c _) (keeps_Inv _ _ Hk HI1)).
  - destruct (conns s !! c) as [k|]; [|done]. destruct (phase k); try done; unfold disconnect; cbn [remove_client];
      (destruct (_ ≫= _) as [cid|]; [|by apply (keeps_Inv s)]);
      match goal with |- context [get_network ?x ?y] => destruct (get_network x y) as [s1 [n| |]] eqn:Hg end;
      (apply get_network_spec in Hg as (HI1 & Hn & _); [|by apply (keeps_Inv s)]); try exact HI1;
      (apply (keeps_Inv s1); [by apply offline_keeps, Hn|exact HI1]).
Qed.
Lemma run_Inv info es : forall acc, Inv acc.1 -> 
  Inv (foldl (fun '(s, out) e => let '(s, o) := step info s e in (s, out ++ o)) acc es).1.
Proof.
  induction es as [|e es IH]; intros [s out] HI; cbn [foldl]; [done|]. apply IH.
  pose proof (step_Inv info s e HI). by destruct (step info s e).
Qed.

Lemma Inv_new d : NoDup (pm_id <$> t_peers d) ->
  (forall r1 r2 a, r1 ∈ t_peers d -> r2 ∈ t_peers d -> pm_network_id r1 = pm_network_id r2 ->
     pm_ip r1 = Some a -> pm_ip r2 = Some a -> pm_pub_key r1 = pm_pub_key r2) ->
  Inv (Server_new d).
Proof.
  intros Hids Hrows. split; [done|..]; unfold models; cbn.
  - intros n' r1 r2 b _ ? ? Hn1 Hn2. apply Hrows; congruence.
  - intros ? ? ? ?. by rewrite fmap_empty, lookup_empty.
  - intros ? ? ? ? ? ? ?. by rewrite fmap_empty, lookup_empty.
Qed.

(** C31: no two peers of a network get the same address. Starting from a database whose peer
    rows have distinct ids and distinct addresses within a network, after any sequence of
    connections, messages and disconnections, each handled to its end, the addresses of the
    peers of every network are pairwise different. *)
Theorem addresses_unique info d es nid n k1 k2 p1 p2 a :
  NoDup (pm_id <$> t_peers d) ->
  (forall r1 r2 a, r1 ∈ t_peers d -> r2 ∈ t_peers d -> pm_network_id r1 = pm_network_id r2 ->
     pm_ip r1 = Some a -> pm_ip r2 = Some a -> pm_pub_key r1 = pm_pub_key r2) ->
  networks (run info (Server_new d) es).1 !! nid = Some n ->
  peers n !! k1 = Some p1 -> peers n !! k2 = Some p2 ->
  pm_ip (model p1) = Some a -> pm_ip (model p2) = Some a -> k1 = k2.
Proof.
  intros Hids Hrows Hn H1 H2. pose proof (Inv_new d Hids Hrows) as HI0.
  pose proof (run_Inv info es (Server_new d, []) HI0) as HI. fold (run info (Server_new d) es) in HI.
  apply (inv_uniq _ HI nid (model <$> peers n)); [by apply models_lookup|by rewrite lookup_fmap, H1|by rewrite lookup_fmap, H2].
Qed.

(** C32: the address is not reserved while the database is written. Two peers without an
    address whose requests are both planned before either is stored get the same one: after
    both are stored, both peers of the network carry it. *)
Theorem concurrent_requests_collide s nid n k1 k2 p1 p2 a :
  networks s !! nid = Some n -> k1 <> k2 ->
  peers n !! k1 = Some p1 -> peers n !! k2 = Some p2 ->
  pm_pub_key (model p1) = k1 -> pm_pub_key (model p2) = k2 ->
  pm_ip (model p1) = None -> pm_ip (model p2) = None ->
  db_up (db s) = true ->
  (exists r, r ∈ t_peers (db s) /\ pm_id r = pm_id (model p1)) ->
  (exists r, r ∈ t_peers (db s) /\ pm_id r = pm_id (model p2)) ->
  generate_ip (cidr n) (peers n) = Ok a ->
  exists q1 q2 s1 s2 n2 r1 r2,
    config_plan s (mkClientId k1 nid) = (s, Ok q1) /\ config_plan s (mkClientId k2 nid) = (s, Ok q2) /\
    config_store s (mkClientId k1 nid) q1 = (s1, Ok tt) /\ config_store s1 (mkClientId k2 nid) q2 = (s2, Ok tt) /\
    networks s2 !! nid = Some n2 /\ peers n2 !! k1 = Some r1 /\ peers n2 !! k2 = Some r2 /\
    pm_ip (model r1) = Some (ipv4_to_string a) /\ pm_ip (model r2) = Some (ipv4_to_string a).
Proof.
  intros Hn Hne Hp1 Hp2 Hk1 Hk2 Hi1 Hi2 Hup (x1 & Hx1 & Hid1) (x2 & Hx2 & Hid2) Hg.
  assert (forall d id ip, db_up d = true -> (exists r, r ∈ t_peers d /\ pm_id r = id) ->
    exists d', update_ip d id ip = Some d' /\ db_up d' = true /\
      t_peers d' = updated id ip <$> t_peers d) as Hupd.
  { intros d id ip Hd (r & Hr & <-). unfold update_ip. rewrite Hd.
    assert (existsb (fun x => pm_id x =? pm_id r) (t_peers d) = true) as ->; [|by eexists].
    apply existsb_exists. exists r. split; [by apply list_elem_of_In|]. apply Z.eqb_refl. }
  destruct (Hupd (db s) (pm_id (model p1)) (ipv4_to_string a) Hup) as (d1 & Hd1 & Hup1 & Hrows1); [by exists x1|].
  destruct (Hupd d1 (pm_id (model p2)) (ipv4_to_string a) Hup1) as (d2 & Hd2 & _).
  { rewrite Hrows1. eexists. split; [by apply list_elem_of_fmap_2|]. by rewrite (proj1 (updated_fields _ _ x2)). }
  eexists _, _, _, _, _, _, _. unfold config_plan, get_network. cbn [ci_network_id ci_pub_key].
  rewrite Hn, Hp1, Hp2. cbn [ok_or mbind res_bind]. rewrite Hi1, Hi2, Hg. cbn [map_err mbind res_bind].
  split; [done|]. split; [done|]. unfold config_store. cbn [generated plan_addr self_peer ci_network_id].
  rewrite Hd1. split; [done|]. cbn [db with_networks with_db]. rewrite Hd2. split; [done|].
  cbn [networks with_networks]. rewrite !lookup_alter_eq, Hn. split; [done|]. cbn [peers with_peers].
  unfold refresh_model. cbn [pm_pub_key set_ip]. rewrite Hk1, Hk2.
  rewrite lookup_alter_ne, lookup_alter_eq, Hp1 by done. split; [done|].
  rewrite lookup_alter_eq, lookup_alter_ne, Hp2 by done. done.
Qed.

(** *** A refused client *)

(** What [send] and the broadcasts change: only the counters of connections. *)
Definition conn_frame (s s' : Server) : Prop :=
  networks s' = networks s /\ clients s' = clients s /\ db s' = db s /\
  forall c, (fun k => (addr k, client_id k, phase k)) <$> conns s' !! c
    = (fun k => (addr k, client_id k, phase k)) <$> conns s !! c.
#[global] Instance conn_frame_preorder : PreOrder conn_frame.
Proof.
  split; [done|]. intros x y z (? & ? & ? & Hxy) (? & ? & ? & Hyz). split_and!; try congruence.
Qed.
Lemma send_frame s c id data : conn_frame s (send s c id data).1.1.
Proof.
  unfold send. destruct (conns s !! c) as [k|] eqn:Hc; [|done].
  assert (forall n, conn_frame s (with_conns s (<[c := mkConn (addr k) (client_id k) n (phase k)]> (conns s)))) as Hf.
  { intros n. split_and!; try done. intros j. cbn. destruct (decide (j = c)) as [->|].
    - by rewrite lookup_insert_eq, Hc.
    - by rewrite lookup_insert_ne. }
  destruct (phase k) eqn:Hp; try done; destruct (to_client_id _ _); apply Hf.
Qed.
Lemma broadcast_by_frame s n data pr : conn_frame s (broadcast_by s n data pr).1.
Proof.
  unfold broadcast_by, send_each. change s with (s, @nil Out).1 at 1. generalize (s, @nil Out) as acc.
  induction (online_conns pr n) as [|c cs IH]; intros acc; cbn [foldl]; [done|]. etrans; [|apply IH].
  unfold send_one. pose proof (send_frame acc.1 c None data) as Hk. by destruct (send _ _ _ _) as [[? ?] ?].
Qed.
Lemma send_open s c k i data : conns s !! c = Some k -> phase k = AwaitHandshake ->
  (send s c (Some i) data).1.2 = [(c, mkToClient i (Some data))].
Proof. intros Hc Hp. unfold send. by rewrite Hc, Hp. Qed.

Lemma disconnect_offline s c a k cid n : conns s !! c = Some k -> clients s !! a = Some c ->
  client_id k = Some cid -> networks s !! ci_network_id cid = Some n ->
  networks (disconnect s c a).1 !! ci_network_id cid = Some (with_peers n (Peers_offline (peers n) (ci_pub_key cid))) /\
  forall c', c' <> c -> phase <$> conns (disconnect s c a).1 !! c' = phase <$> conns s !! c'.
Proof.
  intros Hc Ha Hcid Hn. unfold disconnect. cbn [remove_client]. cbn [clients set_phase with_conns conns]. rewrite Ha.
  cbn [mbind option_bind]. rewrite lookup_alter_eq, Hc. cbn. rewrite Hcid. unfold get_network. cbn [networks].
  rewrite Hn. unfold offline, broadcast.
  match goal with |- context [broadcast_by ?x ?y ?z ?w] => destruct (broadcast_by_frame x y z w) as (-> & _ & _ & Hconns) end.
  split; [cbn; by rewrite lookup_insert_eq|]. intros c' Hne. specialize (Hconns c'). cbn in Hconns.
  rewrite lookup_alter_ne in Hconns by done. apply (f_equal (fmap snd)) in Hconns. by rewrite <- !option_fmap_compose in Hconns.
Qed.

(** C33: a second client can take an online peer off the network. Whoever connects and sends a
    handshake with the public key of an online peer, with any signature (it is not looked at)
    and any token of that network or none, is refused; but when the refused connection ends,
    the peer is marked offline, although the connection it came in on is still open. *)
Theorem refused_client_kicks_peer info s c k id r nid n p i :
  conns s !! c = Some k -> phase k = AwaitHandshake -> client_id k = None -> clients s !! addr k = Some c ->
  handshake_network s r = (s, Ok nid) -> networks s !! nid = Some n ->
  peers n !! rh_pub_key r = Some p -> online_info p = Some i -> connect i <> c ->
  let '(s1, out1) := step info s (EvRecv c (mkToServer id (Some (TsHandshake r)))) in
  let '(s2, out2) := step info s1 (EvDisconnect c) in
  out1 = [(c, mkToClient id (Some (TcRespHandshake false (Some (AnyhowError (PeerConnected (rh_pub_key r)))))))] /\
  phase <$> conns s2 !! connect i = phase <$> conns s !! connect i /\
  exists n2, networks s2 !! nid = Some n2 /\
    peers n2 !! rh_pub_key r = Some (mkVlinkPeer (vp_pub_key p) (model p) None).
Proof.
  intros Hc Hph Hid Hcl Hnet Hn Hp Hon Hne. cbn [step]. rewrite Hc. cbn [fmap option_fmap option_map]. rewrite Hph.
  unfold await_handshake. cbn [to_server_data handshake0 ts_id]. rewrite Hnet. unfold set_client_id. rewrite Hc, Hid.
  set (sid := with_conns s _). unfold get_network. assert (networks sid !! nid = Some n) as -> by done.
  rewrite Hp. unfold is_online. rewrite Hon.
  assert (conns sid !! c = Some (mkConn (addr k) (Some (mkClientId (rh_pub_key r) nid)) (last_id k) (phase k))) as Hsid
    by (cbn; by rewrite lookup_insert_eq).
  set (m := TcRespHandshake false _).
  pose proof (send_open sid c _ id m Hsid Hph) as Hout. pose proof (send_frame sid c (Some id) m) as (Hn1 & Hcl1 & _ & Hco1).
  destruct (send sid c (Some id) m) as [[s1 out1] r1]. cbn [fst snd] in *. subst out1.
  pose proof (Hco1 c) as Hk1. rewrite Hsid in Hk1. destruct (conns s1 !! c) as [k1|] eqn:Hc1; [|done].
  injection Hk1 as Ha1 Hid1 _.
  assert (conns (set_phase s1 c Closing) !! c = Some (mkConn (addr k1) (client_id k1) (last_id k1) Closing)) as Hcl2
    by (cbn; by rewrite lookup_alter_eq, Hc1).
  rewrite Hcl2. cbn [phase addr].
  pose proof (disconnect_offline (set_phase s1 c Closing) c (addr k1) _ (mkClientId (rh_pub_key r) nid) n Hcl2
    ltac:(cbn; by rewrite Hcl1, Ha1) Hid1 ltac:(cbn; by rewrite Hn1)) as [Hnet2 Hph2].
  destruct (disconnect _ c _) as [s2 out2]. cbn [fst] in *. split; [done|]. split.
  - rewrite Hph2 by done. cbn. rewrite lookup_alter_ne by done. pose proof (Hco1 (connect i)) as Hci.
    cbn in Hci. rewrite lookup_insert_ne in Hci by done. apply (f_equal (fmap snd)) in Hci.
    by rewrite <- !option_fmap_compose in Hci.
  - eexists. split; [exact Hnet2|]. cbn. unfold Peers_offline. by rewrite lookup_alter_eq, Hp.
Qed.
End Server.

Lemma string_app_inj a : forall b c d, String.length a = String.length c -> a +:+ b = c +:+ d -> a = c /\ b = d.
Proof.
  induction a as [|x a IH]; intros b [|y c] d Hl; cbn in Hl; try done.
  change (String x (a +:+ b) = String y (c +:+ d) -> String x a = String y c /\ b = d).
  intros [= -> He]. destruct (IH b c d ltac:(lia) He) as [-> ->]. done.
Qed.
Lemma ltb_flip a b : a <> b -> String.ltb b a = negb (String.ltb a b).
Proof.
  intros Hne. unfold String.ltb. rewrite (String.compare_antisym b a).
  destruct (String.compare a b) eqn:Hc; cbn; try done. by apply String.compare_eq_iff in Hc.
Qed.
Lemma union_cases a b : union_pub_key a b = (a +:+ b, true) \/ union_pub_key a b = (b +:+ a, false).
Proof. unfold union_pub_key. destruct (String.ltb a b); auto. Qed.

(** The key under which the server records that two peers are connected. It does not
    depend on which of the two reports, the direction tells who did, and for keys of one
    length (they are base64 of 32 bytes) two pairs share a record only if they are the same
    pair. *)
Theorem union_pub_key_spec a b c d :
  String.length a = String.length b -> String.length c = String.length a -> String.length d = String.length a ->
  a <> b ->
  (union_pub_key a b).1 = (union_pub_key b a).1 /\ (union_pub_key a b).2 = negb (union_pub_key b a).2 /\
  ((union_pub_key a b).1 = (union_pub_key c d).1 <-> (a = c /\ b = d) \/ (a = d /\ b = c)).
Proof.
  intros Hab Hc Hd Hne.
  assert (forall a b, a <> b -> (union_pub_key a b).1 = (union_pub_key b a).1 /\ (union_pub_key a b).2 = negb (union_pub_key b a).2) as Hsym.
  { clear. intros a b Hne. unfold union_pub_key. rewrite (ltb_flip a b Hne). by destruct (String.ltb a b). }
  split; [by apply Hsym|]. split; [by apply Hsym|]. split.
  - intros He. destruct (union_cases a b) as [Hu|Hu], (union_cases c d) as [Hv|Hv]; rewrite Hu, Hv in He; cbn in He;
      apply string_app_inj in He as [-> ->]; (congruence || auto).
  - intros [[-> ->]|[-> ->]]; [done|]. by apply Hsym.
Qed.

(** ** Witnesses *)
Module Toy.
(** Prefixes of 29 bits: eight addresses from a given one. *)
#[export] Instance lib : Ipv4NetworkLib := {|
  Ipv4Network := Z;
  cidr_from_str s := Some 0;
  network_address a := a;
  prefix_len _ := 29;
  addresses a := seqZ a 8;
|}.
End Toy.

Section Witnesses.
#[local] Existing Instance Toy.lib.
Definition row (id : Z) (k : string) : PeerModel := mkPeerModel id k None None None None 1 false.
Definition toy_db : Db := mkDb true [mkNetworkModel 1 "0.0.0.0/29"] [] [row 1 "a"; row 2 "b"] [].
Definition toy_info : RespServerInfo := mkRespServerInfo "1.0.0" "key" None.
Definition hello (k : string) : option ToServerData := Some (TsHandshake (mkReqHandshake 0 k None "")).
(** Two clients log in, ask for their configuration, and the first announces itself. *)
Definition toy_events : list Event :=
  [EvAccept 1 "x"; EvRecv 1 (mkToServer 1 (hello "a")); EvRecv 1 (mkToServer 2 (Some TsReqConfig));
   EvAccept 2 "y"; EvRecv 2 (mkToServer 1 (hello "b")); EvRecv 2 (mkToServer 2 (Some TsReqConfig));
   EvRecv 1 (mkToServer 3 (Some (TsPeerEnter (mkPeerEnter "0.0.0.2" None 51820 []))))].
Definition toy_server : Server := (run toy_info (Server_new toy_db) toy_events).1.
Definition ip_of (s : Server) (k : string) : option string :=
  n ← networks s !! 1; p ← peers n !! k; pm_ip (model p).

(** Both got one, and if it were the same they would be one peer. *)
Lemma addresses_unique_witness :
  ip_of toy_server "a" = Some "0.0.0.2"%string /\ ip_of toy_server "b" = Some "0.0.0.3"%string /\
  exists n p, networks toy_server !! 1 = Some n /\ peers n !! "a"%string = Some p /\
    forall k q, peers n !! k = Some q -> pm_ip (model q) = Some "0.0.0.2"%string -> k = "a"%string.
Proof.
  split; [vm_compute; reflexivity|]. split; [vm_compute; reflexivity|].
  destruct (networks toy_server !! 1) as [n|] eqn:Hn; [|vm_compute in Hn; discriminate].
  destruct (peers n !! "a"%string) as [p|] eqn:Hp.
  2: { exfalso. assert (ip_of toy_server "a" = None) as Hx by (unfold ip_of; rewrite Hn; cbn; by rewrite Hp).
       vm_compute in Hx. discriminate. }
  exists n, p. split; [done|]. split; [done|]. intros k q Hq Hip.
  refine (addresses_unique toy_info toy_db toy_events 1 n k "a" q p "0.0.0.2" _ _ Hn Hq Hp Hip _).
  - change (NoDup [1; 2]). apply (bool_decide_unpack (NoDup [1; 2])). vm_compute. exact I.
  - intros r1 r2 a Hr1 Hr2 _ Ha. exfalso. unfold toy_db in Hr1. cbn in Hr1.
    rewrite !elem_of_cons, elem_of_nil in Hr1. destruct Hr1 as [->|[->|[]]]; discriminate Ha.
  - assert (ip_of toy_server "a" = Some "0.0.0.2"%string) as Hx by (vm_compute; reflexivity).
    unfold ip_of in Hx. rewrite Hn in Hx. cbn in Hx. by rewrite Hp in Hx.
Defined.

Definition toy_net : VlinkNetwork := mkVlinkNetwork 1 0 (Peers_new [VlinkPeer_from (row 1 "a"); VlinkPeer_from (row 2 "b")]) ∅.
Definition toy_two : Server := mkServer ∅ {[1 := toy_net]} toy_db ∅.
Lemma concurrent_requests_collide_witness : exists q1 q2 s1 s2 n2 r1 r2,
  config_plan toy_two (mkClientId "a" 1) = (toy_two, Ok q1) /\ config_plan toy_two (mkClientId "b" 1) = (toy_two, Ok q2) /\
  config_store toy_two (mkClientId "a" 1) q1 = (s1, Ok tt) /\ config_store s1 (mkClientId "b" 1) q2 = (s2, Ok tt) /\
  networks s2 !! 1 = Some n2 /\ peers n2 !! "a"%string = Some r1 /\ peers n2 !! "b"%string = Some r2 /\
  pm_ip (model r1) = Some (ipv4_to_string 2) /\ pm_ip (model r2) = Some (ipv4_to_string 2).
Proof.
  apply (concurrent_requests_collide toy_two 1 toy_net "a" "b" (VlinkPeer_from (row 1 "a")) (VlinkPeer_from (row 2 "b")) 2);
    try reflexivity; try discriminate.
  - exists (row 1 "a"). split; [left|reflexivity].
  - exists (row 2 "b"). split; [right; left|reflexivity].
Defined.

(** The first client is online; a third connection claims its key. *)
Definition toy_online : VlinkPeer := mkVlinkPeer "a" (row 1 "a") (Some (mkOnlineInfo 1 51820 None ∅)).
Definition toy_attacked : Server := mkServer {["x" := 1%nat; "z" := 3%nat]}
  {[1 := mkVlinkNetwork 1 0 {["a" := toy_online]} ∅]} toy_db
  {[1%nat := mkConn "x" (Some (mkClientId "a" 1)) 1 (Running (mkClientId "a" 1)); 3%nat := mkConn "z" None 1 AwaitHandshake]}.
Lemma refused_client_kicks_peer_witness :
  let '(s1, out1) := step toy_info toy_attacked (EvRecv 3 (mkToServer 1 (hello "a"))) in
  let '(s2, out2) := step toy_info s1 (EvDisconnect 3) in
  phase <$> conns s2 !! 1%nat = Some (Running (mkClientId "a" 1)) /\
  exists n2, networks s2 !! 1 = Some n2 /\ is_online <$> peers n2 !! "a"%string = Some false.
Proof.
  pose proof (refused_client_kicks_peer toy_info toy_attacked 3 (mkConn "z" None 1 AwaitHandshake) 1
    (mkReqHandshake 0 "a" None "") 1 (mkVlinkNetwork 1 0 {["a"%string := toy_online]} ∅) toy_online
    (mkOnlineInfo 1 51820 None ∅) eq_refl eq_refl eq_refl eq_refl eq_refl eq_refl eq_refl eq_refl ltac:(discriminate)) as Hk.
  unfold hello. destruct (step _ _ _) as [s1 out1]. destruct (step _ _ _) as [s2 out2].
  destruct Hk as (_ & Hph & n2 & Hn2 & Hp). split; [exact Hph|]. exists n2. split; [exact Hn2|].
  cbn [rh_pub_key] in Hp. by rewrite Hp.
Defined.

Lemma union_pub_key_spec_witness :
  (union_pub_key "ab" "cd").1 = (union_pub_key "cd" "ab").1 /\
  ((union_pub_key "ab" "cd").1 = (union_pub_key "cd" "ab").1 <->
    ("ab" = "cd" /\ "cd" = "ab")%string \/ ("ab" = "ab" /\ "cd" = "cd")%string).
Proof.
  pose proof (union_pub_key_spec "ab" "cd" "cd" "ab" eq_refl eq_refl eq_refl ltac:(discriminate)) as (H1 & _ & H3).
  split; [exact H1|exact H3].
Defined.
End Witnesses.
End Headlink.
