(* ===== verification/Vlinkd.v ===== *)
(** * The client daemon (vlinkd/src)

    connect.rs and client.rs: requests and their answers over the connection to the
    registration server. handler/*.rs and config.rs: from the server's configuration to that
    of the device. network/cmd_handler.rs, network/device_handler.rs: what messages do to the
    device and events to the server. transport/proto/relay_transport.rs and
    transport/ext_transport_selector.rs: how a peer without an endpoint gets one.

    Base64, JSON and the address parsers are arguments. *)

From S2P Require Import Prelude Bytes Crypto Noise Session Peer Device Abi Headlink.
#[local] Open Scope Z_scope.

Module Vlinkd.

(** ** connect.rs *)

Inductive Error (E : Type) : Type :=
| NotConnected
| CallTimeout
| SinkError
| RecvError
| EmptyReply
| Rejected (e : E)
| ServerNotConnected
| HandshakeRefused (e : option E)
| BadPacket
| BadBase64
| BadAddress
| BadNetwork.
Arguments NotConnected {E}.
Arguments CallTimeout {E}.
Arguments SinkError {E}.
Arguments RecvError {E}.
Arguments EmptyReply {E}.
Arguments Rejected {E} e.
Arguments ServerNotConnected {E}.
Arguments HandshakeRefused {E} e.
Arguments BadPacket {E}.
Arguments BadBase64 {E}.
Arguments BadAddress {E}.
Arguments BadNetwork {E}.

(** [last_id] is the counter of [to_server_handler]. *)
Record ClientConnect := mkClientConnect { last_id : Z; is_connected : bool }.

Section Connect.
Context {E : Type}.

(** The ids of [to_server_handler]: the counter after the message, and the id it takes. *)
Definition to_server_id (last : Z) (id : option Z) : Z * Z :=
  match id with
  | Some i => (last, i)
  | None => let n := wrap 64 (last + 1) in (n, n)
  end.
(** [send] with the turn of [to_server_handler] that serves it; the counter is returned. *)
Definition send (sink_ok : bool) (c : ClientConnect) (id : option Z) (data : ToServerData)
    : ClientConnect * list ToServer * res (Error E) Z :=
  if negb (is_connected c) then (c, [], Err NotConnected)
  else
    let '(n, use_id) := to_server_id (last_id c) id in
    let c := mkClientConnect n (is_connected c) in
    if sink_ok then (c, [mkToServer use_id (Some data)], Ok n) else (c, [], Err SinkError).

(** The messages that arrive after the subscription and before the timeout; [None] is a
    receiver that lagged or was closed. *)
Fixpoint await_reply (id : Z) (incoming : list (option (ToClient E))) : res (Error E) (option (ToClientData E)) :=
  match incoming with
  | [] => Err CallTimeout
  | None :: _ => Err RecvError
  | Some m :: incoming => if tc_id m =? id then Ok (to_client_data m) else await_reply id incoming
  end.
Definition request (sink_ok : bool) (c : ClientConnect) (data : ToServerData) (incoming : list (option (ToClient E)))
    : ClientConnect * list ToServer * res (Error E) (option (ToClientData E)) :=
  if negb (is_connected c) then (c, [], Err NotConnected)
  else
    let '(c, out, r) := send sink_ok c None data in
    (c, out, id ← r; await_reply id incoming).

(** ** client.rs *)

(** [conn] is the connection behind the lock, if there is one. *)
Definition VlinkClient_request (sink_ok : bool) (conn : option ClientConnect) (data : ToServerData)
    (incoming : list (option (ToClient E))) : option ClientConnect * list ToServer * res (Error E) (ToClientData E) :=
  match conn with
  | None => (None, [], Err ServerNotConnected)
  | Some c =>
      let '(c, out, r) := request sink_ok c data incoming in
      (Some c, out, d ← r; d ← ok_or EmptyReply d; match d with TcError _ e => Err (Rejected e) | _ => Ok d end)
  end.
Definition VlinkClient_send (sink_ok : bool) (conn : option ClientConnect) (data : ToServerData)
    : option ClientConnect * list ToServer * res (Error E) Z :=
  match conn with
  | None => (None, [], Err ServerNotConnected)
  | Some c => let '(c, out, r) := send sink_ok c None data in (Some c, out, r)
  end.
Definition forward_to (sink_ok : bool) (conn : option ClientConnect) (dst : string) (data : ForwardData)
    : option ClientConnect * list ToServer * res (Error E) Z :=
  VlinkClient_send sink_ok conn (TsPeerForward (mkPeerForward dst (Some data))).

Record HandshakeParam := mkHandshakeParam { hp_pub_key : string; hp_sign : string; hp_token : option string }.
Definition handshake (sink_ok : bool) (c : ClientConnect) (p : HandshakeParam) (incoming : list (option (ToClient E)))
    : ClientConnect * list ToServer * res (Error E) unit :=
  let '(c, out, r) := request sink_ok c (TsHandshake (mkReqHandshake 0 (hp_pub_key p) (hp_token p) (hp_sign p))) incoming in
  (c, out, resp ← r;
     match resp with
     | Some (TcRespHandshake success e) => if success then Ok tt else Err (HandshakeRefused e)
     | _ => Err BadPacket
     end).

(** ** handler/connected.rs *)

(** [addr] is the address of the tunnel interface, [extra_status] the endpoint of each
    extension protocol that runs. *)
Definition handler_connected (addr port : Z) (endpoint_addr : option string) (extra_status : gmap string (option string))
    : ToServerData :=
  TsPeerEnter (mkPeerEnter (ipv4_to_string addr) endpoint_addr port
    (omap (fun '(proto, e) => mkExtraEndpoint proto <$> e) (map_to_list extra_status))).
End Connect.

(** ** Configuration (handler/common.rs, handler/first_connected.rs, config.rs) *)

Definition DEFAULT_PORT : Z := 51820.

(** network/mod.rs: the extension protocols. *)
Inductive ExtraProto := NatUdp | NatTcp | Dip.
Definition ExtraProto_from_str (s : string) : option ExtraProto :=
  if String.eqb s "NatUdp" then Some NatUdp
  else if String.eqb s "NatTcp" then Some NatTcp
  else if String.eqb s "Dip" then Some Dip
  else None.
#[global] Instance ExtraProto_eq_dec : EqDecision ExtraProto.
Proof. solve_decision. Defined.
#[global] Instance ExtraProto_countable : Countable ExtraProto.
Proof.
  refine (inj_countable (fun p => match p with NatUdp => 0%nat | NatTcp => 1%nat | Dip => 2%nat end)
    (fun n => match n with 0%nat => Some NatUdp | 1%nat => Some NatTcp | 2%nat => Some Dip | _ => None end) _).
  by intros [].
Defined.

Section Config.
Context `{IpNetworkLib}.
Context {E : Type}.
(** [STANDARD.decode], [IpAddr::from_str], [IpNetwork::new]. *)
Context (decode_base64 : string -> option bytes).
Context (ip_from_str : string -> option IpAddr).
Context (ip_network_new : IpAddr -> Z -> option IpNetwork).

Record ArgConfig := mkArgConfig { arg_endpoint_addr : option string; arg_port : option Z }.
Record DeviceConfig := mkDeviceConfig {
  dc_private_key : bytes;
  dc_fwmark : Z;
  dc_port : Z;
  dc_peers : gmap bytes PeerConfig;
  dc_address : Z;
  dc_network : IpNetwork;
}.
Definition DeviceConfig_peer (d : DeviceConfig) (p : PeerConfig) : DeviceConfig :=
  mkDeviceConfig (dc_private_key d) (dc_fwmark d) (dc_port d) (<[cfg_public_key p := p]> (dc_peers d))
    (dc_address d) (dc_network d).
(** The other setter, and the key pair of a configuration. *)
Definition DeviceConfig_private_key (d : DeviceConfig) (key : bytes) : DeviceConfig :=
  mkDeviceConfig key (dc_fwmark d) (dc_port d) (dc_peers d) (dc_address d) (dc_network d).
Definition local_secret `{CryptoPrims} (d : DeviceConfig) : LocalStaticSecret := LocalStaticSecret_new (dc_private_key d).

Definition socket_addr (ip : IpAddr) (port : Z) : SocketAddr :=
  match ip with
  | IpV4 o => AddrV4 o port
  | IpV6 o => AddrV6 o port
  end.

(** Panics on an address that does not parse and on a key that is not 32 bytes. *)
Definition bc_peer_enter2peer_config (p : BcPeerEnter) : res (Error E) PeerConfig :=
  pk ← ok_or BadBase64 (decode_base64 (bp_pub_key p));
  ip ← unwrap_opt (ip_from_str (bp_ip p));
  cidr ← Cidr_new ip 32;
  pk ← to_array 32 pk;
  endpoint ← match bp_endpoint_addr p with
    | None => Ok None
    | Some a => a ← ok_or BadAddress (ip_from_str a); Ok (Some (socket_addr a (wrap 16 (bp_port p))))
    end;
  Ok (mkPeerConfig pk {[cidr]} endpoint None false (bp_is_online p) false None (bp_ip p)).

Record VlinkNetworkConfig := mkVlinkNetworkConfig {
  device_config : DeviceConfig;
  arg_config : ArgConfig;
  transports : list ExtraTransport;
  peer_extra_transports : list PeerExtraTransport;
}.

Fixpoint add_peers (d : DeviceConfig) (ps : list BcPeerEnter) : res (Error E) DeviceConfig :=
  match ps with
  | [] => Ok d
  | p :: ps => c ← bc_peer_enter2peer_config p; add_peers (DeviceConfig_peer d c) ps
  end.
(** [request_for_config] on the answer to its request. *)
Definition request_for_config (resp : ToClientData E) (private_key : bytes) (args : ArgConfig)
    : res (Error E) VlinkNetworkConfig :=
  match resp with
  | TcRespConfig r =>
      network ← ok_or BadNetwork (ip_network_new (IpV4 (be_bytes 4 (rc_network r))) (wrap 8 (rc_mask r)));
      let port := if 0 <? rc_port r then wrap 16 (rc_port r) else default DEFAULT_PORT (arg_port args) in
      d ← add_peers (mkDeviceConfig private_key 0 port ∅ (rc_address r) network) (rc_peers r);
      Ok (mkVlinkNetworkConfig d args (rc_extra_transports r) (rc_peer_extra_transports r))
  | _ => Err BadPacket
  end.

(** ** network/cmd_handler.rs, network/device_handler.rs *)

Definition update_peer (l : PeerList) (key : bytes) (f : Peer -> Peer) : PeerList :=
  match get_by_key l key with
  | Some name => mkPeerList (pl_sessions l) (pl_ips l) (pl_peers l) (alter f name (pl_store l)) (pl_fresh l)
  | None => l
  end.

Definition handle_to_client_data (data : ToClientData E) (l : PeerList) : res (Error E) PeerList :=
  match data with
  | TcPeerEnter e =>
      key ← ok_or BadBase64 (decode_base64 (bp_pub_key e)); key ← to_array 32 key;
      Ok (update_peer l key (fun p => set_online p true))
  | TcPeerLeave e =>
      key ← ok_or BadBase64 (decode_base64 (bl_pub_key e)); key ← to_array 32 key;
      Ok (update_peer l key (fun p => set_online p false))
  | _ => Ok l
  end.

Record ExtraProtoStatus := mkExtraProtoStatus {
  st_endpoint : option string; st_running : bool; st_error : option (Error E);
}.

(** What an event makes the client send, and what it does to the extension protocols and the
    peers; an unknown protocol is an error. *)
Definition handle_device_event (encode_base64 : bytes -> string) (es : gmap ExtraProto ExtraProtoStatus) (l : PeerList)
    (event : DeviceEvent) : gmap ExtraProto ExtraProtoStatus * PeerList * res (Error E) (option ToServerData) :=
  match event with
  | HandshakeComplete k proto => (es, l, Ok (Some (TsDevHandshakeComplete (mkDevHandshakeComplete (encode_base64 k) proto))))
  | ExtraEndpointSuccess proto e =>
      match ExtraProto_from_str proto with
      | None => (es, l, Err BadPacket)
      | Some p => (<[p := mkExtraProtoStatus (Some e) true None]> es, l, Ok (Some (TsUpdateExtraEndpoint (mkExtraEndpoint proto e))))
      end
  | PeerEndpointFailed k => (es, update_peer l k clear_endpoint, Ok None)
  | _ => (es, l, Ok None)
  end.

(** ** transport/proto/relay_transport.rs *)

(** [TailscleDerpOutboundSender] as the device sees it. *)
Definition relay_endpoint : Endpoint := mkEndpoint (AddrV4 [x00; x00; x00; x00] 0) "Reply".

(** [derp] are the relay connections by server; [outcome] is the queue of a new connection,
    if one can be made. A new connection returns at once: only a later call for the same
    server gives the target an endpoint. *)
Definition connect_derp_server (derp : gmap string nat) (l : PeerList) (server : string) (target : bytes)
    (outcome : option nat) : gmap string nat * PeerList * option nat :=
  match derp !! server with
  | Some tx => (derp, update_peer l target (fun p => update_endpoint p relay_endpoint), Some tx)
  | None =>
      match outcome with
      | Some tx => (<[server := tx]> derp, l, Some tx)
      | None => (derp, l, None)
      end
  end.

Definition DERP_SERVER : string := "wss://oaodev.local.hperfect.cn:11443/derp".
(** [require_reply]: connect, then ask the target to connect; the message it forwards. *)
Definition require_reply (encode_base64 : bytes -> string) (self : string) (derp : gmap string nat) (l : PeerList)
    (target : bytes) (outcome : option nat) : gmap string nat * PeerList * ToServerData :=
  let '(derp, l, _) := connect_derp_server derp l DERP_SERVER target outcome in
  (derp, l, TsPeerForward (mkPeerForward (encode_base64 target) (Some (FdRequireReply (mkRequireReply self "" DERP_SERVER))))).

(** ** transport/ext_transport_selector.rs: one turn for an online peer *)
Inductive Selected :=
| KeepEndpoint
| StartNatUdp (endpoint : string)
| StartNatTcp (endpoint : string)
| UnsupportedProto (proto : string)
| StartRelay.
Definition selector_turn (p : Peer) (ts : list PeerExtraTransport) : Selected :=
  match endpoint p with
  | Some _ => KeepEndpoint
  | None =>
      match ts with
      | [] => StartRelay
      | t :: _ =>
          if String.eqb (px_proto t) "NatUdp" then StartNatUdp (px_endpoint t)
          else if String.eqb (px_proto t) "NatTcp" then StartNatTcp (px_endpoint t)
          else UnsupportedProto (px_proto t)
      end
  end.
End Config.

(** ** Requests and answers *)

Lemma await_reply_first {E} id pre (m : ToClient E) post :
  (forall x, x ∈ pre -> tc_id x <> id) -> tc_id m = id ->
  await_reply id ((Some <$> pre) ++ Some m :: post) = Ok (to_client_data m).
Proof.
  intros Hpre Hm. induction pre as [|x pre IH]; cbn [fmap list_fmap app await_reply].
  - rewrite Hm, Z.eqb_refl. done.
  - destruct (Z.eqb_spec (tc_id x) id) as [He|]; [by destruct (Hpre x); [left|]|]. apply IH. set_solver.
Qed.

Section Requests.
Context `{Headlink.Ipv4NetworkLib}.

(** A request and its answer. On an open connection a request takes the next id of the
    client's counter and returns what comes in first with that id, whatever comes before.
    But the messages the server sends of its own take ids from the server's counter for the
    connection: one that is sent when that counter stands where the client's does is returned
    in place of the answer. *)
Theorem request_takes_first_match (c : ClientConnect) data :
  is_connected c = true -> 0 <= last_id c < 2 ^ 64 - 1 ->
  (forall pre m post, (forall x, x ∈ pre -> tc_id x <> last_id c + 1) -> tc_id m = last_id c + 1 ->
     request (E := Headlink.ExecuteError) true c data ((Some <$> pre) ++ Some m :: post) =
     (mkClientConnect (last_id c + 1) true, [mkToServer (last_id c + 1) (Some data)], Ok (to_client_data m))) /\
  (forall s k conn cid d, Headlink.conns s !! k = Some conn -> Headlink.phase conn = Headlink.Running cid ->
     Headlink.last_id conn = last_id c ->
     exists m, (Headlink.send s k None d).1.2 = [(k, m)] /\
       forall post, (request true c data (Some m :: post)).2 = Ok (Some d)).
Proof.
  intros Hc Hl. assert (wrap 64 (last_id c + 1) = last_id c + 1) as Hw by (apply wrap_small; unfold in_u; lia).
  assert (forall incoming, request (E := Headlink.ExecuteError) true c data incoming =
    (mkClientConnect (last_id c + 1) true, [mkToServer (last_id c + 1) (Some data)], await_reply (last_id c + 1) incoming)) as Hr.
  { intros incoming. unfold request, send, to_server_id. rewrite Hc. cbn [negb]. by rewrite Hw. }
  split.
  - intros pre m post Hpre Hm. by rewrite Hr, await_reply_first.
  - intros s k conn cid d Hk Hp Hid. exists (mkToClient (last_id c + 1) (Some d)). split.
    + unfold Headlink.send, Headlink.to_client_id. rewrite Hk, Hp, Hid, Hw. done.
    + intros post. rewrite Hr. cbn [snd await_reply tc_id]. by rewrite Z.eqb_refl.
Qed.
End Requests.

(** ** The configuration a client is given *)

Section Configured.
Context `{IpNetworkLib, Headlink.Ipv4NetworkLib}.
Context (decode_base64 : string -> option bytes).
Context (ip_from_str : string -> option IpAddr).
Context (ip_network_new : IpAddr -> Z -> option IpNetwork).
#[local] Abbreviation peer_config := (bc_peer_enter2peer_config (E := Headlink.ExecuteError) decode_base64 ip_from_str).

Lemma peer_config_key {E} p c : bc_peer_enter2peer_config (E := E) decode_base64 ip_from_str p = Ok c ->
  decode_base64 (bp_pub_key p) = Some (cfg_public_key c).
Proof.
  unfold bc_peer_enter2peer_config. intros Hb. bind_inv Hb. bind_inv Hb. bind_inv Hb. bind_inv Hb. bind_inv Hb.
  injection Hb as <-. cbn. destruct (decode_base64 _) as [pk|]; [|done]. injection Hb0 as ->.
  unfold to_array in *. by destruct (length _ =? 32)%nat; simplify_eq.
Qed.

Lemma add_peers_ok ps : forall d, Forall (fun p => exists c, peer_config p = Ok c) ps ->
  NoDup (decode_base64 <$> (bp_pub_key <$> ps)) ->
  exists d', add_peers (E := Headlink.ExecuteError) decode_base64 ip_from_str d ps = Ok d' /\
    (forall k c, dc_peers d' !! k = Some c <->
       (exists p, p ∈ ps /\ peer_config p = Ok c /\ k = cfg_public_key c) \/
       (dc_peers d !! k = Some c /\ Some k ∉ decode_base64 <$> (bp_pub_key <$> ps))).
Proof.
  induction ps as [|p ps IH]; intros d Hps Hnd.
  - exists d. split; [done|]. intros k c. set_solver.
  - apply Forall_cons in Hps as [[c Hc] Hps]. cbn [fmap list_fmap] in Hnd. apply NoDup_cons in Hnd as [Hnin Hnd].
    destruct (IH (DeviceConfig_peer d c) Hps Hnd) as (d' & Hd' & Hspec).
    pose proof (peer_config_key p c Hc) as Hkey. rewrite Hkey in Hnin.
    exists d'. cbn [add_peers]. rewrite Hc. cbn [mbind res_bind]. split; [done|]. intros k c'. rewrite Hspec.
    cbn [dc_peers DeviceConfig_peer fmap list_fmap]. rewrite lookup_insert_Some, not_elem_of_cons, Hkey. split.
    + intros [(q & Hq & Hqc & ->)|[[[<- <-]|[Hne Hd]] Hn]].
      * left. exists q. set_solver.
      * left. exists p. set_solver.
      * right. split; [done|]. split; [congruence|done].
    + intros [(q & [->|Hq]%elem_of_cons & Hqc & ->)|[Hd [Hne Hn]]].
      * rewrite Hc in Hqc. injection Hqc as <-. right. split; [by left|done].
      * left. by exists q.
      * right. split; [|done]. right. split; [congruence|done].
Qed.

(** The device of a client has exactly the peers its server reports, each with its /32,
    and that includes itself: from a configuration in which every entry is well-formed and no
    key occurs twice, the client builds the configuration with these peers; and the server
    reports to a client that has an address the client's own entry, under its own key. *)
Theorem configured_peers s cid s' plan n self ip r sk args net :
  Headlink.config_plan s cid = (s', Ok plan) -> Headlink.networks s !! Headlink.ci_network_id cid = Some n ->
  Headlink.peers n !! Headlink.ci_pub_key cid = Some self -> Headlink.pm_ip (Headlink.model self) = Some ip ->
  rc_peers r = Headlink.plan_peers plan ->
  ip_network_new (IpV4 (be_bytes 4 (rc_network r))) (wrap 8 (rc_mask r)) = Some net ->
  Forall (fun p => exists c, peer_config p = Ok c) (rc_peers r) ->
  NoDup (decode_base64 <$> (bp_pub_key <$> rc_peers r)) ->
  exists cfg, request_for_config (E := Headlink.ExecuteError) decode_base64 ip_from_str ip_network_new (TcRespConfig r) sk args = Ok cfg /\
    (forall k c, dc_peers (device_config cfg) !! k = Some c <->
       exists p, p ∈ rc_peers r /\ peer_config p = Ok c /\ k = cfg_public_key c) /\
    exists key c, decode_base64 (Headlink.ci_pub_key cid) = Some key /\
      dc_peers (device_config cfg) !! key = Some c /\ cfg_ip_addr c = ip.
Proof.
  intros Hplan Hn Hself Hip Hr Hnet Hok Hnd.
  unfold request_for_config. rewrite Hnet. cbn [ok_or mbind res_bind].
  destruct (add_peers_ok (rc_peers r) (mkDeviceConfig sk 0 (if 0 <? rc_port r then wrap 16 (rc_port r) else default DEFAULT_PORT (arg_port args))
    ∅ (rc_address r) net) Hok Hnd) as (d & Hd & Hspec).
  rewrite Hd. cbn [mbind res_bind]. eexists. split; [done|]. cbn [device_config].
  assert (forall k c, dc_peers d !! k = Some c <-> exists p, p ∈ rc_peers r /\ peer_config p = Ok c /\ k = cfg_public_key c) as Hpeers.
  { intros k c. rewrite Hspec. cbn [dc_peers]. rewrite lookup_empty. naive_solver. }
  split; [done|].
  unfold Headlink.config_plan, Headlink.get_network in Hplan. rewrite Hn, Hself in Hplan.
  cbn [ok_or mbind res_bind] in Hplan. rewrite Hip in Hplan. injection Hplan as <- Hplan.
  apply bind_Ok_inv in Hplan as (a & _ & [= <-]). cbn [Headlink.plan_peers] in Hr.
  assert (exists e, e ∈ rc_peers r /\ Headlink.peer_entry (Headlink.ci_pub_key cid) self = Some e) as (e & He & Hent).
  { unfold Headlink.peer_entry. rewrite Hip. eexists. split; [|done]. rewrite Hr. apply list_elem_of_omap.
    exists (Headlink.ci_pub_key cid, self). split; [by apply elem_of_map_to_list|]. unfold Headlink.peer_entry. by rewrite Hip. }
  rewrite Forall_forall in Hok. destruct (Hok e He) as [c Hc]. unfold Headlink.peer_entry in Hent. rewrite Hip in Hent.
  pose proof (peer_config_key e c Hc) as Hkey. injection Hent as <-. cbn [bp_pub_key] in Hkey.
  exists (cfg_public_key c), c. split; [done|]. split; [apply Hpeers; by eexists|].
  unfold bc_peer_enter2peer_config in Hc. do 5 bind_inv Hc. by injection Hc as <-.
Qed.
End Configured.

(** ** Witnesses *)
Section Witnesses.
#[local] Existing Instance Headlink.Toy.lib.
#[local] Existing Instance Prefixes.lib.

(** The client has one request behind it, the server has sent one message of its own: the
    broadcast of a peer is taken for the configuration. *)
Definition toy_bc : ToClientData Headlink.ExecuteError := TcPeerLeave (mkBcPeerLevel "b").
Definition toy_cc : ClientConnect := mkClientConnect 1 true.
Lemma request_takes_first_match_witness : exists m,
  (Headlink.send Headlink.toy_attacked 1 None toy_bc).1.2 = [(1%nat, m)] /\
  (request true toy_cc TsReqConfig [Some m]).2 = Ok (Some toy_bc).
Proof.
  destruct (request_takes_first_match toy_cc TsReqConfig eq_refl ltac:(cbn; lia)) as [_ Hb].
  destruct (Hb Headlink.toy_attacked 1%nat (Headlink.mkConn "x" (Some (Headlink.mkClientId "a" 1)) 1 (Headlink.Running (Headlink.mkClientId "a" 1)))
    (Headlink.mkClientId "a" 1) toy_bc eq_refl eq_refl eq_refl) as (m & Hm & Hr).
  exists m. split; [exact Hm|apply Hr].
Defined.

Definition toy_decode (s : string) : option bytes := Some (replicate 32 (match s with String.String c _ => Ascii.byte_of_ascii c | _ => x00 end)).
Definition toy_parse (s : string) : option IpAddr := (fun z => IpV4 (be_bytes 4 z)) <$> ipv4_from_str s.
Definition toy_row : Headlink.PeerModel := Headlink.mkPeerModel 1 "a" (Some "0.0.0.2"%string) None None None 1 false.
Definition toy_network : Headlink.VlinkNetwork (H := Headlink.Toy.lib) :=
  Headlink.mkVlinkNetwork (H := Headlink.Toy.lib) 1 0 {["a"%string := Headlink.VlinkPeer_from toy_row]} ∅.
Definition toy_configured : Headlink.Server := Headlink.mkServer ∅ {[1 := toy_network]} Headlink.toy_db ∅.
Definition toy_entry : BcPeerEnter := mkBcPeerEnter "a" "0.0.0.2" None 0 None 3 false.
Definition toy_resp : RespConfig := mkRespConfig 1 2 29 0 0 None [toy_entry] [] [].
Lemma configured_peers_witness : exists cfg,
  request_for_config (H := Prefixes.lib) (E := Headlink.ExecuteError) toy_decode toy_parse Prefixes.truncate (TcRespConfig toy_resp) [] (mkArgConfig None None) = Ok cfg /\
  exists key c, toy_decode "a" = Some key /\ dc_peers (device_config cfg) !! key = Some c /\ cfg_ip_addr c = "0.0.0.2"%string.
Proof.
  destruct (configured_peers (H := Prefixes.lib) toy_decode toy_parse Prefixes.truncate toy_configured (Headlink.mkClientId "a" 1) toy_configured
    (Headlink.mkConfigPlan (Headlink.VlinkPeer_from toy_row) [toy_entry] 2 false)
    toy_network (Headlink.VlinkPeer_from toy_row) "0.0.0.2"
    toy_resp [] (mkArgConfig None None) (true, 29, replicate 29 false)) as (cfg & Hcfg & _ & Hself).
  - vm_compute. reflexivity.
  - reflexivity.
  - reflexivity.
  - reflexivity.
  - reflexivity.
  - vm_compute. reflexivity.
  - apply Forall_singleton, is_ok_inv. vm_compute. reflexivity.
  - apply NoDup_singleton.
  - exists cfg. split; [exact Hcfg|exact Hself].
Defined.
End Witnesses.
End Vlinkd.
