(* ===== verification/Relay.v ===== *)
(** * The relay transport (vlinkd/src/transport/proto/relay_transport.rs)

    A peer that cannot be reached directly gets an endpoint that sends through a DERP server:
    the transport keeps one connection per server, hands the packets it receives to the
    device, and connects when another peer asks for it through the registration server.
    Connections are those of [DerpConn], kept by position; what connecting gives is an
    argument. *)

From S2P Require Import Prelude Bytes Framed Derp DerpConn Noise Session Peer Device Abi Secret Vlinkd.
#[local] Open Scope Z_scope.

Module Relay.
Import Derp DerpConn.

(** [ts_conn] is the connection whose channel the sender is a clone of. *)
Record TailscleDerpOutboundSender := mkSender { ts_dst : bytes; ts_conn : nat }.
(** [dst] and [protocol]: the device sees the same endpoint for every relayed peer. *)
Definition sender_endpoint (s : TailscleDerpOutboundSender) : Endpoint := Vlinkd.relay_endpoint.

Section Transport.
Context `{Secret.SecretLibs, IpNetworkLib} {E : Type}.

(** [rl_listening]: the task that serves the requests of other peers runs. *)
Record RelayTransport := mkRelayTransport {
  rl_derp : gmap string nat;
  rl_conns : list Conn;
  rl_peers : PeerList;
  rl_listening : bool;
}.
Definition RelayTransport_new (peers : PeerList) : RelayTransport := mkRelayTransport ∅ [] peers true.

(** [TailscleDerpOutboundSender::send], when there is room: without a receiver it fails. The
    packet is not compared with the limit of [send_to]. *)
Definition sender_send (s : TailscleDerpOutboundSender) (data : bytes) (rt : RelayTransport) : RelayTransport * res Error unit :=
  match rl_conns rt !! ts_conn s with
  | Some c =>
      if cn_sending c then
        (mkRelayTransport (rl_derp rt) (<[ts_conn s := push c (SendPacket (ts_dst s) data)]> (rl_conns rt)) (rl_peers rt) (rl_listening rt), Ok tt)
      else (rt, Err NotConnect)
  | None => (rt, Err NotConnect)
  end.

(** The data task of a connection: packets go to the device with a sender for the way back. *)
Definition relay_inbound (n : nat) (items : list DerpResponse) : list (bytes * TailscleDerpOutboundSender) :=
  omap (fun x => match x with FrameRecvPacket_ src data => Some (data, mkSender src n) | _ => None end) items.

(** [connect_derp_server] with the connection it makes, if it does. *)
Definition relay_connect (server : string) (target : bytes) (outcome : res Error Conn) (rt : RelayTransport) : RelayTransport :=
  let name := match outcome with Ok _ => Some (length (rl_conns rt)) | _ => None end in
  let '(derp, l, _) := Vlinkd.connect_derp_server (rl_derp rt) (rl_peers rt) server target name in
  let conns := match rl_derp rt !! server, outcome with
    | None, Ok c => rl_conns rt ++ [c]
    | _, _ => rl_conns rt
    end in
  mkRelayTransport derp conns l (rl_listening rt).

(** One turn of the task of [spawn]; [None] is a receiver that lagged or was closed, which
    ends it, and so does a key that is not one, with a panic. *)
Definition relay_listen (msg : option (ToClient E)) (outcome : res Error Conn) (rt : RelayTransport) : RelayTransport :=
  if negb (rl_listening rt) then rt
  else
    match msg with
    | None => mkRelayTransport (rl_derp rt) (rl_conns rt) (rl_peers rt) false
    | Some m =>
        match to_client_data m with
        | Some (TcRequireReply r) =>
            match Secret.decode_base64_key (E := unit) (rr_src r) with
            | Ok src => relay_connect (rr_server r) src outcome rt
            | _ => mkRelayTransport (rl_derp rt) (rl_conns rt) (rl_peers rt) false
            end
        | _ => rt
        end
    end.

(** What happens to the transport: a message of the registration server, a request of the
    selector ([require_reply]), a turn of a connection, a packet of the device. *)
Inductive RelayEv :=
| RvMessage (msg : option (ToClient E)) (outcome : res Error Conn)
| RvRequire (server : string) (target : bytes) (outcome : res Error Conn)
| RvTurn (n : nat) (ev : ConnEv)
| RvSend (s : TailscleDerpOutboundSender) (data : bytes).
Context `{DerpLibs}.
Definition relay_step (rt : RelayTransport) (ev : RelayEv) : RelayTransport :=
  match ev with
  | RvMessage msg outcome => relay_listen msg outcome rt
  | RvRequire server target outcome => relay_connect server target outcome rt
  | RvTurn n ev => mkRelayTransport (rl_derp rt) (alter (fun c => conn_step c ev) n (rl_conns rt)) (rl_peers rt) (rl_listening rt)
  | RvSend s data => (sender_send s data rt).1
  end.
Definition relay_run (rt : RelayTransport) (evs : list RelayEv) : RelayTransport := foldl relay_step rt evs.

(** *** A connection that was lost *)

Lemma push_sending c r : cn_sending (push c r) = cn_sending c.
Proof. unfold push. by destruct (cn_sending c && _) eqn:Hp. Qed.
Lemma next_item_sending c : cn_sending (next_item c) = cn_sending c.
Proof.
  unfold next_item. destruct (decode _ _) as [[codec buf] [[x|]|e|]]; try done.
  - unfold on_item. destruct (cn_reader _); try done. destruct x; try done. unfold push_info. cbn [cn_sending]. by rewrite push_sending.
  - cbn [cn_eof set_input]. destruct (cn_eof c); [|done]. cbn. destruct (length buf =? 0)%nat; [done|].
    unfold on_error. by destruct (cn_reader _).
  - unfold on_error. by destruct (cn_reader _).
Qed.
Lemma conn_step_dead c ev : cn_sending c = false -> cn_sending (conn_step c ev) = false.
Proof.
  intros Hc. destruct ev as [k| | |n ok|r]; cbn [conn_step]; try done.
  - by destruct (cn_eof c).
  - destruct (cn_reader c); try done.
    + destruct (cn_wait c); [unfold push_info; cbn [cn_sending]; by rewrite push_sending|]. by rewrite next_item_sending.
    + by rewrite next_item_sending.
  - by rewrite Hc.
  - by rewrite push_sending.
Qed.

(** The connection of [server] is lost. *)
Definition lost (server : string) (n : nat) (rt : RelayTransport) : Prop :=
  rl_derp rt !! server = Some n /\ exists c, rl_conns rt !! n = Some c /\ cn_sending c = false.

Lemma relay_connect_lost server n server' target outcome rt : lost server n rt -> lost server n (relay_connect server' target outcome rt).
Proof.
  intros (Hs & c & Hc & Hd). unfold relay_connect, Vlinkd.connect_derp_server.
  destruct (rl_derp rt !! server') as [m|] eqn:Hs'; [by split; [|eauto]|].
  assert (server' <> server) as Hne by congruence.
  destruct outcome as [c'| |]; (split; cbn; [|exists c; split; [|done]]); try done.
  - by rewrite lookup_insert_ne.
  - by apply lookup_app_l_Some.
Qed.
Lemma relay_step_lost server n rt ev : lost server n rt -> lost server n (relay_step rt ev).
Proof.
  intros Hl. pose proof Hl as (Hs & c & Hc & Hd). destruct ev as [msg outcome|server' target outcome|m ev|s data]; cbn [relay_step].
  - unfold relay_listen. destruct (rl_listening rt); cbn [negb]; [|done]. destruct msg as [m|]; [|done].
    destruct (to_client_data m) as [[]|]; try done. destruct (Secret.decode_base64_key _); try done. by apply relay_connect_lost.
  - by apply relay_connect_lost.
  - split; [done|]. cbn. destruct (decide (m = n)) as [->|Hne].
    + exists (conn_step c ev). rewrite list_lookup_alter_eq, Hc. split; [done|]. by apply conn_step_dead.
    + exists c. rewrite list_lookup_alter_ne by done. done.
  - unfold sender_send. destruct (rl_conns rt !! ts_conn s) as [c'|] eqn:Hc'; [|done]. destruct (cn_sending c') eqn:Hd'; [|done].
    split; [done|]. exists c. cbn. rewrite list_lookup_insert_ne; [done|]. intros <-. congruence.
Qed.

(** C27: a relay connection that is lost is never made again. When the sender task of the
    connection to a server has ended (a write failed), then whatever follows - messages of
    other peers, requests of the selectors with connections that could be made, turns of the
    connections, packets - that connection stays the one of the server and stays dead, no
    request for this server connects, and every packet through it is an error, while peers
    are still given endpoints that use it. *)
Theorem relay_dead_forever server n rt evs :
  rl_derp rt !! server = Some n -> (exists c, rl_conns rt !! n = Some c /\ cn_sending c = false) ->
  let rt := relay_run rt evs in
  rl_derp rt !! server = Some n /\
  (forall dst data, (sender_send (mkSender dst n) data rt) = (rt, Err NotConnect)) /\
  (forall target outcome, rl_conns (relay_connect server target outcome rt) = rl_conns rt /\
     rl_peers (relay_connect server target outcome rt) =
       Vlinkd.update_peer (rl_peers rt) target (fun p => update_endpoint p (sender_endpoint (mkSender target n)))).
Proof.
  intros Hs Hc rt'. assert (lost server n rt') as (Hs' & c & Hc' & Hd).
  { assert (lost server n rt) as Hl by (split; done). unfold rt', relay_run. clear rt' Hs Hc. revert rt Hl.
    induction evs as [|ev evs IH]; intros rt Hl; [done|]. apply IH, relay_step_lost, Hl. }
  split; [done|]. split.
  - intros dst data. unfold sender_send. cbn. by rewrite Hc', Hd.
  - intros target outcome. unfold relay_connect, Vlinkd.connect_derp_server. by rewrite Hs'.
Qed.
End Transport.

(** ** Two nodes and a server *)

Section Carries.
Context `{DerpLaws}.

(** A request as it is written once the handshake is done. *)
Definition sent_frame (r : DerpRequest) : bytes :=
  match r with
  | SendPacket dst data => frame FrameSendPacket (dst ++ data)
  | _ => []
  end.
Definition is_packet (r : DerpRequest) : bool := match r with SendPacket _ _ => true | _ => false end.
(** Turns in which no write fails and only packets are staged. *)
Definition relaying (ev : ConnEv) : bool :=
  match ev with
  | SendTurn _ ok => ok
  | Stage r => is_packet r
  | _ => true
  end.
(** The requests the channel takes. *)
Fixpoint accepted (c : Conn) (evs : list ConnEv) : list DerpRequest :=
  match evs with
  | [] => []
  | ev :: evs =>
      (match ev with Stage r => if (length (cn_queue c) <? CHANNEL)%nat then [r] else [] | _ => [] end) ++
      accepted (conn_step c ev) evs
  end.

(** A connection after its handshake. *)
Definition up (c : Conn) : Prop :=
  cn_reader c <> Shaking /\ cn_sending c = true /\ Forall (fun r => is_packet r = true) (cn_queue c).
Definition written (c : Conn) : list bytes := cn_sent c ++ (sent_frame <$> cn_queue c).

Lemma next_item_up c : cn_reader c <> Shaking ->
  cn_reader (next_item c) <> Shaking /\ cn_queue (next_item c) = cn_queue c /\ cn_sent (next_item c) = cn_sent c.
Proof.
  intros Hr. unfold next_item. destruct (decode _ _) as [[codec buf] [[x|]|e|]].
  - unfold on_item. cbn [cn_reader set_input]. destruct (cn_reader c) eqn:Hc; try done; cbn; by rewrite Hc.
  - cbn [cn_eof set_input]. destruct (negb _); [done|]. destruct (_ =? _)%nat; [done|].
    unfold on_error. cbn [cn_reader set_input]. by destruct (cn_reader c).
  - unfold on_error. cbn [cn_reader set_input]. by destruct (cn_reader c).
  - done.
Qed.
Lemma relaying_step c ev : relaying ev = true -> up c ->
  up (conn_step c ev) /\ written (conn_step c ev) = written c ++ (sent_frame <$> (accepted c [ev])).
Proof.
  intros Hev (Hr & Hs & Hq). cbn [accepted]. rewrite app_nil_r. unfold up, written.
  destruct ev as [k| | |n ok|r]; cbn [conn_step relaying] in *; rewrite ?app_nil_r.
  - by destruct (cn_eof c).
  - done.
  - assert (cn_reader (next_item c) <> Shaking /\ cn_sending (next_item c) = true /\
      Forall (fun r => is_packet r = true) (cn_queue (next_item c))) as Hup.
    { destruct (next_item_up c Hr) as (? & Hq' & _). rewrite next_item_sending, Hq'. done. }
    destruct (next_item_up c Hr) as (_ & Hq' & Hs').
    destruct (cn_reader c) eqn:Hrd; [done| |by rewrite Hrd..]. split; [exact Hup|]. by rewrite Hq', Hs'.
  - subst ok. rewrite Hs. unfold send_turn. destruct (cn_queue c) as [|r q] eqn:Hqc; [by rewrite Hqc|].
    apply Forall_cons in Hq as [Hp Hq]. destruct r as [|dst data|]; try done.
    cbn [encode]. split; [done|]. cbn [cn_sent cn_queue fmap list_fmap]. by rewrite <- app_assoc.
  - unfold push. rewrite Hs. cbn [andb]. destruct (_ <? _)%nat; [|by rewrite app_nil_r]. cbn. split.
    + split; [done|]. split; [done|]. apply Forall_app_2; [done|]. by apply Forall_singleton.
    + by rewrite fmap_app, app_assoc.
Qed.
Lemma relaying_run evs : forall c, forallb relaying evs = true -> up c ->
  up (conn_run c evs) /\ written (conn_run c evs) = written c ++ (sent_frame <$> accepted c evs).
Proof.
  induction evs as [|ev evs IH]; intros c Hev Hup; cbn [conn_run foldl forallb accepted] in *; [by rewrite app_nil_r|].
  apply andb_true_iff in Hev as [He Hes]. destruct (relaying_step c ev He Hup) as [Hup1 Hw1].
  destruct (IH _ Hes Hup1) as [Hup2 Hw2]. split; [done|]. unfold conn_run in Hw2. rewrite Hw2, Hw1, fmap_app.
  cbn [accepted]. by rewrite app_nil_r, <- app_assoc.
Qed.

Lemma relay_inbound_packets n ka ds :
  relay_inbound n (packet_item <$> ((fun d => (ka, d)) <$> ds)) = (fun d => (d, mkSender ka n)) <$> ds.
Proof. unfold relay_inbound. induction ds as [|d ds IH]; [done|]. cbn in *. by rewrite IH. Qed.

Context (public : bytes -> bytes).
(** The server: what it does with a frame of the client with a key, by its protocol. *)
Context (forward : bytes -> bytes -> option (bytes * bytes)).

(** C26: a packet sent to a relayed peer reaches its device, with the way back. Let node A,
    with its handshake done, be given packets for B's key while its two tasks take turns in
    any order, and let its channel be emptied; let the server pass every packet on to its
    destination with the sender's key, as its protocol says, after its own handshake with B;
    let B's connection take these bytes in any chunks and its tasks turns in any order, until
    both are done. Then B's transport hands its device exactly the packets A was given, in
    order, each with a sender that answers to A. *)
Theorem relay_carries_packets ka kb priv sk head nonce sealed text info json ds cA evsA evsB nB m n :
  (forall a b n d e, salsa_encrypt (public b) a n d = Some e -> salsa_decrypt (public a) b n e = Some d) ->
  (forall d, forward ka (frame FrameSendPacket (kb ++ d)) = Some (kb, frame FrameRecvPacket (ka ++ d))) ->
  up cA -> cn_queue cA = [] -> forallb relaying evsA = true -> accepted cA evsA = SendPacket kb <$> ds ->
  cn_queue (conn_run cA evsA) = [] ->
  length ka = 32%nat -> Forall (fun d => Z.of_nat (length d) <= MAX_PACKET_SIZE) ds ->
  http_response head = Some (Some (length head, 101)) ->
  length priv = 32%nat -> length (public sk) = 32%nat -> length nonce = 24%nat ->
  Z.of_nat (length (nonce ++ sealed)) <= 2 ^ 20 ->
  salsa_decrypt (public sk) priv nonce sealed = Some text -> server_info_of_json text = Some info ->
  client_info_json (ClientInfo_new false) = Some json ->
  (forall n, is_Some (salsa_encrypt (public sk) priv n json)) ->
  forallb calm evsB = true ->
  arrivals evsB = head ++ frame FrameServerKey (MAGIC ++ public sk) ++ frame FrameServerInfo (nonce ++ sealed) ++
    concat (omap (fun f => snd <$> forward ka f) (drop (length (cn_sent cA)) (cn_sent (conn_run cA evsA)))) ->
  (3 + length ds <= m)%nat ->
  let cB := conn_run (Conn_new (DerpCodec_new (public priv) priv false)) (evsB ++ replicate m Next ++ [SendTurn n true]) in
  cn_reader cB = Reading /\ relay_inbound nB (cn_items cB) = (fun d => (d, mkSender ka nB)) <$> ds.
Proof.
  intros Hbox Hfwd HupA HqA HevA HaccA HqA' Hka Hds Hhead Hpriv Hpk Hnonce Hlen Hdec Hinfo Hjson Henc Hcalm Harr Hm cB.
  destruct (relaying_run evsA cA HevA HupA) as [_ Hw]. unfold written in Hw. rewrite HqA, HqA', HaccA in Hw. cbn [fmap list_fmap] in Hw.
  rewrite !app_nil_r in Hw. rewrite Hw, drop_app_length in Harr.
  set (ps := (fun d => (ka, d)) <$> ds).
  assert (arrivals evsB ++ [] = server_stream head (public sk) nonce sealed ps) as Harr'.
  { rewrite app_nil_r, Harr. unfold server_stream. do 3 f_equal. unfold ps. clear -Hfwd. induction ds as [|d ds IH]; [done|].
    cbn [fmap list_fmap omap list_omap sent_frame mbind list_bind]. rewrite Hfwd. cbn [fmap option_fmap option_map snd concat].
    by rewrite IH. }
  assert (Forall packet_ok ps) as Hps.
  { unfold ps. apply Forall_fmap. eapply Forall_impl; [exact Hds|]. intros d Hd. by split. }
  destruct (derp_session public priv sk head nonce sealed text info json ps evsB [] Hbox Hhead Hpriv Hpk Hnonce Hlen Hdec
    Hinfo Hjson Henc Hps Hcalm Harr') as (_ & _ & _ & Hend).
  destruct (Hend eq_refl m n) as (Hrd & Hit & _); [unfold ps; by rewrite length_fmap|].
  unfold cB, conn_run. rewrite foldl_app. unfold conn_run in Hrd, Hit. split; [exact Hrd|]. rewrite Hit. apply relay_inbound_packets.
Qed.
End Carries.

(** ** Witnesses *)
Section Witnesses.
(** Boxes that hide nothing; a response head is one line feed. *)
#[local] Instance toy_derp : DerpLibs := {|
  salsa_encrypt pk sk n d := Some d;
  salsa_decrypt pk sk n d := Some d;
  client_info_json i := Some [x7b; x7d];
  server_info_of_json d := Some (mkServerInfo 2);
  http_response := @http_response Derp.Toy.libs;
|}.
#[local] Instance toy_derp_laws : DerpLaws.
Proof. split; [apply (@http_head _ Derp.Toy.laws)|apply (@http_error _ Derp.Toy.laws)]. Qed.

Definition ka : bytes := replicate 32 x0a.
Definition kb : bytes := replicate 32 x0b.
Definition toy_forward (from f : bytes) : option (bytes * bytes) :=
  Some (take 32 (drop 5 f), frame FrameRecvPacket (from ++ drop 37 f)).
Definition toy_conn : Conn := mkConn (mkDerpCodec false ka ka (Some (ka, ka)) None) [] false Reading false [] true [] [].
Definition toy_evs : list ConnEv := [Stage (SendPacket kb [x01]); SendTurn [] true; Stage (SendPacket kb [x02; x03]); Next; SendTurn [] true].
Definition toy_nonce : bytes := replicate 24 x00.
Definition toy_server : bytes :=
  server_stream [x0a] ka toy_nonce [x7b; x7d] [(ka, [x01]); (ka, [x02; x03])].

(** Two packets from A to B, read in two chunks. *)
Lemma relay_carries_packets_witness :
  relay_inbound 0 (cn_items (conn_run (Conn_new (DerpCodec_new kb kb false))
    ([Arrive (take 60 toy_server); Next; Arrive (drop 60 toy_server)] ++ replicate 5 Next ++ [SendTurn [] true])))
  = [([x01], mkSender ka 0); ([x02; x03], mkSender ka 0)].
Proof.
  refine (proj2 (relay_carries_packets (fun k => k) toy_forward ka kb kb ka [x0a] toy_nonce [x7b; x7d] [x7b; x7d] (mkServerInfo 2) [x7b; x7d]
    [[x01]; [x02; x03]] toy_conn toy_evs [Arrive (take 60 toy_server); Next; Arrive (drop 60 toy_server)] 0 5 []
    _ _ _ _ _ _ _ _ _ _ _ _ _ _ _ _ _ _ _ _ _)).
  - intros a b n d e [= <-]. reflexivity.
  - intros d. unfold toy_forward, frame at 1 3, write_frame. pose proof (length_be_bytes 4 (wrap 32 (Z.of_nat (length (kb ++ d))))) as Hl.
    destruct (be_bytes 4 _) as [|b1 [|b2 [|b3 [|b4 [|]]]]]; try discriminate Hl. reflexivity.
  - split; [discriminate|split; [reflexivity|apply Forall_nil; exact I]].
  - reflexivity.
  - reflexivity.
  - vm_compute. reflexivity.
  - vm_compute. reflexivity.
  - reflexivity.
  - repeat (apply Forall_cons; split; [vm_compute; congruence|]). apply Forall_nil. exact I.
  - reflexivity.
  - reflexivity.
  - reflexivity.
  - reflexivity.
  - vm_compute. congruence.
  - reflexivity.
  - reflexivity.
  - reflexivity.
  - intros n. eexists. reflexivity.
  - reflexivity.
  - vm_compute. reflexivity.
  - cbn. lia.
Defined.

#[local] Existing Instance Secret.ToySecret.lib.
#[local] Existing Instance Prefixes.lib.
(** The connection breaks on a write; a request of another peer comes, with a connection that
    could be made, and the packet to it fails. *)
Definition toy_relay : RelayTransport :=
  mkRelayTransport {["derp"%string := 0%nat]} [send_turn [] false (push toy_conn (SendPacket kb [x01]))] (PeerList_new 7) true.
Definition toy_require : RelayEv (E := unit) := RvRequire "derp" kb (Ok toy_conn).
Lemma relay_dead_forever_witness :
  let rt := relay_run toy_relay [toy_require; RvTurn 0 Next] in
  rl_derp rt !! "derp"%string = Some 0%nat /\ (sender_send (mkSender kb 0) [x02] rt).2 = Err NotConnect.
Proof.
  destruct (relay_dead_forever "derp"%string 0 toy_relay [toy_require; RvTurn 0 Next]) as (H1 & H2 & _).
  - reflexivity.
  - eexists. split; reflexivity.
  - split; [exact H1|]. rewrite H2. reflexivity.
Defined.
End Witnesses.
End Relay.
