(* ===== verification/Daemon.v ===== *)
(** * Starting a device and running the daemon

    vlink-tun/src/device/mod.rs, [Device::new]; vlinkd/src: client.rs (the reconnect loop),
    network/mod.rs and extra_transport.rs (the network manager). The interface is any
    instance of [TunIf.Tun], the host's sockets those of [Udp]; what the client receives and
    how its attempts go are arguments. *)

From S2P Require Import Prelude Bytes Host NonceFilter Protocol Crypto Clock Noise Session PeerHandshake Monitor Peer Device Udp Abi TunIf TunOs Nat Secret Headlink Vlinkd.
#[local] Open Scope Z_scope.

Module Daemon.
Import TunIf TunOs Vlinkd.

(** ** vlink-tun/src/device/mod.rs *)

Section Start.
Context `{TunHost} {T : Type} {I : Tun T}.
Context `{IpNetworkLib, CryptoPrims}.
(** [NativeTun::new] and [Router::add_route] of the system; of ip_network, the mask of an
    IPv4 network ([None] for IPv6) and its address. *)
Context (native_new : option bytes -> io host IfError T).
Context (add_route : bytes -> IpAddr -> IpAddr -> io host IfError unit).
Context (full_netmask : IpNetwork -> option bytes) (network_address : IpNetwork -> IpAddr).

Record DeviceState := mkDeviceState {
  dv_tun : T;
  dv_tun_addr : bytes;
  dv_port : Z;
  dv_sockets : UdpSocketInfo;
  dv_transport : UdpTransport;
  dv_settings : Settings;
  dv_peers : PeerList;
}.

(** [now] and [rnd] are the clock and the first session index. The mask of an IPv6 network is
    [todo!()]: a panic, after the interface was made. *)
Definition Device_new (now rnd : Z) (name : option bytes) (cfg : DeviceConfig) : io host IfError DeviceState :=
  tun ← native_new name;
  _ ← enabled tun true;
  mask ← pure_res (unwrap_opt (full_netmask (dc_network cfg)));
  tun ← set_ip tun (be_bytes 4 (dc_address cfg)) mask;
  _ ← add_route (if_name tun) (network_address (dc_network cfg)) (IpV4 mask);
  sp ← io_map_err IfIO (spawn (dc_port cfg));
  let settings := Settings_new (dc_private_key cfg) (dc_fwmark cfg) in
  addr ← address tun;
  let peers := reset_peers now settings (PeerList_new rnd) ((map_to_list (dc_peers cfg)).*2) in
  mret (mkDeviceState tun addr sp.2.1 sp.2.2 sp.1 settings peers).
End Start.

(** ** vlinkd/src/network/mod.rs *)

Inductive NetworkCtrlCmd (E : Type) :=
| ReqInfo
| ChangeIp
| FirstConnected
| Connected
| CmdToClientData (data : ToClientData E).
Arguments ReqInfo {E}.
Arguments ChangeIp {E}.
Arguments FirstConnected {E}.
Arguments Connected {E}.
Arguments CmdToClientData {E} data.

Section Manager.
Context `{IpNetworkLib}.
Context {E : Type}.
Context (decode_base64 : string -> option bytes).

(** [start_device]: the extension endpoints of the configuration by the key of their peer, in
    order; then an empty list for every peer without any. *)
Fixpoint group_transports (ts : list PeerExtraTransport) (m : gmap bytes (list PeerExtraTransport))
    : res (Vlinkd.Error E) (gmap bytes (list PeerExtraTransport)) :=
  match ts with
  | [] => Ok m
  | t :: ts =>
      key ← ok_or BadBase64 (decode_base64 (px_target_pub_key t));
      if negb (length key =? 32)%nat then Err BadPacket
      else group_transports ts (<[key := default [] (m !! key) ++ [t]]> m)
  end.
Definition with_all_peers (l : PeerList) (m : gmap bytes (list PeerExtraTransport)) : gmap bytes (list PeerExtraTransport) :=
  foldl (fun m p => match m !! pub_key p with Some _ => m | None => <[pub_key p := []]> m end) m
    (omap (fun name => pl_store l !! name) (PeerList_all l)).
(** The selectors that are started: one for every key of the map that is a peer's. *)
Definition start_selectors (l : PeerList) (m : gmap bytes (list PeerExtraTransport)) : gmap bytes (list PeerExtraTransport) :=
  filter (fun e => get_by_key l e.1 <> None) m.
Definition selectors (l : PeerList) (ts : list PeerExtraTransport) : res (Vlinkd.Error E) (gmap bytes (list PeerExtraTransport)) :=
  m ← group_transports ts ∅;
  Ok (start_selectors l (with_all_peers l m)).

(** The extension transports that are started; an unknown protocol ends [start_device] with an
    error, after the ones before it were started. *)
Fixpoint start_extras (cfgs : list ExtraTransport) : list (ExtraProto * string) * res (Vlinkd.Error E) unit :=
  match cfgs with
  | [] => ([], Ok tt)
  | c :: cfgs =>
      match ExtraProto_from_str (et_proto c) with
      | None => ([], Err BadPacket)
      | Some proto => let '(l, r) := start_extras cfgs in ((proto, et_params c) :: l, r)
      end
  end.
(** A transport that failed is marked, if it has ever reported an endpoint. *)
Definition extra_failed (es : gmap ExtraProto ExtraProtoStatus) (proto : ExtraProto) (err : Vlinkd.Error E)
    : gmap ExtraProto ExtraProtoStatus :=
  alter (fun _ => mkExtraProtoStatus None false (Some err)) proto es.

(** extra_transport.rs, [start_extra_transport] up to the start of its service: [of_json] and
    [dip_ok] are what serde_json makes of the parameters. *)
Definition start_extra_transport (of_json : string -> option (list string * Z)) (dip_ok : string -> bool)
    (cfg : ExtraTransport) : res (Vlinkd.Error E) (option Nat.NatService) :=
  match ExtraProto_from_str (et_proto cfg) with
  | None => Err BadPacket
  | Some NatUdp =>
      '(servers, port) ← ok_or BadPacket (of_json (et_params cfg));
      Ok (Some (Nat.NatService_new (Nat.mkNatServiceParam servers port Nat.UDP None)))
  | Some NatTcp =>
      '(servers, port) ← ok_or BadPacket (of_json (et_params cfg));
      Ok (Some (Nat.NatService_new (Nat.mkNatServiceParam servers port Nat.TCP None)))
  | Some Dip => if dip_ok (et_params cfg) then Ok None else Err BadPacket
  end.

(** [start]: commands before the first connection are dropped; [None] is two seconds without
    it, which is [todo!()]. A command comes with how its handling goes. *)
Fixpoint wait_first {B} (cmds : list (NetworkCtrlCmd E * B)) : option (list (NetworkCtrlCmd E * B)) :=
  match cmds with
  | [] => None
  | (FirstConnected, _) :: cmds => Some cmds
  | _ :: cmds => wait_first cmds
  end.

(** The command loop of [start], on the peers of the device, with what it sends to the
    server. [announce] is the message of [handler_connected], [send_ok] whether it is sent. *)
Definition manager_cmd (announce : ToServerData) (l : PeerList) (cmd : NetworkCtrlCmd E) (send_ok : bool)
    : res (Vlinkd.Error E) (PeerList * list ToServerData) :=
  match cmd with
  | CmdToClientData data => l ← handle_to_client_data decode_base64 data l; Ok (l, [])
  | Connected => if send_ok then Ok (l, [announce]) else Err SinkError
  | _ => Ok (l, [])
  end.
Fixpoint manager_loop (announce : ToServerData) (l : PeerList) (cmds : list (NetworkCtrlCmd E * bool))
    : res (Vlinkd.Error E) (PeerList * list ToServerData) :=
  match cmds with
  | [] => Ok (l, [])
  | (cmd, ok) :: cmds =>
      '(l, out) ← manager_cmd announce l cmd ok;
      '(l, outs) ← manager_loop announce l cmds;
      Ok (l, out ++ outs)
  end.
End Manager.

(** ** vlinkd/src/client.rs *)

Section Client.
Context `{Secret.SecretLibs} {E : Type}.

(** [spawn]: how one turn of [reconnect] goes. [at_first] is the first message received on a
    new connection, [None] when none comes in time; [at_incoming] what is received while the
    answer to the handshake is awaited; [at_sink_ok] whether that can be sent. *)
Record Attempt := mkAttempt {
  at_connects : bool;
  at_first : option (ToClient E);
  at_incoming : list (option (ToClient E));
  at_sink_ok : bool;
}.

(** [cl_count] is the counter of attempts, [cl_conn] whether there is a connection to use. *)
Record ClientLoop := mkClientLoop { cl_count : Z; cl_first : bool; cl_conn : bool }.
Definition ClientLoop_new : ClientLoop := mkClientLoop 0 true false.

Inductive TurnEnd := Retry | Stop.

(** The signature for the server's key. *)
Definition sign_for (secret : Secret.VlinkStaticSecret) (m : option (ToClient E)) : option string :=
  match m with
  | Some msg =>
      match to_client_data msg with
      | Some (TcRespServerInfo info) =>
          key ← Secret.base64_decode (rs_key info);
          if (length key =? 32)%nat then
            match Secret.hello_sign secret key with Ok s => Some s | _ => None end
          else None
      | _ => None
      end
  | None => None
  end.

(** One turn: the seconds it waits first, what it tells the network manager, and whether the
    loop goes on. An error after the connection is made ends the loop. *)
Definition reconnect_turn (secret : Secret.VlinkStaticSecret) (st : ClientLoop) (a : Attempt)
    : ClientLoop * Z * list (NetworkCtrlCmd E) * TurnEnd :=
  let delay := if 0 <? cl_count st then 3 else 0 in
  let count := cl_count st + 1 in
  if negb (at_connects a) then (mkClientLoop count (cl_first st) (cl_conn st), delay, [], Retry)
  else
    match sign_for secret (at_first a) with
    | None => (mkClientLoop 1 (cl_first st) (cl_conn st), delay, [], Stop)
    | Some sign =>
        let '(_, _, r) := handshake (at_sink_ok a) (mkClientConnect 0 true)
          (mkHandshakeParam (Secret.base64_pub secret) sign None) (at_incoming a) in
        match r with
        | Ok _ =>
            (mkClientLoop 1 false true, delay,
             (if cl_first st then [FirstConnected] else []) ++ [Connected], Retry)
        | _ => (mkClientLoop 1 (cl_first st) (cl_conn st), delay, [], Stop)
        end
    end.
Fixpoint reconnect (secret : Secret.VlinkStaticSecret) (st : ClientLoop) (attempts : list Attempt)
    : ClientLoop * list (NetworkCtrlCmd E) * TurnEnd :=
  match attempts with
  | [] => (st, [], Retry)
  | a :: attempts =>
      let '(st, _, cmds, e) := reconnect_turn secret st a in
      match e with
      | Stop => (st, cmds, Stop)
      | Retry => let '(st, more, e) := reconnect secret st attempts in (st, cmds ++ more, e)
      end
  end.

(** [process_cmd]: every message of the server is passed on, unless it is empty. *)
Definition process_cmd (received : list (ToClient E)) : list (NetworkCtrlCmd E) :=
  omap (fun m => CmdToClientData <$> to_client_data m) received.

(** *** What the loop tells the manager *)

(** An attempt succeeds, fails after it connected, or does not connect. *)
Definition succeeds (secret : Secret.VlinkStaticSecret) (a : Attempt) : bool :=
  at_connects a &&
  match sign_for secret (at_first a) with
  | None => false
  | Some sign => is_ok (handshake (at_sink_ok a) (mkClientConnect 0 true)
      (mkHandshakeParam (Secret.base64_pub secret) sign None) (at_incoming a)).2
  end.
Definition fatal (secret : Secret.VlinkStaticSecret) (a : Attempt) : bool := at_connects a && negb (succeeds secret a).
(** The attempts that are made. *)
Fixpoint made (secret : Secret.VlinkStaticSecret) (attempts : list Attempt) : list Attempt :=
  match attempts with
  | [] => []
  | a :: attempts => if fatal secret a then [a] else a :: made secret attempts
  end.
Definition successes (secret : Secret.VlinkStaticSecret) (attempts : list Attempt) : nat :=
  length (filter (fun a => succeeds secret a = true) attempts).

Lemma fatal_later secret a attempts : fatal secret a = false ->
  Exists (fun a => fatal secret a = true) (a :: attempts) <-> Exists (fun a => fatal secret a = true) attempts.
Proof. intros Hf. rewrite Exists_cons, Hf. naive_solver. Qed.

Lemma reconnect_turn_cases secret st a :
  if succeeds secret a then exists d, reconnect_turn secret st a =
      (mkClientLoop 1 false true, d, (if cl_first st then [FirstConnected] else []) ++ [Connected], Retry)
  else if fatal secret a then exists d, reconnect_turn secret st a = (mkClientLoop 1 (cl_first st) (cl_conn st), d, [], Stop)
  else exists d, reconnect_turn secret st a = (mkClientLoop (cl_count st + 1) (cl_first st) (cl_conn st), d, [], Retry).
Proof.
  unfold fatal, succeeds, reconnect_turn. destruct (at_connects a); cbn [andb negb]; [|by eexists].
  destruct (sign_for secret (at_first a)) as [sign|]; [|by eexists].
  destruct (handshake _ _ _ _) as [[c out] r]. cbn [snd]. destruct r; cbn [is_ok negb]; by eexists.
Qed.

(** What the network manager is told of the connection. Over any attempts, [reconnect]
    reports [FirstConnected] once, with the first success and before any [Connected], and
    [Connected] once for every success; it goes on after connections that could not be made,
    but the first attempt that connects and then fails (no server information in time, a key
    that cannot be used, a refused or lost handshake) ends it for good. *)
Theorem reconnect_reports secret attempts :
  let '(st, cmds, e) := reconnect secret ClientLoop_new attempts in
  let n := successes secret (made secret attempts) in
  cmds = (match n with O => [] | _ => [FirstConnected] end) ++ replicate n Connected /\
  (e = Stop <-> Exists (fun a => fatal secret a = true) attempts) /\
  cl_conn st = (0 <? Z.of_nat n).
Proof.
  assert (forall st, let '(st', cmds, e) := reconnect secret st attempts in
    let n := successes secret (made secret attempts) in
    cmds = (if cl_first st then match n with O => [] | _ => [FirstConnected] end else []) ++ replicate n Connected /\
    (e = Stop <-> Exists (fun a => fatal secret a = true) attempts) /\
    cl_conn st' = (0 <? Z.of_nat n) || cl_conn st) as Hgen.
  { induction attempts as [|a attempts IH]; intros st.
    - cbn. split; [by destruct (cl_first st)|]. split; [|done]. by rewrite Exists_nil.
    - pose proof (reconnect_turn_cases secret st a) as Ht. cbn [reconnect made].
      assert (succeeds secret a = true -> fatal secret a = false) as Hex
        by (unfold fatal; intros ->; by rewrite andb_false_r).
      destruct (succeeds secret a) eqn:Hs.
      + destruct Ht as [d ->]. rewrite Hex by done. specialize (IH (mkClientLoop 1 false true)).
        destruct (reconnect secret _ attempts) as [[st' more] e]. destruct IH as (-> & He & Hc). cbn [cl_first cl_conn] in *.
        unfold successes. rewrite filter_cons_True by done. cbn [length]. fold (successes secret (made secret attempts)).
        split; [by destruct (cl_first st)|]. split; [by rewrite He, fatal_later by auto|].
        rewrite Hc, orb_true_r. by rewrite (proj2 (Z.ltb_lt _ _)) by lia.
      + destruct (fatal secret a) eqn:Hf; destruct Ht as [d ->].
        * unfold successes. rewrite filter_cons_False by congruence. cbn.
          split; [by destruct (cl_first st)|]. rewrite Exists_cons. naive_solver.
        * specialize (IH (mkClientLoop (cl_count st + 1) (cl_first st) (cl_conn st))).
          destruct (reconnect secret _ attempts) as [[st' more] e]. destruct IH as (-> & He & Hc). cbn [cl_first cl_conn] in *.
          unfold successes. rewrite filter_cons_False by congruence. fold (successes secret (made secret attempts)).
          split; [done|]. split; [by rewrite He, fatal_later|done]. }
  specialize (Hgen ClientLoop_new). destruct (reconnect secret ClientLoop_new attempts) as [[st cmds] e].
  cbn [cl_first cl_conn ClientLoop_new] in Hgen. by rewrite orb_false_r in Hgen.
Qed.
End Client.

(** ** The peers of a device and their keys *)

Section Keys.
Context `{IpNetworkLib, CryptoPrims}.

(** Every entry names a peer of the store that has its key. *)
Definition keys_ok (l : PeerList) : Prop :=
  forall k e, pl_peers l !! k = Some e ->
    (pe_peer e < pl_fresh l)%nat /\ exists p, pl_store l !! pe_peer e = Some p /\ pub_key p = k.

(** The store after an insertion: the old one, or one peer more under a fresh name. *)
Lemma insert_store now s l cfg :
  (exists e, pl_peers l !! cfg_public_key cfg = Some e /\ pl_store (insert_peer now s l cfg) = pl_store l /\
     pl_fresh (insert_peer now s l cfg) = pl_fresh l) \/
  (pl_peers l !! cfg_public_key cfg = None /\ exists p, pub_key p = cfg_public_key cfg /\
     pl_store (insert_peer now s l cfg) = <[pl_fresh l := p]> (pl_store l) /\
     pl_fresh (insert_peer now s l cfg) = S (pl_fresh l)).
Proof.
  unfold insert_peer, PeerList_insert.
  set (sec := match cfg_preshared_key cfg with Some psk => _ | None => _ end).
  assert (peer_public sec = cfg_public_key cfg) as Hk by (unfold sec; by destruct (cfg_preshared_key cfg)).
  rewrite Hk. destruct (pl_peers l !! cfg_public_key cfg) as [e|]; [left; by exists e|]. right. split; [done|].
  eexists. split; [|done]. exact Hk.
Qed.

Lemma keys_ok_insert now s l cfg : keys_ok l -> keys_ok (insert_peer now s l cfg).
Proof.
  intros Hl k e Hk. destruct (insert_entry now s l cfg) as (e' & Hp & _ & Hold). rewrite Hp in Hk.
  destruct (insert_store now s l cfg) as [(e0 & He0 & -> & ->)|(Hn & p & Hpk & -> & ->)].
  - apply lookup_insert_Some in Hk as [[<- <-]|[Hne Hk]]; [|by apply Hl].
    destruct Hold as [Hold|[Hold _]]; [by apply Hl|congruence].
  - apply lookup_insert_Some in Hk as [[<- <-]|[Hne Hk]].
    + destruct Hold as [Hold|[_ ->]]; [congruence|]. cbn. split; [lia|]. exists p. by rewrite lookup_insert_eq.
    + destruct (Hl k e Hk) as [Hf (q & Hq & Hqk)]. split; [lia|]. exists q. rewrite lookup_insert_ne by lia. done.
Qed.

(** The keys a list of peers is made from. *)
Lemma reset_peers_keys now s l cfgs :
  keys_ok (reset_peers now s l cfgs) /\
  forall k, is_Some (pl_peers (reset_peers now s l cfgs) !! k) <-> exists c, c ∈ cfgs /\ cfg_public_key c = k.
Proof.
  unfold reset_peers. assert (keys_ok (PeerList_clear l)) as Hc by (by intros k e).
  assert (forall l0, keys_ok l0 -> keys_ok (foldl (insert_peer now s) l0 cfgs) /\
    forall k, is_Some (pl_peers (foldl (insert_peer now s) l0 cfgs) !! k) <->
      is_Some (pl_peers l0 !! k) \/ exists c, c ∈ cfgs /\ cfg_public_key c = k) as Hg.
  { induction cfgs as [|c cfgs IH]; intros l0 Hl0; cbn [foldl].
    - split; [done|]. intros k. split; [by left|]. intros [?|(c & Hin & _)]; [done|]. by apply elem_of_nil in Hin.
    - destruct (IH _ (keys_ok_insert now s l0 c Hl0)) as [Hok Hk]. split; [done|]. intros k. rewrite Hk.
      destruct (insert_entry now s l0 c) as (e & -> & _). rewrite lookup_insert_is_Some.
      setoid_rewrite elem_of_cons. destruct (decide (cfg_public_key c = k)) as [Heq|Hne]; naive_solver. }
  destruct (Hg _ Hc) as [Hok Hk]. split; [done|]. intros k. rewrite Hk. cbn. rewrite lookup_empty. split; [|by right].
  intros [[? ?]|?]; done.
Qed.
End Keys.

Section Managed.
Context `{IpNetworkLib} {E : Type}.
Context (decode_base64 : string -> option bytes).

(** The endpoints of the configuration for a key, in their order. *)
Definition transports_for (k : bytes) (ts : list PeerExtraTransport) : list PeerExtraTransport :=
  filter (fun t => decode_base64 (px_target_pub_key t) = Some k) ts.

Lemma group_transports_lookup ts : forall m m', group_transports (E := E) decode_base64 ts m = Ok m' -> forall k,
  m' !! k = match transports_for k ts with [] => m !! k | g => Some (default [] (m !! k) ++ g) end.
Proof.
  unfold transports_for. induction ts as [|t ts IH]; intros m m' Hg k; cbn [group_transports] in Hg.
  - by injection Hg as <-.
  - destruct (decode_base64 (px_target_pub_key t)) as [key|] eqn:Hd; [|done]. cbn [ok_or mbind res_bind] in Hg.
    destruct (negb _); [done|]. rewrite (IH _ _ Hg k). destruct (decide (key = k)) as [->|Hne].
    + rewrite (filter_cons_True _ t) by done. rewrite lookup_insert_eq. cbn [from_option].
      destruct (filter _ ts); [done|]. unfold id. by rewrite <- app_assoc.
    + rewrite (filter_cons_False _ t) by congruence. by rewrite lookup_insert_ne.
Qed.

Lemma with_all_peers_lookup l m k : keys_ok l ->
  with_all_peers l m !! k = match m !! k with
                            | Some ts => Some ts
                            | None => if get_by_key l k then Some [] else None
                            end.
Proof.
  intros Hl. unfold with_all_peers. set (ps := omap _ _).
  assert (forall k, (exists p, p ∈ ps /\ pub_key p = k) <-> is_Some (get_by_key l k)) as Hps.
  { intros k0. unfold ps, PeerList_all, get_by_key. setoid_rewrite list_elem_of_omap. setoid_rewrite list_elem_of_fmap.
    split.
    - intros (p & (name & ([k1 e] & -> & Hin) & Hs) & <-). apply elem_of_map_to_list in Hin. cbn in Hs.
      destruct (Hl _ _ Hin) as [_ (p' & Hp' & Hk)]. rewrite Hp' in Hs. injection Hs as ->. rewrite Hk, Hin. by eexists.
    - intros [n Hn]. apply fmap_Some in Hn as (e & He & ->). destruct (Hl _ _ He) as [_ (p & Hp & Hk)].
      exists p. split; [|done]. exists (pe_peer e). split; [|done]. exists (k0, e). split; [done|]. by apply elem_of_map_to_list. }
  assert (forall m : gmap bytes (list PeerExtraTransport), foldl (fun m p => match m !! pub_key p with Some _ => m | None => <[pub_key p := []]> m end) m ps !! k =
    match m !! k with Some ts => Some ts | None => if decide (Exists (fun p => pub_key p = k) ps) then Some [] else None end) as Hf.
  { clear Hps. clearbody ps. induction ps as [|p ps IH]; intros m0; cbn [foldl].
    - rewrite decide_False by (by intros Hx%Exists_nil). by destruct (m0 !! k).
    - rewrite IH. destruct (m0 !! pub_key p) as [x|] eqn:Hx.
      + destruct (m0 !! k) eqn:Hk; [done|]. apply decide_ext. rewrite Exists_cons. naive_solver congruence.
      + destruct (decide (pub_key p = k)) as [Heq|Hne].
        * subst k. rewrite lookup_insert_eq, Hx, decide_True; [done|]. apply Exists_cons. by left.
        * rewrite lookup_insert_ne by done. destruct (m0 !! k); [done|]. apply decide_ext. rewrite Exists_cons. naive_solver. }
  rewrite Hf. destruct (m !! k); [done|]. specialize (Hps k). rewrite <- Exists_exists in Hps. case_decide as Hd.
  - apply Hps in Hd as [n ->]. done.
  - destruct (get_by_key l k) eqn:Hk; [|done]. destruct Hd. apply Hps. by eexists.
Qed.

(** Every peer gets its selector. When the device is started, the selectors are exactly
    those of the device's peers, one for each; a peer's selector has the extension endpoints
    the configuration gives for its key, in their order, and none when there are none (it will
    use the relay); endpoints for keys that are no peer's are left out. *)
Theorem selectors_cover_peers l ts sel :
  keys_ok l -> selectors (E := E) decode_base64 l ts = Ok sel ->
  forall k, sel !! k = if get_by_key l k then Some (transports_for k ts) else None.
Proof.
  intros Hl Hs k. unfold selectors in Hs. bind_inv Hs. injection Hs as <-. unfold start_selectors.
  rewrite map_lookup_filter, with_all_peers_lookup by done. rewrite (group_transports_lookup _ _ _ Hs0), lookup_empty.
  cbn [default]. destruct (get_by_key l k) as [n|] eqn:Hk.
  - destruct (transports_for k ts); cbn; rewrite Hk; by rewrite option_guard_True.
  - destruct (transports_for k ts); cbn; [done|]. rewrite Hk. by rewrite option_guard_False by naive_solver.
Qed.

(** *** Who is online *)

(** What a command says of a peer, and the last word after some commands. *)
Definition status_of (key : bytes) (cmd : NetworkCtrlCmd E) : option bool :=
  match cmd with
  | CmdToClientData (TcPeerEnter e) => if decide (decode_base64 (bp_pub_key e) = Some key) then Some true else None
  | CmdToClientData (TcPeerLeave e) => if decide (decode_base64 (bl_pub_key e) = Some key) then Some false else None
  | _ => None
  end.
Definition last_status (key : bytes) (b : bool) (cmds : list (NetworkCtrlCmd E)) : bool :=
  foldl (fun b cmd => default b (status_of key cmd)) b cmds.
Definition is_connected_cmd (cmd : NetworkCtrlCmd E) : bool := match cmd with Connected => true | _ => false end.

(** [l'] is [l] but for who is online. *)
Definition only_online (l l' : PeerList) : Prop :=
  pl_peers l' = pl_peers l /\ pl_ips l' = pl_ips l /\ pl_sessions l' = pl_sessions l /\ pl_fresh l' = pl_fresh l /\
  forall n, exists b, pl_store l' !! n = (fun p => set_online p (b p)) <$> pl_store l !! n.

Lemma set_online_id p : set_online p (online p) = p.
Proof. by destruct p. Qed.
Lemma only_online_refl l : only_online l l.
Proof.
  repeat split. intros n. exists online. destruct (pl_store l !! n) as [p|]; [|done]. cbn. by rewrite set_online_id.
Qed.
Lemma only_online_trans l1 l2 l3 : only_online l1 l2 -> only_online l2 l3 -> only_online l1 l3.
Proof.
  intros (A1 & A2 & A3 & A4 & A5) (B1 & B2 & B3 & B4 & B5). repeat split; try congruence.
  intros n. destruct (A5 n) as [b Hb], (B5 n) as [c Hc]. exists (fun p => c (set_online p (b p))).
  rewrite Hc, Hb. by destruct (pl_store l1 !! n).
Qed.
Lemma only_online_update l key b : only_online l (update_peer l key (fun p => set_online p b)).
Proof.
  unfold update_peer. destruct (get_by_key l key) as [name|]; [|apply only_online_refl]. repeat split. intros n. cbn.
  destruct (decide (name = n)) as [->|Hne].
  - exists (fun _ => b). by rewrite lookup_alter_eq.
  - exists online. rewrite lookup_alter_ne by done. destruct (pl_store l !! n) as [p|]; [|done]. cbn. by rewrite set_online_id.
Qed.
Lemma only_online_keys l l' : only_online l l' -> keys_ok l -> keys_ok l'.
Proof.
  intros (H1 & _ & _ & H4 & H5) Hl k e Hk. rewrite H1 in Hk. rewrite H4. destruct (Hl k e Hk) as [Hf (p & Hp & Hpk)].
  split; [done|]. destruct (H5 (pe_peer e)) as [b Hb]. rewrite Hb, Hp. by eexists.
Qed.

(** The state of a known peer. *)
Definition online_of (l : PeerList) (key : bytes) : option bool :=
  name ← get_by_key l key; p ← pl_store l !! name; Some (online p).

Lemma update_online l key key' b : keys_ok l -> is_Some (get_by_key l key) ->
  online_of (update_peer l key' (fun p => set_online p b)) key =
  if decide (key' = key) then Some b else online_of l key.
Proof.
  intros Hl [name Hn]. unfold online_of, update_peer. destruct (get_by_key l key') as [name'|] eqn:Hn'.
  2:{ case_decide as Hd; [congruence|done]. }
  change (get_by_key (mkPeerList _ _ (pl_peers l) _ _) key) with (get_by_key l key). rewrite Hn. cbn [mbind option_bind pl_store].
  unfold get_by_key in Hn, Hn'. apply fmap_Some in Hn as (e & He & ->). apply fmap_Some in Hn' as (e' & He' & ->).
  destruct (Hl _ _ He) as [_ (p & Hp & Hpk)], (Hl _ _ He') as [_ (p' & Hp' & Hpk')]. case_decide as Hd.
  - rewrite Hd, He in He'. injection He' as <-. rewrite lookup_alter_eq, Hp. done.
  - rewrite lookup_alter_ne; [done|]. intros Heq. rewrite Heq, Hp in Hp'. congruence.
Qed.

Lemma manager_cmd_online announce l cmd ok l' out : keys_ok l -> manager_cmd decode_base64 announce l cmd ok = Ok (l', out) ->
  only_online l l' /\ out = (if is_connected_cmd cmd then [announce] else []) /\
  forall key b, online_of l key = Some b -> online_of l' key = Some (default b (status_of key cmd)).
Proof.
  intros Hl Hc. assert (forall key b, online_of l key = Some b -> is_Some (get_by_key l key)) as Hknown.
  { intros key b Hb. unfold online_of in Hb. by destruct (get_by_key l key). }
  destruct cmd as [| | | |data]; cbn [manager_cmd] in Hc;
    try (injection Hc as <- <-; split; [apply only_online_refl|done]).
  - destruct ok; [|done]. injection Hc as <- <-. split; [apply only_online_refl|done].
  - bind_inv Hc. injection Hc as <- <-. unfold handle_to_client_data in Hc0.
    destruct data; try (injection Hc0 as <-; split; [apply only_online_refl|done]);
      bind_inv Hc0; bind_inv Hc0; injection Hc0 as <-; (split; [apply only_online_update|]; split; [done|]);
      intros key b Hb; rewrite update_online by eauto; cbn [status_of];
      (assert (decode_base64 _ = Some a1) as Hd
         by (unfold to_array in Hc2; destruct (_ =? _)%nat in Hc2; [|done]; injection Hc2 as <-;
             match type of Hc1 with ok_or _ ?o = _ => destruct o eqn:Ho in Hc1; [|done] end; injection Hc1 as <-; exact Ho));
      rewrite Hd; destruct (decide (a1 = key)) as [->|Hne];
      [by rewrite decide_True|by rewrite decide_False by congruence|by rewrite decide_True|by rewrite decide_False by congruence].
Qed.

(** The commands the loop survives: an announcement that is sent, a message whose key is one. *)
Definition handled (c : NetworkCtrlCmd E * bool) : Prop :=
  match c with
  | (Connected, ok) => ok = true
  | (CmdToClientData (TcPeerEnter e), _) => exists k, decode_base64 (bp_pub_key e) = Some k /\ length k = 32%nat
  | (CmdToClientData (TcPeerLeave e), _) => exists k, decode_base64 (bl_pub_key e) = Some k /\ length k = 32%nat
  | _ => True
  end.
Lemma read_key_ok (s : string) {A} (f : bytes -> res (Vlinkd.Error E) A) : (forall k, is_ok (f k) = true) ->
  is_ok (key ← ok_or BadBase64 (decode_base64 s); key ← to_array 32 key; f key) = true <->
  exists k, decode_base64 s = Some k /\ length k = 32%nat.
Proof.
  intros Hf. destruct (decode_base64 s) as [k|]; cbn; [|naive_solver]. unfold to_array.
  destruct (Nat.eqb_spec (length k) 32) as [Hl|Hl]; cbn; [rewrite Hf|]; naive_solver.
Qed.
Lemma manager_cmd_handled announce l cmd ok :
  is_ok (manager_cmd decode_base64 announce l cmd ok) = true <-> handled (cmd, ok).
Proof.
  destruct cmd as [| | | |data]; cbn [manager_cmd handled]; try done; [by destruct ok|].
  assert (is_ok (l0 ← handle_to_client_data decode_base64 data l; Ok (l0, @nil ToServerData)) =
    is_ok (handle_to_client_data decode_base64 data l)) as -> by by destruct (handle_to_client_data _ _ _).
  destruct data; try done; by apply read_key_ok.
Qed.

(** What the loop leaves alone, and its announcements. *)
Lemma manager_loop_frame announce cmds : forall l l' out, keys_ok l ->
  manager_loop (E := E) decode_base64 announce l cmds = Ok (l', out) ->
  only_online l l' /\ out = replicate (length (filter (fun c => is_connected_cmd c.1 = true) cmds)) announce.
Proof.
  induction cmds as [|[cmd ok] cmds IH]; intros l l' out Hl; cbn [manager_loop].
  - intros [= <- <-]. split; [apply only_online_refl|done].
  - intros Hm. apply bind_Ok_inv in Hm as ([l1 out1] & Hc & Hm). apply bind_Ok_inv in Hm as ([l2 outs] & Hr & [= <- <-]).
    destruct (manager_cmd_online _ _ _ _ _ _ Hl Hc) as (Ho & Hout & _).
    destruct (IH l1 l2 outs (only_online_keys _ _ Ho Hl) Hr) as [Ho2 Hout2].
    split; [by eapply only_online_trans|]. rewrite Hout, Hout2. destruct (is_connected_cmd cmd) eqn:Hcc;
      [rewrite filter_cons_True by done|rewrite filter_cons_False by (cbn; congruence)]; done.
Qed.

(** C40: the device's view of its peers follows the server's. The command loop takes all its
    commands exactly when every announcement can be sent and every message about a peer names
    it with a key of 32 bytes; the first command that is not so ends it, and with it the
    daemon. While it runs, every known peer is online exactly when the last message about its
    key said it entered, as it was before when there was none; nothing else of the peers,
    their addresses and sessions changes, messages about unknown keys do nothing, and every
    [Connected] announces this node once. *)
Theorem online_tracks_server announce l cmds :
  keys_ok l ->
  (is_ok (manager_loop (E := E) decode_base64 announce l cmds) = true <-> Forall handled cmds) /\
  forall l' out, manager_loop (E := E) decode_base64 announce l cmds = Ok (l', out) ->
    only_online l l' /\
    (forall key b, online_of l key = Some b -> online_of l' key = Some (last_status key b cmds.*1)) /\
    out = replicate (length (filter (fun c => is_connected_cmd c.1 = true) cmds)) announce.
Proof.
  intros Hl0. assert (forall l' out, manager_loop (E := E) decode_base64 announce l cmds = Ok (l', out) ->
    forall key b, online_of l key = Some b -> online_of l' key = Some (last_status key b cmds.*1)) as Hst;
    [|split; [clear Hst|intros l' out Hm; destruct (manager_loop_frame _ _ _ _ _ Hl0 Hm); eauto]].
  - revert l Hl0. induction cmds as [|[cmd ok] cmds IH]; intros l Hl l' out; cbn [manager_loop]; [by intros [= <- <-]|].
    intros Hm key b Hb. apply bind_Ok_inv in Hm as ([l1 out1] & Hc & Hm). apply bind_Ok_inv in Hm as ([l2 outs] & Hr & [= <- <-]).
    destruct (manager_cmd_online _ _ _ _ _ _ Hl Hc) as (Ho & _ & Hst).
    apply (IH l1 (only_online_keys _ _ Ho Hl) _ _ Hr key). by apply Hst.
  - revert l Hl0. induction cmds as [|[cmd ok] cmds IH]; intros l Hl; cbn [manager_loop]; [by split|].
    pose proof (manager_cmd_handled announce l cmd ok) as Hh. rewrite Forall_cons, <- Hh.
    destruct (manager_cmd decode_base64 announce l cmd ok) as [[l1 out1]| |] eqn:Hc; cbn [mbind res_bind is_ok]; [|naive_solver..].
    destruct (manager_cmd_online _ _ _ _ _ _ Hl Hc) as (Ho & _). rewrite <- (IH l1 (only_online_keys _ _ Ho Hl)).
    destruct (manager_loop _ _ l1 cmds) as [[l2 outs]| |]; cbn [mbind res_bind is_ok]; naive_solver.
Qed.
End Managed.

(** ** Starting a device *)

(** A computation leaves an observation of the host as it was. *)
Definition keeps `{UdpHost} {A B} (P : host -> A) (c : host -> host * B) : Prop := forall w, P (c w).1 = P w.
(** The socket calls do not touch what [P] observes. *)
Class UdpFrame `{UdpHost} {A} (P : host -> A) : Prop := {
  keeps_socket_new : forall v, keeps P (socket_new v);
  keeps_only_v6 : forall s b, keeps P (set_only_v6 s b);
  keeps_nonblocking : forall s b, keeps P (set_nonblocking s b);
  keeps_reuse : forall s b, keeps P (set_reuse_address s b);
  keeps_bind : forall s a, keeps P (sock_bind s a);
  keeps_from_std : forall s, keeps P (from_std s);
  keeps_local_addr : forall u, keeps P (Udp.local_addr u);
}.

Section Frames.
Context `{UdpHost} {A : Type} (P : host -> A) `{!UdpFrame P}.

Lemma keeps_sys {B} (c : host -> host * (IoError + B)) : keeps P c -> keeps P (sys c).
Proof. intros Hc w. specialize (Hc w). unfold sys. by destruct (c w) as [? []]. Qed.
Lemma keeps_mbind {E B C} (m : io host E B) (k : B -> io host E C) :
  keeps P m -> (forall b, keeps P (k b)) -> keeps P (m ≫= k).
Proof.
  intros Hm Hk w. specialize (Hm w). unfold mbind, io_bind. destruct (m w) as [w1 [b| |]]; cbn in *; [|done..].
  by rewrite Hk.
Qed.
Lemma keeps_try {E F B} (m : io host E B) : keeps P m -> keeps P (try (F := F) m).
Proof. intros Hm w. specialize (Hm w). unfold try. by destruct (m w) as [w1 [b| |]]. Qed.
Lemma keeps_ret {E B} (b : B) : keeps P (mret b : io host E B).
Proof. done. Qed.
Lemma keeps_pure {E B} (r : res E B) : keeps P (pure_res r : io host E B).
Proof. done. Qed.
#[local] Hint Resolve keeps_sys keeps_mbind keeps_try keeps_ret keeps_pure keeps_socket_new keeps_only_v6
  keeps_nonblocking keeps_reuse keeps_bind keeps_from_std keeps_local_addr : vlink.

Lemma keeps_spawn port : keeps P (spawn port).
Proof.
  unfold spawn, Udp.bind, bind_socket. apply keeps_mbind; [|intros; apply keeps_ret].
  apply keeps_mbind; [|intros [[s4 s6] p]; auto with vlink].
  generalize (@None IoError). induction (max_retry port) as [|n IH]; intros err; cbn [bind_loop]; [auto with vlink|].
  apply keeps_mbind; [|intros []; auto with vlink]. unfold bind_turn, bind_socket_v4, bind_socket_v6.
  apply keeps_mbind; [auto 12 with vlink|]. intros [e|s4]; [auto with vlink|].
  apply keeps_mbind; [auto with vlink|]. intros a. apply keeps_mbind; [auto 14 with vlink|].
  intros []; auto with vlink.
Qed.
End Frames.

Section Started.
Context `{TunHost} {T : Type} {I : Tun T} {L : TunLaws T}.
Context `{IpNetworkLib, CryptoPrims}.
Context (native_new : option bytes -> io host IfError T).
Context (add_route : bytes -> IpAddr -> IpAddr -> io host IfError unit).
Context (full_netmask : IpNetwork -> option bytes) (network_address : IpNetwork -> IpAddr).

(** A device that started is the one that was configured. For any interface that keeps
    the contract of [Tun], on a host whose sockets and routes leave the interface's address
    alone: the device has the configured address, reports the configured port (also when that
    is 0 and the sockets are on another), has exactly the configured peers, each under its
    key, and an IPv4 network; on an IPv6 network it never starts. *)
Theorem device_starts_configured now rnd name cfg w w' d :
  (forall n w w' t, native_new n w = (w', Ok t) -> if_ok t) ->
  (forall t, UdpFrame (addr_of t)) ->
  (forall t n a m, keeps (addr_of t) (add_route n a m)) ->
  (forall k c, dc_peers cfg !! k = Some c -> cfg_public_key c = k) ->
  Device_new native_new add_route full_netmask network_address now rnd name cfg w = (w', Ok d) ->
  dv_tun_addr d = be_bytes 4 (dc_address cfg) /\ dv_port d = dc_port cfg /\
  full_netmask (dc_network cfg) <> None /\ keys_ok (dv_peers d) /\
  forall k, is_Some (get_by_key (dv_peers d) k) <-> is_Some (dc_peers cfg !! k).
Proof.
  intros Hnew Hudp Hroute Hkeys Hd. unfold Device_new in Hd.
  io_step Hd as t0 w1 Hn. io_step Hd as u w2 Hen. io_step Hd as mask w3 Hm. injection Hm as -> Hm.
  io_step Hd as t w4 Hip. io_step Hd as u' w5 Hr. io_step Hd as sp w6 Hsp. io_step Hd as addr w7 Hadd. injection Hd as -> <-.
  cbn [dv_tun_addr dv_port dv_peers].
  destruct (set_ip_addr _ _ _ _ _ _ (Hnew _ _ _ _ Hn) (length_be_bytes 4 _) Hip) as [Hok Ha].
  assert (addr_of t w6 = Some (be_bytes 4 (dc_address cfg))) as Ha'.
  { pose proof (Hroute t (if_name t) (network_address (dc_network cfg)) (IpV4 mask) w4) as Hk1. rewrite Hr in Hk1. cbn in Hk1.
    pose proof (Hudp t) as Hfr. pose proof (keeps_spawn (addr_of t) (dc_port cfg) w5) as Hk2.
    unfold io_map_err in Hsp. destruct (spawn (dc_port cfg) w5) as [w8 r] eqn:Hspw. cbn in Hk2.
    injection Hsp as <- _. congruence. }
  apply address_addr in Hadd; [|done]. rewrite Ha' in Hadd. injection Hadd as <-.
  split; [done|]. split.
  { unfold io_map_err in Hsp. destruct (spawn (dc_port cfg) w5) as [w8 r] eqn:Hspw. injection Hsp as -> Hr2.
    apply map_err_Ok_inv in Hr2 as ->. unfold spawn in Hspw. io_inv Hspw. by injection Hspw as _ <-. }
  split; [by destruct (full_netmask _)|].
  destruct (reset_peers_keys now (Settings_new (dc_private_key cfg) (dc_fwmark cfg)) (PeerList_new rnd) (map_to_list (dc_peers cfg)).*2)
    as [Hko Hks]. split; [done|]. intros k. unfold get_by_key. rewrite fmap_is_Some, Hks.
  setoid_rewrite list_elem_of_fmap. split.
  - intros (c & ([k' c'] & -> & Hin) & <-). apply elem_of_map_to_list in Hin. cbn [snd]. rewrite (Hkeys _ _ Hin). by eexists.
  - intros [c Hc]. exists c. split; [|by apply Hkeys]. exists (k, c). split; [done|]. by apply elem_of_map_to_list.
Qed.
End Started.

(** On a TAP adapter a device never starts: its address cannot be read back. *)
Lemma tap_never_starts `{WinHost, IpNetworkLib, CryptoPrims} native_new add_route full_netmask network_address
    now rnd name cfg w w' d :
  (forall n w w' t, native_new n w = (w', Ok t) -> exists p, t = NativeTap p) ->
  Device_new (I := native_tun) native_new add_route full_netmask network_address now rnd name cfg w <> (w', Ok d).
Proof.
  intros Hnew Hd. unfold Device_new in Hd.
  io_step Hd as t0 w1 Hn. apply Hnew in Hn as [p ->]. io_step Hd as u w2 Hen. io_step Hd as mask w3 Hm.
  io_step Hd as t w4 Hip. cbn [set_ip native_tun set_native] in Hip. io_step Hip as t' w5 Hip'.
  injection Hip as _ <-. io_step Hd as u' w6 Hr. io_step Hd as sp w7 Hsp. io_step Hd as addr w8 Hadd.
  by injection Hadd.
Qed.

Section Witnesses.
#[local] Existing Instance Toy.prims.
#[local] Existing Instance Prefixes.lib.
#[local] Existing Instance ToyHost.lib.

Definition toy_key (b : byte) : bytes := replicate 32 b.
Definition toy_peer_cfg (b : byte) : PeerConfig := mkPeerConfig (toy_key b) ∅ None None false false false None "".
Definition toy_peers : PeerList := reset_peers 0 toy_settings (PeerList_new 7) [toy_peer_cfg x61; toy_peer_cfg x62].
Lemma toy_peers_ok : keys_ok toy_peers.
Proof. apply reset_peers_keys. Qed.
Definition toy_decode (s : string) : option bytes :=
  match s with String.String c _ => Some (toy_key (Ascii.byte_of_ascii c)) | _ => None end.
Definition toy_transports : list PeerExtraTransport :=
  [mkPeerExtraTransport "a" "NatUdp" "1.2.3.4:5" 0; mkPeerExtraTransport "c" "NatTcp" "1.2.3.4:6" 0].

Lemma selectors_cover_peers_witness : exists sel,
  selectors (E := unit) toy_decode toy_peers toy_transports = Ok sel /\
  sel !! toy_key x61 = Some [mkPeerExtraTransport "a" "NatUdp" "1.2.3.4:5" 0] /\
  sel !! toy_key x62 = Some [] /\ sel !! toy_key x63 = None.
Proof.
  destruct (is_ok_inv (selectors (E := unit) toy_decode toy_peers toy_transports)) as [sel Hs]; [by vm_compute|].
  exists sel. split; [exact Hs|]. pose proof (selectors_cover_peers toy_decode toy_peers toy_transports sel toy_peers_ok Hs) as Hc.
  split; [|split]; rewrite Hc; by vm_compute.
Defined.

Definition toy_announce : ToServerData := TsPeerEnter (mkPeerEnter "10.0.0.1" None 51820 []).
Definition toy_enter (k : string) : ToClientData unit := TcPeerEnter (mkBcPeerEnter k "10.0.0.2" None 0 None 3 true).
Definition toy_cmds : list (NetworkCtrlCmd unit * bool) :=
  [(Connected, true); (CmdToClientData (toy_enter "a"), true); (CmdToClientData (toy_enter "b"), true);
   (CmdToClientData (TcPeerLeave (mkBcPeerLevel "b")), true)].
Lemma online_tracks_server_witness : exists l' out,
  manager_loop toy_decode toy_announce toy_peers toy_cmds = Ok (l', out) /\
  online_of l' (toy_key x61) = Some true /\ online_of l' (toy_key x62) = Some false /\ out = [toy_announce].
Proof.
  destruct (is_ok_inv (manager_loop toy_decode toy_announce toy_peers toy_cmds)) as [[l' out] Hl]; [by vm_compute|].
  destruct (proj2 (online_tracks_server toy_decode toy_announce toy_peers toy_cmds toy_peers_ok) l' out Hl)
    as (_ & Hon & Hout). exists l', out. split; [exact Hl|].
  split; [rewrite (Hon (toy_key x61) false); by vm_compute|].
  split; [rewrite (Hon (toy_key x62) false); by vm_compute|exact Hout].
Defined.

(** A host with a shell that does what it is told, and a Windows interface on it. *)
#[local] Instance toy_tun_host : TunHost := {|
  Fd := unit;
  open_file _ w := (w, inr tt);
  ctrl_socket w := (w, inr tt);
  get_fl _ w := (w, inr 0);
  set_fl _ _ w := (w, inr tt);
  async_fd fd w := (w, inr fd);
  ioctl _ _ ifr w := (w, inr ifr);
  fd_write _ b w := (w, inr (Some (length b)));
  shell _ w := (w, inr true);
|}.
#[local] Instance toy_win : Tun WinTun := win_tun (fun _ w => (w, inr tt)) (fun _ w => w).
#[local] Instance toy_win_laws : TunLaws WinTun := win_laws (fun _ w => (w, inr tt)) (fun _ w => w).

Lemma toy_frame t : UdpFrame (addr_of (TunLaws := toy_win_laws) t).
Proof. by split. Qed.

Definition toy_new (name : option bytes) : io host IfError WinTun := mret (mkWinTun 7 (default [] name) None).
Definition toy_route (n : bytes) (a m : IpAddr) : io host IfError unit := mret tt.
Definition toy_network : IpNetwork := (true, 24, replicate 24 false).
Definition toy_device_cfg : DeviceConfig :=
  mkDeviceConfig (key_of x11) 0 51820 {[toy_key x61 := toy_peer_cfg x61]} 0x0a000001 toy_network.
Definition toy_start (cfg : DeviceConfig) : io host IfError DeviceState :=
  Device_new (I := toy_win) toy_new toy_route (fun _ => Some [xff; xff; xff; x00]) (fun _ => IpV4 [x0a; x00; x00; x00]) 0 7 None cfg.

Lemma device_starts_configured_witness : exists w' d,
  toy_start toy_device_cfg toy_host = (w', Ok d) /\ dv_tun_addr d = [x0a; x00; x00; x01] /\
  dv_port d = 51820 /\ is_Some (get_by_key (dv_peers d) (toy_key x61)).
Proof.
  destruct (toy_start toy_device_cfg toy_host) as [w' r] eqn:Hs.
  assert (is_ok r = true) as Hr by (change r with (w', r).2; rewrite <- Hs; vm_compute; reflexivity).
  destruct (is_ok_inv r Hr) as [d Hd]. rewrite Hd in Hs |- *. exists w', d. split; [reflexivity|].
  destruct (device_starts_configured (I := toy_win) (L := toy_win_laws) toy_new toy_route (fun _ => Some [xff; xff; xff; x00])
    (fun _ => IpV4 [x0a; x00; x00; x00]) 0 7 None toy_device_cfg toy_host w' d) as (Ha & Hp & _ & _ & Hk).
  - done.
  - exact toy_frame.
  - done.
  - intros k c Hc. unfold toy_device_cfg in Hc. cbn [dc_peers] in Hc. apply lookup_singleton_Some in Hc as [<- <-]. reflexivity.
  - exact Hs.
  - split; [exact Ha|]. split; [exact Hp|]. apply Hk. unfold toy_device_cfg. cbn [dc_peers]. rewrite lookup_singleton_eq. by eexists.
Defined.
End Witnesses.
End Daemon.
