(* ===== verification/Start.v ===== *)
(** * Starting the network manager (vlinkd/src/network/mod.rs)

    [VlinkNetworkManager::start] from the first connection to its command loop: the request for
    the configuration, the device, the selectors of its peers, the extension transports. It
    composes [Vlinkd] (requests and configuration) with [Daemon] (devices, selectors, the
    loop), over any interface that keeps the contract of [TunIf.TunLaws]. *)

From S2P Require Import Prelude Bytes Host Protocol Crypto Noise Session Peer Device Udp Abi TunIf Headlink Vlinkd Daemon.
#[local] Open Scope Z_scope.

Module Start.
Import TunIf Vlinkd Daemon.

Section Manager.
Context `{TunHost} {T : Type} {I : Tun T}.
Context `{IpNetworkLib, CryptoPrims} {E : Type}.
Context (native_new : option bytes -> io host IfError T).
Context (add_route : bytes -> IpAddr -> IpAddr -> io host IfError unit).
Context (full_netmask : IpNetwork -> option bytes) (network_address : IpNetwork -> IpAddr).
Context (decode_base64 : string -> option bytes).
Context (ip_from_str : string -> option IpAddr).
Context (ip_network_new : IpAddr -> Z -> option IpNetwork).

#[local] Abbreviation DeviceState := (DeviceState (T := T)).
Inductive StartError :=
| ClientFailed (e : Vlinkd.Error E)
| DeviceFailed (e : IfError).

(** [VlinkNetworkManagerInner]: the device, the selector of every peer, whether the relay
    transport and the task of device events run, the extension transports that were spawned. *)
Record Manager := mkManager {
  mg_device : option DeviceState;
  mg_selectors : gmap bytes (list PeerExtraTransport);
  mg_relay : bool;
  mg_events : bool;
  mg_extras : list (ExtraProto * string);
}.
Definition Manager_new : Manager := mkManager None ∅ false false [].

(** A device that was made stays in the manager also when what follows fails. *)
Definition start_device (now rnd : Z) (cfg : VlinkNetworkConfig) (m : Manager) (w : host)
    : host * Manager * res StartError DeviceState :=
  match Device_new native_new add_route full_netmask network_address now rnd None (device_config cfg) w with
  | (w, Err e) => (w, m, Err (DeviceFailed e))
  | (w, Panic) => (w, m, Panic)
  | (w, Ok d) =>
      let m := mkManager (Some d) (mg_selectors m) (mg_relay m) (mg_events m) (mg_extras m) in
      match group_transports decode_base64 (peer_extra_transports cfg) ∅ with
      | Err e => (w, m, Err (ClientFailed e))
      | Panic => (w, m, Panic)
      | Ok map =>
          let sel := start_selectors (dv_peers d) (with_all_peers (dv_peers d) map) in
          let '(extras, r) := start_extras (transports cfg) in
          (w, mkManager (Some d) (mg_selectors m ∪ sel) true true (mg_extras m ++ extras),
           _ ← map_err ClientFailed r; Ok d)
      end
  end.

(** The address a device reports, as [handler_connected] writes it. *)
Definition announce (args : ArgConfig) (extra_status : gmap string (option string)) (d : DeviceState) : ToServerData :=
  handler_connected (be_val (dv_tun_addr d)) (dv_port d) (arg_endpoint_addr args) extra_status.

(** [start]: [cmds] are the commands in the order they are received, each with whether the
    announcement can be sent; [conn], [sink_ok] and [incoming] are how the request for the
    configuration goes, [extra_status] the endpoints of the extension protocols. *)
Definition start (now rnd : Z) (sk : bytes) (args : ArgConfig) (extra_status : gmap string (option string))
    (sink_ok : bool) (conn : option ClientConnect) (incoming : list (option (ToClient E)))
    (cmds : list (NetworkCtrlCmd E * bool)) (m : Manager) (w : host)
    : host * Manager * res StartError (PeerList * list ToServerData) :=
  match wait_first cmds with
  | None => (w, m, Panic)
  | Some cmds =>
      match (resp ← (VlinkClient_request sink_ok conn TsReqConfig incoming).2;
             request_for_config decode_base64 ip_from_str ip_network_new resp sk args) with
      | Err e => (w, m, Err (ClientFailed e))
      | Panic => (w, m, Panic)
      | Ok cfg =>
          let '(w, m, r) := start_device now rnd cfg m w in
          (w, m, d ← r; map_err ClientFailed (manager_loop decode_base64 (announce args extra_status d) (dv_peers d) cmds))
      end
  end.

(** ** The node that was configured *)

Context {L : TunLaws T}.

Lemma request_for_config_resp resp sk args (cfg : VlinkNetworkConfig) :
  request_for_config (E := E) decode_base64 ip_from_str ip_network_new resp sk args = Ok cfg ->
  exists r, resp = TcRespConfig r /\ dc_address (device_config cfg) = rc_address r /\
    dc_port (device_config cfg) = (if 0 <? rc_port r then wrap 16 (rc_port r) else default DEFAULT_PORT (arg_port args)) /\
    dc_private_key (device_config cfg) = sk /\
    peer_extra_transports cfg = rc_peer_extra_transports r /\
    (forall k c, dc_peers (device_config cfg) !! k = Some c -> cfg_public_key c = k) /\
    forall k, is_Some (dc_peers (device_config cfg) !! k) <-> exists p, p ∈ rc_peers r /\ decode_base64 (bp_pub_key p) = Some k.
Proof.
  destruct resp as [| | |r| | | |]; try done. cbn [request_for_config]. intros Hc. bind_inv Hc. bind_inv Hc. injection Hc as <-.
  exists r. cbn [device_config peer_extra_transports]. revert Hc1. set (d0 := mkDeviceConfig _ _ _ _ _ _). intros Hc1.
  assert (forall ps d, add_peers (E := E) decode_base64 ip_from_str d ps = Ok a0 ->
    dc_address a0 = dc_address d /\ dc_port a0 = dc_port d /\ dc_private_key a0 = dc_private_key d /\
    ((forall k c, dc_peers d !! k = Some c -> cfg_public_key c = k) -> forall k c, dc_peers a0 !! k = Some c -> cfg_public_key c = k) /\
    forall k, is_Some (dc_peers a0 !! k) <-> is_Some (dc_peers d !! k) \/ exists p, p ∈ ps /\ decode_base64 (bp_pub_key p) = Some k) as Hadd.
  { induction ps as [|p ps IH]; intros d; cbn [add_peers].
    - intros [= <-]. split_and!; auto. intros k. split; [by left|]. intros [?|(p & []%elem_of_nil & _)]; done.
    - intros Hd. bind_inv Hd. apply IH in Hd as (-> & -> & -> & Hks & Hk). split_and!; [done..| |].
      { intros Hd. apply Hks. intros k c. cbn [dc_peers DeviceConfig_peer]. intros [[<- <-]|[_ Hl]]%lookup_insert_Some; [done|by apply Hd]. }
      intros k. rewrite Hk. pose proof (peer_config_key decode_base64 ip_from_str p a1 Hd0) as Hkey.
      cbn [dc_peers DeviceConfig_peer]. rewrite lookup_insert_is_Some. setoid_rewrite elem_of_cons.
      destruct (decide (cfg_public_key a1 = k)) as [<-|Hne]; naive_solver congruence. }
  destruct (Hadd _ _ Hc1) as (-> & -> & -> & Hks & Hk). split_and!; [done..| |].
  { apply Hks. intros k c. unfold d0. cbn [dc_peers]. by rewrite lookup_empty. }
  intros k. rewrite Hk. unfold d0. cbn [dc_peers].
  rewrite lookup_empty. split; [by intros [[]|?]|by right].
Qed.

(** C37: a node that starts is the node the server configured. Over any interface that keeps
    its contract, on a host whose sockets and routes leave the interface's address alone: when
    [start] gets through, the server answered the request with a configuration; the device has
    the address it assigns, announces this address in text after every [Connected], and
    reports the port it assigns, or the one of the command line, or 51820; its peers are
    exactly those the server listed; and every peer has one selector, with the extension
    endpoints the server gave for its key, in order. *)
Theorem node_starts now rnd sk args extra_status sink_ok conn incoming cmds w w' m' l' out :
  (forall n w w' t, native_new n w = (w', Ok t) -> if_ok t) ->
  (forall t, UdpFrame (addr_of t)) ->
  (forall t n a m, keeps (addr_of t) (add_route n a m)) ->
  start now rnd sk args extra_status sink_ok conn incoming cmds Manager_new w = (w', m', Ok (l', out)) ->
  exists rest r d, wait_first cmds = Some rest /\
    (VlinkClient_request (E := E) sink_ok conn TsReqConfig incoming).2 = Ok (TcRespConfig r) /\ mg_device m' = Some d /\
    dv_port d = (if 0 <? rc_port r then wrap 16 (rc_port r) else default DEFAULT_PORT (arg_port args)) /\
    dv_tun_addr d = be_bytes 4 (rc_address r) /\
    (forall k, is_Some (get_by_key (dv_peers d) k) <-> exists p, p ∈ rc_peers r /\ decode_base64 (bp_pub_key p) = Some k) /\
    (forall k, mg_selectors m' !! k =
       if get_by_key (dv_peers d) k then Some (transports_for decode_base64 k (rc_peer_extra_transports r)) else None) /\
    only_online (dv_peers d) l' /\
    (in_u 32 (rc_address r) ->
     out = replicate (length (filter (fun c => is_connected_cmd c.1 = true) rest))
       (handler_connected (rc_address r) (dv_port d) (arg_endpoint_addr args) extra_status)).
Proof.
  intros Hnew Hudp Hroute. unfold start. destruct (wait_first cmds) as [rest|]; [|done].
  destruct (_ ≫= _) as [cfg| |] eqn:Hcfg; [|done..]. apply bind_Ok_inv in Hcfg as (resp & Hresp & Hcfg).
  destruct (request_for_config_resp resp sk args cfg Hcfg) as (r & -> & Ha & Hp & _ & Hx & Hks & Hk).
  unfold start_device. destruct (Device_new _ _ _ _ _ _ _ _ w) as [w1 [d| |]] eqn:Hd; [|done..].
  destruct (device_starts_configured native_new add_route full_netmask network_address now rnd None (device_config cfg) w w1 d Hnew Hudp Hroute Hks Hd)
    as (Haddr & Hport & _ & Hok & Hpeers).
  destruct (group_transports _ _ _) as [map| |] eqn:Hg; [|done..].
  destruct (start_extras (transports cfg)) as [extras [[]| |]]; [|done..]. cbn [map_err mbind res_bind].
  destruct (manager_loop _ _ _ _) as [[l o]| |] eqn:Hl; [|done..]. intros [= <- <- -> ->].
  destruct (manager_loop_frame decode_base64 _ _ _ _ _ Hok Hl) as [Hon Hout].
  exists rest, r, d. split; [done|]. split; [done|]. split; [done|]. cbn [mg_selectors Manager_new].
  split_and!; [congruence|congruence|by intros k; rewrite Hpeers, Hk| |done|].
  - intros k. rewrite lookup_union_r by apply lookup_empty. rewrite <- Hx.
    apply (selectors_cover_peers (E := E) decode_base64 (dv_peers d) (peer_extra_transports cfg) _ Hok).
    unfold selectors. by rewrite Hg.
  - intros Hu. rewrite Hout. unfold announce. by rewrite Haddr, Ha, be_val_bytes_small.
Qed.
End Manager.

(** ** Witness: a node that is told it is connected, and that a peer entered *)
Section Witness.
#[local] Existing Instance Toy.prims.
#[local] Existing Instance Prefixes.lib.
#[local] Existing Instance ToyHost.lib.
#[local] Existing Instance toy_tun_host.
#[local] Existing Instance toy_win.
#[local] Existing Instance toy_win_laws.

Definition toy_resp : RespConfig :=
  mkRespConfig 1 0x0a000001 24 0x0a000000 0 None [mkBcPeerEnter "a" "10.0.0.2" None 0 None 3 false] []
    [mkPeerExtraTransport "a" "NatUdp" "1.2.3.4:5" 0].
Definition toy_args : ArgConfig := mkArgConfig None (Some 4000).
Definition toy_started : host * Manager * res StartError (PeerList * list ToServerData) :=
  start (I := toy_win) (E := unit) toy_new toy_route (fun _ => Some [xff; xff; xff; x00]) (fun _ => IpV4 [x0a; x00; x00; x00])
    Daemon.toy_decode Vlinkd.toy_parse Prefixes.truncate 0 7 (key_of x11) toy_args ∅ true (Some (mkClientConnect 1 true))
    [Some (mkToClient 2 (Some (TcRespConfig toy_resp)))]
    [(ReqInfo, true); (FirstConnected, true); (Connected, true); (CmdToClientData (toy_enter "a"), true)] Manager_new toy_host.

Lemma node_starts_witness : exists w' m' l' d, toy_started = (w', m', Ok (l',
    [TsPeerEnter (mkPeerEnter "10.0.0.1" None 4000 [])])) /\ mg_device m' = Some d /\ dv_tun_addr d = [x0a; x00; x00; x01] /\
  is_Some (get_by_key (dv_peers d) (toy_key x61)).
Proof.
  destruct toy_started as [[w' m'] r] eqn:Hs.
  assert (is_ok r = true) as Hr by (change r with (w', m', r).2; rewrite <- Hs; vm_compute; reflexivity).
  destruct (is_ok_inv r Hr) as [[l' out] ->]. exists w', m', l'.
  destruct (node_starts (H := ToyHost.lib) (H0 := toy_tun_host) (H1 := Prefixes.lib) (H2 := Toy.prims) (I := toy_win) (L := toy_win_laws) (E := unit) toy_new toy_route (fun _ => Some [xff; xff; xff; x00])
    (fun _ => IpV4 [x0a; x00; x00; x00]) Daemon.toy_decode Vlinkd.toy_parse Prefixes.truncate 0 7 (key_of x11) toy_args ∅ true
    (Some (mkClientConnect 1 true)) [Some (mkToClient 2 (Some (TcRespConfig toy_resp)))]
    [(ReqInfo, true); (FirstConnected, true); (Connected, true); (CmdToClientData (toy_enter "a"), true)]
    toy_host w' m' l' out) as (rest & r & d & Hrest & Hreq & Hd & Hp & Ha & Hk & _ & _ & Hout).
  - exact (fun _ _ _ _ _ => I).
  - exact toy_frame.
  - exact (fun _ _ _ _ _ => eq_refl).
  - unfold toy_started in Hs. exact Hs.
  - cbn in Hrest. injection Hrest as <-.
    assert (r = toy_resp) as -> by (assert (Ok (TcRespConfig toy_resp) = Ok (TcRespConfig r)) as Hx by (rewrite <- Hreq; vm_compute; reflexivity); congruence).
    specialize (Hout ltac:(split; [discriminate|reflexivity])). rewrite Hp in Hout. exists d. split.
    { do 2 f_equal. rewrite Hout. vm_compute. reflexivity. }
    split; [exact Hd|]. split; [rewrite Ha; vm_compute; reflexivity|]. apply Hk. exists (mkBcPeerEnter "a" "10.0.0.2" None 0 None 3 false).
    split; [left|reflexivity].
Defined.
End Witness.
End Start.
