(* ===== verification/Connector.v ===== *)
(** * The client's connection task (vlinkd/src/client.rs, vlinkd/src/connect.rs)

    [VlinkClient::spawn] runs three futures in one task: [reconnect] makes connections,
    [run_event_loop] runs their event loops, and [process] passes messages on. The first hands
    the second its event loops over a channel of capacity 1, and waits for the end of a
    connection by sending [None] twice: the second [None] has no room before the loop that is
    being run has returned. This file has that task as a state machine over turns in any
    order, and shows that the trick works and that the task does what the sequential loop
    [Daemon.reconnect] says. *)

From S2P Require Import Prelude Bytes Abi Secret Vlinkd Daemon.
#[local] Open Scope Z_scope.

Module Connector.
Import Vlinkd Daemon.

(** ** connect.rs *)

(** The event loop of a connection ([ClientConnect::new]): not polled yet, being run,
    returned; or dropped before it returned. The flag [is_connected] is set when the
    connection is made, and cleared by the loop when it returns. *)
Inductive LoopState := Made | Polled | Ended | Dropped.
Record Link := mkLink { lk_loop : LoopState; lk_connected : bool }.
Definition Link_new : Link := mkLink Made true.
Definition link_poll (l : Link) : Link := mkLink Polled true.
Definition link_end (l : Link) : Link := mkLink Ended false.
Definition link_drop (l : Link) : Link :=
  match lk_loop l with
  | Made | Polled => mkLink Dropped (lk_connected l)
  | _ => l
  end.
Definition ended (l : Link) : Prop := l = mkLink Ended false.

(** ** client.rs *)

Section Spawn.
Context `{Secret.SecretLibs} {E : Type}.
Context (secret : Secret.VlinkStaticSecret).

(** Where [reconnect] is: at one of its [await]s, with the connection it works on; [Exited]
    is the end of the whole task. *)
Inductive Pc :=
| SendFirst
| SendSecond
| Sleeping
| Connecting
| SendLoop (n : nat)
| AwaitInfo (n : nat)
| Shaking (n : nat) (first : option (ToClient E)) (sign : string)
| Store (n : nat)
| TellFirst
| TellConnected
| Exited.
Definition alive (pc : Pc) : bool := match pc with Exited => false | _ => true end.

(** [tk_links] are the connections in the order they were made, [tk_chan] the channel
    [etx]/[erx], [tk_runner] the connection whose loop [run_event_loop] awaits, [tk_conn] the
    connection requests use, [tk_told] what the network manager was sent. *)
Record Task := mkTask {
  tk_pc : Pc;
  tk_count : Z;
  tk_first : bool;
  tk_chan : list (option nat);
  tk_runner : option nat;
  tk_links : list Link;
  tk_conn : option nat;
  tk_told : list (NetworkCtrlCmd E);
}.
Definition Task_new : Task := mkTask SendFirst 0 true [] None [] None [].
Definition at_pc (pc : Pc) (t : Task) : Task :=
  mkTask pc (tk_count t) (tk_first t) (tk_chan t) (tk_runner t) (tk_links t) (tk_conn t) (tk_told t).
Definition with_count (c : Z) (t : Task) : Task :=
  mkTask (tk_pc t) c (tk_first t) (tk_chan t) (tk_runner t) (tk_links t) (tk_conn t) (tk_told t).

(** One branch of the [select!] of the task ended, or its token was cancelled: the other
    futures are dropped, with the event loops they hold. *)
Definition exit (t : Task) : Task :=
  mkTask Exited (tk_count t) (tk_first t) [] None (link_drop <$> tk_links t) (tk_conn t) (tk_told t).

(** A [send] on the channel goes through when there is room. *)
Definition chan_send (m : option nat) (next : Pc) (t : Task) : Task :=
  match tk_chan t with
  | [] => mkTask next (tk_count t) (tk_first t) [m] (tk_runner t) (tk_links t) (tk_conn t) (tk_told t)
  | _ => t
  end.
Definition tell (cmd : NetworkCtrlCmd E) (next : Pc) (t : Task) : Task :=
  mkTask next (tk_count t) (match cmd with FirstConnected => false | _ => tk_first t end) (tk_chan t) (tk_runner t)
    (tk_links t) (tk_conn t) (tk_told t ++ [cmd]).

(** [run_event_loop]: the next item of the channel, when no loop is being run. *)
Definition run_event_loop (t : Task) : Task :=
  match tk_runner t, tk_chan t with
  | None, None :: chan => mkTask (tk_pc t) (tk_count t) (tk_first t) chan None (tk_links t) (tk_conn t) (tk_told t)
  | None, Some n :: chan =>
      mkTask (tk_pc t) (tk_count t) (tk_first t) chan (Some n) (alter link_poll n (tk_links t)) (tk_conn t) (tk_told t)
  | _, _ => t
  end.
(** The loop that is being run returns: the stream ended, a message could not be read, a
    write failed. *)
Definition loop_returns (t : Task) : Task :=
  match tk_runner t with
  | Some n => mkTask (tk_pc t) (tk_count t) (tk_first t) (tk_chan t) None (alter link_end n (tk_links t)) (tk_conn t) (tk_told t)
  | None => t
  end.

Definition is_connected_link (t : Task) (n : nat) : bool := default false (lk_connected <$> tk_links t !! n).

(** One turn of [reconnect], to its next [await]: [a] is how its calls go, [ctrl_ok] whether
    the manager can be told. The second result is the attempt, when this turn decides it. *)
Definition reconnect_step (a : Attempt (E := E)) (ctrl_ok : bool) (t : Task) : Task * list (Attempt (E := E)) :=
  match tk_pc t with
  | SendFirst => (chan_send None SendSecond t, [])
  | SendSecond =>
      (if 0 <? tk_count t then chan_send None Sleeping t
       else match tk_chan t with [] => with_count (tk_count t + 1) (chan_send None Connecting t) | _ => t end, [])
  | Sleeping => (with_count (tk_count t + 1) (at_pc Connecting t), [])
  | Connecting =>
      if at_connects a then
        (mkTask (SendLoop (length (tk_links t))) (tk_count t) (tk_first t) (tk_chan t) (tk_runner t)
           (tk_links t ++ [Link_new]) (tk_conn t) (tk_told t), [])
      else (at_pc SendFirst t, [mkAttempt false None [] false])
  | SendLoop n =>
      (match tk_chan t with [] => with_count 1 (chan_send (Some n) (AwaitInfo n) t) | _ => t end, [])
  | AwaitInfo n =>
      match sign_for secret (at_first a) with
      | Some sign => (at_pc (Shaking n (at_first a) sign) t, [])
      | None => (exit t, [mkAttempt true (at_first a) [] false])
      end
  | Shaking n first sign =>
      let '(_, _, r) := handshake (at_sink_ok a) (mkClientConnect 0 (is_connected_link t n))
        (mkHandshakeParam (Secret.base64_pub secret) sign None) (at_incoming a) in
      (match r with Ok _ => at_pc (Store n) t | _ => exit t end,
       [mkAttempt true first (at_incoming a) (at_sink_ok a && is_connected_link t n)])
  | Store n =>
      (mkTask (if tk_first t then TellFirst else TellConnected) (tk_count t) (tk_first t) (tk_chan t) (tk_runner t)
         (tk_links t) (Some n) (tk_told t), [])
  | TellFirst => (if ctrl_ok then tell FirstConnected TellConnected t else exit t, [])
  | TellConnected => (if ctrl_ok then tell Connected SendFirst t else exit t, [])
  | Exited => (t, [])
  end.

Inductive Turn :=
| Runner
| LoopReturns
| Reconnect (a : Attempt (E := E)) (ctrl_ok : bool)
| Cancelled.
Definition turn (t : Task) (e : Turn) : Task * list (Attempt (E := E)) :=
  if alive (tk_pc t) then
    match e with
    | Runner => (run_event_loop t, [])
    | LoopReturns => (loop_returns t, [])
    | Reconnect a ok => reconnect_step a ok t
    | Cancelled => (exit t, [])
    end
  else (t, []).
Definition run (t : Task) (es : list Turn) : Task * list (Attempt (E := E)) :=
  foldl (fun '(t, log) e => let '(t, l) := turn t e in (t, log ++ l)) (t, []) es.
End Spawn.

(** ** The order of connections *)

Section Proofs.
Context `{Secret.SecretLibs} {E : Type}.
Context (secret : Secret.VlinkStaticSecret).
#[local] Abbreviation Task := (@Task E).
#[local] Abbreviation turn := (turn secret).
#[local] Abbreviation run := (run secret).

(** No connection is left and the runner waits. *)
Definition quiet (t : Task) : Prop :=
  tk_runner t = None /\ (tk_chan t = [] \/ tk_chan t = [None]) /\ Forall ended (tk_links t).
(** Connection [n] is the last one made: its loop is in the channel, is being run, or has
    returned. *)
Definition current (n : nat) (t : Task) : Prop :=
  exists old l, tk_links t = old ++ [l] /\ n = length old /\ Forall ended old /\
    ((tk_chan t = [Some n] /\ tk_runner t = None /\ l = Link_new) \/
     (tk_chan t = [] /\ tk_runner t = Some n /\ l = mkLink Polled true) \/
     (tk_chan t = [] /\ tk_runner t = None /\ ended l)).
(** The loop of the last connection is being run, with a [None] behind it. *)
Definition waiting (t : Task) : Prop :=
  exists old, tk_links t = old ++ [mkLink Polled true] /\ Forall ended old /\
    tk_chan t = [None] /\ tk_runner t = Some (length old).
Definition Inv (t : Task) : Prop :=
  match tk_pc t with
  | SendFirst => quiet t \/ exists n, current n t
  | SendSecond => quiet t \/ waiting t
  | Sleeping | Connecting => quiet t
  | SendLoop n => tk_runner t = None /\ (tk_chan t = [] \/ tk_chan t = [None]) /\
      exists old, tk_links t = old ++ [Link_new] /\ n = length old /\ Forall ended old
  | AwaitInfo n | Shaking n _ _ | Store n => current n t
  | TellFirst | TellConnected => exists n, current n t
  | Exited => True
  end.

Lemma alter_last {A} (f : A -> A) l x : alter f (length l) (l ++ [x]) = l ++ [f x].
Proof. rewrite alter_app_r_alt, Nat.sub_diag by lia. done. Qed.

(** What the runner does to the three shapes. *)
Lemma quiet_runner t : quiet t -> quiet (run_event_loop t).
Proof.
  intros (Hr & Hc & Hl). unfold run_event_loop. rewrite Hr.
  destruct Hc as [Hc|Hc]; rewrite Hc; split_and!; cbn; auto.
Qed.
Lemma quiet_returns t : quiet t -> quiet (loop_returns t).
Proof. intros Hq. unfold loop_returns. by rewrite (proj1 Hq). Qed.
Lemma current_runner n t : current n t -> current n (run_event_loop t).
Proof.
  intros (old & l & Hl & -> & Ho & [(Hc & Hr & ->)|[(Hc & Hr & ->)|(Hc & Hr & He)]]); unfold run_event_loop; rewrite Hr, ?Hc.
  - exists old, (mkLink Polled true). cbn. rewrite Hl, alter_last. split_and!; auto.
  - exists old, (mkLink Polled true). split_and!; auto.
  - exists old, l. split_and!; auto.
Qed.
Lemma current_returns n t : current n t -> current n (loop_returns t).
Proof.
  intros (old & l & Hl & -> & Ho & [(Hc & Hr & ->)|[(Hc & Hr & ->)|(Hc & Hr & He)]]); unfold loop_returns; rewrite Hr.
  - exists old, Link_new. split_and!; auto.
  - exists old, (mkLink Ended false). cbn. rewrite Hl, alter_last. split_and!; auto. by do 2 right.
  - exists old, l. split_and!; auto.
Qed.
Lemma waiting_returns t : waiting t -> quiet (loop_returns t).
Proof.
  intros (old & Hl & Ho & Hc & Hr). unfold loop_returns. rewrite Hr. split_and!; cbn; auto.
  rewrite Hl, alter_last. apply Forall_app_2; [done|]. by apply Forall_singleton.
Qed.
Lemma waiting_runner t : waiting t -> run_event_loop t = t.
Proof. intros (old & Hl & Ho & Hc & Hr). unfold run_event_loop. by rewrite Hr. Qed.

Lemma runner_pc (t : Task) : tk_pc (run_event_loop t) = tk_pc t.
Proof. unfold run_event_loop. by destruct (tk_runner t), (tk_chan t) as [|[]]. Qed.
Lemma returns_pc (t : Task) : tk_pc (loop_returns t) = tk_pc t.
Proof. unfold loop_returns. by destruct (tk_runner t). Qed.

Lemma Inv_runner t : Inv t -> Inv (run_event_loop t).
Proof.
  unfold Inv. rewrite runner_pc. destruct (tk_pc t); try apply quiet_runner; try apply current_runner.
  - intros [Hq|[n Hn]]; [left; by apply quiet_runner|right; exists n; by apply current_runner].
  - intros [Hq|Hw]; [left; by apply quiet_runner|right; by rewrite waiting_runner].
  - intros (Hr & Hc & Hl). unfold run_event_loop. rewrite Hr.
    destruct Hc as [Hc|Hc]; rewrite Hc; split_and!; cbn; auto.
  - intros [n Hn]. exists n. by apply current_runner.
  - intros [n Hn]. exists n. by apply current_runner.
  - done.
Qed.
Lemma Inv_returns t : Inv t -> Inv (loop_returns t).
Proof.
  unfold Inv. rewrite returns_pc. destruct (tk_pc t); try apply quiet_returns; try apply current_returns.
  - intros [Hq|[n Hn]]; [left; by apply quiet_returns|right; exists n; by apply current_returns].
  - intros [Hq|Hw]; left; [by apply quiet_returns|by apply waiting_returns].
  - intros (Hr & Hc & Hl). unfold loop_returns. by rewrite Hr.
  - intros [n Hn]. exists n. by apply current_returns.
  - intros [n Hn]. exists n. by apply current_returns.
  - done.
Qed.

(** The shapes do not depend on where [reconnect] is and what it told. *)
Definition same_links (t t' : Task) : Prop :=
  tk_chan t' = tk_chan t /\ tk_runner t' = tk_runner t /\ tk_links t' = tk_links t.
Lemma quiet_same t t' : same_links t t' -> quiet t -> quiet t'.
Proof. intros (H1 & H2 & H3). unfold quiet. by rewrite H1, H2, H3. Qed.
Lemma current_same n t t' : same_links t t' -> current n t -> current n t'.
Proof. intros (H1 & H2 & H3). unfold current. by rewrite H1, H2, H3. Qed.

Lemma Inv_reconnect a ok t : Inv t -> Inv (reconnect_step secret a ok t).1.
Proof.
  intros Hi. pose proof Hi as HI. unfold Inv in HI. unfold reconnect_step. destruct (tk_pc t) eqn:Hpc.
  - unfold chan_send. destruct (tk_chan t) as [|x c] eqn:Hc; cbn [fst]; [|exact Hi].
    unfold Inv. cbn [tk_pc]. destruct HI as [(Hr & _ & Hl)|(n & old & l & Hl & -> & Ho & Hcases)]; [left; split_and!; cbn; auto|].
    rewrite Hc in Hcases. destruct Hcases as [(? & _)|[(_ & Hr & ->)|(_ & Hr & He)]]; [done|right|left].
    + exists old. by split_and!.
    + split_and!; cbn; auto. rewrite Hl. apply Forall_app_2; [done|]. by apply Forall_singleton.
  - unfold chan_send. destruct (tk_chan t) as [|x c] eqn:Hc.
    + destruct HI as [(Hr & _ & Hl)|(? & _ & _ & Hx & _)]; [|by rewrite Hc in Hx].
      destruct (0 <? tk_count t); split_and!; cbn; auto.
    + by destruct (0 <? tk_count t).
  - by apply (quiet_same t).
  - destruct (at_connects a); cbn [fst]; [|left; by apply (quiet_same t)].
    destruct HI as (Hr & Hc & Hl). split_and!; cbn; [done|done|]. by exists (tk_links t).
  - destruct (tk_chan t) as [|x c] eqn:Hc; cbn [fst]; [|exact Hi].
    destruct HI as (Hr & _ & old & Hl & -> & Ho). unfold chan_send. rewrite Hc. exists old, Link_new. cbn. split_and!; auto.
  - destruct (sign_for secret (at_first a)); [by apply (current_same n t)|exact I].
  - destruct (handshake _ _ _ _) as [[? ?] []]; [by apply (current_same n t)|exact I..].
  - unfold Inv. cbn. destruct (tk_first t); exists n; by apply (current_same n t).
  - destruct ok; [|exact I]. destruct HI as [n Hn]. exists n. by apply (current_same n t).
  - destruct ok; [|exact I]. right. destruct HI as [n Hn]. exists n. by apply (current_same n t).
  - exact Hi.
Qed.
Lemma Inv_turn t e : Inv t -> Inv (turn t e).1.
Proof.
  intros HI. unfold Connector.turn. destruct (alive (tk_pc t)); [|done]. destruct e; cbn [fst].
  - by apply Inv_runner.
  - by apply Inv_returns.
  - by apply Inv_reconnect.
  - exact I.
Qed.

Lemma run_snoc (t : Task) es e :
  run t (es ++ [e]) = ((turn (run t es).1 e).1, (run t es).2 ++ (turn (run t es).1 e).2).
Proof.
  unfold Connector.run. rewrite foldl_app. destruct (foldl _ _ es) as [t1 log]. cbn [foldl fst snd].
  by destruct (turn t1 e).
Qed.
Lemma Inv_run es : Inv (run Task_new es).1.
Proof.
  induction es as [|e es IH] using rev_ind.
  - left. split_and!; cbn; auto.
  - rewrite run_snoc. by apply Inv_turn.
Qed.

(** At most one connection has not ended, and that is the last. *)
Lemma Inv_last t : Inv t -> alive (tk_pc t) = true ->
  forall i l, tk_links t !! i = Some l -> ended l \/ (S i = length (tk_links t) /\ lk_connected l = true /\ lk_loop l <> Ended).
Proof.
  assert (forall ls, Forall ended ls -> forall i l, ls !! i = Some l ->
    ended l \/ (S i = length ls /\ lk_connected l = true /\ lk_loop l <> Ended)) as Hall.
  { intros ls Hls i l Hl. left. by eapply Forall_lookup_1 in Hls. }
  assert (forall old k, Forall ended old -> ended k \/ (lk_connected k = true /\ lk_loop k <> Ended) ->
    forall i l, (old ++ [k]) !! i = Some l ->
    ended l \/ (S i = length (old ++ [k]) /\ lk_connected l = true /\ lk_loop l <> Ended)) as Hlast.
  { intros old k Ho Hk i l Hl. rewrite length_app. cbn [length]. apply lookup_snoc_Some in Hl as [[Hi Hl]|[-> <-]].
    - left. by eapply Forall_lookup_1 in Ho.
    - destruct Hk as [Hk|Hk]; [by left|right]. split; [lia|done]. }
  assert (forall n, current n t -> forall i l, tk_links t !! i = Some l ->
    ended l \/ (S i = length (tk_links t) /\ lk_connected l = true /\ lk_loop l <> Ended)) as Hcur.
  { intros n (old & k & -> & _ & Ho & Hk). apply (Hlast old k Ho).
    destruct Hk as [(_ & _ & ->)|[(_ & _ & ->)|(_ & _ & He)]]; [by right|by right|by left]. }
  unfold Inv, quiet, waiting. intros HI Ha. destruct (tk_pc t); try naive_solver.
  - destruct HI as [?|(old & -> & Ho & _)]; [naive_solver|]. apply (Hlast old _ Ho). by right.
  - destruct HI as (_ & _ & old & -> & _ & Ho). apply (Hlast old _ Ho). by right.
Qed.

(** A round: a turn of the runner, then one of [reconnect]. *)
Definition rounds (a : Attempt (E := E)) (k : nat) : list (Turn (E := E)) := concat (replicate k [Runner; Reconnect a true]).
Lemma run_app (t : Task) es es' : (run t (es ++ es')).1 = (run (run t es).1 es').1.
Proof.
  unfold Connector.run. rewrite foldl_app. destruct (foldl _ (t, []) es) as [t1 log]. cbn [fst].
  generalize log, (@nil (Attempt (E := E))). clear. revert t1. induction es' as [|e es' IH]; intros t1 l1 l2; cbn [foldl]; [done|].
  destruct (turn t1 e) as [t2 l]. apply IH.
Qed.

Lemma quiet_reconnects a t : quiet t ->
  match tk_pc t with SendFirst | SendSecond | Sleeping => True | _ => False end ->
  exists k, (k <= 3)%nat /\ tk_pc (run t (rounds a k)).1 = Connecting.
Proof.
  destruct t as [pc count first chan runner links conn told]. unfold quiet. cbn. intros (-> & Hc & _) Hpc.
  destruct pc; try done.
  - destruct (0 <? count) eqn:Hn.
    + exists 3%nat. split; [lia|]. destruct Hc as [-> | ->]; unfold Connector.run; cbn; rewrite Hn; done.
    + exists 2%nat. split; [lia|]. destruct Hc as [-> | ->]; unfold Connector.run; cbn; rewrite Hn; done.
  - destruct (0 <? count) eqn:Hn.
    + exists 2%nat. split; [lia|]. destruct Hc as [-> | ->]; unfold Connector.run; cbn; rewrite Hn; done.
    + exists 1%nat. split; [lia|]. destruct Hc as [-> | ->]; unfold Connector.run; cbn; rewrite Hn; done.
  - exists 1%nat. split; [lia|]. destruct Hc as [-> | ->]; done.
Qed.

Lemma Inv_quiet t : Inv t -> Forall ended (tk_links t) ->
  match tk_pc t with SendFirst | SendSecond | Sleeping => True | _ => False end -> quiet t.
Proof.
  unfold Inv. intros HI Hl Hpc. destruct (tk_pc t); try done.
  - destruct HI as [?|(n & old & l & Hls & _ & _ & Hc)]; [done|]. pose proof Hl as Hend. rewrite Hls in Hend.
    apply Forall_app in Hend as [_ [Hend _]%Forall_cons]. unfold ended in Hend.
    destruct Hc as [(_ & _ & ->)|[(_ & _ & ->)|(Hc & Hr & _)]]; [discriminate Hend..|]. split_and!; auto.
  - destruct HI as [?|(old & Hls & _)]; [done|]. rewrite Hls in Hl. by apply Forall_app in Hl as [_ [Hl _]%Forall_cons].
Qed.

(** ** The sequential loop *)

(** What is still to be told of a connection whose handshake is done. *)
Definition pending (t : Task) : list (NetworkCtrlCmd E) :=
  match tk_pc t with
  | Store _ => (if tk_first t then [FirstConnected] else []) ++ [Connected]
  | TellFirst => [FirstConnected; Connected]
  | TellConnected => [Connected]
  | _ => []
  end.
Definition Ref (t : Task) (log : list (Attempt (E := E))) : Prop :=
  let '(st, cmds, e) := reconnect secret ClientLoop_new log in
  if alive (tk_pc t) then
    e = Retry /\ cmds = tk_told t ++ pending t /\
    cl_first st = (match pending t with [] => tk_first t | _ => false end) /\
    match tk_pc t with
    | Shaking _ first sign => sign_for secret first = Some sign
    | TellFirst => tk_first t = true
    | TellConnected => tk_first t = false
    | _ => True
    end
  else exists more, cmds = tk_told t ++ more.

Lemma reconnect_snoc (log : list (Attempt (E := E))) a : forall st,
  reconnect secret st (log ++ [a]) =
  let '(st, cmds, e) := reconnect secret st log in
  match e with
  | Stop => (st, cmds, Stop)
  | Retry => let '(st, _, more, e) := reconnect_turn secret st a in (st, cmds ++ more, e)
  end.
Proof.
  induction log as [|b log IH]; intros st; cbn [app reconnect].
  - destruct (reconnect_turn secret st a) as [[[st1 d] cmds] []]; [by rewrite app_nil_r|done].
  - destruct (reconnect_turn secret st b) as [[[st1 d] cmds] []]; [|done]. rewrite IH.
    destruct (reconnect secret st1 log) as [[st2 more] []]; [|done].
    destruct (reconnect_turn secret st2 a) as [[[st3 d3] cmds3] e3]. by rewrite app_assoc.
Qed.

(** A handshake on a connection that is gone fails, as one that cannot be sent does. *)
Lemma handshake_gone sink flag p incoming :
  is_ok (handshake (E := E) sink (mkClientConnect 0 flag) p incoming).2 =
  is_ok (handshake (E := E) (sink && flag) (mkClientConnect 0 true) p incoming).2.
Proof. destruct flag; [by rewrite andb_true_r|]. rewrite andb_false_r. reflexivity. Qed.

Lemma Ref_same t t' log : tk_pc t' = tk_pc t -> tk_first t' = tk_first t -> tk_told t' = tk_told t -> Ref t log -> Ref t' log.
Proof.
  intros H1 H2 H3. unfold Ref, pending. destruct (reconnect _ _ _) as [[st cmds] e]. by rewrite H1, H2, H3.
Qed.
Lemma Ref_exit t log : alive (tk_pc t) = true -> Ref t log -> Ref (exit t) log.
Proof.
  unfold Ref. destruct (reconnect _ _ _) as [[st cmds] e]. intros -> (_ & -> & _). cbn. by eexists.
Qed.
Lemma Ref_snoc t t' log a : alive (tk_pc t) = true -> Ref t log ->
  (forall st, pending t = [] -> cl_first st = tk_first t ->
     let '(st', _, more, e) := reconnect_turn secret st a in
     if alive (tk_pc t') then
       e = Retry /\ tk_told t ++ more = tk_told t' ++ pending t' /\
       cl_first st' = (match pending t' with [] => tk_first t' | _ => false end) /\
       match tk_pc t' with
       | Shaking _ first sign => sign_for secret first = Some sign
       | TellFirst => tk_first t' = true
       | TellConnected => tk_first t' = false
       | _ => True
       end
     else tk_told t' = tk_told t) ->
  pending t = [] -> Ref t' (log ++ [a]).
Proof.
  unfold Ref. intros Ha HR Hstep Hp. rewrite reconnect_snoc.
  destruct (reconnect secret ClientLoop_new log) as [[st cmds] e]. rewrite Ha in HR. destruct HR as (-> & -> & Hf & _).
  rewrite Hp in Hf |- *. rewrite app_nil_r. specialize (Hstep st Hp Hf).
  destruct (reconnect_turn secret st a) as [[[st' d] more] e']. destruct (alive (tk_pc t')).
  - destruct Hstep as (-> & -> & ? & ?). done.
  - rewrite Hstep. by eexists.
Qed.

Lemma Ref_reconnect a ok t log : alive (tk_pc t) = true -> Ref t log ->
  Ref (reconnect_step secret a ok t).1 (log ++ (reconnect_step secret a ok t).2).
Proof.
  intros Ha HR. unfold reconnect_step. destruct (tk_pc t) eqn:Hpc; try done.
  1-3, 5, 8-10: cbn [fst snd]; rewrite app_nil_r.
  - unfold chan_send. destruct (tk_chan t); [|done]. unfold Ref, pending in *. rewrite Hpc in HR.
    by destruct (reconnect _ _ _) as [[st cmds] e].
  - assert (forall pc, pc = Sleeping \/ pc = Connecting -> forall t', tk_pc t' = pc -> tk_first t' = tk_first t ->
      tk_told t' = tk_told t -> Ref t' log) as Hmove.
    { intros pc Hor t' H1 H2 H3. unfold Ref, pending in *. rewrite Hpc in HR. rewrite H1, H2, H3.
      destruct (reconnect _ _ _) as [[st cmds] e]. by destruct Hor as [-> | ->]. }
    unfold chan_send. destruct (0 <? tk_count t); (destruct (tk_chan t); [|done]); (eapply Hmove; [|reflexivity..]); cbn; auto.
  - unfold Ref, pending in *. rewrite Hpc in HR. by destruct (reconnect _ _ _) as [[st cmds] e].
  - unfold chan_send. destruct (tk_chan t); [|done]. unfold Ref, pending in *. rewrite Hpc in HR.
    by destruct (reconnect _ _ _) as [[st cmds] e].
  - unfold Ref, pending in *. rewrite Hpc in HR. destruct (reconnect _ _ _) as [[st cmds] e]. cbn.
    destruct HR as (-> & -> & -> & _). by destruct (tk_first t).
  - destruct ok; [|apply Ref_exit; [by rewrite Hpc|done]]. unfold Ref, pending in *. rewrite Hpc in HR.
    destruct (reconnect _ _ _) as [[st cmds] e]. cbn. destruct HR as (-> & -> & ? & ?). split_and!; auto.
    by rewrite <- app_assoc.
  - destruct ok; [|apply Ref_exit; [by rewrite Hpc|done]]. unfold Ref, pending in *. rewrite Hpc in HR.
    destruct (reconnect _ _ _) as [[st cmds] e]. cbn. destruct HR as (-> & -> & ? & ?). split_and!; auto; [|congruence].
    by rewrite app_nil_r.
  - destruct (at_connects a); cbn [fst snd].
    + rewrite app_nil_r. unfold Ref, pending in *. rewrite Hpc in HR. by destruct (reconnect _ _ _) as [[st cmds] e].
    + eapply Ref_snoc; [by rewrite Hpc|done| |by unfold pending; rewrite Hpc].
      intros st _ Hf. cbn. done.
  - destruct (sign_for secret (at_first a)) as [sign|] eqn:Hs; cbn [fst snd].
    + rewrite app_nil_r. unfold Ref, pending in *. rewrite Hpc in HR. destruct (reconnect _ _ _) as [[st cmds] e].
      by destruct HR as (-> & -> & -> & _).
    + eapply Ref_snoc; [by rewrite Hpc|done| |by unfold pending; rewrite Hpc].
      intros st _ Hf. unfold reconnect_turn. cbn. by rewrite Hs.
  - assert (sign_for secret first = Some sign) as Hs.
    { unfold Ref in HR. destruct (reconnect _ _ _) as [[st cmds] e]. rewrite Hpc in HR. by destruct HR as (_ & _ & _ & ?). }
    pose proof (handshake_gone (at_sink_ok a) (is_connected_link t n)
      (mkHandshakeParam (Secret.base64_pub secret) sign None) (at_incoming a)) as Hg.
    destruct (handshake (at_sink_ok a) _ _ _) as [[c out] r]. cbn [fst snd] in *.
    eapply Ref_snoc; [by rewrite Hpc|done| |by unfold pending; rewrite Hpc].
    intros st _ Hf. unfold reconnect_turn. cbn [at_connects negb at_first at_sink_ok at_incoming]. rewrite Hs.
    destruct (handshake (_ && _) _ _ _) as [[c' out'] r']. cbn [snd] in Hg.
    destruct r, r'; try discriminate Hg; cbn; rewrite ?Hf; by destruct (tk_first t).
Qed.

Lemma Ref_run es : Ref (run Task_new es).1 (run Task_new es).2.
Proof.
  induction es as [|e es IH] using rev_ind; [done|]. rewrite run_snoc. cbn [fst snd].
  destruct (run Task_new es) as [t log]. cbn [fst snd] in *. unfold Connector.turn.
  destruct (alive (tk_pc t)) eqn:Ha; [|by rewrite app_nil_r]. destruct e; cbn [fst snd]; rewrite ?app_nil_r.
  - apply (Ref_same t); [apply runner_pc|..|done]; unfold run_event_loop; by destruct (tk_runner t), (tk_chan t) as [|[]].
  - apply (Ref_same t); [apply returns_pc|..|done]; unfold loop_returns; by destruct (tk_runner t).
  - by apply Ref_reconnect.
  - by apply Ref_exit.
Qed.

(** C38: the client has one connection at a time, and comes back when it is lost. Over any
    turns of the task: while it lives, every connection but the last one made has ended, a
    connection is attempted only when all of them have, and a request goes to the last one or
    fails at once; when the last one ends after its handshake, three rounds of turns bring the
    task to the next attempt. What it tells the network manager is what the sequential loop
    says for the attempts it made: [FirstConnected] once and before any [Connected], then
    [Connected] for every handshake that succeeds; between attempts nothing is outstanding. *)
Theorem one_connection_at_a_time es a :
  let '(t, log) := run Task_new es in
  let n := successes secret (made secret log) in
  let cmds := (match n with O => [] | _ => [FirstConnected] end) ++ replicate n Connected in
  (exists more, cmds = tk_told t ++ more /\
     match tk_pc t with SendFirst | SendSecond | Sleeping | Connecting => more = [] | _ => True end) /\
  (alive (tk_pc t) = true ->
     (forall i l, tk_links t !! i = Some l -> ended l \/ (S i = length (tk_links t) /\ lk_connected l = true)) /\
     (tk_pc t = Connecting -> Forall ended (tk_links t)) /\
     (forall i, tk_conn t = Some i -> is_connected_link t i = true -> S i = length (tk_links t)) /\
     (Forall ended (tk_links t) -> match tk_pc t with SendFirst | SendSecond | Sleeping => True | _ => False end ->
        exists k, (k <= 3)%nat /\ tk_pc (run t (rounds a k)).1 = Connecting)).
Proof.
  pose proof (Inv_run es) as HI. pose proof (Ref_run es) as HR. destruct (run Task_new es) as [t log]. cbn [fst snd] in *.
  pose proof (reconnect_reports secret log) as Hrep. unfold Ref in HR.
  destruct (reconnect secret ClientLoop_new log) as [[st cmds] e]. destruct Hrep as (<- & _). split; [|intros Ha; split_and!].
  - destruct (tk_pc t) eqn:Hpc; try (destruct HR as (_ & -> & _); unfold pending; rewrite Hpc; by eexists).
    destruct HR as [more ->]. by exists more.
  - intros i l Hl. destruct (Inv_last t HI Ha i l Hl) as [?|(? & ? & _)]; auto.
  - intros Hpc. unfold Inv in HI. rewrite Hpc in HI. apply HI.
  - intros i _ Hc. unfold is_connected_link in Hc. destruct (tk_links t !! i) as [l|] eqn:Hl; [|done].
    destruct (Inv_last t HI Ha i l Hl) as [->|(? & _)]; done.
  - intros Hend Hpc. apply quiet_reconnects; [by apply Inv_quiet|done].
Qed.
End Proofs.

(** ** Witness: a connection that is made, used and lost *)
Section Witness.
#[local] Existing Instance Secret.ToySecret.lib.

Definition toy_secret : Secret.VlinkStaticSecret := Secret.generate (Secret.toy_random x41).
Definition toy_info : ToClient unit :=
  mkToClient 1 (Some (TcRespServerInfo (mkRespServerInfo "1.0.0" (Secret.base64_encode (Secret.toy_random x42)) None))).
Definition toy_good : Attempt (E := unit) :=
  mkAttempt true (Some toy_info) [Some (mkToClient 1 (Some (TcRespHandshake true None)))] true.
Definition toy_go : Turn (E := unit) := Reconnect toy_good true.
Definition toy_turns : list (Turn (E := unit)) :=
  [toy_go; Runner; toy_go; Runner; toy_go; toy_go; Runner; toy_go; toy_go; toy_go; toy_go; toy_go; toy_go; LoopReturns].
Lemma one_connection_at_a_time_witness :
  let t := (run toy_secret Task_new toy_turns).1 in
  tk_pc t = SendSecond /\ tk_links t = [mkLink Ended false] /\ tk_told t = [FirstConnected; Connected] /\
  exists k, (k <= 3)%nat /\ tk_pc (run toy_secret t (rounds toy_good k)).1 = Connecting.
Proof.
  pose proof (one_connection_at_a_time toy_secret toy_turns toy_good) as Ht.
  destruct (run toy_secret Task_new toy_turns) as [t log] eqn:Hrun.
  assert (tk_pc t = SendSecond /\ tk_links t = [mkLink Ended false] /\ tk_told t = [FirstConnected; Connected]) as (Hp & Hl & Hd).
  { change t with (t, log).1. rewrite <- Hrun. vm_compute. auto. }
  cbn [fst]. split; [exact Hp|]. split; [exact Hl|]. split; [exact Hd|]. destruct Ht as [_ Ht]. rewrite Hp, Hl in Ht.
  destruct (Ht eq_refl) as (_ & _ & _ & Hk). apply Hk; [|exact I]. apply Forall_cons. split; [reflexivity|constructor].
Defined.
End Witness.
End Connector.
