(* ===== verification/Join.v ===== *)
(** * Joining a network

    The client of [Vlinkd] and [Daemon] against the server of [Headlink]: connecting, the
    handshake, the configuration and the announcement, with any events of other connections
    in between. The first part shows what an event of one connection cannot do to another;
    the second composes the two sides. *)

From S2P Require Import Prelude Bytes Abi Secret Headlink Vlinkd Daemon.
#[local] Open Scope Z_scope.

Module Join.
Import Headlink.

Section Apart.
Context `{Ipv4NetworkLib}.

(** A peer is online through connection [j]: the server sends it what it broadcasts. *)
Definition online_at (s : Server) (j : nat) : Prop :=
  exists nid n k p i, networks s !! nid = Some n /\ peers n !! k = Some p /\ online_info p = Some i /\ connect i = j.

(** The address of a peer of a cached network, if it is known and has one. Cached peers stay,
    and so do their addresses. *)
Definition ip_at (s : Server) (nid : Z) (k : string) : option (option string) :=
  ms ← models s !! nid; m ← ms !! k; Some (pm_ip m).
(** What no event changes of the database: all but the addresses of peers. *)
Definition static (d : Db) : bool * list NetworkModel * list (string * Z) :=
  (db_up d, t_networks d, (fun r => (pm_pub_key r, pm_network_id r)) <$> t_peers d).
(** A cached network has its models under their keys, and every row of the network. *)
Record cached (s : Server) : Prop := mkCached {
  ca_keys nid ms k m : models s !! nid = Some ms -> ms !! k = Some m -> pm_pub_key m = k;
  ca_rows nid ms k : models s !! nid = Some ms -> (k, nid) ∈ (static (db s)).2 -> is_Some (ms !! k);
}.
Definition grows (s s' : Server) : Prop :=
  cached s -> cached s' /\
  forall nid k v, ip_at s nid k = Some v -> exists v', ip_at s' nid k = Some v' /\ (v <> None -> v' = v).
Lemma keeps_grows s s' : models s' = models s -> static (db s') = static (db s) -> grows s s'.
Proof. intros Hm Hd [H1 H2]. split; [split; by rewrite Hm, ?Hd|]. unfold ip_at. rewrite Hm. eauto. Qed.
Lemma grows_trans s1 s2 s3 : grows s1 s2 -> grows s2 s3 -> grows s1 s3.
Proof.
  intros H1 H2 Hk. destruct (H1 Hk) as [Hk2 Hi1], (H2 Hk2) as [Hk3 Hi2]. split; [done|]. intros nid k v Hv.
  destruct (Hi1 _ _ _ Hv) as (v1 & Hv1 & E1), (Hi2 _ _ _ Hv1) as (v2 & Hv2 & E2). exists v2. split; [done|].
  intros Hn. rewrite E2; [auto|]. rewrite E1; auto.
Qed.

(** What connection [c] does leaves the others apart: messages go to [c] and to peers that
    were online, no connection but [c] comes online, and a connection that is not online is
    not touched. *)
Record apart (c : nat) (s s' : Server) (out : list Out) : Prop := mkApart {
  ap_out j m : (j, m) ∈ out -> j = c \/ online_at s j;
  ap_online j : online_at s' j -> j = c \/ online_at s j;
  ap_conns j : j <> c -> ~ online_at s j -> conns s' !! j = conns s !! j;
  ap_static : static (db s') = static (db s);
  ap_grows : grows s s';
}.

Lemma apart_refl c s : apart c s s [].
Proof. split; try done; auto; [intros ? ? []%elem_of_nil|by apply keeps_grows]. Qed.
Lemma apart_trans c s1 s2 s3 o1 o2 : apart c s1 s2 o1 -> apart c s2 s3 o2 -> apart c s1 s3 (o1 ++ o2).
Proof.
  intros [A1 A2 A3 A4 A5] [B1 B2 B3 B4 B5]. split; [..|congruence|by eapply grows_trans].
  - intros j m [?|[?|?%A2]%B1]%elem_of_app; eauto.
  - intros j [?|?%A2]%B2; eauto.
  - intros j Hj Hn. rewrite B3, A3; [done..|]. intros [?|?]%A2; done.
Qed.
Lemma apart_trans_nil c s1 s2 s3 o : apart c s1 s2 [] -> apart c s2 s3 o -> apart c s1 s3 o.
Proof. apply apart_trans. Qed.
Lemma apart_end c s1 s2 s3 o : apart c s1 s2 o -> apart c s2 s3 [] -> apart c s1 s3 o.
Proof. intros H1 H2. rewrite <- (app_nil_r o). by eapply apart_trans. Qed.

(** Only what belongs to [c] changes. *)
Lemma apart_self c s s' : networks s' = networks s -> static (db s') = static (db s) ->
  (forall j, j <> c -> conns s' !! j = conns s !! j) -> apart c s s' [].
Proof.
  intros Hn Hd Hc. split; [by intros ? ? []%elem_of_nil|..|auto|done|apply keeps_grows; [unfold models; by rewrite Hn|done]].
  intros j. unfold online_at. rewrite Hn. auto.
Qed.
Lemma apart_send c s j id data : j = c \/ online_at s j -> apart c s (send s j id data).1.1 (send s j id data).1.2.
Proof.
  intros Hj. unfold send. destruct (conns s !! j) as [k|]; [|apply apart_refl].
  destruct (phase k); try apply apart_refl; destruct (to_client_id _ _) as [n u]; cbn [fst snd];
    (split; [..|done|by apply keeps_grows]; [by intros j' m [= -> _]%list_elem_of_singleton|by auto|]);
    intros j' Hne Hn; cbn; rewrite lookup_insert_ne; [done|by intros ->; destruct Hj|done|by intros ->; destruct Hj].
Qed.
Lemma online_conns_at s nid n pr j : networks s !! nid = Some n -> j ∈ online_conns pr n -> online_at s j.
Proof.
  intros Hn [[k p] [Hkp Hj]]%list_elem_of_omap. destruct (pr k p); [|done].
  apply fmap_Some in Hj as (i & Hi & ->). apply elem_of_map_to_list in Hkp. by exists nid, n, k, p, i.
Qed.
Lemma apart_broadcast_by c s nid n data pr : networks s !! nid = Some n ->
  apart c s (broadcast_by s n data pr).1 (broadcast_by s n data pr).2.
Proof.
  intros Hn. unfold broadcast_by, send_each.
  assert (forall j, j ∈ online_conns pr n -> online_at s j) as Hon by (intros; by eapply online_conns_at).
  assert (forall acc, networks acc.1 = networks s -> apart c s acc.1 acc.2 ->
    let r := foldl (send_one data) acc (online_conns pr n) in apart c s r.1 r.2) as Hf.
  { induction (online_conns pr n) as [|j cs IH]; intros acc Hacc Ha; cbn [foldl]; [done|].
    assert (online_at acc.1 j) as Hj.
    { destruct (Hon j ltac:(set_solver)) as (nid' & n' & Hj). exists nid', n'. by rewrite Hacc. }
    pose proof (apart_send c acc.1 j None data (or_intror Hj)) as Hs.
    pose proof (send_frame acc.1 j None data) as (Hnet & _).
    apply IH; [set_solver|..]; unfold send_one; destruct (send _ _ _ _) as [[s1 o] r]; cbn [fst snd] in *; [congruence|].
    by eapply apart_trans. }
  apply (Hf (s, [])); [done|apply apart_refl].
Qed.
Lemma apart_broadcast_to c s nid n data inc : networks s !! nid = Some n ->
  apart c s (broadcast_to s n data inc).1 (broadcast_to s n data inc).2.
Proof. intros Hn. unfold broadcast_to. destruct inc; [apply apart_refl|]. by eapply apart_broadcast_by. Qed.

(** A network is rewritten: whoever is online in the new one is [c], or was online before. *)
Lemma apart_network c s nid n' :
  (forall k p i, peers n' !! k = Some p -> online_info p = Some i -> connect i = c \/ online_at s (connect i)) ->
  grows s (with_networks s (<[nid := n']> (networks s))) ->
  apart c s (with_networks s (<[nid := n']> (networks s))) [].
Proof.
  intros Hn' Hg. split; [by intros ? ? []%elem_of_nil|..|done|done|done].
  intros j (nid1 & n1 & k & p & i & Hl & Hp & Hi & <-). cbn in Hl.
  apply lookup_insert_Some in Hl as [[-> ->]|[_ Hl]]; [by eapply Hn'|]. right. by exists nid1, n1, k, p, i.
Qed.
Lemma Peers_new_has rows r : r ∈ rows -> is_Some (Peers_new (VlinkPeer_from <$> rows) !! pm_pub_key r).
Proof.
  unfold Peers_new. assert (forall m : gmap string VlinkPeer, r ∈ rows \/ is_Some (m !! pm_pub_key r) ->
    is_Some (foldl (fun m p => <[pm_pub_key (model p) := p]> m) m (VlinkPeer_from <$> rows) !! pm_pub_key r)) as Hf; [|auto].
  induction rows as [|x rows IH]; intros m; cbn [foldl fmap list_fmap]; [by intros [[]%elem_of_nil|?]|].
  rewrite elem_of_cons. intros Hor. apply IH. cbn [model VlinkPeer_from]. rewrite lookup_insert_is_Some.
  destruct (decide (pm_pub_key x = pm_pub_key r)); [by auto|]. destruct Hor as [[->|?]|?]; auto.
Qed.
Lemma apart_get_network c s nid s' r : get_network s nid = (s', r) ->
  apart c s s' [] /\ (forall n, r = Ok n -> networks s' !! nid = Some n) /\ conns s' = conns s /\ db s' = db s.
Proof.
  unfold get_network. destruct (networks s !! nid) as [n|] eqn:Hn.
  { intros [= <- <-]. split; [apply apart_refl|]. split; [by intros ? [= <-]|done]. }
  destruct (negb _); [intros [= <- <-]; split; [apply apart_refl|done]|].
  destruct (list_find _ _) as [[i row]|] eqn:Hf; [|intros [= <- <-]; split; [apply apart_refl|done]].
  destruct (cidr_from_str _) as [cd|]; [|intros [= <- <-]; split; [apply apart_refl|done]]. intros [= <- <-].
  split; [|split; [intros ? [= <-]; cbn; by rewrite lookup_insert_eq|done]].
  apply apart_network; [cbn; by intros k p o (x & _ & -> & _)%Peers_new_lookup|]. intros [Hk Hr].
  assert (models s !! nid = None) as Hnone by (unfold models; by rewrite lookup_fmap, Hn).
  apply list_find_Some in Hf as (_ & Hrow & _). cbn in Hrow.
  split; [split; unfold models; cbn [networks with_networks db]; rewrite fmap_insert; fold (models s)|
    unfold ip_at, models; cbn [networks with_networks]; rewrite fmap_insert; fold (models s)].
  - intros nid' ms k m [[<- <-]|[_ Hms]]%lookup_insert_Some; [|by apply (Hk nid' ms)].
    rewrite lookup_fmap, fmap_Some. cbn [peers]. by intros (p & (r & _ & -> & Hpk)%Peers_new_lookup & ->).
  - intros nid' ms k [[<- <-]|[_ Hms]]%lookup_insert_Some; [|by apply (Hr nid' ms)].
    intros (r & Hr1 & Hr2)%list_elem_of_fmap. injection Hr1 as -> Hnid. rewrite lookup_fmap, fmap_is_Some. cbn [peers].
    apply Peers_new_has, list_elem_of_filter. split; [congruence|done].
  - intros nid' k v Hv. exists v. split; [|done]. rewrite lookup_insert_ne; [done|]. intros <-. by rewrite Hnone in Hv.
Qed.
Lemma apart_set_phase c s p : apart c s (set_phase s c p) [].
Proof. apply apart_self; [done..|]. intros j Hj. cbn. by rewrite lookup_alter_ne. Qed.
Lemma apart_offline c s nid n k : networks s !! nid = Some n -> apart c s (offline s nid n k).1 (offline s nid n k).2.
Proof.
  intros Hn. unfold offline. eapply apart_trans_nil; [apply (apart_network c s nid (with_peers n (Peers_offline (peers n) k)))|].
  - cbn [peers with_peers]. intros k' p i Hp Hi. unfold Peers_offline in Hp. destruct (decide (k' = k)) as [->|].
    + rewrite lookup_alter_eq in Hp. destruct (peers n !! k); [|done]. by injection Hp as <-.
    + rewrite lookup_alter_ne in Hp by done. right. by exists nid, n, k', p, i.
  - apply keeps_grows; [|done]. eapply insert_network_keeps; [done|]. apply offline_models.
  - apply (apart_broadcast_by c _ nid). cbn. by rewrite lookup_insert_eq.
Qed.

(** ** Every event of a connection *)

(** [send] by the connection itself, with what was sent before. *)
Ltac apart_send_tac c :=
  match goal with |- context [send ?s c ?id ?d] =>
    let Hs := fresh "Hs" in pose proof (apart_send c s c id d (or_introl eq_refl)) as Hs;
    destruct (send s c id d) as [[? ?] ?]; cbn [fst snd] in Hs |- * end.

Lemma apart_set_client_id c s id : apart c s (set_client_id s c id).1 [].
Proof.
  unfold set_client_id. destruct (conns s !! c) as [k|]; [|apply apart_refl]. destruct (client_id k); [apply apart_refl|].
  apply apart_self; [done..|]. intros j Hj. cbn. by rewrite lookup_insert_ne.
Qed.
Lemma apart_handshake_network c s r : apart c s (handshake_network s r).1 [].
Proof.
  unfold handshake_network. destruct (rh_token r).
  - destruct (negb _); [apply apart_refl|]. destruct (list_find _ _) as [[i t]|]; [|apply apart_refl].
    destruct (nt_disabled t); [apply apart_refl|].
    destruct (get_network s (nt_network_id t)) as [s1 n] eqn:Hg. by apply (apart_get_network c) in Hg as [? _].
  - destruct (negb _); [apply apart_refl|]. destruct (list_find _ _) as [[? ?]|]; apply apart_refl.
Qed.
Lemma apart_handshake0 c s data : apart c s (handshake0 s c data).1 [].
Proof.
  unfold handshake0. destruct data as [[r| | | | | | | | |]|]; try apply apart_refl.
  pose proof (apart_handshake_network c s r) as H1.
  destruct (handshake_network s r) as [s1 [nid| |]]; cbn [fst] in *; [|exact H1..].
  pose proof (apart_trans _ _ _ _ _ _ H1 (apart_set_client_id c s1 (mkClientId (rh_pub_key r) nid))) as H2.
  destruct (set_client_id _ _ _) as [s2 [?| |]]; cbn [fst] in *; [|exact H2..].
  destruct (get_network s2 nid) as [s3 n] eqn:Hg. apply (apart_get_network c) in Hg as [H3 _].
  pose proof (apart_trans _ _ _ _ _ _ H2 H3) as H4. destruct n as [n| |]; [|exact H4..].
  destruct (peers n !! _) as [p|]; [|exact H4]. by destruct (is_online p).
Qed.

Lemma apart_PeerEnter c s cid r : apart c s (PeerEnter_execute s c cid r).1.1 (PeerEnter_execute s c cid r).1.2.
Proof.
  unfold PeerEnter_execute. destruct (get_network s _) as [s1 n] eqn:Hg.
  apply (apart_get_network c) in Hg as (H1 & Hn & _). destruct n as [n| |]; [|exact H1..]. specialize (Hn n eq_refl).
  destruct (peers n !! ci_pub_key cid) as [p|] eqn:Hp; [|exact H1]. destruct (negb _); [exact H1|].
  set (info := mkOnlineInfo c _ _ _). set (n' := with_peers n _).
  assert (apart c s1 (with_networks s1 (<[ci_network_id cid := n']> (networks s1))) []) as H2.
  { apply apart_network.
    - unfold n'. cbn [peers with_peers]. intros k q i [[<- <-]|[_ Hq]]%lookup_insert_Some; [cbn; intros [= <-]; by left|].
      right. by exists (ci_network_id cid), n, k, q, i.
    - apply keeps_grows; [|done]. eapply insert_network_keeps; [done|]. by eapply insert_peer_models. }
  set (s2 := with_networks _ _) in *. set (data := TcPeerEnter _). unfold broadcast.
  pose proof (apart_broadcast_by c s2 (ci_network_id cid) n' data (fun k _ => bool_decide (ci_pub_key cid <> k))
    ltac:(cbn; by rewrite lookup_insert_eq)) as H3.
  destruct (broadcast_by _ _ _ _) as [s3 out]. eapply apart_trans_nil; [exact H1|]. by eapply apart_trans_nil.
Qed.
Lemma apart_ExtraEndpoint c s cid r : apart c s (ExtraEndpoint_execute s cid r).1.1 (ExtraEndpoint_execute s cid r).1.2.
Proof.
  unfold ExtraEndpoint_execute, ctx_network. destruct (networks s !! _) as [n|] eqn:Hn; [|apply apart_refl].
  destruct (peers n !! ci_pub_key cid) as [p|] eqn:Hp; [|apply apart_refl].
  set (online := _ <$> online_info p). set (n' := with_peers n _).
  assert (apart c s (with_networks s (<[ci_network_id cid := n']> (networks s))) []) as H2.
  { apply apart_network.
    - unfold n'. cbn [peers with_peers]. intros k q i [[<- <-]|[_ Hq]]%lookup_insert_Some Hi; right.
      + cbn in Hi. unfold online in Hi. apply fmap_Some in Hi as (i0 & Hi0 & ->). by exists (ci_network_id cid), n, (ci_pub_key cid), p, i0.
      + by exists (ci_network_id cid), n, k, q, i.
    - apply keeps_grows; [|done]. eapply insert_network_keeps; [done|]. by eapply insert_peer_models. }
  match goal with |- context [broadcast_to ?a ?b ?d ?e] =>
    pose proof (apart_broadcast_to c a (ci_network_id cid) b d e ltac:(cbn; by rewrite lookup_insert_eq)) as H3;
    destruct (broadcast_to a b d e) as [s3 out] end.
  by eapply apart_trans_nil.
Qed.
Lemma update_ip_static d id ip d' : update_ip d id ip = Some d' -> static d' = static d.
Proof.
  unfold update_ip. destruct (db_up d) eqn:Hup; cbn [andb]; [|done]. destruct (existsb _ _); [|done]. intros [= <-].
  unfold static. cbn. rewrite Hup. f_equal. rewrite <- list_fmap_compose. apply list_fmap_ext. intros _ x _. cbn.
  unfold updated. by destruct (_ =? _).
Qed.
Lemma apart_config_store c s cid p n :
  networks s !! ci_network_id cid = Some n -> peers n !! ci_pub_key cid = Some (self_peer p) ->
  (generated p = true -> pm_ip (model (self_peer p)) = None) -> apart c s (config_store s cid p).1 [].
Proof.
  intros Hnet Hself Hgen.
  unfold config_store. destruct (generated p); [specialize (Hgen eq_refl)|apply apart_refl].
  destruct (update_ip _ _ _) as [d|] eqn:Hu; [|apply apart_refl]. pose proof (update_ip_static _ _ _ _ Hu) as Hst.
  assert (grows s (with_networks (with_db s d) (alter (fun n => with_peers n (refresh_model (peers n)
    (set_ip (model (self_peer p)) (ipv4_to_string (plan_addr p))))) (ci_network_id cid) (networks s)))) as Hgr.
  { intros [Hk Hr]. pose proof (Hk _ _ _ _ (models_lookup _ _ _ Hnet) ltac:(by rewrite lookup_fmap, Hself)) as Hpk.
    split; [split; rewrite (store_models s d _ n (ci_pub_key cid)) by (done || by eexists)|
      unfold ip_at; rewrite (store_models s d _ n (ci_pub_key cid)) by (done || by eexists)].
    - intros nid ms k m [[<- <-]|[_ Hms]]%lookup_insert_Some; [|by apply (Hk nid ms)].
      intros [[<- <-]|[_ Hm]]%lookup_insert_Some; [done|]. eapply Hk; [by apply models_lookup|done].
    - intros nid ms k Hms. change (db (with_networks _ _)) with d. rewrite Hst. revert Hms.
      intros [[<- <-]|[_ Hms]]%lookup_insert_Some Hin; [|by eapply Hr].
      rewrite lookup_insert_is_Some. destruct (decide (ci_pub_key cid = k)); [by left|right]. split; [done|].
      eapply Hr; [by apply models_lookup|done].
    - intros nid k v Hv. destruct (decide (nid = ci_network_id cid)) as [->|Hne].
      + rewrite lookup_insert_eq. rewrite (models_lookup _ _ _ Hnet) in Hv. cbn [mbind option_bind] in *.
        destruct (decide (k = ci_pub_key cid)) as [->|Hnk]; [|rewrite lookup_insert_ne by done; by exists v].
        rewrite lookup_insert_eq. rewrite lookup_fmap, Hself in Hv. cbn in Hv. rewrite Hgen in Hv. injection Hv as <-.
        eexists. split; [done|]. done.
      + rewrite lookup_insert_ne by done. by exists v. }
  split; [by intros ? ? []%elem_of_nil|..|done|done|done].
  intros j (nid & n1 & k & q & i & Hn & Hq & Hi & <-). right. cbn [fst networks with_networks with_db] in Hn.
  apply lookup_alter_Some in Hn as [(<- & n0 & Hn0 & ->)|[_ Hn]]; [|by exists nid, n1, k, q, i].
  cbn [peers with_peers] in Hq. unfold refresh_model in Hq.
  apply lookup_alter_Some in Hq as [(Hk & q0 & Hq0 & ->)|[_ Hq]]; [|by exists (ci_network_id cid), n0, k, q, i].
  by exists (ci_network_id cid), n0, k, q0, i.
Qed.
(** A plan is about the peer that asks, and generates an address only when it has none. *)
Lemma plan_self (n : VlinkNetwork) k (ps : list BcPeerEnter) p :
  (self ← ok_or PeerNotFound (peers n !! k);
   match pm_ip (model self) with
   | None => a ← map_err AnyhowError (generate_ip (cidr n) (peers n)); Ok (mkConfigPlan self ps a true)
   | Some e => a ← ok_or ParseError (ipv4_from_str e); Ok (mkConfigPlan self ps a false)
   end) = Ok p ->
  peers n !! k = Some (self_peer p) /\ (generated p = true -> pm_ip (model (self_peer p)) = None).
Proof.
  intros Hp. apply bind_Ok_inv in Hp as (self & Hself & Hp). destruct (peers n !! k) as [q|]; [|done]. injection Hself as ->.
  destruct (pm_ip (model self)) eqn:Hi; apply bind_Ok_inv in Hp as (a & _ & [= <-]); done.
Qed.
Lemma apart_ReqConfig c s id cid : apart c s (ReqConfig_execute s c id cid).1.1 (ReqConfig_execute s c id cid).1.2.
Proof.
  unfold ReqConfig_execute, config_plan. destruct (get_network s _) as [s1 n] eqn:Hg.
  apply (apart_get_network c) in Hg as (H1 & Hn & _). destruct n as [n| |]; [|exact H1..]. specialize (Hn n eq_refl).
  destruct (_ ≫= _) as [p| |] eqn:Hp; [|exact H1..]. apply plan_self in Hp as [Hself Hgen]. unfold config_commit.
  pose proof (apart_trans _ _ _ _ _ _ H1 (apart_config_store c s1 cid p n Hn Hself Hgen)) as H2.
  destruct (config_store s1 cid p) as [s2 [?| |]]; cbn [fst] in H2; [|exact H2..].
  destruct (ctx_network s2 cid) as [n2|]; [|exact H2]. unfold config_reply. destruct (negb _); [exact H2|].
  apart_send_tac c. by eapply apart_trans_nil.
Qed.

Lemma apart_dispatch c s id cid data : apart c s (dispatch s c id cid data).1.1 (dispatch s c id cid data).1.2.
Proof.
  destruct data as [| |r|r| | | | |r|r]; cbn [dispatch]; try apply apart_refl.
  - apply apart_ReqConfig.
  - unfold PeerForward_execute, ctx_network. destruct (networks s !! _) as [n|] eqn:Hn; [|apply apart_refl].
    destruct (pf_data r) as [[q]|]; [|apply apart_refl].
    pose proof (apart_broadcast_to c s _ n (TcRequireReply q) [pf_target_pub_key r] Hn) as Hb. by destruct (broadcast_to _ _ _ _).
  - apply apart_PeerEnter.
  - unfold PeerLeave_execute, ctx_network. destruct (networks s !! _) as [n|] eqn:Hn; [|apply apart_refl].
    pose proof (apart_offline c s _ n (ci_pub_key cid) Hn) as Hk. by destruct (offline _ _ _ _).
  - apply apart_ExtraEndpoint.
  - unfold DevHandshakeComplete_execute, ctx_network. destruct (networks s !! _) as [n|] eqn:Hn; [|apply apart_refl].
    destruct (union_pub_key _ _). apply apart_network; [cbn; intros k p i Hp Hi; right; by exists (ci_network_id cid), n, k, p, i|].
    apply keeps_grows; [|done]. by eapply insert_network_keeps.
Qed.

Definition conn_of (e : Event) : nat := match e with EvAccept c _ | EvRecv c _ | EvDisconnect c => c end.

(** An event of one connection leaves the others apart. *)
Lemma step_apart info s e : apart (conn_of e) s (step info s e).1 (step info s e).2.
Proof.
  destruct e as [c a|c m|c]; cbn [step conn_of].
  - destruct (conns s !! c) eqn:Hc; [apply apart_refl|]. unfold accept. apart_send_tac c. eapply apart_trans_nil; [|exact Hs].
    apply apart_self; [done..|]. intros j Hj. cbn. by rewrite lookup_insert_ne.
  - destruct (conns s !! c) as [k|]; [cbn [fmap option_fmap option_map]|apply apart_refl].
    destruct (phase k) as [|cid| |]; try apply apart_refl.
    + unfold await_handshake. pose proof (apart_handshake0 c s (to_server_data m)) as H1.
      destruct (handshake0 s c _) as [s1 [cid|e|]]; cbn [fst] in H1; [apart_send_tac c|apart_send_tac c|];
        (eapply apart_end; [|apply apart_set_phase]); [by eapply apart_trans_nil..|done].
    + unfold process_message. destruct (to_server_data m) as [data|]; [|apply apart_refl].
      pose proof (apart_dispatch c s (ts_id m) cid data) as H1.
      destruct (dispatch s c _ cid data) as [[s1 out] [?|e|]]; cbn [fst snd] in *; [done| |eapply apart_end; [exact H1|apply apart_set_phase]].
      apart_send_tac c. destruct o; [|eapply apart_end; [|apply apart_set_phase]]; by eapply apart_trans.
  - destruct (conns s !! c) as [k|]; [|apply apart_refl].
    assert (apart c s (disconnect s c (addr k)).1 (disconnect s c (addr k)).2) as Hd; [|destruct (phase k); [exact Hd..|apply apart_refl]].
    unfold disconnect. cbn [remove_client]. set (s0 := mkServer _ _ _ _).
    assert (apart c s s0 []) as H0 by (apply apart_self; [done..|]; intros j Hj; cbn; by rewrite lookup_alter_ne).
    destruct (_ ≫= _) as [cid|]; [|exact H0]. destruct (get_network s0 _) as [s1 n] eqn:Hg.
    apply (apart_get_network c) in Hg as (H1 & Hn & _). pose proof (apart_trans _ _ _ _ _ _ H0 H1) as H2.
    destruct n as [n| |]; [|exact H2..]. eapply apart_trans_nil; [exact H2|]. by apply apart_offline, Hn.
Qed.

Definition inbox (c : nat) (out : list Out) : list (ToClient ExecuteError) :=
  omap (fun '(j, m) => if decide (j = c) then Some m else None) out.
Lemma inbox_app c o1 o2 : inbox c (o1 ++ o2) = inbox c o1 ++ inbox c o2.
Proof. apply omap_app. Qed.

Lemma run_cons info s e es : run info s (e :: es) =
  let '(s1, o1) := step info s e in let '(s2, o2) := run info s1 es in (s2, o1 ++ o2).
Proof.
  unfold run. cbn [foldl]. destruct (step info s e) as [s1 o1]. cbn [app].
  assert (forall es s o o', foldl (fun '(s, out) e => let '(s, o) := step info s e in (s, out ++ o)) (s, o ++ o') es =
    let '(s2, o2) := foldl (fun '(s, out) e => let '(s, o) := step info s e in (s, out ++ o)) (s, o') es in (s2, o ++ o2)) as Hg.
  { clear. intros es. induction es as [|e es IH]; intros s o o'; cbn [foldl]; [done|]. destruct (step info s e) as [s1 o1].
    rewrite <- app_assoc. apply IH. }
  rewrite <- (app_nil_r o1) at 1. apply Hg.
Qed.

(** A connection that is not online hears nothing of the others and is left as it is. *)
Lemma run_apart info c es : forall s, ~ online_at s c -> Forall (fun e => conn_of e <> c) es ->
  let '(s', out) := run info s es in
  inbox c out = [] /\ ~ online_at s' c /\ conns s' !! c = conns s !! c /\ static (db s') = static (db s) /\ grows s s'.
Proof.
  induction es as [|e es IH]; intros s Hc Hes; [split_and!; [done..|by apply keeps_grows]|]. apply Forall_cons in Hes as [He Hes]. rewrite run_cons.
  pose proof (step_apart info s e) as [A1 A2 A3 A4 A5]. destruct (step info s e) as [s1 o1]. cbn [fst snd] in *.
  assert (~ online_at s1 c) as Hc1 by (by intros [?|?]%A2).
  specialize (IH s1 Hc1 Hes). destruct (run info s1 es) as [s2 o2]. destruct IH as (I1 & I2 & I3 & I4 & I5).
  rewrite inbox_app, I1, app_nil_r. split_and!; [|done|rewrite I3; by apply A3|congruence|by eapply grows_trans].
  destruct (inbox c o1) as [|m l] eqn:Ho; [done|]. assert (m ∈ inbox c o1) as Hm by (rewrite Ho; left).
  apply list_elem_of_omap in Hm as ([j m'] & Hin & Hj). case_decide as Hd; [|done]. subst j.
  by destruct (A1 c m' Hin) as [?|?].
Qed.

(** ** The four steps of a client *)

Lemma send_open_spec s c k id data : conns s !! c = Some k -> match phase k with Closing | Closed => False | _ => True end ->
  let '(n, use_id) := to_client_id (last_id k) id in
  send s c id data = (with_conns s (<[c := mkConn (addr k) (client_id k) n (phase k)]> (conns s)),
    [(c, mkToClient use_id (Some data))], Some n).
Proof. intros Hc Hp. unfold send. rewrite Hc. by destruct (to_client_id _ _), (phase k). Qed.
Lemma inbox_self c (m : ToClient ExecuteError) : inbox c [(c, m)] = [m].
Proof. unfold inbox. cbn. by rewrite decide_True. Qed.

Lemma accept_step info s c a : conns s !! c = None ->
  exists s', step info s (EvAccept c a) = (s', [(c, mkToClient 1 (Some (TcRespServerInfo info)))]) /\
    conns s' !! c = Some (mkConn a None 1 AwaitHandshake) /\ networks s' = networks s /\ db s' = db s.
Proof.
  intros Hc. cbn [step]. rewrite Hc. unfold accept.
  set (s0 := insert_client _ _ _). pose proof (send_open_spec s0 c (mkConn a None 0 AwaitHandshake) None (TcRespServerInfo info)
    ltac:(cbn; by rewrite lookup_insert_eq) I) as ->. eexists. split; [done|]. cbn. by rewrite lookup_insert_eq.
Qed.

(** The network of a registered peer can be had, with the peer in it. *)
Definition available (d : Db) (key : string) (nid : Z) : Prop :=
  db_up d = true /\
  (exists i row, list_find (fun r => pm_pub_key r = key) (t_peers d) = Some (i, row) /\ pm_network_id row = nid) /\
  (exists i row, list_find (fun r => nm_network_id r = nid) (t_networks d) = Some (i, row) /\ cidr_from_str (nm_cidr row) <> None).
Lemma available_static d d' key nid : static d' = static d -> available d key nid -> available d' key nid.
Proof.
  unfold static, available. intros [= -> -> Hrows] (Hup & (i & row & Hf & Hn) & Hnet). split_and!; [done| |done].
  assert (list_find (fun x => x.1 = key) ((fun r => (pm_pub_key r, pm_network_id r)) <$> t_peers d) = Some (i, (pm_pub_key row, nid))) as Hx.
  { rewrite list_find_fmap. unfold compose. cbn. setoid_rewrite Hf. cbn. by rewrite Hn. }
  rewrite <- Hrows, list_find_fmap in Hx. apply fmap_Some in Hx as ([i' row'] & Hx & [= <- Hk Hn']).
  exists i, row'. split; [exact Hx|done].
Qed.
Lemma available_network s key nid : cached s -> available (db s) key nid ->
  exists s' n p, get_network s nid = (s', Ok n) /\ networks s' !! nid = Some n /\ peers n !! key = Some p.
Proof.
  intros Hca (Hup & (i & row & Hf & Hn) & (i' & row' & Hf' & Hcd)).
  assert (exists s' n, get_network s nid = (s', Ok n)) as (s' & n & Hg).
  { unfold get_network. destruct (networks s !! nid) as [n|]; [by eauto|]. rewrite Hup, Hf'. cbn [negb].
    destruct (cidr_from_str _); [by eauto|done]. }
  pose proof (apart_get_network 0 _ _ _ _ Hg) as ([_ _ _ _ Hgr] & Hnet & _ & Hdb).
  specialize (Hnet n eq_refl). destruct (Hgr Hca) as [Hca' _].
  destruct (ca_rows s' Hca' nid (model <$> peers n) key) as [m Hm]; [by apply models_lookup|..].
  - rewrite Hdb. apply list_elem_of_fmap. exists row. apply list_find_Some in Hf as (Hi & Hk & _).
    split; [cbn; by rewrite Hk, Hn|]. by eapply list_elem_of_lookup_2.
  - rewrite lookup_fmap in Hm. destruct (peers n !! key) as [p|] eqn:Hp; [|done]. by exists s', n, p.
Qed.

Definition hello_msg (key sign : string) : ToServerData := TsHandshake (mkReqHandshake 0 key None sign).
Lemma handshake_step info s c a key sign nid :
  conns s !! c = Some (mkConn a None 1 AwaitHandshake) -> cached s -> available (db s) key nid ->
  (forall n p, networks s !! nid = Some n -> peers n !! key = Some p -> is_online p = false) ->
  exists s' n p, step info s (EvRecv c (mkToServer 1 (Some (hello_msg key sign)))) =
      (s', [(c, mkToClient 1 (Some (TcRespHandshake true None)))]) /\
    conns s' !! c = Some (mkConn a (Some (mkClientId key nid)) 1 (Running (mkClientId key nid))) /\
    networks s' !! nid = Some n /\ peers n !! key = Some p /\ (online_at s' c -> online_at s c).
Proof.
  intros Hc Hca Hav Hoff. cbn [step]. rewrite Hc. cbn [fmap option_fmap option_map phase]. unfold await_handshake.
  cbn [to_server_data handshake0 hello_msg ts_id]. unfold handshake_network. cbn [rh_token rh_pub_key].
  pose proof Hav as (Hup & (i & row & Hf & Hn) & _). rewrite Hup, Hf, Hn. cbn [negb]. unfold set_client_id. rewrite Hc. cbn [client_id].
  set (sid := with_conns s _).
  assert (cached sid) as Hcs by (split; apply Hca).
  destruct (available_network sid key nid Hcs Hav) as (s1 & n & p & Hg & Hnet & Hp). rewrite Hg, Hp.
  pose proof (apart_get_network c _ _ _ _ Hg) as (_ & _ & Hcs1 & _).
  assert (is_online p = false) as ->.
  { unfold get_network in Hg. destruct (networks sid !! nid) as [n0|] eqn:Hn0.
    - injection Hg as <- <-. by apply (Hoff n0).
    - destruct (negb _); [done|]. destruct (list_find (fun r => nm_network_id r = nid) _) as [[i0 row0]|]; [|done].
      destruct (cidr_from_str (nm_cidr row0)); [|done]. injection Hg as <- <-. cbn in Hp. by apply Peers_new_lookup in Hp as (r & _ & -> & _). }
  pose proof (send_open_spec s1 c (mkConn a (Some (mkClientId key nid)) 1 AwaitHandshake) (Some 1) (TcRespHandshake true None)
    ltac:(rewrite Hcs1; cbn; by rewrite lookup_insert_eq) I) as Hs. cbn in Hs. rewrite Hs.
  eexists _, n, p. split; [done|]. split; [cbn; by rewrite lookup_alter_eq, lookup_insert_eq|]. split_and!; [done..|].
  intros Hon. pose proof (apart_get_network (S c) _ _ _ _ Hg) as ([_ Ho _ _ _] & _). by destruct (Ho c Hon) as [?|?]; [lia|].
Qed.

Lemma update_ip_ok s nid ms k m ip : Inv s -> db_up (db s) = true -> models s !! nid = Some ms -> ms !! k = Some m ->
  exists d, update_ip (db s) (pm_id m) ip = Some d.
Proof.
  intros HI Hup Hms Hm. destruct (inv_model s HI nid ms k m Hms Hm) as [_ (r & Hr & Hid & _)].
  unfold update_ip. rewrite Hup. cbn [andb].
  assert (existsb (fun r => pm_id r =? pm_id m) (t_peers (db s)) = true) as ->; [|by eexists].
  apply existsb_exists. exists r. split; [by apply list_elem_of_In|]. by apply Z.eqb_eq.
Qed.

(** The address of the plan is the peer's once the plan is stored. *)
Lemma config_store_ip s cid n plan : Inv s -> db_up (db s) = true ->
  networks s !! ci_network_id cid = Some n -> config_plan s cid = (s, Ok plan) ->
  exists s' n', config_store s cid plan = (s', Ok tt) /\ conns s' = conns s /\ db_up (db s') = true /\
    networks s' !! ci_network_id cid = Some n' /\
    ip_at s' (ci_network_id cid) (ci_pub_key cid) = Some (Some (ipv4_to_string (plan_addr plan))) /\
    forall c, online_at s' c -> online_at s c.
Proof.
  intros HI Hup Hn Hplan. assert (forall c, online_at (config_store s cid plan).1 c -> online_at s c) as Hoff.
  { intros c Hc. unfold config_plan, get_network in Hplan. rewrite Hn in Hplan. injection Hplan as Hp.
    destruct (plan_self n _ _ _ Hp) as [Hself Hgen].
    destruct (ap_online _ _ _ _ (apart_config_store (S c) s cid plan n Hn Hself Hgen) c Hc); [lia|done]. }
  unfold config_plan, get_network in Hplan. rewrite Hn in Hplan. injection Hplan as Hp.
  pose proof (plan_self n _ _ _ Hp) as [Hself Hgen].
  assert ((model <$> peers n) !! ci_pub_key cid = Some (model (self_peer plan))) as Hm by (by rewrite lookup_fmap, Hself).
  revert Hoff. unfold config_store. destruct (generated plan) eqn:Hg.
  - destruct (update_ip_ok s _ _ _ _ (ipv4_to_string (plan_addr plan)) HI Hup (models_lookup _ _ _ Hn) Hm) as [d Hd].
    rewrite Hd. intros Hoff. eexists _, _. split; [done|]. split; [done|]. split.
    { pose proof (update_ip_static _ _ _ _ Hd) as Hst. injection Hst as Hst _ _. cbn. congruence. }
    split; [cbn; by rewrite lookup_alter_eq, Hn|]. split; [|exact Hoff]. unfold ip_at.
    rewrite (store_models s d _ n (ci_pub_key cid)); [|done|by eexists|].
    + by rewrite lookup_insert_eq; cbn [mbind option_bind]; rewrite lookup_insert_eq.
    + apply (inv_model s HI _ _ _ _ (models_lookup _ _ _ Hn) Hm).
  - intros _. exists s, n. split_and!; try done. unfold ip_at. rewrite (models_lookup _ _ _ Hn). cbn [mbind option_bind]. rewrite Hm.
    cbn [mbind option_bind]. rewrite Hself in Hp. cbn [ok_or mbind res_bind] in Hp.
    destruct (pm_ip (model (self_peer plan))) as [e|] eqn:He; apply bind_Ok_inv in Hp as (a & Ha & [= Hp]); [|by rewrite <- Hp in Hg].
    destruct (ipv4_from_str e) as [a'|] eqn:Hi; [|done]. injection Ha as ->. apply ipv4_from_str_text in Hi as [Hi _].
    rewrite <- Hp. cbn. by rewrite Hi.
Qed.

Lemma config_step info s c a cid n plan :
  conns s !! c = Some (mkConn a (Some cid) 1 (Running cid)) -> Inv s -> db_up (db s) = true ->
  networks s !! ci_network_id cid = Some n -> config_plan s cid = (s, Ok plan) ->
  exists s' resp, step info s (EvRecv c (mkToServer 2 (Some TsReqConfig))) = (s', [(c, mkToClient 2 (Some (TcRespConfig resp)))]) /\
    conns s' !! c = conns s !! c /\ rc_address resp = plan_addr plan /\ rc_peers resp = plan_peers plan /\
    ip_at s' (ci_network_id cid) (ci_pub_key cid) = Some (Some (ipv4_to_string (plan_addr plan))) /\
    (online_at s' c -> online_at s c).
Proof.
  intros Hc HI Hup Hn Hplan. cbn [step]. rewrite Hc. cbn [fmap option_fmap option_map phase]. unfold process_message.
  cbn [to_server_data ts_id dispatch]. unfold ReqConfig_execute. rewrite Hplan. unfold config_commit.
  destruct (config_store_ip s cid n plan HI Hup Hn Hplan) as (s1 & n1 & Hst & Hcs & Hup1 & Hn1 & Hip & Hoff). rewrite Hst.
  unfold ctx_network. rewrite Hn1. unfold config_reply. rewrite Hup1. cbn [negb]. set (resp := mkRespConfig _ _ _ _ _ _ _ _ _).
  pose proof (send_open_spec s1 c (mkConn a (Some cid) 1 (Running cid)) (Some 2) (TcRespConfig resp) ltac:(congruence) I) as Hs.
  cbn in Hs. rewrite Hs. eexists _, resp. split; [done|]. split; [cbn; by rewrite lookup_insert_eq|]. split_and!; [done..|].
  apply Hoff.
Qed.

(** A broadcast reaches every online peer it is meant for whose connection is open. *)
Lemma broadcast_reaches s n data pr j : j ∈ online_conns pr n ->
  (exists k, conns s !! j = Some k /\ match phase k with Closing | Closed => False | _ => True end) ->
  exists id, (j, mkToClient id (Some data)) ∈ (broadcast_by s n data pr).2.
Proof.
  intros Hj Hk. unfold broadcast_by, send_each.
  assert (forall l acc, exists o, (foldl (send_one data) acc l).2 = acc.2 ++ o) as Hgrow.
  { clear. induction l as [|j l IH]; intros acc; cbn [foldl]; [exists []; by rewrite app_nil_r|].
    destruct (IH (send_one data acc j)) as [o ->]. unfold send_one. destruct (send _ _ _ _) as [[s1 o1] r].
    exists (o1 ++ o). cbn. by rewrite app_assoc. }
  assert (forall acc, (exists k, conns acc.1 !! j = Some k /\ match phase k with Closing | Closed => False | _ => True end) ->
    exists id, (j, mkToClient id (Some data)) ∈ (foldl (send_one data) acc (online_conns pr n)).2) as Hf; [|by apply (Hf (s, []))].
  induction (online_conns pr n) as [|i l IH]; [by apply elem_of_nil in Hj|]. intros acc (k & Hc & Hp). cbn [foldl].
  destruct (decide (i = j)) as [->|Hne].
  - destruct (Hgrow l (send_one data acc j)) as [o ->]. pose proof (send_open_spec acc.1 j k None data Hc Hp) as Hs.
    unfold send_one. destruct (to_client_id _ _) as [m id]. rewrite Hs. exists id. cbn. set_solver.
  - apply IH; [set_solver|]. pose proof (send_frame acc.1 i None data) as (_ & _ & _ & Hfr). specialize (Hfr j).
    unfold send_one. destruct (send acc.1 i None data) as [[s1 o1] r]. cbn [fst snd] in *. rewrite Hc in Hfr.
    destruct (conns s1 !! j) as [k1|]; [|done]. injection Hfr as _ _ Hph. exists k1. by rewrite Hph.
Qed.

Lemma enter_step info s c cid e a k last ip mid :
  conns s !! c = Some (mkConn a k last (Running cid)) -> ip_at s (ci_network_id cid) (ci_pub_key cid) = Some (Some ip) ->
  pe_ip e = ip ->
  let '(s', out) := step info s (EvRecv c (mkToServer mid (Some (TsPeerEnter e)))) in
  exists n n' p i, networks s !! ci_network_id cid = Some n /\ networks s' !! ci_network_id cid = Some n' /\
    peers n' !! ci_pub_key cid = Some p /\
    online_info p = Some i /\ connect i = c /\ oi_port i = pe_port e /\ oi_endpoint_addr i = pe_endpoint_addr e /\
    pm_ip (model p) = Some ip /\ models s' = models s /\
    forall k q j, k <> ci_pub_key cid -> peers n !! k = Some q -> online_info q = Some j ->
      (exists kc, conns s !! connect j = Some kc /\ match phase kc with Closing | Closed => False | _ => True end) ->
      exists id', (connect j, mkToClient id' (Some (TcPeerEnter (mkBcPeerEnter (ci_pub_key cid) ip (pe_endpoint_addr e)
        (pe_port e) None (ConnectionMode_i32 ModeBidirectional) true)))) ∈ out.
Proof.
  intros Hc Hip He. cbn [step]. rewrite Hc. cbn [fmap option_fmap option_map phase]. unfold process_message.
  cbn [to_server_data ts_id dispatch]. unfold PeerEnter_execute, get_network. unfold ip_at, models in Hip.
  rewrite lookup_fmap in Hip. destruct (networks s !! ci_network_id cid) as [n|] eqn:Hn; [|done]. cbn [fmap option_fmap option_map mbind option_bind] in Hip.
  rewrite lookup_fmap in Hip. destruct (peers n !! ci_pub_key cid) as [p|] eqn:Hp; [|done]. cbn in Hip. injection Hip as Hip.
  rewrite Hip. cbn [default from_option]. unfold id. rewrite He, String.eqb_refl. cbn [negb].
  set (info' := mkOnlineInfo c _ _ _). set (p' := mkVlinkPeer _ _ _). set (n' := with_peers n _).
  set (s1 := with_networks s _). set (data := TcPeerEnter _). unfold broadcast.
  pose proof (broadcast_by_frame s1 n' data (fun k _ => bool_decide (ci_pub_key cid <> k))) as (Hnet & _ & _ & _).
  pose proof (broadcast_by_keeps s1 n' data (fun k _ => bool_decide (ci_pub_key cid <> k))) as [Hkeep _].
  pose proof (broadcast_reaches s1 n' data (fun k _ => bool_decide (ci_pub_key cid <> k))) as Hreach.
  destruct (broadcast_by _ _ _ _) as [s2 out]. cbn [fst snd] in *.
  exists n, n', p', info'. split_and!; try done.
  - rewrite Hnet. cbn. by rewrite lookup_insert_eq.
  - unfold n'. cbn [peers with_peers]. by rewrite lookup_insert_eq.
  - etrans; [exact Hkeep|]. apply insert_network_keeps with n; [done|]. unfold n'. cbn [peers with_peers]. by eapply insert_peer_models.
  - intros k' q j Hne Hq Hj Hopen. apply Hreach; [|done]. unfold online_conns. apply list_elem_of_omap.
    exists (k', q). split; [|rewrite bool_decide_eq_true_2 by congruence; by rewrite Hj].
    apply elem_of_map_to_list. unfold n'. cbn [peers with_peers]. by rewrite lookup_insert_ne.
Qed.

Lemma run_grows info es : forall s, let s' := (run info s es).1 in static (db s') = static (db s) /\ grows s s'.
Proof.
  induction es as [|e es IH]; intros s; [split; [done|by apply keeps_grows]|]. rewrite run_cons.
  pose proof (step_apart info s e) as [_ _ _ A4 A5]. destruct (step info s e) as [s1 o1]. cbn [fst snd] in *.
  specialize (IH s1). destruct (run info s1 es) as [s2 o2]. cbn [fst] in *. destruct IH as [I1 I2].
  split; [congruence|by eapply grows_trans].
Qed.
Lemma run_keeps_Inv info s es : Inv s -> Inv (run info s es).1.
Proof. intros HI. by apply (run_Inv info es (s, [])). Qed.
Lemma not_online_new d c : ~ online_at (Server_new d) c.
Proof. intros (nid & n & k & p & i & Hn & _). cbn in Hn. by rewrite lookup_empty in Hn. Qed.
Lemma cached_new d : cached (Server_new d).
Proof. split; unfold models; cbn; intros nid ms; by rewrite fmap_empty, lookup_empty. Qed.
End Apart.

(** ** Both sides *)

Section Joining.
Context `{Ipv4NetworkLib, Secret.SecretLibs}.
#[local] Abbreviation error := (Vlinkd.Error ExecuteError).

(** The client's start against the server: it connects, shakes hands with the key and the
    signature for the server's key, asks for its configuration and announces the address it
    was given. Each request is sent, handled by the server, and answered from what arrives on
    the connection; [es1], [es2], [es3] are events of other connections in between. The result
    is the configuration, and the server before and after the announcement with what it sent. *)
Definition join (info : RespServerInfo) (secret : Secret.VlinkStaticSecret) (c : nat) (a : string) (es1 es2 es3 : list Event)
    (port : Z) (endpoint : option string) (extra : gmap string (option string)) (s : Server)
    : res error (RespConfig * Server * Server * list Out) :=
  let '(s, o) := run info s (EvAccept c a :: es1) in
  sign ← ok_or Vlinkd.BadPacket (Daemon.sign_for secret (head (inbox c o)));
  let param := Vlinkd.mkHandshakeParam (Secret.base64_pub secret) sign None in
  let conn := Vlinkd.mkClientConnect 0 true in
  let '(conn', msgs, _) := Vlinkd.handshake (E := ExecuteError) true conn param [] in
  let '(s, o) := run info s ((EvRecv c <$> msgs) ++ es2) in
  _ ← (Vlinkd.handshake true conn param (Some <$> inbox c o)).2;
  let '(conn'', msgs, _) := Vlinkd.VlinkClient_request (E := ExecuteError) true (Some conn') TsReqConfig [] in
  let '(s, o) := run info s ((EvRecv c <$> msgs) ++ es3) in
  resp ← (Vlinkd.VlinkClient_request true (Some conn') TsReqConfig (Some <$> inbox c o)).2;
  match resp with
  | TcRespConfig r =>
      let '(_, msgs, _) := Vlinkd.VlinkClient_send (E := ExecuteError) true conn''
        (Vlinkd.handler_connected (rc_address r) port endpoint extra) in
      let '(s', o) := run info s (EvRecv c <$> msgs) in
      Ok (r, s, s', o)
  | _ => Err Vlinkd.BadPacket
  end.

Definition open_conn (s : Server) (j : nat) : Prop :=
  exists k, conns s !! j = Some k /\ match phase k with Closing | Closed => False | _ => True end.

(** A step of the client, then events of others: what arrives on its connection. *)
Lemma turn_apart info c s e es s1 m : ~ online_at s1 c -> step info s e = (s1, [(c, m)]) ->
  Forall (fun e => conn_of e <> c) es ->
  let '(s', o) := run info s (e :: es) in
  s' = (run info s1 es).1 /\ inbox c o = [m] /\ ~ online_at s' c /\ conns s' !! c = conns s1 !! c /\
  static (db s') = static (db s1) /\ grows s1 s'.
Proof.
  intros Hc Hs Hes. rewrite run_cons, Hs. pose proof (run_apart info c es s1 Hc Hes) as Ha.
  destruct (run info s1 es) as [s2 o]. destruct Ha as (H1 & H2 & H3 & H4 & H5).
  split; [done|]. change ((c, m) :: o) with ([(c, m)] ++ o). rewrite inbox_app, inbox_self, H1. done.
Qed.

Lemma config_refused info s c a cid e :
  conns s !! c = Some (mkConn a (Some cid) 1 (Running cid)) -> config_plan s cid = (s, Err e) ->
  exists s', step info s (EvRecv c (mkToServer 2 (Some TsReqConfig))) = (s', [(c, mkToClient 2 (Some (TcError (code e) e)))]) /\
    networks s' = networks s.
Proof.
  intros Hc Hplan. cbn [step]. rewrite Hc. cbn [fmap option_fmap option_map phase]. unfold process_message.
  cbn [to_server_data ts_id dispatch]. unfold ReqConfig_execute. rewrite Hplan.
  pose proof (send_open_spec s c (mkConn a (Some cid) 1 (Running cid)) (Some 2) (TcError (code e) e) Hc I) as Hs.
  cbn in Hs. cbn. rewrite Hs. by eexists.
Qed.
(** Some peer of the network has the address. *)
Definition taken (n : VlinkNetwork) (i : Z) : Prop :=
  exists k p, peers n !! k = Some p /\ pm_ip (model p) = Some (ipv4_to_string i).
(** The address a peer of the network is to get: the one stored for it, else the first that is
    not taken, from the network's third on. *)
Inductive assigned (n : VlinkNetwork) (self : VlinkPeer) : res ExecuteError Z -> Prop :=
| assigned_stored t a : pm_ip (model self) = Some t -> ipv4_from_str t = Some a -> assigned n self (Ok a)
| assigned_unreadable t : pm_ip (model self) = Some t -> ipv4_from_str t = None -> assigned n self (Err ParseError)
| assigned_new j a : pm_ip (model self) = None -> drop 2 (addresses (cidr n)) !! j = Some a -> ~ taken n a ->
    (forall i b, (i < j)%nat -> drop 2 (addresses (cidr n)) !! i = Some b -> taken n b) -> assigned n self (Ok a)
| assigned_full : pm_ip (model self) = None -> (forall a, a ∈ drop 2 (addresses (cidr n)) -> taken n a) ->
    assigned n self (Err (AnyhowError NoAddress)).

Lemma taken_iff n i :
  ~ Forall (fun p => p <> ipv4_to_string i) (omap (fun '(_, p) => pm_ip (model p)) (map_to_list (peers n))) <-> taken n i.
Proof.
  unfold taken. split.
  - intros (t & Hin & Ht%dec_stable)%not_Forall_Exists%Exists_exists; [|apply _].
    apply list_elem_of_omap in Hin as ([k p] & Hkp%elem_of_map_to_list & Hp). exists k, p. by rewrite Hp, Ht.
  - intros (k & p & Hk & Hp). rewrite Forall_forall. intros Hall. apply (Hall (ipv4_to_string i)); [|done].
    apply list_elem_of_omap. exists (k, p). split; [by apply elem_of_map_to_list|done].
Qed.

(** There is one answer. *)
Lemma assigned_det n self r1 r2 : assigned n self r1 -> assigned n self r2 -> r1 = r2.
Proof.
  assert (forall i j a b, drop 2 (addresses (cidr n)) !! i = Some a -> ~ taken n a ->
    (forall k c, (k < j)%nat -> drop 2 (addresses (cidr n)) !! k = Some c -> taken n c) -> (i < j)%nat -> a = b) as Hfirst.
  { intros i j a b Hi Ha Hj Hlt. by destruct Ha; eapply Hj. }
  intros [t a Ht Ha|t Ht Ha|i a Ht Hi Ha Hbi|Ht Hall] [t' b Ht' Hb|t' Ht' Hb|j b Ht' Hj Hb Hbj|Ht' Hall']; try congruence.
  - f_equal. destruct (Nat.lt_trichotomy i j) as [Hlt|[->|Hlt]]; [by apply (Hfirst i j)|congruence|by rewrite (Hfirst j i b a)].
  - destruct Ha. apply Hall'. by eapply list_elem_of_lookup_2.
  - destruct Hb. apply Hall. by eapply list_elem_of_lookup_2.
Qed.

(** The plan for a peer of a cached network: the whole of it. *)
Lemma config_plan_assigned s cid n self : networks s !! ci_network_id cid = Some n -> peers n !! ci_pub_key cid = Some self ->
  exists r, config_plan s cid = (s, r) /\ r <> Panic /\
    match r with
    | Ok plan => assigned n self (Ok (plan_addr plan)) /\
        plan_peers plan = omap (fun '(k, p) => peer_entry k p) (map_to_list (peers n))
    | Err e => assigned n self (Err e)
    | Panic => False
    end.
Proof.
  intros Hn Hself. unfold config_plan, get_network. rewrite Hn, Hself. eexists. split; [done|]. cbn [ok_or mbind res_bind].
  destruct (pm_ip (model self)) as [t|] eqn:Hip.
  - destruct (ipv4_from_str t) as [a|] eqn:Ht; cbn; (split; [done|]); [split; [|done]|]; by econstructor.
  - unfold generate_ip. destruct (list_find _ _) as [[j a]|] eqn:Hf; cbn; (split; [done|]).
    + split; [|done]. apply list_find_Some in Hf as (Hj & Hall & Hbefore).
      apply (assigned_new _ _ j); [done|done|by intros Ht%taken_iff|]. intros i b Hi Hb. by apply taken_iff, (Hbefore i b).
    + apply assigned_full; [done|]. intros a Ha. apply taken_iff. apply list_find_None in Hf.
      rewrite Forall_forall in Hf. by apply Hf.
Qed.

(** The state when the client is let in: what was sent, and what the rest needs. *)
Record Welcome (info : RespServerInfo) (c : nat) (a key : string) (nid : Z) (s : Server) : Prop := mkWelcome {
  ad_inv : Inv s;
  ad_cached : cached s;
  ad_up : db_up (db s) = true;
  ad_off : ~ online_at s c;
  ad_conn : conns s !! c = Some (mkConn a (Some (mkClientId key nid)) 1 (Running (mkClientId key nid)));
  ad_net : exists n p, networks s !! nid = Some n /\ peers n !! key = Some p;
}.

Section Run.
Context (info : RespServerInfo) (c : nat) (a : string) (key : string) (nid : Z) (s : Server).
Hypothesis Hinv : Inv s.
Hypothesis Hcached : cached s.
Hypothesis Hfree : conns s !! c = None.
Hypothesis Hoff : ~ online_at s c.
Hypothesis Havail : available (db s) key nid.

Lemma connect_phase es1 : Forall (fun e => conn_of e <> c) es1 ->
  let '(s1, o) := run info s (EvAccept c a :: es1) in
  inbox c o = [mkToClient 1 (Some (TcRespServerInfo info))] /\ Inv s1 /\ cached s1 /\ ~ online_at s1 c /\
  conns s1 !! c = Some (mkConn a None 1 AwaitHandshake) /\ available (db s1) key nid.
Proof.
  intros Hes. destruct (accept_step info s c a Hfree) as (s0 & Hs & Hc & Hnet & Hdb).
  assert (~ online_at s0 c) as Hoff0 by (unfold online_at; by rewrite Hnet).
  pose proof (turn_apart info c s (EvAccept c a) es1 s0 _ Hoff0 Hs Hes) as Ht.
  pose proof (run_keeps_Inv info s (EvAccept c a :: es1) Hinv) as HI.
  pose proof (run_grows info (EvAccept c a :: es1) s) as [Hst Hgr].
  destruct (run info s (EvAccept c a :: es1)) as [s1 o]. cbn [fst] in *. destruct Ht as (_ & Hi & Ho & Hcs & _).
  split_and!; [done|done|by apply Hgr|done|congruence|by eapply available_static].
Qed.

Lemma welcome_phase es1 es2 sign : Forall (fun e => conn_of e <> c) es1 -> Forall (fun e => conn_of e <> c) es2 ->
  (forall n p, networks (run info s (EvAccept c a :: es1)).1 !! nid = Some n -> peers n !! key = Some p -> is_online p = false) ->
  let '(s2, o) := run info (run info s (EvAccept c a :: es1)).1 (EvRecv c (mkToServer 1 (Some (hello_msg key sign))) :: es2) in
  inbox c o = [mkToClient 1 (Some (TcRespHandshake true None))] /\ Welcome info c a key nid s2.
Proof.
  intros He1 He2 Hon. pose proof (connect_phase es1 He1) as Hp1. destruct (run info s (EvAccept c a :: es1)) as [s1 o1].
  cbn [fst] in *. destruct Hp1 as (_ & HI1 & Hca1 & Hoff1 & Hc1 & Hav1).
  destruct (handshake_step info s1 c a key sign nid Hc1 Hca1 Hav1 Hon) as (s0 & n & p & Hs & Hc0 & Hn & Hp & Hoff0).
  set (e := EvRecv c _) in *.
  pose proof (turn_apart info c s1 e es2 s0 _ (fun Hx => Hoff1 (Hoff0 Hx)) Hs He2) as Ht.
  pose proof (run_keeps_Inv info s1 (e :: es2) HI1) as HI. pose proof (run_grows info (e :: es2) s1) as [Hst Hgr].
  destruct (run info s1 (e :: es2)) as [s2 o]. cbn [fst] in *. destruct Ht as (_ & Hi & Ho & Hcs & _ & Hgr0).
  split; [done|]. assert (cached s0) as Hca0.
  { pose proof (step_apart info s1 e) as [_ _ _ _ Hg]. rewrite Hs in Hg. by apply Hg. }
  split; [done|by apply Hgr|by apply (available_static _ _ _ _ Hst) in Hav1 as [? _]|done|congruence|].
  destruct (Hgr0 Hca0) as [_ Hip]. unfold ip_at, models in Hip. setoid_rewrite lookup_fmap in Hip.
  destruct (Hip nid key (pm_ip (model p))) as (v & Hv & _).
  { rewrite Hn. cbn. by rewrite lookup_fmap, Hp. }
  destruct (networks s2 !! nid) as [n2|]; [|done]. cbn in Hv. rewrite lookup_fmap in Hv.
  destruct (peers n2 !! key) as [p2|] eqn:Hp2; [|done]. by exists n2, p2.
Qed.
End Run.

Lemma config_phase info c a key nid s es : Welcome info c a key nid s -> Forall (fun e => conn_of e <> c) es ->
  let '(s', o) := run info s (EvRecv c (mkToServer 2 (Some TsReqConfig)) :: es) in
  exists n self addr, networks s !! nid = Some n /\ peers n !! key = Some self /\ assigned n self addr /\
  match addr with
  | Ok ip => exists r, inbox c o = [mkToClient 2 (Some (TcRespConfig r))] /\
      rc_address r = ip /\ rc_peers r = omap (fun '(k, p) => peer_entry k p) (map_to_list (peers n)) /\ Inv s' /\
      conns s' !! c = Some (mkConn a (Some (mkClientId key nid)) 1 (Running (mkClientId key nid))) /\
      ip_at s' nid key = Some (Some (ipv4_to_string ip))
  | Err e => inbox c o = [mkToClient 2 (Some (TcError (code e) e))]
  | Panic => False
  end.
Proof.
  intros [HI Hca Hup Hoff Hc (n & self & Hn & Hself)] Hes. set (e := EvRecv c _). set (cid := mkClientId key nid) in *.
  destruct (config_plan_assigned s cid n self Hn Hself) as (r & Hplan & Hr & Has).
  pose proof (run_keeps_Inv info s (e :: es) HI) as HI'. destruct r as [plan|err|]; [destruct Has as [Has Hps]| |done].
  - destruct (config_step info s c a cid n plan Hc HI Hup Hn Hplan) as (s0 & resp & Hs & Hc0 & Ha & Hp & Hip & Hoff0).
    pose proof (turn_apart info c s e es s0 _ (fun Hx => Hoff (Hoff0 Hx)) Hs Hes) as Ht.
    assert (cached s0) as Hca0.
    { pose proof (step_apart info s e) as [_ _ _ _ Hg]. unfold e in Hg. rewrite Hs in Hg. by apply Hg. }
    destruct (run info s (e :: es)) as [s' o]. destruct Ht as (_ & Hi & _ & Hcs & _ & Hgr).
    exists n, self, (Ok (plan_addr plan)). do 3 (split; [done|]). exists resp.
    split_and!; [done|done|by rewrite <- Hps|done|congruence|]. destruct (Hgr Hca0) as [_ Hv].
    destruct (Hv _ _ _ Hip) as (v & Hv1 & Hv2). cbn in Hv1. rewrite Hv1. by rewrite Hv2.
  - destruct (config_refused info s c a cid err Hc Hplan) as (s0 & Hs & Hnet).
    assert (~ online_at s0 c) as Hoff0 by (unfold online_at; by rewrite Hnet).
    pose proof (turn_apart info c s e es s0 _ Hoff0 Hs Hes) as Ht. destruct (run info s (e :: es)) as [s' o].
    exists n, self, (Err err). by destruct Ht as (_ & ? & _).
Qed.

#[local] Arguments step : simpl never.
#[local] Arguments run : simpl never.
#[local] Arguments inbox : simpl never.
#[local] Arguments wrap : simpl never.
#[local] Arguments Vlinkd.handler_connected : simpl never.
(** The client's side, when every message of the server is the answer it waits for. *)
Lemma join_answers info secret c a es1 es2 es3 port endpoint extra sign s m o1 o2 data :
  let s1 := (run info s (EvAccept c a :: es1)).1 in
  let s2 := (run info s1 (EvRecv c (mkToServer 1 (Some (hello_msg (Secret.base64_pub secret) sign))) :: es2)).1 in
  (run info s (EvAccept c a :: es1)).2 = o1 -> inbox c o1 = [m] -> Daemon.sign_for secret (Some m) = Some sign ->
  (run info s1 (EvRecv c (mkToServer 1 (Some (hello_msg (Secret.base64_pub secret) sign))) :: es2)).2 = o2 ->
  inbox c o2 = [mkToClient 1 (Some (TcRespHandshake true None))] ->
  inbox c (run info s2 (EvRecv c (mkToServer 2 (Some TsReqConfig)) :: es3)).2 = [mkToClient 2 (Some data)] ->
  let s3 := (run info s2 (EvRecv c (mkToServer 2 (Some TsReqConfig)) :: es3)).1 in
  join info secret c a es1 es2 es3 port endpoint extra s =
  match data with
  | TcRespConfig r =>
      let '(s4, o) := step info s3 (EvRecv c (mkToServer 3 (Some (Vlinkd.handler_connected (rc_address r) port endpoint extra)))) in
      Ok (r, s3, s4, o)
  | TcError _ e => Err (Vlinkd.Rejected e)
  | _ => Err Vlinkd.BadPacket
  end.
Proof.
  intros s1 s2 Ho1 Hi1 Hsign Ho2 Hi2 Hi3 s3. unfold join. subst s1 s2 s3 o1 o2.
  destruct (run info s (EvAccept c a :: es1)) as [s1 o1]. cbn [fst snd] in *. rewrite Hi1. cbn [head]. rewrite Hsign.
  cbn [ok_or mbind res_bind]. cbn [Vlinkd.handshake Vlinkd.request Vlinkd.is_connected negb Vlinkd.send Vlinkd.to_server_id Vlinkd.last_id
    Vlinkd.hp_pub_key Vlinkd.hp_sign Vlinkd.hp_token fmap list_fmap app]. change (wrap 64 (0 + 1)) with 1. fold (hello_msg (Secret.base64_pub secret) sign).
  destruct (run info s1 _) as [s2 o2]. cbn [fst snd] in *. rewrite Hi2.
  cbn [Vlinkd.VlinkClient_request Vlinkd.handshake Vlinkd.request Vlinkd.is_connected negb Vlinkd.send Vlinkd.to_server_id Vlinkd.last_id
    fmap list_fmap app]. change (wrap 64 (0 + 1)) with 1. change (wrap 64 (1 + 1)) with 2.
  cbn. destruct (run info s2 _) as [s3 o3]. cbn [fst snd] in *. rewrite Hi3.
  cbn. destruct data; try done. cbn. change (wrap 64 (2 + 1)) with 3. rewrite run_cons. destruct (step info s3 _) as [s4 o4].
  change (run info s4 []) with (s4, @nil Out). cbv iota beta. by rewrite app_nil_r.
Qed.

(** C36: a registered peer joins its network, whatever other clients do meanwhile. Take any
    history of the server in which connection [c] does not occur, a database that registers
    the client's key in a network that can be loaded, and any events of other connections
    between the messages of the client, such that the key is not online when it shakes hands.
    Then its requests get their own answers, and it is refused exactly when there is no
    address for it: with the error for a full network when it has none and every address from
    the third on is taken, with a parse error when the one stored for it does not parse.
    Otherwise the client is given the stored address or the first free one, with the peers of
    the network, and comes online: through its connection, under the address it was given,
    which no other peer of the network has, and every other peer that is online is told this
    address, port and endpoint. *)
Theorem node_joins info secret c a key nid d es0 es1 es2 es3 port endpoint extra sign :
  NoDup (pm_id <$> t_peers d) ->
  (forall r1 r2 a, r1 ∈ t_peers d -> r2 ∈ t_peers d -> pm_network_id r1 = pm_network_id r2 ->
     pm_ip r1 = Some a -> pm_ip r2 = Some a -> pm_pub_key r1 = pm_pub_key r2) ->
  available d key nid -> key = Secret.base64_pub secret ->
  Forall (fun e => conn_of e <> c) (es0 ++ es1 ++ es2 ++ es3) ->
  Daemon.sign_for secret (Some (mkToClient (E := ExecuteError) 1 (Some (TcRespServerInfo info)))) = Some sign ->
  let s := (run info (Server_new d) es0).1 in
  let s1 := (run info s (EvAccept c a :: es1)).1 in
  let s2 := (run info s1 (EvRecv c (mkToServer 1 (Some (hello_msg key sign))) :: es2)).1 in
  (forall n p, networks s1 !! nid = Some n -> peers n !! key = Some p -> is_online p = false) ->
  exists n2 self addr, networks s2 !! nid = Some n2 /\ peers n2 !! key = Some self /\ assigned n2 self addr /\
  match addr with
  | Ok ip => exists r s3 s4 o, join info secret c a es1 es2 es3 port endpoint extra s = Ok (r, s3, s4, o) /\
      rc_address r = ip /\ rc_peers r = omap (fun '(k, p) => peer_entry k p) (map_to_list (peers n2)) /\
      exists n3 n p i, networks s3 !! nid = Some n3 /\ networks s4 !! nid = Some n /\ peers n !! key = Some p /\
        online_info p = Some i /\ connect i = c /\ pm_ip (model p) = Some (ipv4_to_string (rc_address r)) /\
        (forall k q, peers n !! k = Some q -> pm_ip (model q) = pm_ip (model p) -> k = key) /\
        (forall k q j, k <> key -> peers n3 !! k = Some q -> online_info q = Some j -> open_conn s3 (connect j) ->
           exists id, (connect j, mkToClient id (Some (TcPeerEnter (mkBcPeerEnter key (ipv4_to_string (rc_address r))
             endpoint port None (ConnectionMode_i32 ModeBidirectional) true)))) ∈ o)
  | Err e => join info secret c a es1 es2 es3 port endpoint extra s = Err (Vlinkd.Rejected e)
  | Panic => False
  end.
Proof.
  intros Hids Hrows Hav Hkey Hes Hsign s s1 s2 Hon.
  apply Forall_app in Hes as [He0 Hes]. apply Forall_app in Hes as [He1 Hes]. apply Forall_app in Hes as [He2 He3].
  pose proof (run_apart info c es0 (Server_new d) (not_online_new d c) He0) as Hpre.
  pose proof (run_keeps_Inv info (Server_new d) es0 (Inv_new d Hids Hrows)) as HI0.
  subst s. destruct (run info (Server_new d) es0) as [s0 o0]. cbn [fst] in *.
  destruct Hpre as (_ & Hoff0 & Hfree & Hst0 & Hgr0). change (conns (Server_new d)) with (∅ : gmap nat Conn) in Hfree.
  rewrite lookup_empty in Hfree. destruct (Hgr0 (cached_new d)) as [Hca0 _]. apply (available_static _ _ _ _ Hst0) in Hav.
  pose proof (connect_phase info c a key nid s0 HI0 Hca0 Hfree Hoff0 Hav es1 He1) as Hp1.
  pose proof (welcome_phase info c a key nid s0 HI0 Hca0 Hfree Hoff0 Hav es1 es2 sign He1 He2 Hon) as Hp2. fold s1 in Hp2.
  destruct (run info s1 _) as [s2' o2] eqn:Hr2 in Hp2. assert (s2' = s2) as -> by (unfold s2; by rewrite Hr2).
  destruct Hp2 as [Hi2 Hwel]. pose proof (config_phase info c a key nid s2 es3 Hwel He3) as Hp3.
  destruct (run info s0 (EvAccept c a :: es1)) as [s1' o1] eqn:Hr1. destruct Hp1 as [Hi1 _].
  pose proof (fun data => join_answers info secret c a es1 es2 es3 port endpoint extra sign s0 (mkToClient 1 (Some (TcRespServerInfo info))) o1 o2 data) as Hj.
  rewrite Hr1 in Hj. cbn [fst snd] in Hj. change s1' with s1 in Hj. rewrite <- Hkey, Hr2 in Hj. cbn [fst snd] in Hj.
  destruct (run info s2 _) as [s3 o3] in Hp3, Hj. cbn [fst snd] in Hj.
  destruct Hp3 as (n2 & self & addr & Hn2 & Hself & Has & Hp3). exists n2, self, addr. do 3 (split; [done|]).
  destruct addr as [ip|err|]; [|by rewrite (Hj _ eq_refl Hi1 Hsign eq_refl Hi2 Hp3)|done].
  destruct Hp3 as (r & Hi3 & Ha & Hps & HI3 & Hc3 & Hip). rewrite (Hj _ eq_refl Hi1 Hsign eq_refl Hi2 Hi3).
  set (m := mkPeerEnter (ipv4_to_string (rc_address r)) endpoint port (omap (fun '(proto, e) => mkExtraEndpoint proto <$> e) (map_to_list extra))).
  change (Vlinkd.handler_connected (rc_address r) port endpoint extra) with (TsPeerEnter m).
  pose proof (enter_step info s3 c (mkClientId key nid) m _ _ _ _ 3 Hc3 Hip ltac:(by rewrite <- Ha)) as Hen.
  pose proof (step_Inv info s3 (EvRecv c (mkToServer 3 (Some (TsPeerEnter m)))) HI3) as HI4.
  destruct (step info s3 _) as [s4 o]. cbn [fst] in HI4. exists r, s3, s4, o. split_and!; [done..|].
  destruct Hen as (n3 & n4 & p & i & Hn3 & Hn4 & Hp & Hi & Hci & _ & _ & Hpip & _ & Hreach). rewrite <- Ha in Hpip.
  cbn [ci_pub_key ci_network_id] in Hn3, Hn4, Hp, Hreach.
  exists n3, n4, p, i. split_and!; [done..| |].
  - intros k q Hq Hqip. rewrite Hpip in Hqip.
    apply (inv_uniq s4 HI4 nid (model <$> peers n4) k key (model q) (model p)
      (ipv4_to_string (rc_address r)) (models_lookup _ _ _ Hn4)); rewrite ?lookup_fmap, ?Hq, ?Hp; done.
  - intros k q j Hne Hq Hoj Hop. rewrite Ha. by apply (Hreach k q j).
Qed.
End Joining.

(** ** Witness: the second client of a network joins while the first is online *)
Section Witness.
#[local] Existing Instance Headlink.Toy.lib.
#[local] Existing Instance Secret.ToySecret.lib.

Definition toy_secret : Secret.VlinkStaticSecret := Secret.generate (Secret.toy_random x41).
Definition toy_pub : string := Secret.base64_pub toy_secret.
Definition toy_db : Db := mkDb true [mkNetworkModel 1 "0.0.0.0/29"] [] [row 1 toy_pub; row 2 "b"] [].
Definition toy_info : RespServerInfo := mkRespServerInfo "1.0.0" (Secret.base64_encode (Secret.toy_random x42)) None.
(** The first client is "b", on connection 2; it sends a report while the second joins. *)
Definition toy_before : list Event :=
  [EvAccept 2 "y"; EvRecv 2 (mkToServer 1 (hello "b")); EvRecv 2 (mkToServer 2 (Some TsReqConfig));
   EvRecv 2 (mkToServer 3 (Some (TsPeerEnter (mkPeerEnter "0.0.0.2" None 51820 []))))].
Definition toy_report : Event := EvRecv 2 (mkToServer 4 (Some (TsDevHandshakeComplete (mkDevHandshakeComplete "c" "udp")))).
Definition toy_s : Server := (run toy_info (Server_new toy_db) toy_before).1.
Definition toy_sign : string := default "" (Daemon.sign_for (E := ExecuteError) toy_secret (Some (mkToClient 1 (Some (TcRespServerInfo toy_info))))).
Definition toy_s1 : Server := (run toy_info toy_s (EvAccept 1 "x" :: [toy_report])).1.
Definition toy_s2 : Server := (run toy_info toy_s1 (EvRecv 1 (mkToServer 1 (Some (hello_msg toy_pub toy_sign))) :: [toy_report])).1.

Definition online_key (s : Server) (nid : Z) (key : string) : bool :=
  default false (n ← networks s !! nid; p ← peers n !! key; Some (is_online p)).
Lemma node_joins_witness : exists r s3 s4 o,
  join toy_info toy_secret 1 "x" [toy_report] [toy_report] [] 51820 None ∅ toy_s = Ok (r, s3, s4, o) /\
  rc_address r = 3 /\ exists n p i, networks s4 !! 1 = Some n /\ peers n !! toy_pub = Some p /\
    online_info p = Some i /\ connect i = 1%nat /\ pm_ip (model p) = Some "0.0.0.3"%string.
Proof.
  pose proof (node_joins toy_info toy_secret 1 "x" toy_pub 1 toy_db toy_before [toy_report] [toy_report] [] 51820 None ∅ toy_sign) as Hj.
  assert (NoDup (pm_id <$> t_peers toy_db)) as Hids.
  { change (NoDup [1; 2]). apply (bool_decide_unpack (NoDup [1; 2])). vm_compute. exact I. }
  specialize (Hj Hids).
  assert (forall r1 r2 a, r1 ∈ t_peers toy_db -> r2 ∈ t_peers toy_db -> pm_network_id r1 = pm_network_id r2 ->
     pm_ip r1 = Some a -> pm_ip r2 = Some a -> pm_pub_key r1 = pm_pub_key r2) as Hrows.
  { intros r1 r2 a Hr1 Hr2 _ Ha. exfalso. unfold toy_db in Hr1. cbn [t_peers] in Hr1.
    rewrite !elem_of_cons, elem_of_nil in Hr1. destruct Hr1 as [->|[->|[]]]; discriminate Ha. }
  specialize (Hj Hrows).
  assert (available toy_db toy_pub 1) as Hav.
  { split; [reflexivity|]. split; [exists 0%nat, (row 1 toy_pub)|exists 0%nat, (mkNetworkModel 1 "0.0.0.0/29")];
      (split; [vm_compute; reflexivity|]); [reflexivity|discriminate]. }
  specialize (Hj Hav eq_refl).
  assert (Forall (fun e => conn_of e <> 1%nat) (toy_before ++ [toy_report] ++ [toy_report] ++ [])) as Hes by (repeat constructor; discriminate).
  specialize (Hj Hes ltac:(vm_compute; reflexivity)). fold toy_s toy_s1 toy_s2 in Hj.
  assert (online_key toy_s1 1 toy_pub = false) as Hoff by (vm_compute; reflexivity).
  cbv zeta in Hj. fold toy_s in Hj. fold toy_s1 in Hj. fold toy_s2 in Hj.
  specialize (Hj ltac:(intros n p Hn Hp; unfold online_key in Hoff; rewrite Hn in Hoff; cbn [mbind option_bind] in Hoff; rewrite Hp in Hoff; exact Hoff)).
  destruct Hj as (n2 & self & addr & Hn2 & Hself & Has & Hj).
  assert (addr = Ok 3) as ->.
  { eapply assigned_det; [exact Has|]. eapply (config_plan_assigned toy_s2 (mkClientId toy_pub 1) n2 self) in Hn2; [|exact Hself].
    destruct Hn2 as (rr & Hplan & _ & Hr).
    assert ((fun p => plan_addr p) <$> (config_plan toy_s2 (mkClientId toy_pub 1)).2 = Ok 3) as Hp by (vm_compute; reflexivity).
    rewrite Hplan in Hp. cbn [snd] in Hp. destruct rr as [plan| |]; [|discriminate Hp..]. injection Hp as Hp.
    rewrite <- Hp. exact (proj1 Hr). }
  destruct Hj as (r & s3 & s4 & o & Hj & Ha & _ & n3 & n & p & i & _ & Hn & Hpe & Hi & Hc & Hip & _).
  exists r, s3, s4, o. split; [exact Hj|]. rewrite Ha in Hip |- *. split; [reflexivity|].
  exists n, p, i. split; [exact Hn|]. split; [exact Hpe|]. split; [exact Hi|]. split; [exact Hc|]. rewrite Hip. vm_compute. reflexivity.
Defined.
End Witness.
End Join.
