(* ===== verification/Serve.v ===== *)
(** * A connection of the registration server (headlink/src/client.rs, headlink/src/main.rs)

    [ClientStream::new] makes three futures: one reads messages from the stream into a
    broadcast channel, one writes, and [process_client] takes the messages out of the channel,
    first the handshake, then the requests, which it takes through a second receiver that it
    makes when the handshake is over. When the event loop has returned, main.rs removes the
    client and takes its peer offline; no handler panics, so it always comes to that. [Headlink] lets every message be handled where it
    arrives. This file has the connection as a state machine over turns in any order, with
    the events of other connections in between, and shows which messages are handled: what
    [Headlink] says of them is what happens, in their order, but a message that arrives
    between the handshake and the second receiver is never handled. *)

From S2P Require Import Prelude Bytes Channels Abi Headlink Join.
#[local] Open Scope Z_scope.

Module Serve.
Import Headlink Join.

Section Serve.
Context `{Ipv4NetworkLib, Broadcast}.

(** Where [process_client] is: waiting for the handshake, past it and about to make its second
    receiver, in its loop; or the event loop has returned. *)
Inductive Pc :=
| AwaitingHandshake (rx : brx ToServer)
| Subscribing (cid : ClientId)
| Serving (cid : ClientId) (rx : brx ToServer)
| Returned.
(** [cs_arrived], [cs_taken] and [cs_missed] record what was read from the stream, what
    [process_client] took, and what had arrived behind the handshake when the second receiver
    was made. *)
Record ClientStream := mkClientStream {
  cs_pc : Pc;
  recv_tx : btx ToServer;
  is_connected : bool;
  cs_arrived : list ToServer;
  cs_taken : list ToServer;
  cs_missed : list ToServer;
}.
Definition ClientStream_new : ClientStream :=
  let '(tx, rx) := bchannel 128 in mkClientStream (AwaitingHandshake rx) tx true [] [] [].
Definition at_pc (pc : Pc) (st : ClientStream) : ClientStream :=
  mkClientStream pc (recv_tx st) (is_connected st) (cs_arrived st) (cs_taken st) (cs_missed st).
Definition returned (st : ClientStream) : ClientStream :=
  mkClientStream Returned (recv_tx st) false (cs_arrived st) (cs_taken st) (cs_missed st).
Definition take_msg (m : ToServer) (st : ClientStream) : ClientStream :=
  mkClientStream (cs_pc st) (recv_tx st) (is_connected st) (cs_arrived st) (cs_taken st ++ [m]) (cs_missed st).
Definition arrive (m : ToServer) (st : ClientStream) : ClientStream :=
  mkClientStream (cs_pc st) (bsend (recv_tx st) m) (is_connected st) (cs_arrived st ++ [m]) (cs_taken st) (cs_missed st).

Definition Sys : Type := Server * ClientStream.
(** What a turn leaves and sends, and the events of [Headlink] it amounts to. *)
Definition Res : Type := Sys * list Out * list Event.

(** [decode] is [ToServer::decode]; [info] what the server says about itself; the connection
    has number [c] and address [a]. *)
Context (decode : bytes -> option ToServer) (info : RespServerInfo) (c : nat) (a : string).

(** main.rs, the task of the connection: it is registered and its event loop started; the loop
    has returned. *)
Definition serve_start (s : Server) : Res :=
  let '(s, out) := accept info s c a in ((s, ClientStream_new), out, [EvAccept c a]).
Definition finish (y : Sys) : Res :=
  let '(s, out) := disconnect y.1 c a in ((s, returned y.2), out, [EvDisconnect c]).
Definition then_finish (y : Sys) (out : list Out) (evs : list Event) : Res :=
  let '(y, out', evs') := finish y in (y, out ++ out', evs ++ evs').

(** [recv_handler]: a frame, or the end of the stream. *)
Definition recv_handler (frame : option bytes) (y : Sys) : Res :=
  match frame ≫= decode with
  | Some m => ((y.1, arrive m y.2), [], [])
  | None => finish y
  end.

(** [process_client], to where it next waits. A receiver that lags ends it. *)
Definition process_client (y : Sys) : Res :=
  let '(s, st) := y in
  match cs_pc st with
  | AwaitingHandshake rx =>
      match brecv (recv_tx st) rx with
      | None => (y, [], [])
      | Some (None, _) => finish y
      | Some (Some m, _) =>
          let '(s, out) := await_handshake s c m in
          let st := take_msg m st in
          match phase <$> conns s !! c with
          | Some (Running cid) => ((s, at_pc (Subscribing cid) st), out, [EvRecv c m])
          | _ => then_finish (s, st) out [EvRecv c m]
          end
      end
  | Subscribing cid =>
      let rx := subscribe (recv_tx st) in
      let st := mkClientStream (Serving cid rx) (recv_tx st) (is_connected st) (cs_arrived st) (cs_taken st)
        (drop 1 (cs_arrived st)) in
      match get_network s (ci_network_id cid) with
      | (s, Ok _) => ((s, st), [], [])
      | (s, _) => finish (s, st)
      end
  | Serving cid rx =>
      match brecv (recv_tx st) rx with
      | None => (y, [], [])
      | Some (None, _) => finish y
      | Some (Some m, rx) =>
          let '(s, out) := process_message s c cid m in
          let st := at_pc (Serving cid rx) (take_msg m st) in
          match phase <$> conns s !! c with
          | Some (Running _) => ((s, st), out, [EvRecv c m])
          | _ => then_finish (s, st) out [EvRecv c m]
          end
      end
  | Returned => (y, [], [])
  end.

(** The three futures of the [select!], the timeout of the handshake, and the events of other
    connections. *)
Inductive Turn :=
| Frame (b : option bytes)
| Process
| HandshakeTimeout
| Other (e : Event).
Definition open (st : ClientStream) : bool := match cs_pc st with Returned => false | _ => true end.
Definition turn (y : Sys) (t : Turn) : Res :=
  match t with
  | Frame b => if open y.2 then recv_handler b y else (y, [], [])
  | Process => process_client y
  | HandshakeTimeout => match cs_pc y.2 with AwaitingHandshake _ => finish y | _ => (y, [], []) end
  | Other e =>
      if decide (conn_of e = c) then (y, [], [])
      else let '(s, out) := step info y.1 e in ((s, y.2), out, [e])
  end.
Definition turns (r : Res) (ts : list Turn) : Res :=
  foldl (fun '(y, out, evs) t => let '(y, out', evs') := turn y t in (y, out ++ out', evs ++ evs')) r ts.

(** The client sends its handshake, and nothing more until its requests are listened for. *)
Fixpoint polite (y : Sys) (ts : list Turn) : bool :=
  match ts with
  | [] => true
  | t :: ts =>
      match t, cs_pc y.2, cs_arrived y.2 with
      | Frame _, (AwaitingHandshake _ | Subscribing _), _ :: _ => false
      | _, _, _ => true
      end && polite (turn y t).1.1 ts
  end.
End Serve.

(** ** What events leave alone *)

Section Tame.
Context `{Ipv4NetworkLib}.

(** No connection moves on, and a network that is cached stays so. *)
Record tame (s s' : Server) : Prop := mkTame {
  tm_conns j : (fun k => (addr k, phase k)) <$> conns s' !! j = (fun k => (addr k, phase k)) <$> conns s !! j;
  tm_nets nid : is_Some (networks s !! nid) -> is_Some (networks s' !! nid);
}.
#[global] Instance tame_preorder : PreOrder tame.
Proof. split; [done|]. intros x y z [? ?] [? ?]. split; [congruence|auto]. Qed.

Lemma tame_conn_frame s s' : conn_frame s s' -> tame s s'.
Proof.
  intros (Hn & _ & _ & Hc). split; [|by rewrite Hn]. intros j. specialize (Hc j).
  apply (f_equal (fmap (fun x : string * option ClientId * Phase => (x.1.1, x.2)))) in Hc.
  by rewrite <- !option_fmap_compose in Hc.
Qed.
Lemma tame_send s j id data : tame s (send s j id data).1.1.
Proof. apply tame_conn_frame, send_frame. Qed.
Lemma tame_broadcast_by s n data pr : tame s (broadcast_by s n data pr).1.
Proof. apply tame_conn_frame, broadcast_by_frame. Qed.
Lemma tame_broadcast_to s n data inc : tame s (broadcast_to s n data inc).1.
Proof. unfold broadcast_to. destruct inc; [done|]. apply tame_broadcast_by. Qed.
Lemma tame_insert s nid n : tame s (with_networks s (<[nid := n]> (networks s))).
Proof. split; [done|]. intros nid' Hn. cbn. rewrite lookup_insert_is_Some'. by right. Qed.
Lemma tame_get_network s nid : tame s (get_network s nid).1.
Proof.
  unfold get_network. destruct (networks s !! nid); [done|]. destruct (negb _); [done|].
  destruct (list_find _ _) as [[? ?]|]; [|done]. destruct (cidr_from_str _); [|done]. apply tame_insert.
Qed.
Lemma tame_offline s nid n k : tame s (offline s nid n k).1.
Proof. unfold offline, broadcast. etrans; [apply tame_insert|apply tame_broadcast_by]. Qed.
Lemma tame_set_client_id s j id : tame s (set_client_id s j id).1.
Proof.
  unfold set_client_id. destruct (conns s !! j) as [k|] eqn:Hk; [|done]. destruct (client_id k); [done|].
  split; [|done]. intros j'. cbn. destruct (decide (j' = j)) as [->|]; [by rewrite lookup_insert_eq, Hk|by rewrite lookup_insert_ne].
Qed.
Lemma tame_handshake_network s r : tame s (handshake_network s r).1.
Proof.
  unfold handshake_network. destruct (rh_token r).
  - destruct (negb _); [done|]. destruct (list_find _ _) as [[? t]|]; [|done]. destruct (nt_disabled t); [done|].
    pose proof (tame_get_network s (nt_network_id t)). by destruct (get_network _ _).
  - destruct (negb _); [done|]. by destruct (list_find _ _) as [[? ?]|].
Qed.
Lemma tame_handshake0 s j data : tame s (handshake0 s j data).1.
Proof.
  unfold handshake0. destruct data as [[r| | | | | | | | |]|]; try done.
  pose proof (tame_handshake_network s r) as H1. destruct (handshake_network s r) as [s1 [nid| |]]; try exact H1. cbn [fst] in H1.
  pose proof (tame_set_client_id s1 j (mkClientId (rh_pub_key r) nid)) as H2.
  destruct (set_client_id _ _ _) as [s2 [?| |]]; cbn [fst] in *; try (by etrans).
  pose proof (tame_get_network s2 nid) as H3. destruct (get_network s2 nid) as [s3 [n| |]]; cbn [fst] in *; try (by etrans; [|etrans]).
  destruct (peers n !! _) as [p|]; [destruct (is_online p)|]; by etrans; [|etrans].
Qed.
(** After a handshake its network is cached. *)
Lemma handshake0_cached s j data s' cid : handshake0 s j data = (s', Ok cid) -> is_Some (networks s' !! ci_network_id cid).
Proof.
  unfold handshake0. destruct data as [[r| | | | | | | | |]|]; try done.
  destruct (handshake_network s r) as [s1 [nid| |]]; try done. destruct (set_client_id _ _ _) as [s2 [?| |]]; try done.
  destruct (get_network s2 nid) as [s3 [n| |]] eqn:Hg; try done. apply (apart_get_network j) in Hg as (_ & Hn & _).
  specialize (Hn n eq_refl). intros He. assert (s' = s3 /\ cid = mkClientId (rh_pub_key r) nid) as [-> ->].
  { destruct (peers n !! _) as [p|]; [destruct (is_online p); [done|]|]; by injection He as <- <-. }
  cbn. by rewrite Hn.
Qed.
Lemma tame_config_store s cid p : tame s (config_store s cid p).1.
Proof.
  unfold config_store. destruct (generated p); [|done]. destruct (update_ip _ _ _); [|done]. split; [done|].
  intros nid Hn. cbn. destruct (decide (nid = ci_network_id cid)) as [->|]; [|by rewrite lookup_alter_ne].
  by rewrite lookup_alter_eq, fmap_is_Some.
Qed.
Lemma tame_dispatch s j id cid data : tame s (dispatch s j id cid data).1.1.
Proof.
  destruct data as [| |r|r| | | | |r|r]; cbn [dispatch]; try done.
  - unfold ReqConfig_execute, config_plan. pose proof (tame_get_network s (ci_network_id cid)) as H1.
    destruct (get_network s _) as [s1 [n| |]]; try exact H1. cbn [fst] in H1.
    destruct (_ ≫= _) as [p| |]; try exact H1. unfold config_commit.
    pose proof (tame_config_store s1 cid p) as H2. destruct (config_store s1 cid p) as [s2 [?| |]]; cbn [fst] in H2; try (by etrans).
    destruct (ctx_network s2 cid) as [n2|]; [|by etrans]. unfold config_reply. destruct (negb _); [by etrans|].
    match goal with |- context [send ?x ?y ?z ?w] => pose proof (tame_send x y z w) as H3; destruct (send x y z w) as [[? ?] ?] end.
    by etrans; [|etrans].
  - unfold PeerForward_execute. destruct (ctx_network s cid) as [n|]; [|done]. destruct (pf_data r) as [[q]|]; [|done].
    pose proof (tame_broadcast_to s n (TcRequireReply q) [pf_target_pub_key r]). by destruct (broadcast_to _ _ _ _).
  - unfold PeerEnter_execute. pose proof (tame_get_network s (ci_network_id cid)) as H1.
    destruct (get_network s _) as [s1 [n| |]]; try exact H1. cbn [fst] in H1.
    destruct (peers n !! _) as [p|]; [|exact H1]. destruct (negb _); [exact H1|]. unfold broadcast.
    match goal with |- context [broadcast_by ?x ?y ?z ?w] => pose proof (tame_broadcast_by x y z w) as H3; destruct (broadcast_by x y z w) as [? ?] end.
    etrans; [exact H1|]. etrans; [apply tame_insert|exact H3].
  - unfold PeerLeave_execute. destruct (ctx_network s cid) as [n|]; [|done].
    pose proof (tame_offline s (ci_network_id cid) n (ci_pub_key cid)). by destruct (offline _ _ _ _).
  - unfold ExtraEndpoint_execute. destruct (ctx_network s cid) as [n|]; [|done]. destruct (peers n !! _) as [p|]; [|done].
    match goal with |- context [broadcast_to ?x ?y ?z ?w] => pose proof (tame_broadcast_to x y z w) as H3; destruct (broadcast_to x y z w) as [? ?] end.
    etrans; [apply tame_insert|exact H3].
  - unfold DevHandshakeComplete_execute. destruct (ctx_network s cid) as [n|]; [|done].
    destruct (union_pub_key _ _). apply tame_insert.
Qed.

(** No handler panics: the task of a connection always comes to its end in main.rs. *)
Lemma get_network_returns s nid : (get_network s nid).2 <> Panic.
Proof.
  unfold get_network. destruct (networks s !! nid); [done|]. destruct (negb _); [done|].
  destruct (list_find _ _) as [[? ?]|]; [|done]. by destruct (cidr_from_str _).
Qed.
Lemma handshake0_returns s j data : (handshake0 s j data).2 <> Panic.
Proof.
  unfold handshake0. destruct data as [[r| | | | | | | | |]|]; try done.
  assert ((handshake_network s r).2 <> Panic) as Hn.
  { unfold handshake_network. destruct (rh_token r); (destruct (negb _); [done|]); destruct (list_find _ _) as [[? t]|]; try done.
    destruct (nt_disabled t); [done|]. pose proof (get_network_returns s (nt_network_id t)) as Hg.
    by destruct (get_network _ _) as [? [| |]]. }
  destruct (handshake_network s r) as [s1 [nid| |]]; try done.
  assert ((set_client_id s1 j (mkClientId (rh_pub_key r) nid)).2 <> Panic) as Hs
    by (unfold set_client_id; destruct (conns s1 !! j) as [k|]; [by destruct (client_id k)|done]).
  destruct (set_client_id _ _ _) as [s2 [?| |]]; try done. pose proof (get_network_returns s2 nid) as Hg.
  destruct (get_network s2 nid) as [s3 [n| |]]; try done. destruct (peers n !! _) as [p|]; [by destruct (is_online p)|done].
Qed.
Lemma dispatch_returns s j id cid data : (dispatch s j id cid data).2 <> Panic.
Proof.
  pose proof (get_network_returns s (ci_network_id cid)) as Hg.
  destruct data as [| |r|r| | | | |r|r]; cbn [dispatch]; try done.
  - unfold ReqConfig_execute, config_plan. destruct (get_network s _) as [s1 [n| |]]; try done. cbn [snd] in *.
    match goal with |- context [@mbind ?M ?I ?A ?B ?f ?x] => assert (@mbind M I A B f x <> Panic) as Hp; [|destruct (@mbind M I A B f x) as [p| |]; try done] end.
    { destruct (peers n !! ci_pub_key cid) as [self|]; [|done]. cbn. destruct (pm_ip (model self)); cbn.
      - by destruct (ipv4_from_str _).
      - unfold generate_ip. by destruct (list_find _ _) as [[? ?]|]. }
    unfold config_commit. assert ((config_store s1 cid p).2 <> Panic) as Hs
      by (unfold config_store; destruct (generated p); [by destruct (update_ip _ _ _)|done]).
    destruct (config_store s1 cid p) as [s2 [?| |]]; try done. destruct (ctx_network s2 cid) as [n2|]; [|done].
    unfold config_reply. destruct (negb _); [done|]. destruct (send _ _ _ _) as [[? ?] [?|]]; done.
  - unfold PeerForward_execute. destruct (ctx_network s cid) as [n|]; [|done]. destruct (pf_data r) as [[q]|]; [|done].
    by destruct (broadcast_to _ _ _ _).
  - unfold PeerEnter_execute. destruct (get_network s _) as [s1 [n| |]]; try done.
    destruct (peers n !! _) as [p|]; [|done]. destruct (negb _); [done|]. by destruct (broadcast _ _ _ _).
  - unfold PeerLeave_execute. destruct (ctx_network s cid) as [n|]; [|done]. by destruct (offline _ _ _ _).
  - unfold ExtraEndpoint_execute. destruct (ctx_network s cid) as [n|]; [|done]. destruct (peers n !! _) as [p|]; [|done].
    by destruct (broadcast_to _ _ _ _).
  - unfold DevHandshakeComplete_execute. destruct (ctx_network s cid) as [n|]; [|done]. by destruct (union_pub_key _ _).
Qed.

(** An event moves on its own connection at most. *)
Record tame_but (j : nat) (s s' : Server) : Prop := mkTameBut {
  tb_conns j' : j' <> j -> (fun k => (addr k, phase k)) <$> conns s' !! j' = (fun k => (addr k, phase k)) <$> conns s !! j';
  tb_nets nid : is_Some (networks s !! nid) -> is_Some (networks s' !! nid);
}.
#[global] Instance tame_but_preorder j : PreOrder (tame_but j).
Proof. split; [done|]. intros x y z [H1 ?] [H2 ?]. split; [intros j' Hj; by rewrite H2, H1|auto]. Qed.
Lemma tame_tame_but j s s' : tame s s' -> tame_but j s s'.
Proof. intros [H1 H2]. by split. Qed.
Lemma tame_but_set_phase j s p : tame_but j s (set_phase s j p).
Proof. split; [|done]. intros j' Hj. cbn. by rewrite lookup_alter_ne. Qed.
Lemma tame_but_disconnect s j b : tame_but j s (disconnect s j b).1.
Proof.
  unfold disconnect. cbn [remove_client]. set (s0 := mkServer _ _ _ _).
  assert (tame_but j s s0) as H0 by (split; apply (tame_but_set_phase j s Closed)).
  destruct (_ ≫= _) as [cid|]; [|exact H0]. pose proof (tame_get_network s0 (ci_network_id cid)) as H1.
  destruct (get_network s0 _) as [s1 [n| |]]; cbn [fst] in *; (etrans; [exact H0|]); apply tame_tame_but; try exact H1.
  etrans; [exact H1|apply tame_offline].
Qed.
Lemma tame_but_step info s e : tame_but (conn_of e) s (step info s e).1.
Proof.
  destruct e as [j b|j m|j]; cbn [step conn_of].
  - destruct (conns s !! j) eqn:Hj; [done|]. unfold accept.
    match goal with |- context [send ?x ?y ?z ?w] => pose proof (tame_send x y z w) as H3; destruct (send x y z w) as [[? ?] ?] end.
    etrans; [|by apply tame_tame_but]. split; [|done]. intros j' Hne. cbn. by rewrite lookup_insert_ne.
  - destruct (conns s !! j) as [k|]; [cbn [fmap option_fmap option_map]|done]. destruct (phase k) as [|cid| |]; try done.
    + unfold await_handshake. pose proof (tame_handshake0 s j (to_server_data m)) as H1.
      destruct (handshake0 s j _) as [s1 [cid|e|]]; cbn [fst] in *;
        try match goal with |- context [send ?x ?y ?z ?w] => pose proof (tame_send x y z w) as H3; destruct (send x y z w) as [[? ?] ?] end;
        (etrans; [|apply tame_but_set_phase]); apply tame_tame_but; try exact H1; by etrans.
    + unfold process_message. destruct (to_server_data m) as [data|]; [|done].
      pose proof (tame_dispatch s j (ts_id m) cid data) as H1.
      destruct (dispatch s j _ cid data) as [[s1 out] [?|e|]]; cbn [fst] in *.
      * by apply tame_tame_but.
      * match goal with |- context [send ?x ?y ?z ?w] => pose proof (tame_send x y z w) as H3; destruct (send x y z w) as [[? ?] o] end.
        assert (tame s s0) by by etrans. destruct o; [by apply tame_tame_but|]. etrans; [by apply tame_tame_but|apply tame_but_set_phase].
      * etrans; [by apply tame_tame_but|apply tame_but_set_phase].
  - destruct (conns s !! j) as [k|]; [|done]. destruct (phase k); try done; apply tame_but_disconnect.
Qed.
End Tame.

(** ** Which messages are handled *)

Section Proofs.
Context `{Ipv4NetworkLib, BroadcastLaws}.
Context (decode : bytes -> option ToServer) (info : RespServerInfo) (c : nat) (a : string).
#[local] Abbreviation turn := (turn decode info c a).
#[local] Abbreviation turns := (turns decode info c a).

(** The messages of connection [c] among events. *)
Definition received (evs : list Event) : list ToServer :=
  omap (fun e => match e with EvRecv j m => if decide (j = c) then Some m else None | _ => None end) evs.
Lemma received_app e1 e2 : received (e1 ++ e2) = received e1 ++ received e2.
Proof. apply omap_app. Qed.

Definition own (s : Server) : option (string * Phase) := (fun k => (addr k, phase k)) <$> conns s !! c.
Lemma own_phase s : phase <$> conns s !! c = snd <$> own s.
Proof. unfold own. by rewrite <- option_fmap_compose. Qed.
Lemma own_tame s s' : tame s s' -> own s' = own s.
Proof. intros [Hc _]. apply Hc. Qed.
Lemma own_set_phase s p b q : own s = Some (b, q) -> own (set_phase s c p) = Some (b, p).
Proof. unfold own. cbn. rewrite lookup_alter_eq. by destruct (conns s !! c) as [k|]; [intros [= <- _]|]. Qed.

(** Where [Headlink] is with the connection. *)
Lemma step_await s m b : own s = Some (b, AwaitHandshake) -> step info s (EvRecv c m) = await_handshake s c m.
Proof. intros Ho. cbn [step]. by rewrite own_phase, Ho. Qed.
Lemma step_running s cid m b : own s = Some (b, Running cid) -> step info s (EvRecv c m) = process_message s c cid m.
Proof. intros Ho. cbn [step]. by rewrite own_phase, Ho. Qed.
Lemma step_finish s p : own s = Some (a, p) -> p <> Closed -> step info s (EvDisconnect c) = disconnect s c a.
Proof. unfold own. cbn [step]. destruct (conns s !! c) as [k|]; [|done]. intros [= -> <-] Hp. by destruct (phase k). Qed.

(** After the handshake the connection runs in a cached network, or is about to close. *)
Lemma await_handshake_own s m b : own s = Some (b, AwaitHandshake) -> let s' := (await_handshake s c m).1 in
  own s' = Some (b, Closing) \/ exists cid, own s' = Some (b, Running cid) /\ is_Some (networks s' !! ci_network_id cid).
Proof.
  intros Ho. unfold await_handshake. pose proof (tame_handshake0 s c (to_server_data m)) as HT.
  pose proof (handshake0_cached s c (to_server_data m)) as Hcached.
  destruct (handshake0 s c _) as [s1 [cid|e|]]; cbn [fst] in HT; cbv zeta;
    try match goal with |- context [send ?x ?y ?z ?w] => pose proof (tame_send x y z w) as HS; destruct (send x y z w) as [[s2 ?] ?] end;
    cbn [fst] in *.
  - right. exists cid. split; [eapply own_set_phase; rewrite (own_tame s1), (own_tame s); done|].
    apply HS. by apply Hcached.
  - left. eapply own_set_phase. by rewrite (own_tame s1), (own_tame s).
  - left. eapply own_set_phase. by rewrite (own_tame s).
Qed.
Lemma process_message_own s cid m b : own s = Some (b, Running cid) ->
  own (process_message s c cid m).1 = Some (b, Running cid) \/ own (process_message s c cid m).1 = Some (b, Closing).
Proof.
  intros Ho. unfold process_message. destruct (to_server_data m) as [data|]; [|by left].
  pose proof (tame_dispatch s c (ts_id m) cid data) as HT.
  destruct (dispatch s c _ cid data) as [[s1 out] [?|e|]]; cbn [fst] in *.
  - left. by rewrite (own_tame s).
  - match goal with |- context [send ?x ?y ?z ?w] => pose proof (tame_send x y z w) as HS; destruct (send x y z w) as [[s2 ?] o] end.
    cbn [fst] in *. assert (own s2 = Some (b, Running cid)) as Ho2 by by rewrite (own_tame s1), (own_tame s).
    destruct o; [by left|right]. by eapply own_set_phase.
  - right. eapply own_set_phase. by rewrite (own_tame s).
Qed.

(** The first message and what came behind the missed ones are taken, from the front on. *)
Definition shape (st : ClientStream) : Prop := exists first rest,
  cs_arrived st = first ++ cs_missed st ++ rest /\ (length first <= 1)%nat /\ cs_taken st `prefix_of` first ++ rest.
Definition Inv (y : Sys) : Prop :=
  let '(s, st) := y in
  bsent (recv_tx st) = cs_arrived st /\ (128 <= bcapacity (recv_tx st))%nat /\ is_connected st = open st /\
  match cs_pc st with
  | AwaitingHandshake rx => own s = Some (a, AwaitHandshake) /\ bpos rx = 0%nat /\ cs_taken st = [] /\ cs_missed st = []
  | Subscribing cid => own s = Some (a, Running cid) /\ is_Some (networks s !! ci_network_id cid) /\ cs_missed st = [] /\
      exists m rest, cs_arrived st = m :: rest /\ cs_taken st = [m]
  | Serving cid rx => own s = Some (a, Running cid) /\
      exists m rest n, cs_arrived st = m :: cs_missed st ++ rest /\ cs_taken st = m :: take n rest /\
        bpos rx = S (length (cs_missed st) + n) /\ (n <= length rest)%nat
  | Returned => shape st
  end.

Lemma Inv_shape s st : Inv (s, st) -> shape st.
Proof.
  intros (_ & _ & _ & Hpc). destruct (cs_pc st); [..|done].
  - destruct Hpc as (_ & _ & Ht & Hm). exists [], (cs_arrived st). rewrite Ht, Hm. split_and!; [done|cbn; lia|apply prefix_nil].
  - destruct Hpc as (_ & _ & Hm & m & rest & Ha & Ht). exists [m], rest. rewrite Ht, Hm, Ha.
    split_and!; [done|done|]. by exists rest.
  - destruct Hpc as (_ & m & rest & n & Ha & Ht & _). exists [m], rest. rewrite Ht, Ha. split_and!; [done|done|].
    exists (drop n rest). cbn. by rewrite take_drop.
Qed.

(** A turn is the events of [Headlink] it says it is. *)
Definition simulates (y : Sys) (r : Res) : Prop := let '(y', out, evs) := r in
  run info y.1 evs = (y'.1, out) /\ Inv y' /\ cs_taken y'.2 = cs_taken y.2 ++ received evs.

Lemma run_one s e : run info s [e] = step info s e.
Proof. rewrite run_cons. destruct (step info s e) as [s' o]. cbn. by rewrite app_nil_r. Qed.
Lemma sim_idle y : Inv y -> simulates y (y, [], []).
Proof. intros Hi. split_and!; [by destruct y|done|]. by rewrite app_nil_r. Qed.
Lemma sim_finish s st p : own s = Some (a, p) -> p <> Closed -> bsent (recv_tx st) = cs_arrived st ->
  (128 <= bcapacity (recv_tx st))%nat -> shape st -> simulates (s, st) (finish c a (s, st)).
Proof.
  intros Ho Hp Hs Hc Hsh. unfold finish, simulates. cbn [fst snd]. rewrite <- (step_finish s p) by done.
  destruct (step info s _) as [s' o] eqn:He. rewrite run_one. split_and!; [done..|]. by rewrite app_nil_r.
Qed.
(** One message was handled, and what is done next simulates. *)
Lemma sim_recv s st m s1 st1 out y' out' evs' : step info s (EvRecv c m) = (s1, out) -> cs_taken st1 = cs_taken st ++ [m] ->
  simulates (s1, st1) (y', out', evs') -> simulates (s, st) (y', out ++ out', EvRecv c m :: evs').
Proof.
  intros He Ht (Hr & Hi & Hk). unfold simulates. cbn [fst snd] in *. rewrite run_cons, He, Hr. split_and!; [done..|].
  rewrite Hk, Ht. unfold received. cbn [omap list_omap]. rewrite decide_True by done. by rewrite <- app_assoc.
Qed.
Lemma sim_then_finish s st m s1 st1 out p : step info s (EvRecv c m) = (s1, out) -> cs_taken st1 = cs_taken st ++ [m] ->
  own s1 = Some (a, p) -> p <> Closed -> bsent (recv_tx st1) = cs_arrived st1 -> (128 <= bcapacity (recv_tx st1))%nat -> shape st1 ->
  simulates (s, st) (then_finish c a (s1, st1) out [EvRecv c m]).
Proof.
  intros He Ht Ho Hp Hs Hc Hsh. unfold then_finish. pose proof (sim_finish s1 st1 p Ho Hp Hs Hc Hsh) as Hf.
  destruct (finish _ _ _) as [[y' o'] e']. by eapply sim_recv.
Qed.

Lemma process_sim y : Inv y -> simulates y (process_client c a y).
Proof.
  destruct y as [s st]. intros Hi. pose proof (Inv_shape _ _ Hi) as Hsh. pose proof Hi as (Hs & Hc & Hopen & Hpc).
  unfold process_client. destruct (cs_pc st) as [rx|cid|cid rx|] eqn:Epc; [..|by apply sim_idle].
  - destruct Hpc as (Ho & Hpos & Ht & Hm). destruct (brecv (recv_tx st) rx) as [[[m|] rx']|] eqn:Hb; [|by eapply sim_finish|by apply sim_idle].
    apply brecv_item in Hb as (Hget & _ & _). rewrite Hpos, Hs in Hget. destruct (cs_arrived st) as [|m0 rest] eqn:Ea; [done|]. injection Hget as ->.
    pose proof (step_await s m _ Ho) as Hstep. pose proof (await_handshake_own s m _ Ho) as Hown.
    destruct (await_handshake s c m) as [s1 out]. cbn [fst] in Hown. cbv zeta in Hown. rewrite own_phase.
    destruct Hown as [Hcl|(cid & Hrun & Hnet)].
    + rewrite Hcl. cbn [fmap option_fmap option_map snd]. eapply sim_then_finish; try done; [by cbn; rewrite Ea|]. exists [m], rest. cbn. rewrite Ea, Ht, Hm.
      split_and!; [done|lia|]. by exists rest.
    + rewrite Hrun. cbn [fmap option_fmap option_map snd]. rewrite <- (app_nil_r out). eapply (sim_recv _ _ _ _ (at_pc (Subscribing cid) (take_msg m st))); [done|done|].
      apply sim_idle. cbn. rewrite Ea, Hm, Ht, Hopen. unfold open. rewrite Epc. split_and!; try done. by exists m, rest.
  - destruct Hpc as (Ho & [n Hn] & Hm & m & rest & Ha & Ht). unfold get_network. rewrite Hn. split_and!; [done| |by cbn; rewrite app_nil_r].
    cbn. rewrite Hopen. unfold open. rewrite Epc. split_and!; try done. exists m, [], 0%nat.
    rewrite Ha, Ht, subscribe_pos, Hs, Ha. cbn. rewrite !app_nil_r, drop_0, Nat.add_0_r. done.
  - destruct Hpc as (Ho & m0 & rest & n & Ha & Ht & Hpos & Hn).
    destruct (brecv (recv_tx st) rx) as [[[m|] rx']|] eqn:Hb; [|by eapply sim_finish|by apply sim_idle].
    apply brecv_item in Hb as (Hget & Hpos' & _). rewrite Hs, Hpos, Ha in Hget.
    change ((cs_missed st ++ rest) !! (length (cs_missed st) + n)%nat = Some m) in Hget.
    rewrite lookup_app_r in Hget by lia. replace (_ - _)%nat with n in Hget by lia.
    pose proof (step_running s cid m _ Ho) as Hstep. pose proof (process_message_own s cid m _ Ho) as Hown.
    destruct (process_message s c cid m) as [s1 out]. cbn [fst] in Hown. rewrite own_phase.
    pose proof (lookup_lt_Some _ _ _ Hget) as Hlt.
    destruct Hown as [Hrun|Hcl].
    + rewrite Hrun. cbn [fmap option_fmap option_map snd]. rewrite <- (app_nil_r out). eapply (sim_recv _ _ _ _ (at_pc (Serving cid rx') (take_msg m st))); [done|done|].
      apply sim_idle. cbn. rewrite Hopen. unfold open. rewrite Epc. split_and!; try done.
      exists m0, rest, (S n). rewrite Ht, (take_S_r _ _ m) by done. split_and!; [done|done|lia|lia].
    + rewrite Hcl. cbn [fmap option_fmap option_map snd]. eapply sim_then_finish; try done. exists [m0], rest. cbn. rewrite Ha, Ht. split_and!; [done|done|].
      cbn. rewrite <- (take_S_r _ _ m) by done. exists (drop (S n) rest). cbn. by rewrite take_drop.
Qed.

Lemma turn_sim y t : Inv y -> simulates y (turn y t).
Proof.
  destruct y as [s st]. intros Hi. pose proof (Inv_shape _ _ Hi) as Hsh. pose proof Hi as (Hs & Hc & Hopen & Hpc).
  assert (open st = true -> exists p, own s = Some (a, p) /\ p <> Closed) as Hown.
  { unfold open. destruct (cs_pc st); intros He; [..|done]; destruct Hpc as (Ho & _); rewrite Ho; by eexists. }
  destruct t as [b| | |e]; cbn [Serve.turn].
  - cbn [snd]. destruct (open st) eqn:Eo; [|by apply sim_idle]. destruct (Hown eq_refl) as (p & Ho & Hp). unfold recv_handler.
    destruct (b ≫= decode) as [m|] eqn:Hb.
    2: { by eapply sim_finish. }
    split_and!; [done| |by cbn; rewrite app_nil_r]. cbn. destruct (bsend_sent _ (recv_tx st) m) as [-> ->].
    rewrite Hs, Hopen. unfold open. cbn. fold (open st). split_and!; [done|done|done|].
    destruct (cs_pc st) as [rx|cid|cid rx|] eqn:Epc; [done|..].
    + destruct Hpc as (H1' & H2' & H3' & m' & rest & Ha & Ht). split_and!; try done. exists m', (rest ++ [m]). by rewrite Ha.
    + destruct Hpc as (H1' & m0 & rest & n & Ha & Ht & Hpos & Hn). split; [done|]. exists m0, (rest ++ [m]), n.
      rewrite Ha, Ht, take_app_le by lia. split_and!; [cbn; by rewrite <- app_assoc|done|done|]. rewrite length_app. lia.
    + unfold open in Eo. by rewrite Epc in Eo.
  - by apply process_sim.
  - cbn [snd]. destruct (cs_pc st) eqn:Epc; try by apply sim_idle. destruct Hpc as (Ho & _). by eapply sim_finish.
  - destruct (decide _) as [|Hne]; [by apply sim_idle|]. pose proof (tame_but_step info s e) as [Hcn Hnn]. cbn [fst snd].
    destruct (step info s e) as [s1 o] eqn:He. cbn [fst] in *. split_and!; [by rewrite run_one| |].
    + assert (own s1 = own s) as Hoe by (apply Hcn; congruence). cbn. split_and!; try done.
      destruct (cs_pc st); rewrite ?Hoe; naive_solver.
    + cbn. destruct e as [|j m|]; cbn; rewrite ?app_nil_r; try done. cbn in Hne. rewrite decide_False by done. by rewrite app_nil_r.
Qed.

Lemma server_run_app s es es' : run info s (es ++ es') =
  let '(s1, o1) := run info s es in let '(s2, o2) := run info s1 es' in (s2, o1 ++ o2).
Proof.
  revert s. induction es as [|e es IH]; intros s; cbn [app].
  { change (run info s []) with (s, @nil Out). cbv beta iota. by destruct (run info s es'). }
  rewrite !run_cons. destruct (step info s e) as [s1 o1]. rewrite IH. destruct (run info s1 es) as [s2 o2].
  destruct (run info s2 es') as [s3 o3]. by rewrite app_assoc.
Qed.
Lemma start_sim s : conns s !! c = None -> let '(y, out, evs) := serve_start info c a s in
  run info s evs = (y.1, out) /\ Inv y /\ cs_taken y.2 = received evs.
Proof.
  intros Hn. assert (accept info s c a = step info s (EvAccept c a)) as Hst by (cbn; by rewrite Hn).
  assert (own (accept info s c a).1 = Some (a, AwaitHandshake)) as Ho.
  { unfold accept. match goal with |- context [send ?x ?y ?z ?w] => pose proof (tame_send x y z w) as HS; destruct (send x y z w) as [[s2 ?] o] end.
    cbn [fst] in *. rewrite (own_tame _ _ HS). unfold own. cbn. by rewrite lookup_insert_eq. }
  unfold serve_start. rewrite Hst in *. destruct (step info s _) as [s1 o] eqn:He. unfold ClientStream_new.
  destruct (bchannel_new ToServer 128) as (H1' & H2' & H3'). destruct (bchannel 128) as [tx rx]. cbn [fst snd] in *.
  by rewrite run_one.
Qed.
Lemma turns_cons y out evs t ts : turns (y, out, evs) (t :: ts) =
  let '(y', out', evs') := turn y t in turns (y', out ++ out', evs ++ evs') ts.
Proof. unfold Serve.turns. cbn [foldl]. by destruct (turn y t) as [[? ?] ?]. Qed.
Lemma turns_sim s0 ts : forall y out evs, run info s0 evs = (y.1, out) -> Inv y -> cs_taken y.2 = received evs ->
  let '(y', out', evs') := turns (y, out, evs) ts in
  run info s0 evs' = (y'.1, out') /\ Inv y' /\ cs_taken y'.2 = received evs'.
Proof.
  induction ts as [|t ts IH]; intros y out evs Hr Hi Ht; [done|]. rewrite turns_cons.
  pose proof (turn_sim y t Hi) as Hs. destruct (turn y t) as [[y1 o1] e1]. destruct Hs as (Hr1 & Hi1 & Ht1).
  apply IH; [|done|]; [by rewrite server_run_app, Hr, Hr1|]. by rewrite Ht1, Ht, received_app.
Qed.

(** A receiver that is too far behind ends the connection with its next turn. *)
Lemma process_lagged s st cid rx : Inv (s, st) -> cs_pc st = Serving cid rx ->
  (bcapacity (recv_tx st) < length (cs_arrived st) - bpos rx)%nat -> process_client c a (s, st) = finish c a (s, st).
Proof.
  intros (Hs & Hc & _ & Hpc) Epc Hl. unfold process_client. rewrite Epc in *.
  destruct (brecv (recv_tx st) rx) as [[[m|] rx']|] eqn:Hb; [|done|].
  - apply brecv_item in Hb as (_ & _ & Hb). rewrite Hs in Hb. lia.
  - apply brecv_empty in Hb. rewrite Hs in Hb. lia.
Qed.
(** One that is not takes its next message. *)
Lemma process_item s st cid rx : Inv (s, st) -> cs_pc st = Serving cid rx ->
  (0 < length (cs_arrived st) - bpos rx <= bcapacity (recv_tx st))%nat -> exists m rx', cs_arrived st !! bpos rx = Some m /\ bpos rx' = S (bpos rx) /\
    let '(s', out) := step info s (EvRecv c m) in
    process_client c a (s, st) =
      match phase <$> conns s' !! c with
      | Some (Running _) => ((s', at_pc (Serving cid rx') (take_msg m st)), out, [EvRecv c m])
      | _ => then_finish c a (s', at_pc (Serving cid rx') (take_msg m st)) out [EvRecv c m]
      end.
Proof.
  intros (Hs & Hc & _ & Hpc) Epc Hl. unfold process_client. rewrite Epc in *. destruct Hpc as (Ho & _).
  destruct (brecv (recv_tx st) rx) as [[[m|] rx']|] eqn:Hb.
  - apply brecv_item in Hb as (Hb & Hp & _). rewrite Hs in Hb. exists m, rx'. split_and!; [done|done|].
    rewrite (step_running _ _ _ _ Ho). by destruct (process_message s c cid m).
  - apply brecv_lagged in Hb. rewrite Hs in Hb. lia.
  - apply brecv_empty in Hb. rewrite Hs in Hb. lia.
Qed.

(** After the end nothing is processed. *)
Lemma closed_idle s st out evs k : cs_pc st = Returned ->
  turns ((s, st), out, evs) (replicate k Process) = ((s, st), out, evs).
Proof.
  intros Hp. assert (process_client c a (s, st) = ((s, st), [], [])) as Hi by (unfold process_client; by rewrite Hp).
  induction k as [|k IH]; [done|]. cbn [replicate]. rewrite turns_cons. cbn [Serve.turn].
  rewrite Hi, !app_nil_r. exact IH.
Qed.

(** Turns of [process_client] take all that is pending, unless the handling of a message
    ends the connection. *)
Lemma drain_pending k : forall s st cid rx out evs, Inv (s, st) -> cs_pc st = Serving cid rx ->
  k = (length (cs_arrived st) - bpos rx)%nat -> (k <= bcapacity (recv_tx st))%nat ->
  let '((s', st'), out', evs') := turns ((s, st), out, evs) (replicate k Process) in
  (open st' = true /\ cs_taken st' = cs_taken st ++ drop (bpos rx) (cs_arrived st) /\
     evs' = evs ++ (EvRecv c <$> drop (bpos rx) (cs_arrived st))) \/
  (exists ms m ms', drop (bpos rx) (cs_arrived st) = ms ++ m :: ms' /\
     evs' = evs ++ (EvRecv c <$> ms ++ [m]) ++ [EvDisconnect c] /\
     phase <$> conns (run info s (EvRecv c <$> ms ++ [m])).1 !! c = Some Closing).
Proof.
  induction k as [|k IH]; intros s st cid rx out evs Hi Epc Hk Hle; cbn [replicate].
  - cbn. left. rewrite drop_ge by lia. rewrite !app_nil_r. by unfold open; rewrite Epc.
  - destruct (process_item s st cid rx Hi Epc ltac:(lia)) as (m & rx' & Hm & Hrx & Hp).
    pose proof (drop_S _ _ _ Hm) as Hd. pose proof (process_sim _ Hi) as Hsim.
    destruct Hi as (_ & _ & _ & Hpc). rewrite Epc in Hpc. destruct Hpc as (Ho & _).
    pose proof (process_message_own s cid m _ Ho) as Hown. rewrite <- (step_running _ _ _ _ Ho) in Hown.
    rewrite turns_cons. cbn [Serve.turn]. destruct (step info s (EvRecv c m)) as [s1 o1] eqn:He.
    rewrite own_phase in Hp. cbn [fst] in Hown. destruct Hown as [Hrun|Hcl].
    + rewrite Hrun in Hp. cbn [fmap option_fmap option_map snd] in Hp. rewrite Hp in Hsim |- *. destruct Hsim as (_ & Hi1 & _).
      specialize (IH _ _ cid rx' (out ++ o1) (evs ++ [EvRecv c m]) Hi1 eq_refl). cbn [cs_arrived at_pc take_msg cs_taken recv_tx] in IH.
      specialize (IH ltac:(rewrite Hrx; lia) ltac:(lia)). destruct (turns _ _) as [[[s' st'] out'] evs'].
      rewrite Hd. destruct IH as [(H1' & H2' & H3')|(ms & m1 & ms' & H1' & H2' & H3')].
      * left. rewrite H2', H3', Hrx, <- !app_assoc. done.
      * right. exists (m :: ms), m1, ms'. rewrite <- Hrx, H1', H2', <- app_assoc. split_and!; [done|done|].
        cbn [app fmap list_fmap]. rewrite run_cons, He. by destruct (run info s1 _).
    + rewrite Hcl in Hp. cbn [fmap option_fmap option_map snd] in Hp. rewrite Hp. clear Hsim IH. unfold then_finish, finish.
      destruct (disconnect _ _ _) as [s2 o2]. cbn [fst snd].
      rewrite closed_idle by done. right. exists [], m, (drop (S (bpos rx)) (cs_arrived st)). rewrite Hd. split_and!; [done|done|].
      cbn [app fmap list_fmap]. rewrite run_one, He. cbn [fst]. by rewrite own_phase, Hcl.
Qed.

(** Nothing of a polite client is missed. *)
Definition punctual (st : ClientStream) : Prop :=
  cs_missed st = [] /\ match cs_pc st with AwaitingHandshake _ | Subscribing _ => (length (cs_arrived st) <= 1)%nat | _ => True end.
Lemma finish_punctual y : punctual y.2 -> punctual (finish c a y).1.1.2.
Proof. intros [Hm _]. unfold finish. by destruct (disconnect _ _ _). Qed.
Lemma then_finish_punctual y out evs : punctual y.2 -> punctual (then_finish c a y out evs).1.1.2.
Proof. intros Hm. unfold then_finish. pose proof (finish_punctual y Hm). by destruct (finish _ _ _) as [[? ?] ?]. Qed.
Lemma process_punctual y : punctual y.2 -> punctual (process_client c a y).1.1.2.
Proof.
  destruct y as [s st]. intros Hp. pose proof Hp as [Hm Hl]. cbn [snd] in Hm, Hl. unfold process_client.
  destruct (cs_pc st) as [rx|cid|cid rx|] eqn:Epc.
  - destruct (brecv _ _) as [[[m|] ?]|]; [|by apply finish_punctual|done]. destruct (await_handshake s c m) as [s1 out].
    destruct (phase <$> _) as [[| | |]|]; try (apply then_finish_punctual; split; cbn; by rewrite ?Epc). by split.
  - assert (drop 1 (cs_arrived st) = []) as Hd by (by apply drop_ge). destruct (get_network _ _) as [s1 [n| |]]; [by split|..]; by apply finish_punctual.
  - destruct (brecv _ _) as [[[m|] ?]|]; [|by apply finish_punctual|done]. destruct (process_message s c cid m) as [s1 out].
    destruct (phase <$> _) as [[| | |]|]; try (apply then_finish_punctual; by split). by split.
  - done.
Qed.
Lemma polite_punctual ts : forall y out evs, punctual y.2 -> polite decode info c a y ts = true ->
  punctual (turns (y, out, evs) ts).1.1.2.
Proof.
  induction ts as [|t ts IH]; intros y out evs Hp; [done|]. cbn [polite]. intros [Ht Hts]%andb_prop. rewrite turns_cons.
  assert (punctual (turn y t).1.1.2) as Hn; [|destruct (turn y t) as [[y' o'] e']; by apply IH].
  clear IH Hts. destruct t as [b| | |e]; cbn [Serve.turn].
  - destruct (open y.2) eqn:Eo; [|done]. unfold recv_handler. destruct (b ≫= decode) as [m|]; [|by apply finish_punctual].
    destruct Hp as [Hm Hl]. split; [done|]. cbn. destruct (cs_pc y.2); try done; destruct (cs_arrived y.2); try done; cbn; lia.
  - by apply process_punctual.
  - destruct (cs_pc y.2); try done; by apply finish_punctual.
  - destruct (decide _); [done|]. by destruct (step info y.1 e).
Qed.
End Proofs.

(** C34: what the server does with the messages of a connection. From its start, over any
    turns of its futures with any events of other connections in between, the server is left
    as [Headlink] says for the messages that were handled, in that order, and those are the
    first message and the ones behind the missed, from the front on, none twice; nothing is
    missed of a client that sends its handshake and waits until its requests are listened for. The
    requests that are pending are all handled by as many turns of [process_client] if they are
    no more than the capacity of the channel, which is 128 or more, unless handling one ends the
    connection, and if they are more the next turn disconnects the client. *)
Theorem requests_served `{Ipv4NetworkLib, BroadcastLaws} decode info c a s0 ts : conns s0 !! c = None ->
  let r := turns decode info c a (serve_start info c a s0) ts in
  let '((s, st), out, evs) := r in
  run info s0 evs = (s, out) /\ received c evs = cs_taken st /\ is_connected st = open st /\
  (exists first rest, cs_arrived st = first ++ cs_missed st ++ rest /\ (length first <= 1)%nat /\
    cs_taken st `prefix_of` first ++ rest) /\
  (polite decode info c a (serve_start info c a s0).1.1 ts = true -> cs_missed st = []) /\
  (128 <= bcapacity (recv_tx st))%nat /\
  forall cid rx, cs_pc st = Serving cid rx ->
    let pending := drop (bpos rx) (cs_arrived st) in
    if decide (length pending <= bcapacity (recv_tx st))%nat then
      let '((_, st'), _, evs') := turns decode info c a ((s, st), [], []) (replicate (length pending) Process) in
      (open st' = true /\ evs' = EvRecv c <$> pending /\
         exists m rest, cs_arrived st = m :: cs_missed st ++ rest /\ cs_taken st' = m :: rest) \/
      (exists ms m ms', pending = ms ++ m :: ms' /\ evs' = (EvRecv c <$> ms ++ [m]) ++ [EvDisconnect c] /\
         phase <$> conns (run info s (EvRecv c <$> ms ++ [m])).1 !! c = Some Closing)
    else let '((_, st'), _, evs') := turn decode info c a (s, st) Process in
      cs_pc st' = Returned /\ evs' = [EvDisconnect c].
Proof.
  intros Hc. pose proof (start_sim info c a s0 Hc) as Hst.
  assert (punctual (serve_start info c a s0).1.1.2) as Hpu.
  { unfold serve_start, ClientStream_new. destruct (accept _ _ _ _), (bchannel 128). split; [done|]. cbn. lia. }
  pose proof (polite_punctual decode info c a ts _ (serve_start info c a s0).1.2 (serve_start info c a s0).2 Hpu) as Hpol.
  destruct (serve_start info c a s0) as [[y0 out0] evs0]. destruct Hst as (Hr0 & Hi0 & Ht0). cbn [fst snd] in Hpol.
  pose proof (turns_sim decode info c a s0 ts _ _ _ Hr0 Hi0 Ht0) as Hts. cbv zeta. cbn [fst].
  destruct (turns decode info c a _ ts) as [[[s st] out] evs]. destruct Hts as (Hr & Hi & Ht). cbn [fst snd] in *.
  split_and!; [done|done|by destruct Hi as (_ & _ & Ho & _)|by eapply Inv_shape|by intros [Hm _]%Hpol|by destruct Hi as (_ & Hcap & _)|].
  intros cid rx Epc. case_decide as Hle; rewrite length_drop in Hle.
  - rewrite length_drop. pose proof (drain_pending decode info c a _ s st cid rx [] [] Hi Epc eq_refl Hle) as Hd.
    destruct (turns _ _ _ _ _ _) as [[[s' st'] out'] evs']. destruct Hd as [(H1' & H2' & H3')|Hd]; [left|by right].
    split_and!; [done|done|]. destruct Hi as (_ & _ & _ & Hpc). rewrite Epc in Hpc. destruct Hpc as (_ & m & rest & n & Ha & Htk & Hp & Hn).
    exists m, rest. split; [done|]. rewrite H2', Htk, Ha, Hp. cbn. rewrite <- drop_drop, drop_app_length. by rewrite take_drop.
  - cbn [turn]. rewrite (process_lagged c a s st cid rx) by (done || lia). unfold finish. by destruct (disconnect _ _ _).
Qed.

(** ** A client that does not wait *)
Module Toy.
Definition hs : ToServer := mkToServer 1 (hello "a").
Definition req (id : Z) : ToServer := mkToServer id (Some TsReqConfig).
Definition decode (b : bytes) : option ToServer :=
  match b with [] => Some hs | [x] => Some (req (u8 x)) | _ => None end.
(** The second message comes right behind the handshake, the third when it is expected. *)
Definition eager : list Turn := [Frame (Some []); Process; Frame (Some [x02]); Process; Frame (Some [x03]); Process].
End Toy.

Section Witness.
#[local] Existing Instance Headlink.Toy.lib.
#[local] Existing Instance ListBroadcast.lib.
Definition toy_run : Res := turns Toy.decode Headlink.toy_info 1 "x" (serve_start Headlink.toy_info 1 "x" (Server_new Headlink.toy_db)) Toy.eager.
(** The request that came too early is never handled; the one after it is. *)
Lemma requests_served_witness :
  cs_arrived toy_run.1.1.2 = [Toy.hs; Toy.req 2; Toy.req 3] /\ cs_missed toy_run.1.1.2 = [Toy.req 2] /\
  cs_taken toy_run.1.1.2 = [Toy.hs; Toy.req 3] /\ open toy_run.1.1.2 = true /\
  run Headlink.toy_info (Server_new Headlink.toy_db) toy_run.2 = (toy_run.1.1.1, toy_run.1.2) /\
  received 1 toy_run.2 = cs_taken toy_run.1.1.2.
Proof.
  split; [vm_compute; reflexivity|]. split; [vm_compute; reflexivity|]. split; [vm_compute; reflexivity|].
  split; [vm_compute; reflexivity|].
  pose proof (requests_served (H := Headlink.Toy.lib) (H0 := ListBroadcast.lib) (H1 := ListBroadcast.laws) Toy.decode Headlink.toy_info 1 "x"
    (Server_new Headlink.toy_db) Toy.eager eq_refl) as Hs. cbv zeta in Hs.
  change (turns Toy.decode Headlink.toy_info 1 "x" (serve_start Headlink.toy_info 1 "x" (Server_new Headlink.toy_db)) Toy.eager) with toy_run in Hs.
  destruct toy_run as [[[s st] out] evs]. destruct Hs as (Hr & Hv & _). split; [exact Hr|exact Hv].
Defined.
End Witness.
End Serve.
