(* ===== verification/Schema.v ===== *)
(** * The tables of the registration server (headlink/src/db/entity/)

    Each entity declares its table: columns with their types, which may be null, which are
    unique, the primary key, and the relations between tables. This file has the declarations
    as data, says what a database that keeps them guarantees of the rows [Headlink] reads, and
    shows what the server owes to them: the order in which the database returns rows does not
    matter, and no registered peer is shadowed in a network that is loaded. *)

From S2P Require Import Prelude Bytes Abi Headlink Join.
#[local] Open Scope Z_scope.

Module Schema.
Import Headlink.

(** ** The declarations of SeaORM's prelude, as far as they are used *)
Inductive ColumnType := CtText | CtString (len : option Z) | CtBigInteger | CtInteger | CtBoolean | CtDateTime | CtCidr.
Record ColumnDef := mkColumnDef { col_type : ColumnType; col_null : bool; col_unique : bool }.
Definition def (t : ColumnType) : ColumnDef := mkColumnDef t false false.
Definition null (c : ColumnDef) : ColumnDef := mkColumnDef (col_type c) true (col_unique c).
Definition unique (c : ColumnDef) : ColumnDef := mkColumnDef (col_type c) (col_null c) true.

(** [EntityName], [ColumnTrait] with the order of [EnumIter], [PrimaryKeyTrait]. *)
Class EntityTrait (C : Type) := {
  column_eq_dec :: EqDecision C;
  table_name : string;
  columns : list C;
  column_def : C -> ColumnDef;
  primary_key : C;
  auto_increment : bool;
}.

(** [RelationDef]: from one column to another; [rev] is what [has_many] makes of the other
    side's relation. *)
Record RelationDef := mkRelationDef { rel_from : string * string; rel_to : string * string; rel_many : bool }.
Definition rev (r : RelationDef) : RelationDef := mkRelationDef (rel_to r) (rel_from r) (negb (rel_many r)).

(** ** peer.rs *)
Module Peer.
Inductive PeerColumn := Id | PubKey | Ip | EndpointAddr | Port | DefaultProto | NetworkId | CreateAt | UpdateAt | Disabled.
#[global] Instance PeerColumn_eq_dec : EqDecision PeerColumn.
Proof. solve_decision. Defined.
Definition peer_column_def (c : PeerColumn) : ColumnDef :=
  match c with
  | PubKey => unique (def CtText)
  | Id => unique (def CtBigInteger)
  | Ip => null (def CtText)
  | EndpointAddr => null (def CtText)
  | DefaultProto => null (def CtText)
  | Port => null (def CtInteger)
  | NetworkId => def CtBigInteger
  | Disabled => def CtBoolean
  | CreateAt => null (def CtDateTime)
  | UpdateAt => null (def CtDateTime)
  end.
#[global] Instance peer_entity : EntityTrait PeerColumn := {
  table_name := "peer";
  columns := [Id; PubKey; Ip; EndpointAddr; Port; DefaultProto; NetworkId; CreateAt; UpdateAt; Disabled];
  column_def := peer_column_def;
  primary_key := Id;
  auto_increment := false;
}.
Definition peer_relation : res unit RelationDef := Panic.
End Peer.

(** ** network.rs, network_token.rs *)
Module Network.
Inductive NetworkColumn := NetworkId | Cidr | Remark.
#[global] Instance NetworkColumn_eq_dec : EqDecision NetworkColumn.
Proof. solve_decision. Defined.
Definition network_column_def (c : NetworkColumn) : ColumnDef :=
  match c with
  | NetworkId => def CtBigInteger
  | Cidr => def CtCidr
  | Remark => null (def CtText)
  end.
#[global] Instance network_entity : EntityTrait NetworkColumn := {
  table_name := "network";
  columns := [NetworkId; Cidr; Remark];
  column_def := network_column_def;
  primary_key := NetworkId;
  auto_increment := false;
}.
End Network.
Module NetworkToken.
Inductive TokenColumn := Token | NetworkId | CreateAt | Disabled | Id.
#[global] Instance TokenColumn_eq_dec : EqDecision TokenColumn.
Proof. solve_decision. Defined.
Definition token_column_def (c : TokenColumn) : ColumnDef :=
  match c with
  | Token => def CtText
  | NetworkId => def CtBigInteger
  | CreateAt => null (def CtDateTime)
  | Disabled => def CtBoolean
  | Id => def CtBigInteger
  end.
#[global] Instance token_entity : EntityTrait TokenColumn := {
  table_name := "network_token";
  columns := [Token; NetworkId; CreateAt; Disabled; Id];
  column_def := token_column_def;
  primary_key := Id;
  auto_increment := false;
}.
(** [Entity::belongs_to(network).from(NetworkId).to(NetworkId)]. *)
Definition token_relation : res unit RelationDef :=
  Ok (mkRelationDef ("network_token", "network_id") ("network", "network_id") false)%string.
End NetworkToken.
(** [Entity::has_many(network_token)]: the other side of [belongs_to]. *)
Definition network_relation : res unit RelationDef := r ← NetworkToken.token_relation; Ok (rev r).

(** ** peer_extra_transport.rs *)
Module PeerExtraTransport.
Inductive ExtraColumn := Id | Disabled | PeerId | Proto | Params | Weight.
#[global] Instance ExtraColumn_eq_dec : EqDecision ExtraColumn.
Proof. solve_decision. Defined.
Definition extra_column_def (c : ExtraColumn) : ColumnDef :=
  match c with
  | Id => def CtBigInteger
  | Disabled => def CtBoolean
  | PeerId => def CtBigInteger
  | Proto => def (CtString None)
  | Params => def CtText
  | Weight => def CtInteger
  end.
#[global] Instance extra_entity : EntityTrait ExtraColumn := {
  table_name := "peer_extra_transport";
  columns := [Id; Disabled; PeerId; Proto; Params; Weight];
  column_def := extra_column_def;
  primary_key := Id;
  auto_increment := false;
}.
Definition extra_relation : res unit RelationDef := Panic.
End PeerExtraTransport.

(** ** config.rs *)
Module Config.
Inductive ConfigColumn := Key | Value.
#[global] Instance ConfigColumn_eq_dec : EqDecision ConfigColumn.
Proof. solve_decision. Defined.
Definition config_column_def (c : ConfigColumn) : ColumnDef :=
  match c with
  | Key => def CtText
  | Value => def CtText
  end.
#[global] Instance config_entity : EntityTrait ConfigColumn := {
  table_name := "config";
  columns := [Key; Value];
  column_def := config_column_def;
  primary_key := Key;
  auto_increment := false;
}.
Definition config_relation : res unit RelationDef := Panic.
End Config.

(** ** Tables that keep their declarations *)
Inductive Value := VText (s : string) | VInt (z : Z) | VBool (b : bool) | VTime (z : Z).
#[global] Instance Value_eq_dec : EqDecision Value.
Proof. solve_decision. Defined.
Definition in_i (w z : Z) : bool := (- 2 ^ (w - 1) <=? z) && (z <? 2 ^ (w - 1)).
(** Text of a [Cidr] column is checked by the database too; how is not said here. *)
Definition fits (t : ColumnType) (v : Value) : bool :=
  match t, v with
  | CtText, VText _ | CtString None, VText _ | CtCidr, VText _ => true
  | CtString (Some n), VText s => Z.of_nat (String.length s) <=? n
  | CtBigInteger, VInt z => in_i 64 z
  | CtInteger, VInt z => in_i 32 z
  | CtBoolean, VBool _ => true
  | CtDateTime, VTime _ => true
  | _, _ => false
  end.

Section Table.
Context `{EntityTrait C}.
Definition Row : Type := C -> option Value.
Definition cell_ok (r : Row) (c : C) : bool :=
  match r c with
  | Some v => fits (col_type (column_def c)) v
  | None => col_null (column_def c) && negb (bool_decide (c = primary_key))
  end.
Definition row_ok (r : Row) : bool := forallb (cell_ok r) columns.
Definition keyed (c : C) : bool := col_unique (column_def c) || bool_decide (c = primary_key).
(** Nulls are never equal. *)
Definition column_ok (rows : list Row) (c : C) : bool :=
  if keyed c then bool_decide (NoDup (omap (fun r => r c) rows)) else true.
Definition table_ok (rows : list Row) : bool := forallb row_ok rows && forallb (column_ok rows) columns.

(** An insert that the database accepts. *)
Definition insert_row (rows : list Row) (r : Row) : option (list Row) :=
  if table_ok (rows ++ [r]) then Some (rows ++ [r]) else None.

Lemma insert_row_ok rows r rows' : insert_row rows r = Some rows' -> table_ok rows' = true /\ rows' = rows ++ [r].
Proof. unfold insert_row. destruct (table_ok _) eqn:Ht; [|done]. by intros [= <-]. Qed.

Lemma table_ok_unique rows c : c ∈ columns -> keyed c = true -> table_ok rows = true -> NoDup (omap (fun r => r c) rows).
Proof.
  intros Hc Hk [_ Hall]%andb_prop. rewrite forallb_forall in Hall. specialize (Hall c (proj1 (list_elem_of_In _ _) Hc)).
  unfold column_ok in Hall. rewrite Hk in Hall. by apply bool_decide_eq_true in Hall.
Qed.
End Table.

(** The rows of [Headlink]; the two time stamps, which nothing reads, are null. *)
Definition peer_row (m : PeerModel) : Row (C := Peer.PeerColumn) := fun c =>
  match c with
  | Peer.Id => Some (VInt (pm_id m))
  | Peer.PubKey => Some (VText (pm_pub_key m))
  | Peer.Ip => VText <$> pm_ip m
  | Peer.EndpointAddr => VText <$> pm_endpoint_addr m
  | Peer.Port => VInt <$> pm_port m
  | Peer.DefaultProto => VText <$> pm_default_proto m
  | Peer.NetworkId => Some (VInt (pm_network_id m))
  | Peer.Disabled => Some (VBool (pm_disabled m))
  | Peer.CreateAt | Peer.UpdateAt => None
  end.
Definition network_row (m : NetworkModel) : Row (C := Network.NetworkColumn) := fun c =>
  match c with
  | Network.NetworkId => Some (VInt (nm_network_id m))
  | Network.Cidr => Some (VText (nm_cidr m))
  | Network.Remark => None
  end.
(** The tables the lookups of the server go by. *)
Definition db_ok (d : Db) : bool := table_ok (peer_row <$> t_peers d) && table_ok (network_row <$> t_networks d).

(** ** What the declarations guarantee *)

Lemma omap_key {A} (f : A -> Value) (g : A -> option Value) (l : list A) : (forall x, g x = Some (f x)) -> omap g l = f <$> l.
Proof. intros Hg. induction l as [|x l IH]; [done|]. cbn. by rewrite Hg, IH. Qed.
Lemma omap_rows {A C} (row : A -> C -> option Value) (c : C) (l : list A) : omap (fun r => r c) (row <$> l) = omap (fun x => row x c) l.
Proof. induction l as [|x l IH]; [done|]. cbn. destruct (row x c); by rewrite IH. Qed.

(** Ids and keys of peers, and ids of networks, occur once. *)
Lemma db_ok_unique d : db_ok d = true ->
  NoDup (pm_id <$> t_peers d) /\ NoDup (pm_pub_key <$> t_peers d) /\ NoDup (nm_network_id <$> t_networks d).
Proof.
  intros [Hp Hn]%andb_prop.
  assert (forall A (f : A -> Z) (l : list A), NoDup ((fun x => VInt (f x)) <$> l) -> NoDup (f <$> l)) as Hint.
  { intros A f l Hl. rewrite (list_fmap_compose f VInt) in Hl. by apply NoDup_fmap_1 in Hl. }
  split_and!.
  - apply Hint. pose proof (table_ok_unique _ Peer.Id ltac:(set_solver) eq_refl Hp) as Hu.
    pose proof (omap_rows peer_row Peer.Id) as Hom. unfold Row in Hu. rewrite Hom in Hu. clear Hom.
    by rewrite (omap_key (fun m => VInt (pm_id m))) in Hu.
  - pose proof (table_ok_unique _ Peer.PubKey ltac:(set_solver) eq_refl Hp) as Hu.
    pose proof (omap_rows peer_row Peer.PubKey) as Hom. unfold Row in Hu. rewrite Hom in Hu. clear Hom.
    rewrite (omap_key (fun m => VText (pm_pub_key m))) in Hu by done. rewrite (list_fmap_compose pm_pub_key VText) in Hu.
    by apply NoDup_fmap_1 in Hu.
  - apply Hint. pose proof (table_ok_unique _ Network.NetworkId ltac:(set_solver) eq_refl Hn) as Hu.
    pose proof (omap_rows network_row Network.NetworkId) as Hom. unfold Row in Hu. rewrite Hom in Hu. clear Hom.
    by rewrite (omap_key (fun m => VInt (nm_network_id m))) in Hu.
Qed.

(** The row with a key does not depend on the order of the rows. *)
Lemma find_key {A K} `{EqDecision K} (f : A -> K) (l : list A) k x : NoDup (f <$> l) ->
  snd <$> list_find (fun y => f y = k) l = Some x <-> x ∈ l /\ f x = k.
Proof.
  intros Hnd. split.
  - intros ([i y] & (Hl & Hk & _)%list_find_Some & ->)%fmap_Some. split; [by eapply list_elem_of_lookup_2|done].
  - intros [Hin Hk]. assert (is_Some (list_find (fun y => f y = k) l)) as [[i y] Hf] by (by eapply list_find_elem_of). rewrite Hf. cbn. f_equal.
    apply list_find_Some in Hf as (Hl & Hy & _). apply list_elem_of_lookup in Hin as [j Hj].
    assert (i = j) as ->; [|congruence].
    eapply (NoDup_lookup (f <$> l)); [done| |]; rewrite list_lookup_fmap; [rewrite Hl|rewrite Hj]; cbn; [done|by rewrite Hy, <- Hk].
Qed.
Lemma find_key_perm {A K} `{EqDecision K} (f : A -> K) (l l' : list A) k : NoDup (f <$> l) -> l ≡ₚ l' ->
  snd <$> list_find (fun y => f y = k) l = snd <$> list_find (fun y => f y = k) l'.
Proof.
  intros Hnd Hp. assert (NoDup (f <$> l')) as Hnd' by (by rewrite <- Hp).
  apply option_eq. intros x. rewrite (find_key f l k x Hnd), (find_key f l' k x Hnd'). by rewrite Hp.
Qed.

(** Every row of a network is in the peers it is loaded with, under its own key. *)
Lemma Peers_new_rows d nid k p : NoDup (pm_pub_key <$> t_peers d) ->
  Peers_new (VlinkPeer_from <$> network_rows d nid) !! k = Some p <->
  exists r, r ∈ t_peers d /\ pm_network_id r = nid /\ pm_pub_key r = k /\ p = VlinkPeer_from r.
Proof.
  intros Hnd. split.
  - intros (r & Hr & -> & <-)%Peers_new_lookup. apply list_elem_of_filter in Hr as [Hn Hr]. by exists r.
  - intros (r & Hr & Hn & <- & ->). assert (r ∈ network_rows d nid) as Hin by (by apply list_elem_of_filter).
    destruct (Join.Peers_new_has _ _ Hin) as [q Hq]. rewrite Hq. f_equal.
    apply Peers_new_lookup in Hq as (r' & Hr' & -> & Hk). apply list_elem_of_filter in Hr' as [_ Hr']. f_equal.
    pose proof (proj2 (find_key pm_pub_key _ (pm_pub_key r) r Hnd) (conj Hr eq_refl)) as H1.
    pose proof (proj2 (find_key pm_pub_key _ (pm_pub_key r) r' Hnd) (conj Hr' Hk)) as H2. congruence.
Qed.

(** Databases that differ in the order of their rows. *)
Record same_rows (d d' : Db) : Prop := mkSameRows {
  sr_up : db_up d = db_up d';
  sr_networks : t_networks d ≡ₚ t_networks d';
  sr_tokens : t_tokens d ≡ₚ t_tokens d';
  sr_peers : t_peers d ≡ₚ t_peers d';
}.

Lemma find_some {A} (P : A -> Prop) `{forall x, Decision (P x)} {B} (l : list A) (none : B) (some : A -> B) :
  match list_find P l with None => none | Some (_, x) => some x end =
  match snd <$> list_find P l with None => none | Some x => some x end.
Proof. by destruct (list_find P l) as [[i x]|]. Qed.

Section Server.
Context `{Ipv4NetworkLib}.

Lemma get_network_rows s d d' nid : db_ok d = true -> same_rows d d' ->
  (get_network (with_db s d) nid).2 = (get_network (with_db s d') nid).2 /\
  networks (get_network (with_db s d) nid).1 = networks (get_network (with_db s d') nid).1.
Proof.
  intros Hok [Hup Hns _ Hps]. destruct (db_ok_unique d Hok) as (_ & Hkeys & Hids).
  unfold get_network. cbn [with_db networks db]. destruct (networks s !! nid) as [n|]; [done|]. rewrite <- Hup.
  destruct (db_up d); cbn [negb]; [|done]. rewrite !find_some.
  rewrite (find_key_perm nm_network_id (t_networks d) (t_networks d') nid Hids Hns).
  destruct (snd <$> list_find _ (t_networks d')) as [row|]; [|done]. destruct (cidr_from_str (nm_cidr row)) as [c|]; [|done].
  assert (Peers_new (VlinkPeer_from <$> network_rows d (nm_network_id row)) =
    Peers_new (VlinkPeer_from <$> network_rows d' (nm_network_id row))) as ->; [|done].
  assert (NoDup (pm_pub_key <$> t_peers d')) as Hkeys' by (by rewrite <- Hps).
  apply map_eq. intros k. apply option_eq. intros p. rewrite (Peers_new_rows d), (Peers_new_rows d') by done.
  by setoid_rewrite Hps.
Qed.

(** The order of rows does not matter. When the database keeps the declared tables, what the
    server finds and what it loads for a network are the same in whatever order the rows come,
    every registered peer of the network is there under its own key, and the network of a
    client that shakes hands without a token does not depend on the order either. (A token is
    not declared unique: with one token in two rows the first row counts.) *)
Theorem row_order_irrelevant s d d' nid r :
  db_ok d = true -> same_rows d d' -> (rh_token r = None \/ NoDup (nt_token <$> t_tokens d)) ->
  (get_network (with_db s d) nid).2 = (get_network (with_db s d') nid).2 /\
  (handshake_network (with_db s d) r).2 = (handshake_network (with_db s d') r).2 /\
  (forall n, networks s !! nid = None -> (get_network (with_db s d) nid).2 = Ok n -> forall k p,
     peers n !! k = Some p <-> exists row, row ∈ t_peers d /\ pm_network_id row = nid /\ pm_pub_key row = k /\ p = VlinkPeer_from row).
Proof.
  intros Hok Hsame Htok. destruct (db_ok_unique d Hok) as (_ & Hkeys & Hids). split_and!.
  - by apply get_network_rows.
  - pose proof Hsame as [Hup _ Hts Hps]. unfold handshake_network. cbn [with_db db]. rewrite <- Hup.
    destruct (rh_token r) as [tok|].
    + destruct Htok as [|Htok]; [done|]. destruct (db_up d); cbn [negb]; [|done]. rewrite !find_some.
      rewrite (find_key_perm nt_token _ _ tok Htok Hts). destruct (snd <$> list_find _ (t_tokens d')) as [t|]; [|done].
      destruct (nt_disabled t); [done|]. destruct (get_network_rows s d d' (nt_network_id t) Hok Hsame) as [Hr _].
      change (mkServer (clients s) (networks s) d (conns s)) with (with_db s d). change (mkServer (clients s) (networks s) d' (conns s)) with (with_db s d').
      destruct (get_network (with_db s d) _) as [s1 r1], (get_network (with_db s d') _) as [s2 r2]. cbn [snd] in *. by rewrite Hr.
    + destruct (db_up d); cbn [negb]; [|done]. rewrite !find_some.
      rewrite (find_key_perm pm_pub_key _ _ (rh_pub_key r) Hkeys Hps). by destruct (snd <$> list_find _ (t_peers d')).
  - intros n Hn. unfold get_network. cbn [with_db networks db]. rewrite Hn. destruct (db_up d); cbn [negb]; [|done].
    destruct (list_find _ _) as [[i row]|] eqn:Hf; [|done]. apply list_find_Some in Hf as (_ & <- & _).
    destruct (cidr_from_str _); [|done]. cbn. intros [= <-] k p. by apply Peers_new_rows.
Qed.
End Server.

(** The only write to these tables keeps them: the new address is text, and the columns that
    are unique stay. *)
Lemma update_ip_keeps d id ip d' : db_ok d = true -> update_ip d id ip = Some d' -> db_ok d' = true.
Proof.
  intros [Hp Hn]%andb_prop. unfold update_ip. destruct (_ && _); [|done]. intros [= <-]. apply andb_true_intro. split; [|exact Hn].
  unfold table_ok in *. apply andb_prop in Hp as [Hrows Hcols]. apply andb_true_intro. cbn [t_peers]. split.
  - apply forallb_forall. intros r (y & -> & (x & -> & Hx)%list_elem_of_fmap)%list_elem_of_In%list_elem_of_fmap.
    rewrite forallb_forall in Hrows. specialize (Hrows (peer_row x)). unfold updated. destruct (pm_id x =? id).
    2:{ apply Hrows, list_elem_of_In, list_elem_of_fmap. by exists x. }
    assert (row_ok (peer_row x) = true) as Hr by (apply Hrows, list_elem_of_In, list_elem_of_fmap; by exists x).
    unfold row_ok in *. cbn [columns Peer.peer_entity forallb] in *. repeat rewrite andb_true_iff in *. destruct_and! Hr. split_and!; done.
  - apply forallb_forall. intros c Hc. rewrite forallb_forall in Hcols. specialize (Hcols c Hc). unfold column_ok in *.
    destruct (keyed c) eqn:Hk; [|done]. pose proof (omap_rows peer_row c) as Hom. unfold Row in *. rewrite Hom in Hcols |- *. clear Hom.
    assert (omap (fun x => peer_row x c) (updated id ip <$> t_peers d) = omap (fun x => peer_row x c) (t_peers d)) as ->; [|done].
    assert (forall x, peer_row (updated id ip x) c = peer_row x c) as Heq.
    { intros x. unfold updated. destruct (pm_id x =? id); [|done]. by destruct c. }
    clear Hrows Hcols. induction (t_peers d) as [|x l IH]; [done|]. cbn. rewrite Heq. destruct (peer_row x c); [f_equal|]; exact IH.
Qed.

(** Every table lists all its columns, and its primary key is never null. *)
Definition well_declared {C} `{EntityTrait C} : Prop :=
  (forall c : C, c ∈ columns) /\ NoDup (columns (C := C)) /\ col_null (column_def primary_key) = false.
Lemma tables_well_declared : well_declared (C := Peer.PeerColumn) /\ well_declared (C := Network.NetworkColumn) /\
  well_declared (C := NetworkToken.TokenColumn) /\ well_declared (C := PeerExtraTransport.ExtraColumn) /\ well_declared (C := Config.ConfigColumn).
Proof. split_and!; (split; [intros []; cbn; set_solver|split; [by apply (bool_decide_unpack _); vm_compute|done]]). Qed.
(** The two relations are each other's other side. *)
Lemma relations_agree r : network_relation = Ok r -> NetworkToken.token_relation = Ok (rev r).
Proof. intros [= <-]. done. Qed.

(** A database that keeps the declarations, and a second peer with a known key, which it refuses. *)
Example toy_db_ok : db_ok Headlink.toy_db = true.
Proof. vm_compute. reflexivity. Qed.
Example duplicate_key_refused :
  insert_row (peer_row <$> t_peers Headlink.toy_db) (peer_row (Headlink.row 3 "a")) = None /\
  is_Some (insert_row (peer_row <$> t_peers Headlink.toy_db) (peer_row (Headlink.row 3 "c"))).
Proof.
  assert (table_ok (peer_row <$> (t_peers Headlink.toy_db ++ [Headlink.row 3 "c"])) = true) as Hok by (vm_compute; reflexivity).
  split; unfold insert_row.
  - by assert (table_ok ((peer_row <$> t_peers Headlink.toy_db) ++ [peer_row (Headlink.row 3 "a")]) = false) as -> by (vm_compute; reflexivity).
  - rewrite fmap_app in Hok. cbn [fmap list_fmap] in Hok |- *. rewrite Hok. by eexists.
Qed.
End Schema.
