(* ===== verification/Inbox.v ===== *)
(** * From the server's messages to the network manager (vlinkd/src/client.rs,
    vlinkd/src/connect.rs, vlinkd/src/network/ctrl.rs)

    The messages of the server go into a broadcast channel of capacity 10 ([recv_handler]).
    [process_cmd] takes them out one by one and passes what they carry to the network manager
    over a bounded channel of capacity 10, waiting while that is full; when its receiver has
    fallen behind by more than the broadcast retains it goes on with the oldest message left,
    without a word. This file has the three as a state machine over turns in any order, with
    the client's own commands on the same channel, and says what the manager is told. *)

From S2P Require Import Prelude Bytes Channels Protocol Crypto Session Peer Device Abi Headlink Vlinkd Daemon.
#[local] Open Scope nat_scope.

Module Inbox.
Import Vlinkd Daemon.

Section Inbox.
Context `{Mpsc, Broadcast} {E : Type}.
#[local] Abbreviation Cmd := (NetworkCtrlCmd E).

(** network/ctrl.rs, [NetworkCtrl::new]; client.rs, [VlinkClient::new] (its channel). *)
Definition NetworkCtrl_new : chan Cmd := channel 10.
Definition VlinkClient_tx : btx (ToClient E) := (bchannel 10).1.

(** [ib_tx] is the client's broadcast channel, [ib_recv] the receiver of [process_cmd] and
    [ib_send] the command it waits to send, [ib_ctrl] the channel to the manager, [ib_taken]
    what the manager has received. *)
Record Inbox := mkInbox {
  ib_tx : btx (ToClient E);
  ib_recv : brx (ToClient E);
  ib_send : option Cmd;
  ib_ctrl : chan Cmd;
  ib_taken : list Cmd;
}.
Definition Inbox_new : Inbox := mkInbox VlinkClient_tx (subscribe VlinkClient_tx) None NetworkCtrl_new [].

(** connect.rs, [recv_handler]: a message that could be read. *)
Definition recv_handler (m : ToClient E) (s : Inbox) : Inbox :=
  mkInbox (bsend (ib_tx s) m) (ib_recv s) (ib_send s) (ib_ctrl s) (ib_taken s).
(** client.rs, [process_cmd], to its next [await]. *)
Definition process_cmd (s : Inbox) : Inbox :=
  match ib_send s with
  | Some cmd =>
      match try_send (ib_ctrl s) cmd with
      | Some c => mkInbox (ib_tx s) (ib_recv s) None c (ib_taken s)
      | None => s
      end
  | None =>
      match brecv (ib_tx s) (ib_recv s) with
      | None => s
      | Some (None, rx) => mkInbox (ib_tx s) rx None (ib_ctrl s) (ib_taken s)
      | Some (Some data, rx) => mkInbox (ib_tx s) rx (CmdToClientData <$> to_client_data data) (ib_ctrl s) (ib_taken s)
      end
  end.
(** The connection task tells the manager that it is connected, when there is room. *)
Definition tell_connected (cmd : Cmd) (s : Inbox) : Inbox :=
  match try_send (ib_ctrl s) cmd with
  | Some c => mkInbox (ib_tx s) (ib_recv s) (ib_send s) c (ib_taken s)
  | None => s
  end.
(** network/mod.rs: the next command of the manager's loop. *)
Definition take_cmd (s : Inbox) : Inbox :=
  match recv (ib_ctrl s) with
  | Some (cmd, c) => mkInbox (ib_tx s) (ib_recv s) (ib_send s) c (ib_taken s ++ [cmd])
  | None => s
  end.

Inductive Turn :=
| Arrive (m : ToClient E)
| Process
| Tell (first : bool)
| Take.
Definition turn (s : Inbox) (t : Turn) : Inbox :=
  match t with
  | Arrive m => recv_handler m s
  | Process => process_cmd s
  | Tell first => tell_connected (if first then FirstConnected else Connected) s
  | Take => take_cmd s
  end.
Definition run (s : Inbox) (ts : list Turn) : Inbox := foldl turn s ts.

(** What the commands and the messages carry. *)
Definition datas (cmds : list Cmd) : list (ToClientData E) :=
  omap (fun c => match c with CmdToClientData d => Some d | _ => None end) cmds.
Definition carried (ms : list (ToClient E)) : list (ToClientData E) := omap to_client_data ms.
Definition arrived (ts : list Turn) : list (ToClient E) :=
  omap (fun t => match t with Arrive m => Some m | _ => None end) ts.
(** What [process_cmd] and the manager hold or have been given, in order. *)
Definition passed (s : Inbox) : list Cmd := ib_taken s ++ contents (ib_ctrl s) ++ option_list (ib_send s).
Definition behind (s : Inbox) : nat := length (bsent (ib_tx s)) - bpos (ib_recv s).
(** The receiver is within what the broadcast retains, before every turn. *)
Fixpoint keeps_up (s : Inbox) (ts : list Turn) : bool :=
  (behind s <=? bcapacity (ib_tx s)) && match ts with [] => true | t :: ts => keeps_up (turn s t) ts end.
(** The messages the receiver can still get. *)
Definition retained (s : Inbox) : list (ToClient E) :=
  drop (Nat.max (bpos (ib_recv s)) (length (bsent (ib_tx s)) - bcapacity (ib_tx s))) (bsent (ib_tx s)).
(** Turns that leave nothing behind. *)
Definition work (s : Inbox) : nat :=
  3 * behind s + 2 * length (option_list (ib_send s)) + length (contents (ib_ctrl s)).
Definition rounds (n : nat) : list Turn := concat (replicate n [Process; Take]).

Definition Inv (s : Inbox) : Prop := bpos (ib_recv s) <= length (bsent (ib_tx s)) /\ 0 < capacity (ib_ctrl s).

Context `{!MpscLaws, !BroadcastLaws}.

Lemma datas_app l1 l2 : datas (l1 ++ l2) = datas l1 ++ datas l2.
Proof. apply omap_app. Qed.
Lemma carried_app l1 l2 : carried (l1 ++ l2) = carried l1 ++ carried l2.
Proof. apply omap_app. Qed.
Lemma datas_option (o : option (ToClientData E)) : datas (option_list (CmdToClientData <$> o)) = option_list o.
Proof. by destruct o. Qed.

Lemma Inbox_new_Inv : Inv Inbox_new /\ behind Inbox_new = 0 /\ passed Inbox_new = [] /\ bsent (ib_tx Inbox_new) = [] /\
  capacity (ib_ctrl Inbox_new) = 10 /\ 10 <= bcapacity (ib_tx Inbox_new).
Proof.
  unfold Inv, behind, passed, Inbox_new, NetworkCtrl_new, VlinkClient_tx. cbn [ib_tx ib_recv ib_ctrl ib_send ib_taken].
  destruct (bchannel_new (ToClient E) 10) as (-> & Hc & _). destruct (channel_empty Cmd 10) as [-> ->].
  rewrite subscribe_pos, (proj1 (bchannel_new (ToClient E) 10)). cbn. split_and!; try done; lia.
Qed.

(** What a turn of [process_cmd] does. *)
Lemma process_cases s : Inv s ->
  (process_cmd s = s /\
     ((exists cmd, ib_send s = Some cmd /\ capacity (ib_ctrl s) <= length (contents (ib_ctrl s))) \/
      ib_send s = None /\ behind s = 0)) \/
  (exists cmd c, ib_send s = Some cmd /\ contents c = contents (ib_ctrl s) ++ [cmd] /\ capacity c = capacity (ib_ctrl s) /\
     process_cmd s = mkInbox (ib_tx s) (ib_recv s) None c (ib_taken s)) \/
  (ib_send s = None /\ exists rx, bcapacity (ib_tx s) < behind s /\
     bpos rx = length (bsent (ib_tx s)) - bcapacity (ib_tx s) /\
     process_cmd s = mkInbox (ib_tx s) rx None (ib_ctrl s) (ib_taken s)) \/
  (ib_send s = None /\ exists m rx, bsent (ib_tx s) !! bpos (ib_recv s) = Some m /\ bpos rx = S (bpos (ib_recv s)) /\
     behind s <= bcapacity (ib_tx s) /\
     process_cmd s = mkInbox (ib_tx s) rx (CmdToClientData <$> to_client_data m) (ib_ctrl s) (ib_taken s)).
Proof.
  intros [Hpos _]. unfold process_cmd, behind. destruct (ib_send s) as [cmd|] eqn:Hs.
  - destruct (try_send (ib_ctrl s) cmd) as [c|] eqn:Hc.
    + right; left. apply try_send_Some in Hc as [? ?]. by exists cmd, c.
    + left. split; [done|]. left. exists cmd. split; [done|]. by apply try_send_full in Hc.
  - destruct (brecv (ib_tx s) (ib_recv s)) as [[[m|] rx]|] eqn:Hb.
    + right; right; right. split; [done|]. apply brecv_item in Hb as (? & ? & ?). by exists m, rx.
    + right; right; left. split; [done|]. apply brecv_lagged in Hb as [? ?]. by exists rx.
    + left. split; [done|]. right. apply brecv_empty in Hb. split; [done|lia].
Qed.

(** What a turn does to what has been passed on: the messages the receiver went past are
    passed, unless it had fallen behind. *)
Lemma turn_passed s t : Inv s -> let s' := turn s t in
  Inv s' /\ bsent (ib_tx s') = bsent (ib_tx s) ++ arrived [t] /\ bcapacity (ib_tx s') = bcapacity (ib_tx s) /\
  bpos (ib_recv s) <= bpos (ib_recv s') <= length (bsent (ib_tx s)) /\
  (bcapacity (ib_tx s) < behind s /\ datas (passed s') = datas (passed s) \/
   datas (passed s') = datas (passed s) ++
     carried (take (bpos (ib_recv s') - bpos (ib_recv s)) (drop (bpos (ib_recv s)) (bsent (ib_tx s))))).
Proof.
  intros Hi s'. pose proof Hi as [Hpos Hcap]. subst s'. destruct t as [m| |first|]; cbn [turn].
  - unfold Inv, recv_handler, passed. cbn [ib_tx ib_recv ib_send ib_ctrl ib_taken]. destruct (bsend_sent _ (ib_tx s) m) as [-> ->].
    rewrite length_app. split_and!; try done; try lia. right. by rewrite Nat.sub_diag, take_0, app_nil_r.
  - cbn. destruct (process_cases s Hi) as [[-> _]|[(cmd & c & Hs & Hc & Hcc & ->)|[(Hs & rx & Hl & Hrx & ->)|(Hs & m & rx & Hm & Hrx & Hb & ->)]]];
      unfold Inv, passed; cbn [ib_tx ib_recv ib_send ib_ctrl ib_taken]; rewrite ?app_nil_r.
    + split_and!; try done; try lia. right. by rewrite Nat.sub_diag, take_0, app_nil_r.
    + rewrite Hs, Hc, Hcc. split_and!; try done; try lia. right. rewrite Nat.sub_diag, take_0. cbn [option_list]. by rewrite !app_nil_r.
    + unfold behind in Hl. rewrite Hs, Hrx. split_and!; try done; try lia. left. unfold behind. split; [lia|]. by cbn; rewrite app_nil_r.
    + apply lookup_lt_Some in Hm as Hlt. rewrite Hs, Hrx. split_and!; try done; try lia. right.
      rewrite (drop_S _ _ _ Hm). replace (S _ - _) with 1 by lia. cbn [take]. rewrite !datas_app, datas_option. cbn.
      rewrite app_nil_r, <- app_assoc. by destruct (to_client_data m).
  - unfold tell_connected. destruct (try_send _ _) as [c|] eqn:Hc; cbn.
    2:{ rewrite app_nil_r. split_and!; try done; try lia. right. by rewrite Nat.sub_diag, take_0, app_nil_r. }
    apply try_send_Some in Hc as [Hc Hcc]. unfold Inv, passed. cbn [ib_tx ib_recv ib_send ib_ctrl ib_taken]. rewrite app_nil_r, Hc, Hcc.
    split_and!; try done; try lia. right. rewrite Nat.sub_diag, take_0, app_nil_r, !datas_app.
    replace (datas [_]) with (@nil (ToClientData E)) by (by destruct first). by rewrite app_nil_r.
  - unfold take_cmd. destruct (recv _) as [[cmd c]|] eqn:Hc; cbn.
    2:{ rewrite app_nil_r. split_and!; try done; try lia. right. by rewrite Nat.sub_diag, take_0, app_nil_r. }
    apply recv_Some in Hc as [Hc Hcc]. unfold Inv, passed. cbn [ib_tx ib_recv ib_send ib_ctrl ib_taken]. rewrite app_nil_r, Hc, Hcc.
    split_and!; try done; try lia. right. rewrite Nat.sub_diag, take_0, app_nil_r, <- app_assoc. done.
Qed.

(** Everything passed on, in the order it arrived; all of it while the receiver keeps up. *)
Lemma run_passed ts : forall s, Inv s ->
  datas (passed s) `sublist_of` carried (take (bpos (ib_recv s)) (bsent (ib_tx s))) ->
  let s' := run s ts in
  Inv s' /\ bsent (ib_tx s') = bsent (ib_tx s) ++ arrived ts /\
  datas (passed s') `sublist_of` carried (take (bpos (ib_recv s')) (bsent (ib_tx s'))) /\
  (keeps_up s ts = true -> datas (passed s) = carried (take (bpos (ib_recv s)) (bsent (ib_tx s))) ->
   datas (passed s') = carried (take (bpos (ib_recv s')) (bsent (ib_tx s')))).
Proof.
  induction ts as [|t ts IH]; intros s Hi Hsub; cbn [run foldl keeps_up].
  - rewrite app_nil_r. split_and!; done.
  - destruct (turn_passed s t Hi) as (Hi1 & Hb & Hc & [Hp1 Hp2] & Hd). change (foldl turn (turn s t) ts) with (run (turn s t) ts).
    assert (take (bpos (ib_recv (turn s t))) (bsent (ib_tx (turn s t))) =
      take (bpos (ib_recv s)) (bsent (ib_tx s)) ++
      take (bpos (ib_recv (turn s t)) - bpos (ib_recv s)) (drop (bpos (ib_recv s)) (bsent (ib_tx s)))) as Hsplit.
    { rewrite Hb, take_app_le by done. by apply take_take_drop. }
    destruct (IH (turn s t)) as (Hi2 & Hb2 & Hs2 & Heq); [done| |].
    { rewrite Hsplit, carried_app. destruct Hd as [[_ ->]| ->]; [by apply sublist_inserts_r|by apply sublist_app]. }
    split_and!; [done| |done|].
    + rewrite Hb2, Hb, <- app_assoc. unfold arrived. by rewrite <- omap_app.
    + intros [Hup Hk]%andb_prop He. apply Heq; [done|]. apply Nat.leb_le in Hup.
      rewrite Hsplit, carried_app, <- He. destruct Hd as [[? _]| ->]; [lia|done].
Qed.

(** ** Draining *)

Lemma rounds_S n : rounds (S n) = Process :: Take :: rounds n.
Proof. done. Qed.

(** What will have been passed on when nothing more arrives. *)
Definition rest (s : Inbox) : list Cmd := CmdToClientData <$> carried (retained s).

Lemma process_work s : Inv s -> let s' := turn s Process in
  Inv s' /\ passed s' ++ rest s' = passed s ++ rest s /\ work s' <= work s /\
  (contents (ib_ctrl s) = [] -> 0 < work s -> work s' < work s).
Proof.
  intros Hi s'. destruct (turn_passed s Process Hi) as (Hi1 & Hb & Hc & _). fold s' in Hi1, Hb, Hc.
  split; [done|]. pose proof Hi as [Hpos Hcap]. subst s'. cbn [turn] in *.
  destruct (process_cases s Hi) as [[-> Hw]|[(cmd & c & Hs & Hcn & Hcc & ->)|[(Hs & rx & Hl & Hrx & ->)|(Hs & m & rx & Hm & Hrx & Hbh & ->)]]].
  - split_and!; [done..|]. intros Hn Hwork. unfold work in Hwork. destruct Hw as [(cmd & Hs & Hf)|[Hs Hz]].
    + rewrite Hn in Hf. cbn in Hf. lia.
    + rewrite Hs, Hn, Hz in Hwork. cbn in Hwork. lia.
  - unfold passed, rest, retained, work, behind. cbn [ib_tx ib_recv ib_send ib_ctrl ib_taken]. rewrite Hs, Hcn, length_app. cbn.
    rewrite app_nil_r. split_and!; [done|lia|lia].
  - unfold passed, rest, retained, work, behind in *. cbn [ib_tx ib_recv ib_send ib_ctrl ib_taken]. rewrite Hs, Hrx. cbn.
    split_and!; [|lia|lia]. do 4 f_equal. lia.
  - apply lookup_lt_Some in Hm as Hlt. unfold passed, rest, retained, work, behind in *. cbn [ib_tx ib_recv ib_send ib_ctrl ib_taken].
    rewrite Hs, Hrx. split_and!.
    + rewrite (Nat.max_l (bpos (ib_recv s))) by lia. rewrite (Nat.max_l (S _)) by lia. rewrite (drop_S _ _ _ Hm). cbn.
      rewrite app_nil_r, <- !app_assoc. by destruct (to_client_data m).
    + destruct (to_client_data m); cbn; lia.
    + intros _ _. destruct (to_client_data m); cbn; lia.
Qed.
Lemma take_work s : Inv s -> let s' := turn s Take in
  Inv s' /\ passed s' ++ rest s' = passed s ++ rest s /\ work s' <= work s /\
  (contents (ib_ctrl s) <> [] -> work s' < work s).
Proof.
  intros Hi s'. destruct (turn_passed s Take Hi) as (Hi1 & _). split; [done|]. subst s'. cbn [turn]. unfold take_cmd.
  destruct (recv _) as [[cmd c]|] eqn:Hc; [|split_and!; [done..|]; by apply recv_empty in Hc].
  apply recv_Some in Hc as [Hc _]. unfold passed, rest, retained, work, behind. cbn [ib_tx ib_recv ib_send ib_ctrl ib_taken].
  rewrite Hc. cbn. rewrite <- !app_assoc. split_and!; [cbn; by rewrite <- app_assoc|lia|lia].
Qed.

(** When nothing more arrives the manager gets what is on its way and what is retained. *)
Lemma drained n : forall s, Inv s -> work s <= n ->
  ib_taken (run s (rounds n)) = passed s ++ rest s /\ work (run s (rounds n)) = 0.
Proof.
  induction n as [|n IH]; intros s Hi Hw.
  - cbn [rounds replicate concat run foldl]. assert (work s = 0) as Hz by lia. split; [|done].
    unfold work in Hz. unfold passed, rest, retained.
    destruct (ib_send s) as [cmd|]; simpl in Hz; [lia|]. destruct (contents (ib_ctrl s)); simpl in Hz; [|lia].
    unfold behind in Hz. rewrite drop_ge by lia. cbn. by rewrite !app_nil_r.
  - rewrite rounds_S. cbn [run foldl]. destruct (process_work s Hi) as (Hi1 & Hp1 & Hw1 & Hd1).
    destruct (take_work _ Hi1) as (Hi2 & Hp2 & Hw2 & Hd2). change (foldl turn ?s ?l) with (run s l).
    destruct (IH (turn (turn s Process) Take) Hi2) as [-> ->]; [|by rewrite Hp2, Hp1].
    destruct (decide (contents (ib_ctrl (turn s Process)) = [])) as [He|Hne]; [|specialize (Hd2 Hne); lia].
    destruct (decide (contents (ib_ctrl s) = [])) as [He0|Hne0].
    + destruct (decide (0 < work s)); [specialize (Hd1 He0 ltac:(done)); lia|lia].
    + exfalso. cbn [turn] in He.
      destruct (process_cases s Hi) as [[Hq _]|[(cmd & c & _ & Hc & _ & Hq)|[(_ & rx & _ & _ & Hq)|(_ & m & rx & _ & _ & _ & Hq)]]];
        rewrite Hq in He; cbn in He; try done. rewrite Hc in He. by destruct (contents (ib_ctrl s)).
Qed.

(** ** A burst while the manager is busy *)

(** Messages arrive and [process_cmd] keeps being polled, but the manager takes nothing. *)
Definition feed (ms : list (ToClient E)) : list Turn := ms ≫= fun m => [Arrive m; Process; Process].
Definition quiet (s : Inbox) : Prop := ib_send s = None /\ behind s = 0 /\ contents (ib_ctrl s) = [].
Definition cmds (ms : list (ToClient E)) : list Cmd := CmdToClientData <$> carried ms.

Lemma inbox_run_app s ts1 ts2 : run s (ts1 ++ ts2) = run (run s ts1) ts2.
Proof. apply foldl_app. Qed.

(** One message while [process_cmd] waits for one: it goes to the channel, or is held. *)
Lemma feed_one s m d : Inv s -> ib_send s = None -> behind s = 0 -> 0 < bcapacity (ib_tx s) -> to_client_data m = Some d ->
  exists rx, bpos rx = S (bpos (ib_recv s)) /\
    if decide (length (contents (ib_ctrl s)) < capacity (ib_ctrl s)) then
      exists c, contents c = contents (ib_ctrl s) ++ [CmdToClientData d] /\ capacity c = capacity (ib_ctrl s) /\
        run s (feed [m]) = mkInbox (bsend (ib_tx s) m) rx None c (ib_taken s)
    else run s (feed [m]) = mkInbox (bsend (ib_tx s) m) rx (Some (CmdToClientData d)) (ib_ctrl s) (ib_taken s).
Proof.
  intros Hi Hs Hb Hc Hd. destruct (bsend_sent _ (ib_tx s) m) as [Hsent Hcap]. unfold behind in Hb. destruct Hi as [Hpos Hcc].
  assert (Inv (recv_handler m s)) as Hi1 by (split; cbn; [rewrite Hsent, length_app; lia|done]).
  change (run s (feed [m])) with (process_cmd (process_cmd (recv_handler m s))).
  destruct (process_cases _ Hi1) as [[_ Hw]|[(cmd & c & Hs' & _)|[(_ & rx & Hl & _)|(_ & m' & rx & Hm & Hrx & _ & ->)]]];
    unfold behind in *; cbn [recv_handler ib_tx ib_recv ib_send ib_ctrl ib_taken] in *; rewrite ?Hsent, ?Hcap, ?length_app in *; cbn [length] in *.
  - destruct Hw as [(cmd & ? & _)|[_ Hz]]; [congruence|lia].
  - congruence.
  - lia.
  - rewrite lookup_app_r in Hm by lia. replace (bpos (ib_recv s) - length (bsent (ib_tx s))) with 0 in Hm by lia. injection Hm as <-.
    exists rx. split; [done|]. unfold process_cmd. cbn [ib_send ib_ctrl ib_tx ib_recv ib_taken]. rewrite Hd. cbn [fmap option_fmap option_map].
    case_decide as Hroom.
    + destruct (try_send (ib_ctrl s) (CmdToClientData d)) as [c|] eqn:Ht; [|apply try_send_full in Ht; lia].
      apply try_send_Some in Ht as [? ?]. by exists c.
    + destruct (try_send (ib_ctrl s) (CmdToClientData d)) as [c|] eqn:Ht; [|done].
      assert (try_send (ib_ctrl s) (CmdToClientData d) = None) as Hn by (apply try_send_full; lia). congruence.
Qed.

(** A command that is held and a full channel: messages only pile up. *)
Lemma feed_stuck ms : forall s cmd, ib_send s = Some cmd -> capacity (ib_ctrl s) <= length (contents (ib_ctrl s)) ->
  exists tx, bsent tx = bsent (ib_tx s) ++ ms /\ bcapacity tx = bcapacity (ib_tx s) /\
    run s (feed ms) = mkInbox tx (ib_recv s) (ib_send s) (ib_ctrl s) (ib_taken s).
Proof.
  induction ms as [|m ms IH]; intros s cmd Hs Hf.
  - exists (ib_tx s). rewrite app_nil_r. split_and!; try done. by destruct s.
  - destruct (bsend_sent _ (ib_tx s) m) as [Hsent Hcap]. destruct (IH (recv_handler m s) cmd) as (tx & Htx & Hcc & Hr); [done..|].
    exists tx. cbn [ib_tx recv_handler] in Htx, Hcc. rewrite Htx, Hsent, <- app_assoc, Hcc, Hcap. split_and!; try done.
    change (feed (m :: ms)) with ([Arrive m; Process; Process] ++ feed ms). rewrite inbox_run_app.
    assert (process_cmd (recv_handler m s) = recv_handler m s) as Hp.
    { unfold process_cmd. cbn [recv_handler ib_send ib_ctrl]. rewrite Hs. by rewrite (proj2 (try_send_full _ _ cmd)). }
    cbn [run foldl turn]. rewrite !Hp. exact Hr.
Qed.

(** What is passed on of a burst, and what is left of it in the broadcast. *)
Lemma feed_burst ms : forall s, Inv s -> ib_send s = None -> behind s = 0 -> 0 < bcapacity (ib_tx s) ->
  Forall (fun m => is_Some (to_client_data m)) ms ->
  let k := S (capacity (ib_ctrl s) - length (contents (ib_ctrl s))) in
  let s' := run s (feed ms) in
  Inv s' /\ passed s' = passed s ++ cmds (take k ms) /\ bcapacity (ib_tx s') = bcapacity (ib_tx s) /\
  bsent (ib_tx s') = bsent (ib_tx s) ++ ms /\ bpos (ib_recv s') = length (bsent (ib_tx s)) + Nat.min k (length ms).
Proof.
  induction ms as [|m ms IH]; intros s Hi Hs Hb Hc Hms k s'.
  - subst s'. cbn [feed run foldl mbind list_bind]. rewrite !app_nil_r. split_and!; try done.
    destruct Hi as [? _]. unfold behind in Hb. cbn [length]. lia.
  - apply Forall_cons in Hms as [[d Hd] Hms]. destruct (feed_one s m d Hi Hs Hb Hc Hd) as (rx & Hrx & Hone).
    destruct (bsend_sent _ (ib_tx s) m) as [Hsent Hcap]. destruct Hi as [Hpos Hcc]. unfold behind in Hb.
    assert (s' = run (run s (feed [m])) (feed ms)) as -> by (unfold s'; by rewrite <- inbox_run_app).
    assert (cmds (take k (m :: ms)) = CmdToClientData d :: cmds (take (Nat.pred k) ms)) as Hcmds by (unfold k, cmds; cbn; by rewrite Hd).
    rewrite Hcmds. case_decide as Hroom.
    + destruct Hone as (c & Hcn & Hcc' & ->).
      destruct (IH (mkInbox (bsend (ib_tx s) m) rx None c (ib_taken s))) as (Hi2 & Hp2 & Hc2 & Hs2 & Hr2);
        unfold Inv, behind in *; cbn [ib_tx ib_recv ib_send ib_ctrl ib_taken] in *; rewrite ?Hsent, ?Hcap, ?length_app; cbn [length];
        [split; lia|done|lia|lia|done|].
      rewrite Hp2, Hc2, Hs2, Hr2, Hcn, Hcc', Hsent, Hcap, !length_app, <- app_assoc. cbn [length app].
      replace (S (capacity (ib_ctrl s) - (length (contents (ib_ctrl s)) + 1))) with (Nat.pred k) by (unfold k; lia).
      split_and!; try done; try (unfold k; lia). unfold passed. cbn [ib_taken ib_ctrl ib_send]. rewrite Hs, Hcn. cbn [option_list].
      by rewrite !app_nil_r, <- !app_assoc.
    + rewrite Hone. destruct (feed_stuck ms (mkInbox (bsend (ib_tx s) m) rx (Some (CmdToClientData d)) (ib_ctrl s) (ib_taken s)) (CmdToClientData d))
        as (tx & Htx & Hct & ->); [done|cbn; lia|]. cbn [ib_tx] in Htx, Hct.
      replace (Nat.pred k) with 0 by (unfold k; lia). unfold Inv, passed. cbn [ib_tx ib_recv ib_send ib_ctrl ib_taken option_list].
      rewrite Htx, Hct, Hcap, Hsent, Hs, Hrx, <- app_assoc, !length_app. cbn [length option_list]. rewrite app_nil_r.
      split_and!; try done; [lia|by rewrite <- app_assoc|unfold k; lia].
Qed.

(** The channels keep their capacity. *)
Lemma turn_capacity s t : capacity (ib_ctrl (turn s t)) = capacity (ib_ctrl s).
Proof.
  destruct t as [m| |f|]; cbn [turn]; unfold recv_handler, process_cmd, tell_connected, take_cmd;
    repeat case_match; try done; cbn [ib_ctrl];
    match goal with
    | Hx : try_send _ _ = Some _ |- _ => by apply try_send_Some in Hx as [_ ?]
    | Hx : recv _ = Some _ |- _ => by apply recv_Some in Hx as [_ ?]
    end.
Qed.
Lemma run_capacity ts : forall s, Inv s ->
  bcapacity (ib_tx (run s ts)) = bcapacity (ib_tx s) /\ capacity (ib_ctrl (run s ts)) = capacity (ib_ctrl s).
Proof.
  induction ts as [|t ts IH]; intros s Hi; [done|]. destruct (turn_passed s t Hi) as (Hi1 & _ & Hc & _).
  change (run s (t :: ts)) with (run (turn s t) ts). destruct (IH _ Hi1) as [-> ->]. by rewrite turn_capacity.
Qed.
Lemma keeps_up_end ts : forall s, keeps_up s ts = true -> behind (run s ts) <= bcapacity (ib_tx (run s ts)).
Proof.
  induction ts as [|t ts IH]; intros s; cbn [keeps_up run foldl].
  - intros [Hle _]%andb_prop. by apply Nat.leb_le.
  - intros [_ Hk]%andb_prop. by apply IH.
Qed.
Lemma datas_cmds l : datas (CmdToClientData <$> l) = l.
Proof. induction l as [|x l IH]; [done|]. cbn. by f_equal. Qed.

(** C39: what the network manager is told. Over any turns of the client's tasks from the
    start, the server's messages that reach the manager are among those that arrived, in their
    order; as long as [process_cmd] never falls behind by more than the broadcast retains (10
    messages or more) none is lost: turns of [process_cmd] and of the manager bring it every one. But a burst that
    arrives while the manager is busy (it is starting the device, or waiting for an answer)
    loses its middle: the manager is told the first 11 messages and as many of the last as the
    broadcast retains, and never learns of the others, announcements of peers that enter or
    leave among them. *)
Theorem manager_told ts :
  let s := run Inbox_new ts in
  datas (ib_taken s) `sublist_of` carried (arrived ts) /\
  (forall n, work s <= n -> keeps_up Inbox_new ts = true ->
     datas (ib_taken (run s (rounds n))) = carried (arrived ts)) /\
  (forall ms n, quiet s -> Forall (fun m => is_Some (to_client_data m)) ms -> work (run s (feed ms)) <= n ->
     ib_taken (run (run s (feed ms)) (rounds n)) =
       ib_taken s ++ cmds (take 11 ms) ++ cmds (drop (Nat.max 11 (length ms - bcapacity (ib_tx s))) ms)).
Proof.
  destruct Inbox_new_Inv as (Hi0 & Hb0 & Hp0 & Hs0 & Hc0 & Hcap0).
  intros s. destruct (run_capacity ts Inbox_new Hi0) as [Hcb Hcc]. rewrite Hc0 in Hcc. fold s in Hcb, Hcc.
  destruct (run_passed ts Inbox_new Hi0) as (Hi & Hsent & Hsub & Hup); [rewrite Hp0; apply sublist_nil_l|]. fold s in Hi, Hsent, Hsub, Hup.
  rewrite Hs0 in Hsent. cbn [app] in Hsent. split_and!.
  - trans (datas (passed s)); [unfold passed; rewrite datas_app; by apply sublist_inserts_r|]. etrans; [exact Hsub|]. rewrite Hsent.
    rewrite <- (take_drop (bpos (ib_recv s)) (arrived ts)) at 2. rewrite carried_app. by apply sublist_inserts_r.
  - intros n Hn Hk. destruct (drained n s Hi Hn) as [-> _]. rewrite datas_app, Hup; [|done|rewrite Hp0, Hs0; by rewrite take_nil].
    pose proof (keeps_up_end ts _ Hk) as Hle. fold s in Hle.
    unfold rest, retained, behind in *. rewrite Nat.max_l by lia. rewrite Hsent in *.
    rewrite datas_cmds.
    by rewrite <- carried_app, take_drop.
  - intros ms n (Hq1 & Hq2 & Hq3) Hms Hn.
    destruct (feed_burst ms s Hi Hq1 Hq2) as (Hi2 & Hp2 & Hc2 & Hs2 & Hr2); [lia|done|].
    destruct (drained n _ Hi2 Hn) as [-> _]. rewrite Hp2, <- app_assoc. unfold passed at 1. rewrite Hq1, Hq3. cbn [option_list app length].
    rewrite app_nil_r. rewrite Hcc. cbn [length]. do 2 f_equal. unfold rest, retained, cmds.
    rewrite Hr2, Hs2, Hc2, length_app, Hq3, Hcc. cbn [length]. do 2 f_equal. rewrite drop_app_ge by lia.
    destruct (decide (length ms <= 11)); [rewrite !drop_ge by lia; done|]. f_equal. lia.
Qed.
End Inbox.

(** ** Witness: a peer that left stays online

    [a] enters; while the manager is busy ten more messages arrive, then [a] leaves, then ten
    more. The manager is told all but that [a] left. *)
Section Witness.
#[local] Existing Instance Toy.prims.
#[local] Existing Instance Prefixes.lib.
#[local] Existing Instance ListChan.lib.
#[local] Existing Instance ListBroadcast.lib.

Definition toy_msg (d : ToClientData unit) : ToClient unit := mkToClient 0%Z (Some d).
Definition toy_leave : ToClientData unit := TcPeerLeave (mkBcPeerLevel "a").
Definition toy_burst : list (ToClient unit) :=
  [toy_msg (toy_enter "a")] ++ replicate 10 (toy_msg (toy_enter "b")) ++ [toy_msg toy_leave] ++ replicate 10 (toy_msg (toy_enter "b")).
Definition toy_after : Inbox (E := unit) := run (run Inbox_new (feed toy_burst)) (rounds 60).
Lemma manager_told_witness :
  toy_leave ∈ carried toy_burst /\ ib_taken toy_after = cmds ([toy_msg (toy_enter "a")] ++ replicate 20 (toy_msg (toy_enter "b"))) /\
  exists l' out, manager_loop Daemon.toy_decode toy_announce toy_peers ((fun c => (c, true)) <$> ib_taken toy_after) = Ok (l', out) /\
    online_of l' (toy_key x61) = Some true.
Proof.
  split; [apply list_elem_of_In; vm_compute; do 11 right; left; reflexivity|].
  destruct (manager_told (H := ListChan.lib) (H0 := ListBroadcast.lib) (H1 := ListChan.laws) (H2 := ListBroadcast.laws)
    (E := unit) []) as (_ & _ & Hburst).
  assert (ib_taken toy_after = cmds ([toy_msg (toy_enter "a")] ++ replicate 20 (toy_msg (toy_enter "b")))) as Ht.
  { unfold toy_after. change Inbox_new with (run (E := unit) Inbox_new []). etrans; [apply (Hburst toy_burst 60)|vm_compute; reflexivity].
    - split_and!; reflexivity.
    - apply Forall_forall. intros m Hm%list_elem_of_In. vm_compute in Hm. repeat (destruct Hm as [<-|Hm]; [by eexists|]). done.
    - vm_compute. lia. }
  split; [exact Ht|]. rewrite Ht.
  destruct (is_ok_inv (manager_loop Daemon.toy_decode toy_announce toy_peers
    ((fun c => (c, true)) <$> cmds ([toy_msg (toy_enter "a")] ++ replicate 20 (toy_msg (toy_enter "b")))))) as [[l' out] Hl]; [vm_compute; reflexivity|].
  exists l', out. split; [exact Hl|]. apply (f_equal (fun r => match r with Ok (l, _) => online_of l (toy_key x61) | _ => None end)) in Hl.
  rewrite <- Hl. vm_compute. reflexivity.
Defined.
End Witness.
End Inbox.
