(* ===== verification/Mesh.v ===== *)
(** * A mesh: from the registration server to the packets

    The whole path composed: the server of headlink lists the peers of a network
    ([Headlink.config_plan]), the client of vlinkd makes a configuration of the list
    ([Vlinkd.request_for_config]), the device starts with it ([Daemon.Device_new],
    [reset_peers]), the devices of two clients set up a tunnel and carry packets both ways
    ([Tunnel]). Between two nodes only the network is left out: every packet that is sent is
    received, in order. *)

From S2P Require Import Prelude Bytes Host Protocol Crypto Clock Noise Session PeerHandshake Monitor Peer Device Tunnel Udp Abi TunIf Headlink Vlinkd Daemon Start.
#[local] Open Scope Z_scope.

Module Mesh.
Import TunIf Vlinkd Daemon.

(** ** The peers of a device that starts *)
Section Peers.
Context `{IpNetworkLaws, CryptoPrims}.
Implicit Types (s : Settings) (c : PeerConfig) (l : PeerList).

(** The secret and the peer an entry of the configuration is made into. *)
Definition secret_of s c : PeerStaticSecret :=
  match cfg_preshared_key c with
  | Some psk => set_psk (with_peer (set_secret s) (cfg_public_key c)) psk
  | None => with_peer (set_secret s) (cfg_public_key c)
  end.
Definition peer_of_cfg (now : Z) s c : Peer :=
  Peer_new now (secret_of s c) (endpoint_for <$> cfg_endpoint c) (cfg_persistent_keepalive c)
    (cfg_is_online c) (cfg_ip_addr c).
Lemma secret_of_public s c : peer_public (secret_of s c) = cfg_public_key c.
Proof. unfold secret_of. by destruct (cfg_preshared_key c). Qed.

(** Every entry of [l] is the peer of one of [cfgs], under a name of its own. *)
Definition made_from (now : Z) s (cfgs : list PeerConfig) l : Prop :=
  forall k e, pl_peers l !! k = Some e -> exists c, c ∈ cfgs /\ cfg_public_key c = k /\
    pe_allowed_ips e = cfg_allowed_ips c /\ (pe_peer e < pl_fresh l)%nat /\
    pl_store l !! pe_peer e = Some (peer_of_cfg now s c).

Lemma made_from_insert now s cfgs l c : made_from now s cfgs l -> made_from now s (cfgs ++ [c]) (insert_peer now s l c).
Proof.
  intros Hl k e. unfold insert_peer, PeerList_insert. fold (secret_of s c). rewrite secret_of_public.
  destruct (pl_peers l !! cfg_public_key c) as [e0|] eqn:He0; cbn.
  - intros Hk. destruct (Hl k e Hk) as (c' & Hin & Hrest). exists c'. split; [set_solver|done].
  - intros [[<- <-]|[Hne Hk]]%lookup_insert_Some.
    + exists c. cbn [pe_peer pe_allowed_ips]. rewrite lookup_insert_eq. split_and!; [set_solver|done|done|lia|done].
    + destruct (Hl k e Hk) as (c' & Hin & ? & ? & Hlt & Hst). exists c'.
      rewrite lookup_insert_ne by lia. split_and!; [set_solver|done|done|lia|done].
Qed.
Lemma insert_peer_sessions now s l c : pl_sessions (insert_peer now s l c) = pl_sessions l.
Proof. unfold insert_peer, PeerList_insert. by destruct (pl_peers l !! _). Qed.

Lemma reset_peers_made now s l cfgs :
  made_from now s cfgs (reset_peers now s l cfgs) /\
  pl_sessions (reset_peers now s l cfgs) = SessionIndex_clear (pl_sessions l).
Proof.
  unfold reset_peers. change (SessionIndex_clear (pl_sessions l)) with (pl_sessions (PeerList_clear l)).
  assert (made_from now s [] (PeerList_clear l)) as Hc by (by intros k e).
  revert Hc. generalize (PeerList_clear l). change cfgs with ([] ++ cfgs) at 1. generalize (@nil PeerConfig).
  induction cfgs as [|c cfgs IH]; intros done_ l' Hc; cbn [foldl]; [by rewrite app_nil_r|].
  destruct (IH (done_ ++ [c]) (insert_peer now s l' c) (made_from_insert _ _ _ _ _ Hc)) as [Hm Hs].
  rewrite <- app_assoc in Hm. split; [exact Hm|]. by rewrite Hs, insert_peer_sessions.
Qed.

(** The state the tasks of a peer of a new device start from. *)
Definition at_start l v : option St := mkSt [] (pl_sessions l) <$> pl_store l !! v.

(** A peer of the configuration is ready for its handshake. *)
Lemma reset_peers_linked now s rnd cfgs c :
  in_u 32 rnd -> c ∈ cfgs -> (forall c', c' ∈ cfgs -> cfg_public_key c' = cfg_public_key c -> c' = c) ->
  let l := reset_peers now s (PeerList_new rnd) cfgs in
  exists v st, get_by_key l (cfg_public_key c) = Some v /\ at_start l v = Some st /\
    st_peer st = peer_of_cfg now s c /\ linked l v st (secret_of s c).
Proof.
  intros Hr Hc Huniq l. destruct (reset_peers_made now s (PeerList_new rnd) cfgs) as [Hm Hs]. fold l in Hm, Hs.
  destruct (reset_peers_keys now s (PeerList_new rnd) cfgs) as [_ Hk]. fold l in Hk.
  destruct (proj2 (Hk (cfg_public_key c))) as [e He]; [by exists c|].
  destruct (Hm _ _ He) as (c' & Hin & Hkey & _ & _ & Hst). apply Huniq in Hkey as ->; [|done].
  exists (pe_peer e), (mkSt [] (pl_sessions l) (peer_of_cfg now s c)).
  assert (get_by_key l (cfg_public_key c) = Some (pe_peer e)) as Hget by (unfold get_by_key; by rewrite He).
  split; [done|]. split; [unfold at_start; by rewrite Hst|]. split; [done|].
  constructor; cbn [st_peer st_index]; rewrite ?secret_of_public, ?Hs; try done.
  - by cbn; rewrite secret_of_public.
  - by eexists.
  - by apply rep_fresh.
Qed.

(** A packet for an address that only one peer of the configuration may have, and not the
    device itself, goes to it. *)
Lemma reset_peers_route macos tun now s rnd cfgs c buf a n :
  (macos = true -> a <> IpV4 tun) ->
  c ∈ cfgs -> n ∈ cfg_allowed_ips c -> contains n a = true ->
  (forall c' n', c' ∈ cfgs -> n' ∈ cfg_allowed_ips c' -> contains n' a = true -> c' = c) ->
  (forall c', c' ∈ cfgs -> cfg_public_key c' = cfg_public_key c -> c' = c) ->
  packet_dst (E := unit) buf = Ok (Some a) ->
  let l := reset_peers now s (PeerList_new rnd) cfgs in
  exists v, get_by_key l (cfg_public_key c) = Some v /\
    dev_tick_outbound (E := unit) macos tun l buf = Ok (RoutedTo v).
Proof.
  intros Hself Hc Hn Ha Hown Huniq Hbuf l. unfold dev_tick_outbound. rewrite Hbuf. cbn [mbind res_bind].
  assert (macos && bool_decide (a = IpV4 tun) = false) as ->.
  { destruct macos; [|done]. by apply bool_decide_eq_false_2, Hself. }
  destruct (reset_peers_made now s (PeerList_new rnd) cfgs) as [Hm _]. fold l in Hm.
  destruct (reset_peers_keys now s (PeerList_new rnd) cfgs) as [_ Hk]. fold l in Hk.
  destruct (proj2 (Hk (cfg_public_key c))) as [e He]; [by exists c|].
  destruct (Hm _ _ He) as (c0 & Hin0 & Hkey0 & Hips & _). apply Huniq in Hkey0 as ->; [|done].
  assert (ips_ok l) as [Hsnd Hcmp] by (apply (configured_ips s), conf_reset; constructor).
  exists (pe_peer e). unfold get_by_ip, CidrTable_get_by_ip, get_by_key. rewrite He. split; [done|].
  pose proof (longest_match_spec _ (pl_ips l) a) as Hl. destruct (longest_match (pl_ips l) a) as [[m v]|]; cbn.
  - destruct Hl as (Hv & Hca & _). destruct (Hsnd m v Hv) as (k & e' & Hk' & <- & Hm').
    destruct (Hm k e' Hk') as (c' & Hin & <- & Hips' & _). rewrite Hips' in Hm'.
    rewrite (Hown c' m Hin Hm' Hca), He in Hk'. congruence.
  - destruct (Hcmp _ e n He) as [v Hv]; [by rewrite Hips|]. by rewrite (Hl n v Hv) in Ha.
Qed.
End Peers.

(** ** Two nodes of a network *)
Section Nodes.
Context `{TunHost} {T : Type} {I : Tun T}.
Context `{IpNetworkLaws, CryptoLaws, Headlink.Ipv4NetworkLib}.
Context (native_new : option bytes -> io host IfError T).
Context (add_route : bytes -> IpAddr -> IpAddr -> io host IfError unit).
Context (full_netmask : IpNetwork -> option bytes) (network_address : IpNetwork -> IpAddr).
Context (decode_base64 : string -> option bytes).
Context (ip_from_str : string -> option IpAddr).
Context (ip_network_new : IpAddr -> Z -> option IpNetwork).

#[local] Abbreviation DeviceState := (DeviceState (T := T)).
#[local] Abbreviation peer_config := (bc_peer_enter2peer_config (E := Headlink.ExecuteError) decode_base64 ip_from_str).

(** A client: its private key, who it is to the server, its arguments, the clock and the
    random session index when its device is made. *)
Record Node := mkNode {
  nd_key : bytes;
  nd_id : Headlink.ClientId;
  nd_args : ArgConfig;
  nd_now : Z;
  nd_rnd : Z;
}.

(** [nd] runs the device [d] with the configuration that the server [s], where its network is
    [n], made for it. *)
Record joined (nd : Node) (s : Headlink.Server) (n : Headlink.VlinkNetwork) (d : DeviceState) : Prop := mkJoined {
  jn_net : Headlink.networks s !! Headlink.ci_network_id (nd_id nd) = Some n;
  jn_cfg : exists s' plan r cfg w w', Headlink.config_plan s (nd_id nd) = (s', Ok plan) /\
    rc_peers r = Headlink.plan_peers plan /\
    request_for_config (E := Headlink.ExecuteError) decode_base64 ip_from_str ip_network_new (TcRespConfig r) (nd_key nd) (nd_args nd) = Ok cfg /\
    Device_new native_new add_route full_netmask network_address (nd_now nd) (nd_rnd nd) None (device_config cfg) w = (w', Ok d);
  jn_key : decode_base64 (Headlink.ci_pub_key (nd_id nd)) = Some (x25519_base (nd_key nd));
  jn_keys : NoDup (decode_base64 <$> (map_to_list (Headlink.peers n)).*1);
  jn_rnd : in_u 32 (nd_rnd nd);
}.

Lemma Device_new_peers now rnd name cfg w w' d :
  Device_new native_new add_route full_netmask network_address now rnd name cfg w = (w', Ok d) ->
  dv_peers d = reset_peers now (Settings_new (dc_private_key cfg) (dc_fwmark cfg)) (PeerList_new rnd) (map_to_list (dc_peers cfg)).*2.
Proof.
  intros Hd. unfold Device_new in Hd.
  io_step Hd as t0 w1 Hn. io_step Hd as u w2 Hen. io_step Hd as mask w3 Hm.
  io_step Hd as t w4 Hip. io_step Hd as u' w5 Hr. io_step Hd as sp w6 Hsp. io_step Hd as addr w7 Hadd.
  by injection Hd as _ <-.
Qed.

(** Everything the server lists is in the plan, under keys of the network. *)
Lemma plan_lists s cid s' plan n : Headlink.config_plan s cid = (s', Ok plan) ->
  Headlink.networks s !! Headlink.ci_network_id cid = Some n ->
  Headlink.plan_peers plan = omap (fun '(k, p) => Headlink.peer_entry k p) (map_to_list (Headlink.peers n)).
Proof.
  unfold Headlink.config_plan, Headlink.get_network. intros Hplan Hn. rewrite Hn in Hplan.
  injection Hplan as _ Hplan. apply bind_Ok_inv in Hplan as (self & _ & Hplan).
  destruct (Headlink.pm_ip (Headlink.model self)); apply bind_Ok_inv in Hplan as (a & _ & [= <-]); done.
Qed.
Lemma plan_keys (l : list (string * Headlink.VlinkPeer)) :
  (bp_pub_key <$> omap (fun '(k, p) => Headlink.peer_entry k p) l) `sublist_of` l.*1.
Proof.
  induction l as [|[k p] l IH]; cbn; [done|]. unfold Headlink.peer_entry at 1.
  destruct (Headlink.pm_ip _); cbn; by constructor.
Qed.

Lemma add_peers_inv ps : forall d d', add_peers (E := Headlink.ExecuteError) decode_base64 ip_from_str d ps = Ok d' ->
  Forall (fun p => exists c, peer_config p = Ok c) ps /\ dc_private_key d' = dc_private_key d /\ dc_fwmark d' = dc_fwmark d.
Proof.
  induction ps as [|p ps IH]; intros d d'; cbn [add_peers]; [by intros [= <-]|].
  intros Hd. apply bind_Ok_inv in Hd as (c & Hc & Hd). apply IH in Hd as (Hps & -> & ->).
  split; [|done]. constructor; [by exists c|done].
Qed.

(** The device of a node is made from exactly the entries of the plan. *)
Lemma joined_peers nd s n d : joined nd s n d ->
  exists cfgs, dv_peers d = reset_peers (nd_now nd) (Settings_new (nd_key nd) 0) (PeerList_new (nd_rnd nd)) cfgs /\
    (forall c, c ∈ cfgs <-> exists k q e, Headlink.peers n !! k = Some q /\ Headlink.peer_entry k q = Some e /\ peer_config e = Ok c) /\
    (forall k q e, Headlink.peers n !! k = Some q -> Headlink.peer_entry k q = Some e -> exists c, peer_config e = Ok c) /\
    forall c c', c ∈ cfgs -> c' ∈ cfgs -> cfg_public_key c' = cfg_public_key c -> c' = c.
Proof.
  intros [Hnet (s' & plan & r & cfg & w & w' & Hplan & Hr & Hcfg & Hd) _ Hnd _].
  apply Device_new_peers in Hd. pose proof (plan_lists _ _ _ _ _ Hplan Hnet) as Hlist. rewrite <- Hr in Hlist.
  cbn [request_for_config] in Hcfg. bind_inv Hcfg. bind_inv Hcfg. injection Hcfg as <-. cbn [device_config] in Hd.
  match type of Hcfg1 with add_peers _ _ ?d _ = _ => set (d0 := d) in Hcfg1 end.
  destruct (add_peers_inv _ _ _ Hcfg1) as (Hok & Hsk & Hfw).
  destruct (add_peers_ok decode_base64 ip_from_str (rc_peers r) d0 Hok) as (d' & Hd' & Hspec).
  { eapply sublist_NoDup; [exact Hnd|]. apply fmap_sublist. rewrite Hlist. apply plan_keys. }
  rewrite Hcfg1 in Hd'. injection Hd' as <-. rewrite Hsk, Hfw in Hd. cbn in Hd.
  assert (forall k c, dc_peers a0 !! k = Some c <-> exists p, p ∈ rc_peers r /\ peer_config p = Ok c /\ k = cfg_public_key c) as Hpeers.
  { intros k c. rewrite Hspec. unfold d0. cbn [dc_peers]. rewrite lookup_empty. naive_solver. }
  assert (forall e, e ∈ rc_peers r <-> exists k q, Headlink.peers n !! k = Some q /\ Headlink.peer_entry k q = Some e) as Hin.
  { intros e. rewrite Hlist, list_elem_of_omap. split.
    - intros ([k q] & Hkq & He). exists k, q. split; [by apply elem_of_map_to_list|done].
    - intros (k & q & Hkq & He). exists (k, q). split; [by apply elem_of_map_to_list|done]. }
  assert (forall c, c ∈ (map_to_list (dc_peers a0)).*2 <-> dc_peers a0 !! cfg_public_key c = Some c) as Hcs.
  { intros c. rewrite list_elem_of_fmap. split.
    - intros ([k c'] & -> & Hk%elem_of_map_to_list). cbn [snd]. pose proof Hk as Hk'. apply Hpeers in Hk' as (_ & _ & _ & <-). done.
    - intros Hk. exists (cfg_public_key c, c). split; [done|]. by apply elem_of_map_to_list. }
  exists (map_to_list (dc_peers a0)).*2. split; [done|]. split; [|split].
  - intros c. rewrite Hcs, Hpeers. setoid_rewrite Hin. naive_solver.
  - intros k q e Hk He. rewrite Forall_forall in Hok. apply Hok, Hin. by exists k, q.
  - intros c c' Hc Hc' Heq. apply Hcs in Hc, Hc'. rewrite Heq in Hc'. congruence.
Qed.

(** A peer of the network that has an address [ip]: what the device knows of it. *)
Lemma joined_knows nd s n d k q ip key : joined nd s n d -> Headlink.peers n !! k = Some q ->
  Headlink.pm_ip (Headlink.model q) = Some ip -> decode_base64 k = Some key ->
  exists v st a, get_by_key (dv_peers d) key = Some v /\ at_start (dv_peers d) v = Some st /\ ip_from_str ip = Some a /\
    linked (dv_peers d) v st (with_peer (LocalStaticSecret_new (nd_key nd)) key) /\
    online (st_peer st) = Headlink.is_online q /\ monitor (st_peer st) = PeerMonitor_new (nd_now nd) None /\
    (forall e i, Headlink.online_info q = Some i -> Headlink.oi_endpoint_addr i = Some e -> exists b, ip_from_str e = Some b /\
       endpoint (st_peer st) = Some (endpoint_for (socket_addr b (wrap 16 (Headlink.oi_port i))))) /\
    forall macos tun buf, (macos = true -> a <> IpV4 tun) -> packet_dst (E := unit) buf = Ok (Some a) ->
      (forall k' q' ip' b m, Headlink.peers n !! k' = Some q' -> Headlink.pm_ip (Headlink.model q') = Some ip' ->
         ip_from_str ip' = Some b -> new_truncate b 32 = Some m -> contains m a = true -> k' = k) ->
      dev_tick_outbound (E := unit) macos tun (dv_peers d) buf = Ok (RoutedTo v).
Proof.
  intros Hj Hq Hip Hkey. destruct (joined_peers _ _ _ _ Hj) as (cfgs & -> & Hcfgs & Hok & Huniq).
  assert (exists e, Headlink.peer_entry k q = Some e) as [e He] by (unfold Headlink.peer_entry; rewrite Hip; by eexists).
  destruct (Hok k q e Hq He) as [c Hc]. pose proof (peer_config_key decode_base64 ip_from_str e c Hc) as Hck.
  assert (c ∈ cfgs) as Hin by (apply Hcfgs; by exists k, q, e).
  pose proof He as He'. unfold Headlink.peer_entry in He. rewrite Hip in He. cbn in He. injection He as <-.
  cbn [bp_pub_key] in Hck. rewrite Hkey in Hck. injection Hck as ->.
  destruct (reset_peers_linked (nd_now nd) (Settings_new (nd_key nd) 0) (nd_rnd nd) cfgs c (jn_rnd _ _ _ _ Hj) Hin)
    as (v & st & Hv & Hst & Hp & Hl); [by intros; apply Huniq|].
  pose proof Hc as Hc'. unfold bc_peer_enter2peer_config in Hc. cbn [bp_pub_key bp_ip bp_endpoint_addr bp_port bp_is_online] in Hc.
  do 5 bind_inv Hc. injection Hc as Hc. destruct (ip_from_str ip) as [b|] eqn:Hb; [|done]. injection Hc1 as <-.
  unfold Cidr_new in Hc2. pose proof (new_truncate_spec b 32 ltac:(done)) as Htr.
  destruct (new_truncate b 32) as [m|] eqn:Hm; [|done]. injection Hc2 as ->. destruct Htr as (_ & _ & Hma).
  exists v, st, b. split; [done|]. split; [done|]. split; [done|]. rewrite Hp. rewrite <- Hc in Hl |- *.
  split; [exact Hl|]. split; [done|]. split; [done|]. split.
  - intros e i Hi He. cbn. rewrite Hi in Hc4. cbn in Hc4. rewrite He in Hc4. apply bind_Ok_inv in Hc4 as (a' & Ha' & [= <-]).
    destruct (ip_from_str e) as [b'|]; [|done]. injection Ha' as ->. by exists a'.
  - intros macos tun buf Hself Hbuf Hown.
    destruct (reset_peers_route macos tun (nd_now nd) (Settings_new (nd_key nd) 0) (nd_rnd nd) cfgs c buf b a1 Hself Hin)
      as (v' & Hv' & Hroute); [rewrite <- Hc; cbn; set_solver|done| |by intros; apply Huniq|done|].
    2:{ rewrite Hv in Hv'. by injection Hv' as <-. }
    intros c' n' Hc2 Hn' Hcon. apply Hcfgs in Hc2 as (k' & q' & e' & Hq' & He2 & Hce).
    unfold Headlink.peer_entry in He2. destruct (Headlink.pm_ip (Headlink.model q')) as [ip'|] eqn:Hip'; [|done].
    cbn in He2. injection He2 as <-. pose proof Hce as Hce'. unfold bc_peer_enter2peer_config in Hce. cbn [bp_pub_key bp_ip] in Hce.
    do 5 bind_inv Hce. injection Hce as <-. cbn [cfg_allowed_ips] in Hn'. apply elem_of_singleton in Hn' as ->.
    destruct (ip_from_str ip') as [b'|] eqn:Hb'; [|done]. injection Hce1 as <-. unfold Cidr_new in Hce2.
    destruct (new_truncate b' 32) as [m'|] eqn:Hm'; [|done]. injection Hce2 as ->.
    assert (k' = k) as -> by (by eapply (Hown k' q' ip' b')). rewrite Hq in Hq'. injection Hq' as <-.
    rewrite Hip in Hip'. injection Hip' as <-. congruence.
Qed.

End Nodes.

(** ** Witness: the nodes of keys 61 and 62, at 0.0.0.2 and 0.0.0.3 *)
Section Witness.
#[local] Existing Instance Toy.prims.
#[local] Existing Instance Toy.laws.
#[local] Existing Instance Prefixes.lib.
#[local] Existing Instance Prefixes.laws.
#[local] Existing Instance ToyHost.lib.
#[local] Existing Instance toy_tun_host.
#[local] Existing Instance toy_win.
#[local] Existing Instance Headlink.Toy.lib.

Definition toy_a : Headlink.VlinkPeer :=
  Headlink.VlinkPeer_from (Headlink.mkPeerModel 1 "a" (Some "0.0.0.2"%string) None None None 1 false).
Definition toy_b : Headlink.VlinkPeer :=
  Headlink.mkVlinkPeer "b" (Headlink.mkPeerModel 2 "b" (Some "0.0.0.3"%string) None None None 1 false)
    (Some (Headlink.mkOnlineInfo 1 4000 (Some "0.0.0.9"%string) ∅)).
Definition toy_net : Headlink.VlinkNetwork (H := Headlink.Toy.lib) :=
  Headlink.mkVlinkNetwork (H := Headlink.Toy.lib) 1 0 (<["a"%string := toy_a]> {["b"%string := toy_b]}) ∅.
Definition toy_server : Headlink.Server := Headlink.mkServer ∅ {[1 := toy_net]} Headlink.toy_db ∅.
Definition toy_node (b : byte) (k : string) : Node :=
  mkNode (key_of b) (Headlink.mkClientId k 1) (mkArgConfig None None) (secs 900) 7.
Definition toy_resp (a : Z) : RespConfig :=
  mkRespConfig 1 a 29 0 0 None
    (omap (fun '(k, p) => Headlink.peer_entry k p) (map_to_list (Headlink.peers toy_net))) [] [].
(** The configuration and the device of a node. *)
Definition toy_cfg (nd : Node) (a : Z) : res (Vlinkd.Error Headlink.ExecuteError) VlinkNetworkConfig :=
  request_for_config Vlinkd.toy_decode Vlinkd.toy_parse Prefixes.truncate (TcRespConfig (toy_resp a)) (nd_key nd) (nd_args nd).
Definition toy_device (nd : Node) (cfg : VlinkNetworkConfig) : host * res IfError (DeviceState (T := WinTun)) :=
  Device_new (I := toy_win) toy_new toy_route (fun _ => Some [xff; xff; xff; x00]) (fun _ => IpV4 [x00; x00; x00; x00])
    (nd_now nd) (nd_rnd nd) None (device_config cfg) toy_host.

#[local] Abbreviation joined_toy := (joined (I := toy_win) toy_new toy_route (fun _ => Some [xff; xff; xff; x00])
  (fun _ => IpV4 [x00; x00; x00; x00]) Vlinkd.toy_decode Vlinkd.toy_parse Prefixes.truncate).
Lemma toy_joined b k a : (b = x61 /\ k = "a"%string /\ a = 2) \/ (b = x62 /\ k = "b"%string /\ a = 3) ->
  exists d, joined_toy (toy_node b k) toy_server toy_net d.
Proof.
  intros Hk. assert (exists cfg, toy_cfg (toy_node b k) a = Ok cfg) as [cfg Hcfg].
  { apply is_ok_inv. destruct Hk as [(-> & -> & ->)|(-> & -> & ->)]; vm_compute; reflexivity. }
  assert (exists d, (toy_device (toy_node b k) cfg).2 = Ok d) as [d Hd].
  { apply is_ok_inv.
    assert (match toy_cfg (toy_node b k) a with Ok cfg => is_ok (toy_device (toy_node b k) cfg).2 | _ => false end = true) as Hok
      by (destruct Hk as [(-> & -> & ->)|(-> & -> & ->)]; vm_compute; reflexivity).
    by rewrite Hcfg in Hok. }
  exists d. constructor.
  - reflexivity.
  - destruct (toy_device (toy_node b k) cfg) as [w' r] eqn:Hdev. cbn [snd] in Hd. subst r.
    exists toy_server. destruct Hk as [(-> & -> & ->)|(-> & -> & ->)].
    + eexists _, (toy_resp 2), cfg, toy_host, w'. split; [reflexivity|]. split; [reflexivity|]. split; [exact Hcfg|exact Hdev].
    + eexists _, (toy_resp 3), cfg, toy_host, w'. split; [reflexivity|]. split; [reflexivity|]. split; [exact Hcfg|exact Hdev].
  - destruct Hk as [(-> & -> & ->)|(-> & -> & ->)]; reflexivity.
  - vm_compute. apply NoDup_cons. split; [|apply NoDup_singleton]. intros Hin%list_elem_of_singleton. discriminate.
  - split; vm_compute; congruence.
Qed.

(** Of the two addresses each is one node's only. *)
Lemma toy_owner k0 a : (k0 = "b"%string /\ a = IpV4 [x00; x00; x00; x03]) \/ (k0 = "a"%string /\ a = IpV4 [x00; x00; x00; x02]) ->
  forall k q ip b m, Headlink.peers toy_net !! k = Some q -> Headlink.pm_ip (Headlink.model q) = Some ip ->
    Vlinkd.toy_parse ip = Some b -> new_truncate b 32 = Some m -> contains m a = true -> k = k0.
Proof.
  intros Hk k q ip b m Hq Hip Hb Hm Hc. cbn [Headlink.peers toy_net] in Hq.
  apply lookup_insert_Some in Hq as [[<- <-]|[_ [<- <-]%lookup_singleton_Some]];
    vm_compute in Hip; injection Hip as <-; vm_compute in Hb; injection Hb as <-; vm_compute in Hm; injection Hm as <-;
    destruct Hk as [[-> ->]|[-> ->]]; try reflexivity; vm_compute in Hc; discriminate.
Qed.

(** Two packets, one each way. *)
Definition toy_ip (src dst : byte) : bytes :=
  [x45; x00; x00; x14] ++ replicate 8 x00 ++ [x00; x00; x00; src; x00; x00; x00; dst].
Definition toy_talk : list (bool * (Hop * bytes)) :=
  [(true, (mkHop 0 (toy_ep x01) toy_env, toy_ip x02 x03)); (false, (mkHop 0 (toy_ep x02) toy_env, toy_ip x03 x02))].
End Witness.
End Mesh.
