(* ===== verification/Main.v ===== *)
(** * The programs (vlinkd/src/main.rs, vlinkd/src/api/mod.rs, vlinkd/src/utils/iface.rs,
    headlink/src/main.rs, headlink/src/db/init.rs)

    The two binaries, from their command lines: which parts they start, in which order, and
    what ends them. The parts are those of the other files: the stored key ([Secret]), the
    network manager ([Start]), the registration server and its connections ([Headlink],
    [Serve]). The parsing of the command line is clap's: the arguments are its results. *)

From S2P Require Import Prelude Bytes Channels Host Clock Protocol Crypto Noise Session Peer Device Udp Abi TunIf Secret Headlink Vlinkd Daemon Start Serve.
From stdpp Require Import pretty.
#[local] Open Scope Z_scope.

Module Main.
Import TunIf Secret Vlinkd Daemon Start.

(** ** vlinkd/src/api/mod.rs and main.rs *)

(** [Args]. *)
Record Args := mkArgs {
  ar_tun_name : option string;
  ar_server : string;
  ar_config_dir : option string;
  ar_hostname : option string;
  ar_token : option string;
  ar_endpoint_addr : option string;
  ar_port : option Z;
  ar_listen_addr : option string;
}.

Definition WEB_PORT : Z := 5514.
(** [start_http_server]: the address, bound at once; the server runs in a task of its own. *)
Definition web_addr (listen_addr : option string) : string := default ("0.0.0.0:" +:+ pretty WEB_PORT)%string listen_addr.
Definition start_http_server {W E} (bind : string -> W -> W * (E + unit)) (listen_addr : option string) : io W E unit :=
  sys (bind (web_addr listen_addr)).

(** What is started besides [main] itself. *)
Inductive Started :=
| ClientTask (server : string) (secret : VlinkStaticSecret)
| WebServer (addr : string).

Section Vlinkd.
Context `{SecretLibs, FsHost, TunHost} {T : Type} {I : Tun T}.
Context `{IpNetworkLib, CryptoPrims} {E : Type}.
Context (native_new : option bytes -> io host IfError T).
Context (add_route : bytes -> IpAddr -> IpAddr -> io host IfError unit).
Context (full_netmask : IpNetwork -> option bytes) (network_address : IpNetwork -> IpAddr).
Context (decode_base64 : string -> option bytes).
Context (ip_from_str : string -> option IpAddr).
Context (ip_network_new : IpAddr -> Z -> option IpNetwork).

Inductive MainError :=
| StorageFailed (e : SecretError)
| WebFailed (e : IoError)
| NetworkFailed (e : StartError (E := E)).

Record Machine := mkMachine { mc_fs : fs; mc_host : host }.

(** [main]. [project_dir] and [random] are for the stored key, [bind] binds the web server's
    socket; the rest is what [Start.start] meets. [VlinkClient::spawn] only spawns its task and
    does not fail. *)
Definition main (project_dir : option string) (random : bytes) (bind : string -> host -> host * (IoError + unit))
    (args : Args) (now rnd : Z) (extra_status : gmap string (option string)) (sink_ok : bool)
    (conn : option ClientConnect) (incoming : list (option (ToClient E))) (cmds : list (NetworkCtrlCmd E * bool)) (w : Machine)
    : Machine * list Started * Manager (T := T) * res MainError (PeerList * list ToServerData) :=
  match load_config project_dir (ar_config_dir args) random (mc_fs w) with
  | (f, Err e) => (mkMachine f (mc_host w), [], Manager_new, Err (StorageFailed e))
  | (f, Panic) => (mkMachine f (mc_host w), [], Manager_new, Panic)
  | (f, Ok secret) =>
      let client := ClientTask (ar_server args) secret in
      match start_http_server bind (ar_listen_addr args) (mc_host w) with
      | (h, Err e) => (mkMachine f h, [client], Manager_new, Err (WebFailed e))
      | (h, Panic) => (mkMachine f h, [client], Manager_new, Panic)
      | (h, Ok _) =>
          let '(h, m, r) := start native_new add_route full_netmask network_address decode_base64 ip_from_str ip_network_new
            now rnd (private_key secret) (mkArgConfig (ar_endpoint_addr args) (ar_port args)) extra_status sink_ok conn incoming cmds
            Manager_new h in
          (mkMachine f h, [client; WebServer (web_addr (ar_listen_addr args))], m, map_err NetworkFailed r)
      end
  end.

Definition started (r : Machine * list Started * Manager (T := T) * res MainError (PeerList * list ToServerData)) : list Started := r.1.1.2.

(** The key comes first: when it cannot be had, nothing starts and the host is left alone. *)
Lemma main_no_key pd rn bind args now rnd es so conn inc cmds w f e :
  load_config pd (ar_config_dir args) rn (mc_fs w) = (f, Err e) ->
  main pd rn bind args now rnd es so conn inc cmds w = (mkMachine f (mc_host w), [], Manager_new, Err (StorageFailed e)).
Proof. unfold main. by intros ->. Qed.

(** The web server's socket comes before the network: when its address is taken the daemon ends
    without having looked at the network, with the client's task already started. *)
Lemma main_web_taken pd rn bind args now rnd es so conn inc cmds w f s h e :
  load_config pd (ar_config_dir args) rn (mc_fs w) = (f, Ok s) -> bind (web_addr (ar_listen_addr args)) (mc_host w) = (h, inl e) ->
  main pd rn bind args now rnd es so conn inc cmds w = (mkMachine f h, [ClientTask (ar_server args) s], Manager_new, Err (WebFailed e)).
Proof. unfold main, start_http_server, sys. intros -> ->. done. Qed.

(** The interface name, host name and token of the command line change nothing. *)
Lemma main_ignores pd rn bind now rnd es so conn inc cmds w args tn hn tk :
  main pd rn bind (mkArgs tn (ar_server args) (ar_config_dir args) hn tk (ar_endpoint_addr args) (ar_port args) (ar_listen_addr args))
    now rnd es so conn inc cmds w = main pd rn bind args now rnd es so conn inc cmds w.
Proof. done. Qed.

(** Two starts, one after the other, tell the server the same key, whatever happened to the
    network in the first, provided a key file it made was written before the second. *)
Lemma same_key_again `{!SecretLaws, !FsLaws} pd cp f2 rn rn' bind bind' args now now' rnd rnd' es es' so so' conn conn' inc inc' cmds cmds' w h f s :
  length rn = 32%nat -> fs_idle (mc_fs w) -> config_dir pd (ar_config_dir args) = Ok cp ->
  load_config pd (ar_config_dir args) rn (mc_fs w) = (f, Ok s) ->
  let r1 := main pd rn bind args now rnd es so conn inc cmds w in
  let r2 := main pd rn' bind' args now' rnd' es' so' conn' inc' cmds' (mkMachine f2 h) in
  next_start (path_join cp "config.json") (mc_fs w) (mc_fs r1.1.1.1) f2 ->
  ClientTask (ar_server args) s ∈ started r1 /\ ClientTask (ar_server args) s ∈ started r2.
Proof.
  intros Hlen Hidle Hcp Hl. assert (Hany : forall rn bind now rnd es so conn inc cmds w f, load_config pd (ar_config_dir args) rn (mc_fs w) = (f, Ok s) ->
    ClientTask (ar_server args) s ∈ started (main pd rn bind args now rnd es so conn inc cmds w) /\
    mc_fs (main pd rn bind args now rnd es so conn inc cmds w).1.1.1 = f).
  { intros * Hl'. unfold main, started. rewrite Hl'. destruct (start_http_server _ _ _) as [h' [|e|]]; cbn.
    - destruct (start _ _ _ _ _ _ _ _ _ _ _ _ _ _ _ _ _ _) as [[? ?] ?]. split; [apply elem_of_cons; by left|done].
    - split; [apply elem_of_cons; by left|done].
    - split; [apply elem_of_cons; by left|done]. }
  destruct (Hany rn bind now rnd es so conn inc cmds w f Hl) as [Hin Hf].
  intros r1 r2 Hnext. split; [exact Hin|]. unfold r1 in Hnext. rewrite Hf in Hnext.
  eapply Hany. cbn [mc_fs]. by eapply load_config_again.
Qed.
End Vlinkd.

(** ** vlinkd/src/utils/iface.rs

    An interface of the system as pnet lists it; of its addresses, the text of the address and
    that of the network. *)
Inductive IfaceIp := IfaceV4 (ip net : string) | IfaceV6 (ip net : string).
Record NetworkInterface := mkNetworkInterface { ni_name : string; ni_up : bool; ni_mac : option bytes; ni_ips : list IfaceIp }.

Definition contains (pat s : string) : bool := match String.index 0 pat s with Some _ => true | None => false end.

Definition filter_only_local_ip (ips : list IfaceIp) : bool :=
  existsb (fun ip => match ip with
    | IfaceV4 _ net => negb (String.prefix "127" net)
    | IfaceV6 _ net => negb (String.prefix "fe80" net)
    end) ips.
Definition find_iface (interfaces : list NetworkInterface) : option NetworkInterface :=
  List.find (fun iface => (0 <? length (ni_ips iface))%nat && filter_only_local_ip (ni_ips iface))
    (List.filter (fun i => negb (String.prefix "lo" (ni_name i)) && negb (contains "tun" (ni_name i)) && negb (String.prefix "anpi" (ni_name i)))
      (List.filter (fun i => bool_decide (is_Some (ni_mac i))) (List.filter ni_up interfaces))).
(** The loop of [find_my_ip]. *)
Fixpoint first_ip (ips : list IfaceIp) : option string :=
  match ips with
  | [] => None
  | IfaceV4 ip _ :: _ => Some ip
  | IfaceV6 ip _ :: ips => if String.prefix "fe80" ip then first_ip ips else Some ip
  end.
Definition find_my_ip (interfaces : list NetworkInterface) : option string :=
  match find_iface interfaces with Some e => first_ip (ni_ips e) | None => None end.

(** The interface that is found is up, has a hardware address, a usable name, and an address
    that is not local; every interface before it fails one of these. *)
Definition usable (i : NetworkInterface) : bool :=
  ni_up i && bool_decide (is_Some (ni_mac i)) &&
  (negb (String.prefix "lo" (ni_name i)) && negb (contains "tun" (ni_name i)) && negb (String.prefix "anpi" (ni_name i))) &&
  filter_only_local_ip (ni_ips i).
Lemma find_iface_first l : find_iface l = List.find usable l.
Proof.
  unfold find_iface, usable. induction l as [|i l IH]; [done|]. cbn [List.filter List.find].
  destruct (ni_up i); cbn [List.filter]; [|done]. destruct (bool_decide _); cbn [List.filter andb]; [|done].
  destruct (_ && _ && _); cbn [List.find andb]; [|done]. destruct (ni_ips i) as [|x ips]; cbn [length Nat.ltb Nat.leb andb]; [exact IH|].
  change ((0 <? S (length ips))%nat) with true. cbn [andb].
  destruct (filter_only_local_ip _); [done|]. exact IH.
Qed.
(** It has an address to report, though not always one that passed the filter: the first IPv4
    address is taken, also when it is the loopback's. *)
Lemma find_my_ip_some l : is_Some (find_my_ip l) <-> exists i, find_iface l = Some i /\ is_Some (first_ip (ni_ips i)).
Proof. unfold find_my_ip. destruct (find_iface l) as [i|]; [naive_solver|]. split; [by intros []|naive_solver]. Qed.
Example find_my_ip_loopback :
  find_my_ip [mkNetworkInterface "lo" true (Some []) [IfaceV4 "10.0.0.9" "10.0.0.9/8"];
              mkNetworkInterface "en0" true (Some []) [IfaceV4 "127.0.0.1" "127.0.0.1/8"; IfaceV4 "10.0.0.1" "10.0.0.1/24"]] = Some "127.0.0.1"%string.
Proof. by vm_compute. Qed.

(** ** headlink/src/main.rs and db/init.rs *)

Record ServerArgs := mkServerArgs { sa_listen : option string; sa_db_schema : option string }.

(** [open_db]: how the pool is set up. *)
Record ConnectOptions := mkConnectOptions {
  co_schema : string;
  co_max : Z;
  co_min : Z;
  co_connect_timeout : Z;
  co_idle_timeout : Z;
}.
Definition open_db_options (schema : string) : ConnectOptions := mkConnectOptions schema 100 5 (secs 8) (secs 8).

Section Headlink.
Context `{SecretLibs, Headlink.Ipv4NetworkLib} {W Db IoErr Conn Addr : Type}.
Context (bind : string -> W -> W * (IoErr + unit)).
(** [Database::connect], and the configuration table of a database that answers. *)
Context (connect : ConnectOptions -> W -> W * (IoErr + Db)).
Context (config_table : Db -> gmap string string) (find_ok insert_ok : Db -> bool) (tables : Db -> Headlink.Db).

Definition open_db (schema : string) : io W IoErr Db :=
  io_unwrap (sys (connect (open_db_options schema))).

(** server.rs, [ServerInfo] and [VlinkServer::new]: no connection and no network yet, the key
    from the configuration table, which is the first component. *)
Record ServerInfo := mkServerInfo { version : string; secret : VlinkStaticSecret }.
Definition VlinkServer_new (random : bytes) (conn : Db) : gmap string string * res SecretError (ServerInfo * Headlink.Server) :=
  let '(table, r) := server_secret (find_ok conn) (insert_ok conn) random (config_table conn) in
  (table, secret ← r; Ok (mkServerInfo "1.0.0" secret, Headlink.Server_new (tables conn))).
(** client.rs, [await_handshake]: what every client is told first. *)
Definition server_info (info : ServerInfo) : RespServerInfo := mkRespServerInfo (version info) (base64_pub (secret info)) None.

Inductive ServerError :=
| BindFailed (e : IoErr)
| SecretFailed (e : SecretError)
| DbFailed (e : IoErr).

(** The accept loop: a task for every connection, until accepting one fails. *)
Fixpoint accept_loop (accepts : list (IoErr + (Conn * Addr))) : list (Conn * Addr) * option IoErr :=
  match accepts with
  | [] => ([], None)
  | inl e :: _ => ([], Some e)
  | inr ca :: accepts => let '(l, r) := accept_loop accepts in (ca :: l, r)
  end.

(** [main]: what it has when it gets to the loop (the configuration table and the server), and
    the connections it serves. *)
Definition headlink_main (args : ServerArgs) (random : bytes) (accepts : list (IoErr + (Conn * Addr)))
    : io W ServerError (gmap string string * (ServerInfo * Headlink.Server) * (list (Conn * Addr) * option IoErr)) :=
  let addr := default "0.0.0.0:9797"%string (sa_listen args) in
  _ ← io_map_err BindFailed (sys (bind addr));
  schema ← pure_res (unwrap_opt (sa_db_schema args));
  db ← io_map_err DbFailed (open_db schema);
  let '(table, r) := VlinkServer_new random db in
  server ← pure_res (map_err SecretFailed r);
  mret (table, server, accept_loop accepts).

(** Connections are served in the order they come; the first that cannot be accepted ends the
    server, whatever comes after it and however many are being served. *)
Lemma accept_loop_all cas rest : accept_loop (map inr cas ++ rest) = (cas ++ (accept_loop rest).1, (accept_loop rest).2).
Proof. induction cas as [|ca cas IH]; [cbn; by destruct (accept_loop rest)|]. cbn. by rewrite IH. Qed.
Lemma accept_loop_ends cas e rest : accept_loop (map inr cas ++ inl e :: rest) = (cas, Some e).
Proof. by rewrite accept_loop_all, app_nil_r. Qed.
(** Without a database the server panics, but only after it has bound its address. *)
Lemma headlink_no_schema l random accepts w w1 :
  bind (default "0.0.0.0:9797"%string l) w = (w1, inr tt) ->
  headlink_main (mkServerArgs l None) random accepts w = (w1, Panic).
Proof. unfold headlink_main, mbind, io_bind, io_map_err, sys. cbn [sa_listen sa_db_schema]. by intros ->. Qed.
Lemma headlink_no_db l schema random accepts w w1 w2 e :
  bind (default "0.0.0.0:9797"%string l) w = (w1, inr tt) -> connect (open_db_options schema) w1 = (w2, inl e) ->
  headlink_main (mkServerArgs l (Some schema)) random accepts w = (w2, Panic).
Proof.
  unfold headlink_main, mbind, io_bind, io_map_err, open_db, io_unwrap, sys. cbn [sa_listen sa_db_schema].
  intros -> Hc. cbn [pure_res unwrap_opt]. unfold pure_res. cbn. by rewrite Hc.
Qed.

(** A server that was started has a key; every later start on the database it leaves tells its
    clients the same one, so that what they sign for it stays valid. *)
Lemma server_key_stays `{!SecretLaws} random random' conn conn' table info s : length random = 32%nat ->
  find_ok conn = true -> insert_ok conn = true -> find_ok conn' = true -> config_table conn' = table ->
  VlinkServer_new random conn = (table, Ok (info, s)) ->
  exists s', VlinkServer_new random' conn' = (table, Ok (info, s')) /\ Headlink.clients s' = ∅ /\ Headlink.networks s' = ∅.
Proof.
  intros Hlen Hf Hi Hf' Ht. unfold VlinkServer_new. rewrite Hf, Hi, Hf', Ht.
  destruct (server_secret true true random _) as [t [k|e|]] eqn:Hs; [|done..]. cbn [mbind res_bind]. intros [= <- <- <-].
  rewrite (server_secret_again random random' _ _ k _ Hlen Hs). cbn. by eexists.
Qed.
End Headlink.
End Main.
